(** * DnsResolver: per-network answer cache, send engine and private-DNS tracker

    A shallow embedding of the parts of [res_cache.cpp], [res_send.cpp] and
    [PrivateDnsConfiguration.cpp] that the specification talks about, and the
    properties of the specification stated and settled against it; then
    further properties of the same code (X1 to X30): the query fingerprint,
    TTLs, the registry and its statistics, the hash table and its eviction,
    the timing and the retry loop of the send engine, and the private-DNS
    tracker.

    Conventions of the embedding.
    - A byte is a [Z] in [0, 256); a buffer is a [list Z].
    - [int] and [unsigned] arithmetic is written on [Z] with the wrap-around
      spelled out where the source can reach it.
    - An [int] used as a truth value (the "returns 1 on success, 0 on failure"
      helpers) is a [bool].
    - [calloc] is taken to succeed.
    - [LOG(...)] statements have no effect on the state and are dropped. *)

From stdpp Require Import base option list gmap strings.
From Stdlib Require Import ZArith Lia.

Local Open Scope Z_scope.

(** ** Raw DNS packets (res_cache.cpp, lines 248-673) *)

Module Packet.

(** [DnsPacket] keeps three pointers [base], [end] and [cursor] into one
    buffer.  The buffer is the list [base]; the cursor is represented by the
    bytes it still has in front of it, i.e. the slice [cursor, end).  Thus
    [p + n > end] reads [n > length cursor], [p >= end] reads [cursor = []]
    and [*p++] takes the head of the list. *)
Record DnsPacket := mkPacket { base : list Z; cursor : list Z }.

Definition DNS_HEADER_SIZE : nat := 12.

(** The first two bytes of the string literals that the source compares
    with: an octal escape takes at most three digits.  In
    [DNS_TYPE_ALL "\00\0377"] the second escape is [\037], followed by the
    character [7]: the two bytes compared are 0 and 31, not 0 and 255 as the
    comment of the source has it. *)
Definition DNS_TYPE_A : list Z := [0; 1].
Definition DNS_TYPE_PTR : list Z := [0; 12].
Definition DNS_TYPE_MX : list Z := [0; 15].
Definition DNS_TYPE_AAAA : list Z := [0; 28].
Definition DNS_TYPE_ALL : list Z := [0; 31].
Definition DNS_CLASS_IN : list Z := [0; 1].

Definition _dnsPacket_init (buff : list Z) : DnsPacket :=
  {| base := buff; cursor := buff |}.

Definition _dnsPacket_rewind (packet : DnsPacket) : DnsPacket :=
  {| base := base packet; cursor := base packet |}.

(** [p = cursor + count; if (p > end) p = end]: [drop] already stops at the
    end of the list. *)
Definition _dnsPacket_skip (packet : DnsPacket) (count : nat) : DnsPacket :=
  {| base := base packet; cursor := drop count (cursor packet) |}.

Definition _dnsPacket_readInt16 (packet : DnsPacket) : Z * DnsPacket :=
  match cursor packet with
  | p0 :: p1 :: rest =>
      (Z.lor (Z.shiftl p0 8) p1, {| base := base packet; cursor := rest |})
  | _ => (-1, packet)
  end.

(** Byte [i] of the buffer, [packet->base[i]]. *)
Definition byte_at (buf : list Z) (i : nat) : Z := nth i buf 0.

(** *** Query checking *)

Definition bytes_eqb (a b : list Z) : bool := bool_decide (a = b).

Definition _dnsPacket_checkBytes (packet : DnsPacket) (numBytes : nat)
    (bytes : list Z) : bool * DnsPacket :=
  if (length (cursor packet) <? numBytes)%nat then (false, packet)
  else if negb (bytes_eqb (take numBytes (cursor packet)) bytes) then (false, packet)
  else (true, {| base := base packet; cursor := drop numBytes (cursor packet) |}).

(** The [for (;;)] loop of [_dnsPacket_checkQName]; every round consumes at
    least the length byte, so [S (length p)] rounds always suffice (lemma
    [checkQName_loop_fuel] below). [None] is the "malformed data" exit. *)
Fixpoint checkQName_loop (fuel : nat) (p : list Z) : option (list Z) :=
  match fuel with
  | O => None
  | S fuel' =>
      match p with
      | [] => None
      | c :: p' =>
          if c =? 0 then Some p'
          else if 64 <=? c then None
          else checkQName_loop fuel' (drop (Z.to_nat c) p')
      end
  end.

Definition _dnsPacket_checkQName (packet : DnsPacket) : bool * DnsPacket :=
  match checkQName_loop (S (length (cursor packet))) (cursor packet) with
  | Some p => (true, {| base := base packet; cursor := p |})
  | None => (false, packet)
  end.

Definition _dnsPacket_checkQR (packet : DnsPacket) : bool * DnsPacket :=
  let '(ok, packet) := _dnsPacket_checkQName packet in
  if negb ok then (false, packet)
  else
    (* TYPE must be one of the things we support: the first check that
       succeeds advances the cursor, the others are not evaluated *)
    let try_type (ty : list Z) (k : bool * DnsPacket) : bool * DnsPacket :=
      let '(ok, packet') := _dnsPacket_checkBytes packet 2 ty in
      if ok then (true, packet') else k in
    let '(ok, packet) :=
      try_type DNS_TYPE_A
        (try_type DNS_TYPE_PTR
           (try_type DNS_TYPE_MX
              (try_type DNS_TYPE_AAAA
                 (try_type DNS_TYPE_ALL (false, packet))))) in
    if negb ok then (false, packet)
    else
      (* CLASS must be IN *)
      _dnsPacket_checkBytes packet 2 DNS_CLASS_IN.

(** [for (; qdCount > 0; qdCount--) if (!_dnsPacket_checkQR(packet)) return 0;] *)
Fixpoint checkQuery_loop (qdCount : nat) (packet : DnsPacket) : bool :=
  match qdCount with
  | O => true
  | S n =>
      let '(ok, packet) := _dnsPacket_checkQR packet in
      if ok then checkQuery_loop n packet else false
  end.

Definition read16 (buf : list Z) (i : nat) : Z :=
  Z.lor (Z.shiftl (byte_at buf i) 8) (byte_at buf (S i)).

Definition _dnsPacket_checkQuery (packet : DnsPacket) : bool :=
  let p := base packet in
  if (length p <? DNS_HEADER_SIZE)%nat then false
  else if negb ((Z.land (byte_at p 2) 0xFC =? 0) && (Z.land (byte_at p 3) 0xCF =? 0))
  then false
  else
    let qdCount := read16 p 4 in
    let anCount := read16 p 6 in
    let dnCount := read16 p 8 in
    let arCount := read16 p 10 in
    if negb ((anCount =? 0) && (dnCount =? 0) && (arCount <=? 1)) then false
    else if qdCount =? 0 then false
    else
      checkQuery_loop (Z.to_nat qdCount)
        {| base := p; cursor := drop DNS_HEADER_SIZE p |}.

(** *** Query hashing *)

Definition FNV_MULT : Z := 16777619.
Definition FNV_BASIS : Z := 2166136261.

(** [hash * FNV_MULT ^ byte] on [unsigned]: the product is reduced modulo
    2^32, then xored with the byte. *)
Definition fnv_step (hash byte : Z) : Z :=
  Z.lxor ((hash * FNV_MULT) mod 2 ^ 32) byte.

Definition fnv_fold (bytes : list Z) (hash : Z) : Z :=
  fold_left fnv_step bytes hash.

(** [while (numBytes > 0 && p < end) hash = hash * FNV_MULT ^ *p++;]
    The loop never decrements [numBytes]: once entered it runs to the end of
    the packet. *)
Definition _dnsPacket_hashBytes (packet : DnsPacket) (numBytes : Z) (hash : Z)
    : Z * DnsPacket :=
  if 0 <? numBytes
  then (fnv_fold (cursor packet) hash, {| base := base packet; cursor := [] |})
  else (hash, packet).

(** The [for (;;)] loop of [_dnsPacket_hashQName]; returns the hash and the
    position the cursor is left at. *)
Fixpoint hashQName_loop (fuel : nat) (p : list Z) (hash : Z) : Z * list Z :=
  match fuel with
  | O => (hash, p)
  | S fuel' =>
      match p with
      | [] => (hash, p)
      | c :: p' =>
          if c =? 0 then (hash, p')
          else if 64 <=? c then (hash, p')
          else if (length p' <=? Z.to_nat c)%nat then (hash, p')
          else hashQName_loop fuel' (drop (Z.to_nat c) p')
                 (fnv_fold (take (Z.to_nat c) p') hash)
      end
  end.

Definition _dnsPacket_hashQName (packet : DnsPacket) (hash : Z) : Z * DnsPacket :=
  let '(hash, p) := hashQName_loop (S (length (cursor packet))) (cursor packet) hash in
  (hash, {| base := base packet; cursor := p |}).

Definition _dnsPacket_hashQR (packet : DnsPacket) (hash : Z) : Z * DnsPacket :=
  let '(hash, packet) := _dnsPacket_hashQName packet hash in
  _dnsPacket_hashBytes packet 4 hash.

Definition _dnsPacket_hashRR (packet : DnsPacket) (hash : Z) : Z * DnsPacket :=
  let '(hash, packet) := _dnsPacket_hashQR packet hash in
  let '(hash, packet) := _dnsPacket_hashBytes packet 4 hash in
  let '(rdlength, packet) := _dnsPacket_readInt16 packet in
  _dnsPacket_hashBytes packet rdlength hash.

(** [for (; count > 0; count--) hash = f(packet, hash);] *)
Fixpoint hash_loop (f : DnsPacket -> Z -> Z * DnsPacket) (count : nat)
    (packet : DnsPacket) (hash : Z) : Z * DnsPacket :=
  match count with
  | O => (hash, packet)
  | S n => let '(hash, packet) := f packet hash in hash_loop f n packet hash
  end.

Definition _dnsPacket_hashQuery (packet : DnsPacket) : Z :=
  let hash := FNV_BASIS in
  let packet := _dnsPacket_rewind packet in
  (* ignore the ID *)
  let packet := _dnsPacket_skip packet 2 in
  (* hash the RD bit, ignore TC *)
  let hash := fnv_step hash (Z.land (byte_at (base packet) 2) 1) in
  (* mark the first header byte as processed *)
  let packet := _dnsPacket_skip packet 1 in
  (* process the second header byte *)
  let '(hash, packet) := _dnsPacket_hashBytes packet 1 hash in
  (* read QDCOUNT *)
  let '(count, packet) := _dnsPacket_readInt16 packet in
  (* assume: ANcount and NScount are 0 *)
  let packet := _dnsPacket_skip packet 4 in
  (* read ARCOUNT *)
  let '(arcount, packet) := _dnsPacket_readInt16 packet in
  let '(hash, packet) := hash_loop _dnsPacket_hashQR (Z.to_nat count) packet hash in
  let '(hash, packet) := hash_loop _dnsPacket_hashRR (Z.to_nat arcount) packet hash in
  hash.

(** *** Query comparison *)

(** The [for (;;)] loop of [_dnsPacket_isEqualDomainName]; [Some] carries the
    two cursors after the names, [None] is "not the same, or one is
    malformed". *)
Fixpoint isEqualDomainName_loop (fuel : nat) (p1 p2 : list Z)
    : option (list Z * list Z) :=
  match fuel with
  | O => None
  | S fuel' =>
      match p1, p2 with
      | c1 :: p1', c2 :: p2' =>
          if negb (c1 =? c2) then None
          else if c1 =? 0 then Some (p1', p2')
          else if 64 <=? c1 then None
          else if (length p1' <? Z.to_nat c1)%nat || (length p2' <? Z.to_nat c1)%nat
          then None
          else if negb (bytes_eqb (take (Z.to_nat c1) p1') (take (Z.to_nat c1) p2'))
          then None
          else isEqualDomainName_loop fuel'
                 (drop (Z.to_nat c1) p1') (drop (Z.to_nat c1) p2')
      | _, _ => None
      end
  end.

Definition _dnsPacket_isEqualDomainName (pack1 pack2 : DnsPacket)
    : bool * DnsPacket * DnsPacket :=
  match isEqualDomainName_loop (S (length (cursor pack1))) (cursor pack1) (cursor pack2) with
  | Some (p1, p2) =>
      (true, {| base := base pack1; cursor := p1 |},
             {| base := base pack2; cursor := p2 |})
  | None => (false, pack1, pack2)
  end.

(** [numBytes] is an [int]: it is [-1] when it comes from a failed
    [_dnsPacket_readInt16].  The source then hands [(size_t)-1] to [memcmp],
    which is undefined; the model answers "not equal" there. *)
Definition _dnsPacket_isEqualBytes (pack1 pack2 : DnsPacket) (numBytes : Z)
    : bool * DnsPacket * DnsPacket :=
  if (Z.of_nat (length (cursor pack1)) <? numBytes)
     || (Z.of_nat (length (cursor pack2)) <? numBytes)
  then (false, pack1, pack2)
  else if numBytes <? 0 then (false, pack1, pack2)
  else
    let n := Z.to_nat numBytes in
    if negb (bytes_eqb (take n (cursor pack1)) (take n (cursor pack2)))
    then (false, pack1, pack2)
    else (true, {| base := base pack1; cursor := drop n (cursor pack1) |},
                {| base := base pack2; cursor := drop n (cursor pack2) |}).

Definition _dnsPacket_isEqualQR (pack1 pack2 : DnsPacket)
    : bool * DnsPacket * DnsPacket :=
  (* compare domain name encoding + TYPE + CLASS *)
  let '(ok, pack1, pack2) := _dnsPacket_isEqualDomainName pack1 pack2 in
  if negb ok then (false, pack1, pack2)
  else _dnsPacket_isEqualBytes pack1 pack2 (2 + 2).

Definition _dnsPacket_isEqualRR (pack1 pack2 : DnsPacket)
    : bool * DnsPacket * DnsPacket :=
  (* compare query + TTL *)
  let '(ok, pack1, pack2) := _dnsPacket_isEqualQR pack1 pack2 in
  if negb ok then (false, pack1, pack2)
  else
    let '(ok, pack1, pack2) := _dnsPacket_isEqualBytes pack1 pack2 4 in
    if negb ok then (false, pack1, pack2)
    else
      (* compare RDATA *)
      let '(rdlength1, pack1) := _dnsPacket_readInt16 pack1 in
      let '(rdlength2, pack2) := _dnsPacket_readInt16 pack2 in
      if negb (rdlength1 =? rdlength2) then (false, pack1, pack2)
      else _dnsPacket_isEqualBytes pack1 pack2 rdlength1.

(** [for (; count > 0; count--) if (!f(pack1, pack2)) return 0;] *)
Fixpoint isEqual_loop (f : DnsPacket -> DnsPacket -> bool * DnsPacket * DnsPacket)
    (count : nat) (pack1 pack2 : DnsPacket) : bool * DnsPacket * DnsPacket :=
  match count with
  | O => (true, pack1, pack2)
  | S n =>
      let '(ok, pack1, pack2) := f pack1 pack2 in
      if ok then isEqual_loop f n pack1 pack2 else (false, pack1, pack2)
  end.

Definition _dnsPacket_isEqualQuery (pack1 pack2 : DnsPacket) : bool :=
  (* compare the headers, ignore most fields *)
  let pack1 := _dnsPacket_rewind pack1 in
  let pack2 := _dnsPacket_rewind pack2 in
  (* compare RD, ignore TC *)
  if negb (Z.land (byte_at (base pack1) 2) 1 =? Z.land (byte_at (base pack2) 2) 1)
  then false
  else if negb (byte_at (base pack1) 3 =? byte_at (base pack2) 3) then false
  else
    (* mark ID and header bytes as compared *)
    let pack1 := _dnsPacket_skip pack1 4 in
    let pack2 := _dnsPacket_skip pack2 4 in
    (* compare QDCOUNT *)
    let '(count1, pack1) := _dnsPacket_readInt16 pack1 in
    let '(count2, pack2) := _dnsPacket_readInt16 pack2 in
    if negb (count1 =? count2) || (count1 <? 0) then false
    else
      (* assume: ANcount and NScount are 0 *)
      let pack1 := _dnsPacket_skip pack1 4 in
      let pack2 := _dnsPacket_skip pack2 4 in
      (* compare ARCOUNT *)
      let '(arcount1, pack1) := _dnsPacket_readInt16 pack1 in
      let '(arcount2, pack2) := _dnsPacket_readInt16 pack2 in
      if negb (arcount1 =? arcount2) || (arcount1 <? 0) then false
      else
        (* compare the QDCOUNT QRs *)
        let '(ok, pack1, pack2) :=
          isEqual_loop _dnsPacket_isEqualQR (Z.to_nat count1) pack1 pack2 in
        if negb ok then false
        else
          (* compare the ARCOUNT RRs *)
          let '(ok, pack1, pack2) :=
            isEqual_loop _dnsPacket_isEqualRR (Z.to_nat arcount1) pack1 pack2 in
          ok.

(** A query written out for the examples: header with the given id, flag
    bytes and counts, followed by [body]. *)
Definition mk_query (id0 id1 flags2 flags3 : Z) (qd ar : Z) (body : list Z) : list Z :=
  [id0; id1; flags2; flags3; 0; qd; 0; 0; 0; 0; 0; ar] ++ body.

(** [<3>www<7>android<3>com<0>], TYPE A, CLASS IN. *)
Definition q_www_android_com : list Z :=
  [3; 119; 119; 119; 7; 97; 110; 100; 114; 111; 105; 100; 3; 99; 111; 109; 0;
   0; 1; 0; 1].

(** [<0>] (the root name), TYPE A, CLASS IN. *)
Definition q_root_a : list Z := [0; 0; 1; 0; 1].

(** A query that announces one additional record (ARCOUNT = 1) and ends
    after its question. *)
Definition q_dangling_ar : list Z := mk_query 0 0 1 0 1 1 q_root_a.

(** Overwriting the two transaction-id bytes, and setting or clearing the TC
    bit (bit 1 of header byte 2). *)
Definition set_id (q : list Z) (id0 id1 : Z) : list Z :=
  <[1%nat := id1]> (<[0%nat := id0]> q).

Definition set_tc (q : list Z) (tc : bool) : list Z :=
  alter (fun b => if tc then Z.lor b 2 else Z.land b 0xFD) 2%nat q.

Definition variant (q : list Z) (id0 id1 : Z) (tc : bool) : list Z :=
  set_tc (set_id q id0 id1) tc.

(** Two packets with the same cursor, and results that agree up to that. *)
Definition ceq (p p' : DnsPacket) : Prop := cursor p = cursor p'.

Definition ceq2 (r r' : bool * DnsPacket) : Prop :=
  fst r = fst r' /\ ceq (snd r) (snd r').

Definition ceq3 (r r' : bool * DnsPacket * DnsPacket) : Prop :=
  fst (fst r) = fst (fst r') /\ ceq (snd (fst r)) (snd (fst r')) /\ ceq (snd r) (snd r').

(** The comparison, from the two cursors after the four header bytes on. *)
Definition equal_tail (pack1 pack2 : DnsPacket) : bool :=
  let '(count1, pack1) := _dnsPacket_readInt16 pack1 in
  let '(count2, pack2) := _dnsPacket_readInt16 pack2 in
  if negb (count1 =? count2) || (count1 <? 0) then false
  else
    let pack1 := _dnsPacket_skip pack1 4 in
    let pack2 := _dnsPacket_skip pack2 4 in
    let '(arcount1, pack1) := _dnsPacket_readInt16 pack1 in
    let '(arcount2, pack2) := _dnsPacket_readInt16 pack2 in
    if negb (arcount1 =? arcount2) || (arcount1 <? 0) then false
    else
      let '(ok, pack1, pack2) :=
        isEqual_loop _dnsPacket_isEqualQR (Z.to_nat count1) pack1 pack2 in
      if negb ok then false
      else
        let '(ok, pack1, pack2) :=
          isEqual_loop _dnsPacket_isEqualRR (Z.to_nat arcount1) pack1 pack2 in
        ok.

(** The two halves of the fingerprint of a query. *)
Definition fingerprint_hash (q : list Z) : Z :=
  _dnsPacket_hashQuery (_dnsPacket_init q).

Definition fingerprint_equal (q1 q2 : list Z) : bool :=
  _dnsPacket_isEqualQuery (_dnsPacket_init q1) (_dnsPacket_init q2).

Definition cacheable (q : list Z) : bool :=
  _dnsPacket_checkQuery (_dnsPacket_init q).

End Packet.


(** ** TTL of an answer (res_cache.cpp, lines 694-785) *)

Module Answer.

(** [ns_initparse], [ns_parserr] and [dn_skipname] belong to the C library's
    name-server reader, not to this repository.  The reader is kept abstract:
    a parsed message [ns_msg] lists, for each section, what [ns_parserr] gives
    for record number [n] ([Some rr] when it returns 0, [None] when it
    fails), so that [ns_msg_count] is the length of the section. *)
Record ns_rr := mk_rr { rr_type : Z; rr_ttl : Z; rr_rdata : list Z }.

Record ns_msg := mk_msg {
  ns_s_an : list (option ns_rr);
  ns_s_ns : list (option ns_rr)
}.

Definition ns_t_ns : Z := 2.
Definition ns_t_soa : Z := 6.
Definition NS_INT32SZ : nat := 4.

(** [ntohl] of the 32-bit word at [rdata]: its four bytes, most significant
    first. *)
Definition ntohl_at (rdata : list Z) : Z :=
  Z.lor (Z.shiftl (nth 0 rdata 0) 24)
    (Z.lor (Z.shiftl (nth 1 rdata 0) 16)
       (Z.lor (Z.shiftl (nth 2 rdata 0) 8) (nth 3 rdata 0))).

Section Reader.

(** [ns_initparse answer]: [None] when it returns a negative value. *)
Variable ns_initparse : list Z -> option ns_msg.

(** [dn_skipname rdata edata], given the bytes of [rdata, edata): [None] for
    -1, [Some len] for the number of bytes the name takes. *)
Variable dn_skipname : list Z -> option nat.

(** The body of the loop of [answer_getNegativeTTL] for record number [n];
    [result] is the running value, the new one is returned. *)
Definition negativeTTL_step (n : nat) (r : option ns_rr) (result : Z) : Z :=
  match r with
  | Some rr =>
      if rr_type rr =? ns_t_soa then
        let rdata := rr_rdata rr in
        let rec_result := rr_ttl rr in
        (* skip the server name *)
        match dn_skipname rdata with
        | None => result
        | Some len =>
            let rdata := drop len rdata in
            (* skip the admin name *)
            match dn_skipname rdata with
            | None => result
            | Some len =>
                let rdata := drop len rdata in
                if negb (length rdata =? 5 * NS_INT32SZ)%nat then result
                else
                  (* skip: serial number + refresh + retry + expiry *)
                  let rdata := drop (NS_INT32SZ * 4) rdata in
                  (* finally read the MINIMUM TTL *)
                  let ttl := ntohl_at rdata in
                  let rec_result := if ttl <? rec_result then ttl else rec_result in
                  if (n =? 0)%nat || (rec_result <? result) then rec_result
                  else result
            end
        end
      else result
  | None => result
  end.

(** [for (n = 0; n < nscount; n++)]: [rrs] are the records from number [n]
    on. *)
Fixpoint negativeTTL_loop (n : nat) (rrs : list (option ns_rr)) (result : Z) : Z :=
  match rrs with
  | [] => result
  | r :: rrs' => negativeTTL_loop (S n) rrs' (negativeTTL_step n r result)
  end.

Definition answer_getNegativeTTL (handle : ns_msg) : Z :=
  negativeTTL_loop 0 (ns_s_ns handle) 0.

Definition getTTL_step (n : nat) (r : option ns_rr) (result : Z) : Z :=
  match r with
  | Some rr =>
      let ttl := rr_ttl rr in
      if (n =? 0)%nat || (ttl <? result) then ttl else result
  | None => result
  end.

Fixpoint getTTL_loop (n : nat) (rrs : list (option ns_rr)) (result : Z) : Z :=
  match rrs with
  | [] => result
  | r :: rrs' => getTTL_loop (S n) rrs' (getTTL_step n r result)
  end.

Definition answer_getTTL (answer : list Z) : Z :=
  match ns_initparse answer with
  | Some handle =>
      let ancount := length (ns_s_an handle) in
      if (ancount =? 0)%nat then answer_getNegativeTTL handle
      else getTTL_loop 0 (ns_s_an handle) 0
  | None => 0
  end.

End Reader.

(** The SOA records of a section with their MINIMUM field, the way the
    specification reads them: a record counts when it parses, has type SOA
    and its RDATA is two names followed by five 32-bit fields. *)
Definition soa_minimum (dn_skipname : list Z -> option nat) (rr : ns_rr)
    : option Z :=
  if rr_type rr =? ns_t_soa then
    match dn_skipname (rr_rdata rr) with
    | None => None
    | Some len1 =>
        match dn_skipname (drop len1 (rr_rdata rr)) with
        | None => None
        | Some len2 =>
            let rest := drop len2 (drop len1 (rr_rdata rr)) in
            if (length rest =? 20)%nat then Some (ntohl_at (drop 16 rest)) else None
        end
    end
  else None.

(** [min(soa.ttl, soa.minimum_field)] of a record, when it is an SOA record
    that parses. *)
Definition soa_ttl (dn_skipname : list Z -> option nat) (r : option ns_rr)
    : option Z :=
  rr ← r; m ← soa_minimum dn_skipname rr; Some (Z.min (rr_ttl rr) m).

(** That value for every SOA record of the section. *)
Definition soa_ttls (dn_skipname : list Z -> option nat)
    (rrs : list (option ns_rr)) : list Z :=
  omap (soa_ttl dn_skipname) rrs.

(** The smallest element of a non-empty list. *)
Definition list_min (x : Z) (l : list Z) : Z := fold_left Z.min l x.

(** A reader for names made of plain labels, ended by a zero byte or by a
    compression pointer; used to run the examples. *)
Fixpoint skip_labels (fuel : nat) (cp : list Z) (skipped : nat) : option nat :=
  match fuel with
  | O => None
  | S fuel' =>
      match cp with
      | [] => Some skipped
      | n :: cp' =>
          if n =? 0 then Some (S skipped)
          else if Z.land n 0xC0 =? 0 then
            if (length cp' <? Z.to_nat n)%nat then None
            else skip_labels fuel' (drop (Z.to_nat n) cp') (S skipped + Z.to_nat n)
          else if Z.land n 0xC0 =? 0xC0 then
            if (length cp' <? 1)%nat then None else Some (2 + skipped)%nat
          else None
      end
  end.

Definition dn_skipname_labels (rdata : list Z) : option nat :=
  skip_labels (S (length rdata)) rdata 0.

(** An SOA RDATA: MNAME [<2>ns<0>], RNAME [<1>a<0>], SERIAL, REFRESH, RETRY,
    EXPIRE, then the given MINIMUM (below 256 here). *)
Definition soa_rdata (minimum : Z) : list Z :=
  [2; 110; 115; 0] ++ [1; 97; 0] ++
  [0; 0; 0; 1;  0; 0; 14; 16;  0; 0; 2; 88;  0; 1; 81; 128;  0; 0; 0; minimum].

(** A negative answer whose authority section holds an NS record followed
    by an SOA record with TTL 300 and MINIMUM 60. *)
Definition msg_ns_then_soa : ns_msg :=
  {| ns_s_an := [];
     ns_s_ns := [Some (mk_rr ns_t_ns 3600 [2; 110; 115; 0]);
                 Some (mk_rr ns_t_soa 300 (soa_rdata 60))] |}.

(** The same answer with the SOA record first. *)
Definition msg_soa_then_ns : ns_msg :=
  {| ns_s_an := [];
     ns_s_ns := [Some (mk_rr ns_t_soa 300 (soa_rdata 60));
                 Some (mk_rr ns_t_ns 3600 [2; 110; 115; 0])] |}.

End Answer.

(** ** Error numbers and flags used across the call surface *)

Definition ESRCH : Z := 3.
Definition ENOMEM : Z := 12.
Definition EEXIST : Z := 17.
Definition EINVAL : Z := 22.
Definition ENODATA : Z := 61.
Definition ENONET : Z := 64.
Definition EMSGSIZE : Z := 90.
Definition ECONNRESET : Z := 104.
Definition ETIMEDOUT : Z := 110.
Definition ECONNREFUSED : Z := 111.

(** [ResNsendFlags] of [android/multinetwork.h]. *)
Definition ANDROID_RESOLV_NO_RETRY : Z := 1.
Definition ANDROID_RESOLV_NO_CACHE_STORE : Z := 2.
Definition ANDROID_RESOLV_NO_CACHE_LOOKUP : Z := 4.

(** [flags & mask] as a truth value. *)
Definition flag_set (flags mask : Z) : bool := negb (Z.land flags mask =? 0).

(** ** The answer cache (res_cache.cpp, lines 675-1309) *)

Module Cache.
Import Packet.

Definition CONFIG_MAX_ENTRIES : Z := 64 * 2 * 5.

(** Maximum time for a thread to wait for a pending request, in seconds. *)
Definition PENDING_REQUEST_TIMEOUT : Z := 20.

(** [struct Entry].  The link fields [hlink], [mru_prev] and [mru_next] are
    not fields of the model: a collision chain is the list of its entries in
    chain order, and the MRU ring is the list of its entries from
    [mru_list.mru_next] on.  [querylen] and [answerlen] are the lengths of
    the two buffers. *)
Record Entry := mkEntry {
  e_hash : Z;
  e_query : list Z;
  e_answer : list Z;
  e_expires : Z;
  e_id : Z
}.

(** What [memset(e, 0, sizeof( *e))] and [calloc] leave; also the sentinel
    [mru_list] of a cache. *)
Definition entry_zero : Entry :=
  {| e_hash := 0; e_query := []; e_answer := []; e_expires := 0; e_id := 0 |}.

Definition entry_hash (e : Entry) : Z :=
  _dnsPacket_hashQuery (_dnsPacket_init (e_query e)).

Definition entry_init_key (query : list Z) : bool * Entry :=
  let e := {| e_hash := 0; e_query := query; e_answer := []; e_expires := 0; e_id := 0 |} in
  let e := {| e_hash := entry_hash e; e_query := query; e_answer := [];
              e_expires := 0; e_id := 0 |} in
  (_dnsPacket_checkQuery (_dnsPacket_init (e_query e)), e).

Definition entry_alloc (init : Entry) (answer : list Z) : Entry :=
  {| e_hash := e_hash init; e_query := e_query init; e_answer := answer;
     e_expires := 0; e_id := 0 |}.

Definition entry_equals (e1 e2 : Entry) : bool :=
  if negb (length (e_query e1) =? length (e_query e2))%nat then false
  else _dnsPacket_isEqualQuery (_dnsPacket_init (e_query e1))
                               (_dnsPacket_init (e_query e2)).

(** Unlinking [e] from the MRU ring.  A node is identified by its [id]: ids
    are handed out by [++last_id], and [last_id] is reset only by a flush,
    which drops every entry. *)
Fixpoint entry_mru_remove (e : Entry) (mru : list Entry) : list Entry :=
  match mru with
  | [] => []
  | x :: mru' => if e_id x =? e_id e then mru' else x :: entry_mru_remove e mru'
  end.

Definition entry_mru_add (e : Entry) (mru : list Entry) : list Entry := e :: mru.

(** [struct resolv_cache]: [entries] is the bucket array, one collision
    chain per slot; [pending_requests] lists the hashes of the pending
    records in list order. *)
Record Cache := mkCache {
  max_entries : Z;
  num_entries : Z;
  mru_list : list Entry;
  last_id : Z;
  entries : list (list Entry);
  pending_requests : list Z
}.

Definition set_pending (cache : Cache) (pending : list Z) : Cache :=
  {| max_entries := max_entries cache; num_entries := num_entries cache;
     mru_list := mru_list cache; last_id := last_id cache;
     entries := entries cache; pending_requests := pending |}.

Definition set_mru (cache : Cache) (mru : list Entry) : Cache :=
  {| max_entries := max_entries cache; num_entries := num_entries cache;
     mru_list := mru; last_id := last_id cache;
     entries := entries cache; pending_requests := pending_requests cache |}.

(** [cv.notify_all()] is observable only as an event: the functions that may
    call it return, next to the new cache, whether they did. *)
Definition cache_flush_pending_requests_locked (cache : Cache) : Cache * bool :=
  (set_pending cache [], true).

Definition has_pending (hash : Z) (pending : list Z) : bool :=
  existsb (fun h => h =? hash) pending.

(** Returns [true] if there is a pending request matching [key]; otherwise
    returns [false] and, when [append_if_not_found], links a new record at
    the end of the list. *)
Definition cache_has_pending_request_locked (cache : Cache) (key : Entry)
    (append_if_not_found : bool) : bool * Cache :=
  if has_pending (e_hash key) (pending_requests cache) then (true, cache)
  else if append_if_not_found
       then (false, set_pending cache (pending_requests cache ++ [e_hash key]))
       else (false, cache).

(** Removal of the first record whose hash is [hash]. *)
Fixpoint pending_remove (hash : Z) (pending : list Z) : list Z :=
  match pending with
  | [] => []
  | h :: ri => if h =? hash then ri else h :: pending_remove hash ri
  end.

(** The first pending record for [key], if any, is unlinked and the waiters
    are notified; nothing happens when there is none. *)
Definition _cache_notify_waiting_tid_locked (cache : Cache) (key : Entry)
    : Cache * bool :=
  if has_pending (e_hash key) (pending_requests cache)
  then (set_pending cache (pending_remove (e_hash key) (pending_requests cache)), true)
  else (cache, false).

Definition cache_flush_locked (cache : Cache) : Cache * bool :=
  let '(cache, notified) := cache_flush_pending_requests_locked cache in
  ({| max_entries := max_entries cache; num_entries := 0; mru_list := [];
      last_id := 0; entries := (fun _ => []) <$> entries cache;
      pending_requests := pending_requests cache |}, notified).

Definition resolv_cache_create : Cache :=
  {| max_entries := CONFIG_MAX_ENTRIES; num_entries := 0; mru_list := [];
     last_id := 0; entries := replicate (Z.to_nat CONFIG_MAX_ENTRIES) [];
     pending_requests := [] |}.

(** An [Entry**] into the table: the bucket and the position in its chain;
    position [length chain] is the terminating null link. *)
Record lookup_ref := mkRef { lk_bucket : nat; lk_pos : nat }.

Definition chain_at (cache : Cache) (index : nat) : list Entry :=
  default [] (entries cache !! index).

(** [*lookup] *)
Definition deref (cache : Cache) (lookup : lookup_ref) : option Entry :=
  chain_at cache (lk_bucket lookup) !! lk_pos lookup.

(** The [while ( *pnode != NULL)] walk of [_cache_lookup_p]. *)
Fixpoint chain_find (key : Entry) (chain : list Entry) : nat :=
  match chain with
  | [] => O
  | node :: chain' =>
      if (e_hash node =? e_hash key) && entry_equals node key then O
      else S (chain_find key chain')
  end.

Definition _cache_lookup_p (cache : Cache) (key : Entry) : lookup_ref :=
  let index := Z.to_nat (e_hash key mod max_entries cache) in
  {| lk_bucket := index; lk_pos := chain_find key (chain_at cache index) |}.

(** [*lookup = e] with [e->hlink] null, as [entry_alloc] leaves it. *)
Definition _cache_add_p (cache : Cache) (lookup : lookup_ref) (e : Entry) : Cache :=
  let e := {| e_hash := e_hash e; e_query := e_query e; e_answer := e_answer e;
              e_expires := e_expires e; e_id := last_id cache + 1 |} in
  {| max_entries := max_entries cache;
     num_entries := num_entries cache + 1;
     mru_list := entry_mru_add e (mru_list cache);
     last_id := last_id cache + 1;
     entries := alter (fun chain => take (lk_pos lookup) chain ++ [e])
                  (lk_bucket lookup) (entries cache);
     pending_requests := pending_requests cache |}.

(** [lookup] must come from a successful [_cache_lookup_p]; the source
    dereferences it without a test. *)
Definition _cache_remove_p (cache : Cache) (lookup : lookup_ref) : Cache :=
  match deref cache lookup with
  | None => cache
  | Some e =>
      {| max_entries := max_entries cache;
         num_entries := num_entries cache - 1;
         mru_list := entry_mru_remove e (mru_list cache);
         last_id := last_id cache;
         entries := alter (delete (lk_pos lookup)) (lk_bucket lookup) (entries cache);
         pending_requests := pending_requests cache |}
  end.

(** [cache->mru_list.mru_prev]: the last entry of the ring, the sentinel
    itself when the ring is empty. *)
Definition mru_oldest (cache : Cache) : Entry :=
  default entry_zero (last (mru_list cache)).

Definition _cache_remove_oldest (cache : Cache) : Cache :=
  let oldest := mru_oldest cache in
  let lookup := _cache_lookup_p cache oldest in
  match deref cache lookup with
  | None => cache
  | Some _ => _cache_remove_p cache lookup
  end.

(** The walk of [_cache_remove_expired] over the ring, [es] being the
    entries still to visit.  It agrees with the source as long as the lookup
    of an entry finds that entry, which is what the source relies on
    ("should not happen" otherwise). *)
Fixpoint remove_expired_loop (now : Z) (es : list Entry) (cache : Cache) : Cache :=
  match es with
  | [] => cache
  | e :: es' =>
      if e_expires e <=? now then
        let lookup := _cache_lookup_p cache e in
        match deref cache lookup with
        | None => cache
        | Some _ => remove_expired_loop now es' (_cache_remove_p cache lookup)
        end
      else remove_expired_loop now es' cache
  end.

Definition _cache_remove_expired (now : Z) (cache : Cache) : Cache :=
  remove_expired_loop now (mru_list cache) cache.

(** Whether the walk of a chain stops at [node] for [key]. *)
Definition matches (key node : Entry) : bool :=
  (e_hash node =? e_hash key) && entry_equals node key.

(** What holds of every cache the registry creates: the bucket array has
    [max_entries] slots, [max_entries] is positive, and no two pending
    records carry the same hash. *)
Definition cache_ok (c : Cache) : Prop :=
  0 < max_entries c
  /\ length (entries c) = Z.to_nat (max_entries c)
  /\ NoDup (pending_requests c).

(** What the walk of the chain of bucket [index] relies on: every entry of
    the chain hashes to [index], and no entry is matched by an entry linked
    before it (an entry is linked only where the walk for its key ended at
    the null link). *)
Definition chain_ok (max : Z) (index : nat) (chain : list Entry) : Prop :=
  Forall (fun e => index = Z.to_nat (e_hash e mod max)) chain
  /\ forall i j e1 e2, (i < j)%nat -> chain !! i = Some e1 -> chain !! j = Some e2 ->
       matches e2 e1 = false.

(** The hash table and the MRU ring hold the same entries, [num_entries] of
    them, under distinct ids that [last_id] bounds, and every chain is as
    [chain_ok] says. *)
Definition table_ok (c : Cache) : Prop :=
  num_entries c = Z.of_nat (length (mru_list c))
  /\ concat (entries c) ≡ₚ mru_list c
  /\ NoDup (e_id <$> mru_list c)
  /\ Forall (fun e => e_id e <= last_id c) (mru_list c)
  /\ forall index chain, entries c !! index = Some chain ->
       chain_ok (max_entries c) index chain.

(** The cache holds no more than [max_entries] entries, and each of them
    compares equal to itself. *)
Definition within_capacity (c : Cache) : Prop :=
  num_entries c <= max_entries c
  /\ Forall (fun e => entry_equals e e = true) (mru_list c).

End Cache.

(** ** The network registry and the cache entry points
       (res_cache.cpp, lines 889-1309 and 1311-1832) *)

Module Resolv.
Import Packet Cache.

(** [res_params], [res_sample] and [res_stats] of [netd_resolv/params.h] and
    [netd_resolv/stats.h]. *)
Record res_params := mkParams {
  sample_validity : Z;
  success_threshold : Z;
  min_samples : Z;
  max_samples : Z;
  base_timeout_msec : Z;
  retry_count : Z
}.

Record res_sample := mkSample { s_at : Z; s_rtt : Z; s_rcode : Z }.

Record res_stats := mkStats {
  samples : list res_sample;
  sample_count : Z;
  sample_next : Z
}.

(** The part of a [struct addrinfo] that the registry keeps. *)
Record addrinfo := mkAddrinfo { ai_family : Z; ai_addr : list Z }.

Definition RES_TIMEOUT : Z := 5000.
Definition RES_DFLRETRY : Z := 2.

Record resolv_cache_info := mkInfo {
  netid : Z;
  cache : Cache;
  nscount : Z;
  nameservers : list string;
  nsaddrinfo : list (option addrinfo);
  revision_id : Z;
  params : res_params;
  nsstats : list res_stats;
  search_domains : list string;
  wait_for_pending_req_timeout_count : Z;
  dns_event_subsampling_map : list (Z * Z)
}.

(** Everything [cache_mutex] protects: the list headed by [res_cache_list],
    and the number of [cv.notify_all()] calls made so far. *)
Record State := mkState {
  res_cache_list : list resolv_cache_info;
  cv_notified : nat
}.

Definition initial_state : State := {| res_cache_list := []; cv_notified := 0 |}.

Definition set_cache (info : resolv_cache_info) (c : Cache) : resolv_cache_info :=
  mkInfo (netid info) c (nscount info) (nameservers info) (nsaddrinfo info)
    (revision_id info) (params info) (nsstats info) (search_domains info)
    (wait_for_pending_req_timeout_count info) (dns_event_subsampling_map info).

Definition set_nscount (info : resolv_cache_info) (n : Z) : resolv_cache_info :=
  mkInfo (netid info) (cache info) n (nameservers info) (nsaddrinfo info)
    (revision_id info) (params info) (nsstats info) (search_domains info)
    (wait_for_pending_req_timeout_count info) (dns_event_subsampling_map info).

Definition set_nameservers (info : resolv_cache_info) (l : list string)
    : resolv_cache_info :=
  mkInfo (netid info) (cache info) (nscount info) l (nsaddrinfo info)
    (revision_id info) (params info) (nsstats info) (search_domains info)
    (wait_for_pending_req_timeout_count info) (dns_event_subsampling_map info).

Definition set_nsaddrinfo (info : resolv_cache_info) (l : list (option addrinfo))
    : resolv_cache_info :=
  mkInfo (netid info) (cache info) (nscount info) (nameservers info) l
    (revision_id info) (params info) (nsstats info) (search_domains info)
    (wait_for_pending_req_timeout_count info) (dns_event_subsampling_map info).

Definition set_revision_id (info : resolv_cache_info) (r : Z) : resolv_cache_info :=
  mkInfo (netid info) (cache info) (nscount info) (nameservers info) (nsaddrinfo info)
    r (params info) (nsstats info) (search_domains info)
    (wait_for_pending_req_timeout_count info) (dns_event_subsampling_map info).

Definition set_params (info : resolv_cache_info) (p : res_params) : resolv_cache_info :=
  mkInfo (netid info) (cache info) (nscount info) (nameservers info) (nsaddrinfo info)
    (revision_id info) p (nsstats info) (search_domains info)
    (wait_for_pending_req_timeout_count info) (dns_event_subsampling_map info).

Definition set_nsstats (info : resolv_cache_info) (l : list res_stats)
    : resolv_cache_info :=
  mkInfo (netid info) (cache info) (nscount info) (nameservers info) (nsaddrinfo info)
    (revision_id info) (params info) l (search_domains info)
    (wait_for_pending_req_timeout_count info) (dns_event_subsampling_map info).

Definition set_search_domains (info : resolv_cache_info) (l : list string)
    : resolv_cache_info :=
  mkInfo (netid info) (cache info) (nscount info) (nameservers info) (nsaddrinfo info)
    (revision_id info) (params info) (nsstats info) l
    (wait_for_pending_req_timeout_count info) (dns_event_subsampling_map info).

Definition set_wait_count (info : resolv_cache_info) (n : Z) : resolv_cache_info :=
  mkInfo (netid info) (cache info) (nscount info) (nameservers info) (nsaddrinfo info)
    (revision_id info) (params info) (nsstats info) (search_domains info)
    n (dns_event_subsampling_map info).

(** [find_cache_info_locked]: the first record of the list with that netid. *)
Fixpoint find_cache_info_locked (l : list resolv_cache_info) (id : Z)
    : option resolv_cache_info :=
  match l with
  | [] => None
  | cache_info :: l' =>
      if netid cache_info =? id then Some cache_info
      else find_cache_info_locked l' id
  end.

Definition find_named_cache_locked (l : list resolv_cache_info) (id : Z)
    : option Cache :=
  match find_cache_info_locked l id with
  | Some info => Some (cache info)
  | None => None
  end.

(** Writing through the pointer that [find_cache_info_locked] returned. *)
Fixpoint update_cache_info (l : list resolv_cache_info) (id : Z)
    (f : resolv_cache_info -> resolv_cache_info) : list resolv_cache_info :=
  match l with
  | [] => []
  | cache_info :: l' =>
      if netid cache_info =? id then f cache_info :: l'
      else cache_info :: update_cache_info l' id f
  end.

(** The state after the cache of network [id] became [c] and
    [cv.notify_all()] was or was not called. *)
Definition store_cache (st : State) (id : Z) (c : Cache) (notified : bool) : State :=
  {| res_cache_list := update_cache_info (res_cache_list st) id (fun i => set_cache i c);
     cv_notified := if notified then S (cv_notified st) else cv_notified st |}.

Definition has_named_cache (st : State) (id : Z) : bool :=
  bool_decide (is_Some (find_named_cache_locked (res_cache_list st) id)).

Definition resolv_list_caches (st : State) : list Z :=
  netid <$> res_cache_list st.

Definition resolv_has_nameservers (st : State) (id : Z) : bool :=
  match find_cache_info_locked (res_cache_list st) id with
  | Some info => 0 <? nscount info
  | None => false
  end.

(** *** Cache entry points *)

Inductive ResolvCacheStatus :=
  | RESOLV_CACHE_UNSUPPORTED  (* the cache can't handle that kind of queries,
                                 or the answer buffer is too small *)
  | RESOLV_CACHE_NOTFOUND     (* the cache doesn't know about this query *)
  | RESOLV_CACHE_FOUND        (* the cache found the answer *)
  | RESOLV_CACHE_SKIP.        (* don't do anything on cache *)

(** What a lookup hands back: the status, the value stored into
    [*answerlen] if any, and the bytes copied into [answer] if any. *)
Record lookup_out := mkOut {
  lo_status : ResolvCacheStatus;
  lo_answerlen : option nat;
  lo_answer : option (list Z)
}.

Definition out_status (s : ResolvCacheStatus) : lookup_out :=
  {| lo_status := s; lo_answerlen := None; lo_answer := None |}.

(** A lookup either returns, or blocks in [cv.wait_for] with its key. *)
Inductive lookup_ret :=
  | Return (out : lookup_out)
  | Wait (key : Entry).

(** The end of [resolv_cache_lookup], from [now = _time_now()] on, for the
    entry [e = *lookup]. *)
Definition lookup_entry (c : Cache) (lookup : lookup_ref) (e : Entry)
    (answersize : Z) (now : Z) : Cache * lookup_out :=
  (* remove stale entries here *)
  if e_expires e <=? now then
    (_cache_remove_p c lookup, out_status RESOLV_CACHE_NOTFOUND)
  else if answersize <? Z.of_nat (length (e_answer e)) then
    (* NOTE: we return UNSUPPORTED if the answer buffer is too short *)
    (c, {| lo_status := RESOLV_CACHE_UNSUPPORTED;
           lo_answerlen := Some (length (e_answer e)); lo_answer := None |})
  else
    (* bump up this entry to the top of the MRU list *)
    let is_first :=
      match mru_list c with
      | first :: _ => e_id first =? e_id e
      | [] => false
      end in
    let c := if is_first then c
             else set_mru c (entry_mru_add e (entry_mru_remove e (mru_list c))) in
    (c, {| lo_status := RESOLV_CACHE_FOUND;
           lo_answerlen := Some (length (e_answer e));
           lo_answer := Some (e_answer e) |}).

(** [resolv_cache_lookup] up to the point where it returns or starts to
    wait; [now] is what [_time_now()] gives. *)
Definition resolv_cache_lookup (st : State) (id : Z) (query : list Z)
    (answersize : Z) (flags : Z) (now : Z) : State * lookup_ret :=
  if flag_set flags ANDROID_RESOLV_NO_CACHE_LOOKUP then
    (st, Return (out_status (if flag_set flags ANDROID_RESOLV_NO_CACHE_STORE
                             then RESOLV_CACHE_SKIP else RESOLV_CACHE_NOTFOUND)))
  else
    let '(ok, key) := entry_init_key query in
    (* we don't cache malformed queries *)
    if negb ok then (st, Return (out_status RESOLV_CACHE_UNSUPPORTED))
    else
      match find_named_cache_locked (res_cache_list st) id with
      | None => (st, Return (out_status RESOLV_CACHE_UNSUPPORTED))
      | Some c =>
          let lookup := _cache_lookup_p c key in
          match deref c lookup with
          | None =>
              (* If it is no-cache-store mode, we won't wait for possible query. *)
              if flag_set flags ANDROID_RESOLV_NO_CACHE_STORE
              then (st, Return (out_status RESOLV_CACHE_SKIP))
              else
                let '(pending, c) := cache_has_pending_request_locked c key true in
                if negb pending
                then (store_cache st id c false, Return (out_status RESOLV_CACHE_NOTFOUND))
                else (st, Wait key)
          | Some e =>
              let '(c, out) := lookup_entry c lookup e answersize now in
              (store_cache st id c false, Return out)
          end
      end.

(** The predicate of the wait: the cache is looked up again, and the wait
    ends when no pending request matches the key (a missing cache counts as
    "no pending request"). *)
Definition wait_predicate (st : State) (id : Z) (key : Entry) : bool :=
  match find_named_cache_locked (res_cache_list st) id with
  | None => true
  | Some c => negb (fst (cache_has_pending_request_locked c key false))
  end.

(** [resolv_cache_lookup] from the return of [cv.wait_for] on, in the state
    [st] found at that moment.  [cv.wait_for] returns the value of the
    predicate: it is [false] exactly when the 20 seconds ran out with the
    pending request still there. *)
Definition resolv_cache_lookup_wakeup (st : State) (id : Z) (key : Entry)
    (answersize : Z) (now : Z) : State * lookup_out :=
  let ret := wait_predicate st id key in
  match find_named_cache_locked (res_cache_list st) id with
  | None => (st, out_status RESOLV_CACHE_NOTFOUND)
  | Some c =>
      let st :=
        if negb ret then
          {| res_cache_list :=
               update_cache_info (res_cache_list st) id
                 (fun info => set_wait_count info
                                (wait_for_pending_req_timeout_count info + 1));
             cv_notified := cv_notified st |}
        else st in
      let lookup := _cache_lookup_p c key in
      match deref c lookup with
      | None => (st, out_status RESOLV_CACHE_NOTFOUND)
      | Some e =>
          let '(c, out) := lookup_entry c lookup e answersize now in
          (store_cache st id c false, out)
      end
  end.

Definition _resolv_cache_query_failed (st : State) (id : Z) (query : list Z)
    (flags : Z) : State :=
  (* We should not notify with these flags. *)
  if flag_set flags (Z.lor ANDROID_RESOLV_NO_CACHE_STORE ANDROID_RESOLV_NO_CACHE_LOOKUP)
  then st
  else
    let '(ok, key) := entry_init_key query in
    if negb ok then st
    else
      match find_named_cache_locked (res_cache_list st) id with
      | None => st
      | Some c =>
          let '(c, notified) := _cache_notify_waiting_tid_locked c key in
          store_cache st id c notified
      end.

(** [resolv_cache_get_expiration]: the value returned and the value stored
    into [*expiration]; [now] is what [_time_now()] gives. *)
Definition resolv_cache_get_expiration (st : State) (id : Z) (query : list Z)
    (now : Z) : Z * Z :=
  let '(ok, key) := entry_init_key query in
  (* A malformed query is not allowed. *)
  if negb ok then (- EINVAL, -1)
  else
    match find_named_cache_locked (res_cache_list st) id with
    | None => (- ENONET, -1)
    | Some c =>
        match deref c (_cache_lookup_p c key) with
        | None => (- ENODATA, -1)
        | Some e =>
            if e_expires e <=? now then (- ENODATA, -1) else (0, e_expires e)
        end
    end.

(** Every cache of the registry is as [resolv_cache_create] and the cache
    operations leave it. *)
Definition state_ok (st : State) : Prop :=
  Forall (fun info => cache_ok (cache info)) (res_cache_list st).

(** The configuration of a record: the fields that only
    [resolv_set_nameservers] writes. *)
Definition ns_fields (info : resolv_cache_info)
    : Z * Z * list string * list (option addrinfo) * Z * res_params * list string :=
  (netid info, nscount info, nameservers info, nsaddrinfo info, revision_id info,
   params info, search_domains info).

(** The configuration of every network of the registry, in list order. *)
Definition ns_view (st : State)
    : list (Z * Z * list string * list (option addrinfo) * Z * res_params * list string) :=
  ns_fields <$> res_cache_list st.

(** Making room before an insertion: what [resolv_cache_add] does to a
    full cache. *)
Definition evict (now : Z) (c : Cache) : Cache :=
  if max_entries c <=? num_entries c then
    let c' := _cache_remove_expired now c in
    if max_entries c' <=? num_entries c' then _cache_remove_oldest c' else c'
  else c.

(** The operations on the registry, for stating what holds after any
    sequence of them.  [OpWakeup] is the second half of a lookup that
    waited. *)
Inductive op :=
  | OpCreate (id : Z)
  | OpDelete (id : Z)
  | OpFlush (id : Z)
  | OpLookup (id : Z) (query : list Z) (answersize flags now : Z)
  | OpWakeup (id : Z) (key : Entry) (answersize now : Z)
  | OpAdd (id : Z) (query answer : list Z) (now : Z)
  | OpQueryFailed (id : Z) (query : list Z) (flags : Z)
  | OpSetNameservers (id : Z) (servers domains : list string) (p : res_params)
  | OpAddSample (id : Z) (revision : Z) (ns : nat) (sample : res_sample)
      (max_samples : Z).

(** The queries that an operation hands to [resolv_cache_add] satisfy [Q]. *)
Definition op_adds (Q : list Z -> Prop) (o : op) : Prop :=
  match o with
  | OpAdd _ query _ _ => Q query
  | _ => True
  end.

(** Whether the query that the operation hands to [resolv_cache_add], if
    any, compares equal to itself. *)
Definition adds_self_equal (o : op) : bool :=
  match o with
  | OpAdd _ query _ _ => fingerprint_equal query query
  | _ => true
  end.

Section Env.

(** The C library's reader used by [answer_getTTL] (see [Answer]). *)
Variable ns_initparse : list Z -> option Answer.ns_msg.
Variable dn_skipname : list Z -> option nat.

(** Constants of [netd_resolv/params.h] and [resolv.h]: the number of
    nameserver slots, of samples kept per server, of search domains, and the
    size of a search-domain buffer. *)
Variable MAXNS : nat.
Variable MAXNSSAMPLES : nat.
Variable MAXDNSRCH : nat.
Variable MAXDNSRCHPATH : nat.

(** [getaddrinfo_numeric(server, "53", hints, &result)]: [None] when it
    returns a non-zero value. *)
Variable getaddrinfo_numeric : string -> option addrinfo.

(** The configuration oracle: the value of the flags [retry_count] and
    [retransmission_time_interval] when they are set and parse as integers,
    and the subsampling map built from [dns_event_subsample_map]. *)
Variable flag_retry_count : option Z.
Variable flag_retransmission_time_interval : option Z.
Variable resolv_get_dns_event_subsampling_map : list (Z * Z).

Definition answer_getTTL : list Z -> Z :=
  Answer.answer_getTTL ns_initparse dn_skipname.

(** [resolv_cache_add]; [now] is what [_time_now()] gives during the call. *)
Definition resolv_cache_add (st : State) (id : Z) (query answer : list Z)
    (now : Z) : State * Z :=
  let '(ok, key) := entry_init_key query in
  (* don't assume that the query has already been cached *)
  if negb ok then (st, - EINVAL)
  else
    match find_named_cache_locked (res_cache_list st) id with
    | None => (st, - ENONET)
    | Some c =>
        let lookup := _cache_lookup_p c key in
        match deref c lookup with
        | Some e =>
            (* Should only happen on ANDROID_RESOLV_NO_CACHE_LOOKUP *)
            let '(c, notified) := _cache_notify_waiting_tid_locked c key in
            (store_cache st id c notified, - EEXIST)
        | None =>
            let full := max_entries c <=? num_entries c in
            let c :=
              if full then
                let c := _cache_remove_expired now c in
                if max_entries c <=? num_entries c then _cache_remove_oldest c else c
              else c in
            let lookup := if full then _cache_lookup_p c key else lookup in
            match (if full then deref c lookup else None) with
            | Some e =>
                let '(c, notified) := _cache_notify_waiting_tid_locked c key in
                (store_cache st id c notified, - EEXIST)
            | None =>
                let ttl := answer_getTTL answer in
                let c :=
                  if 0 <? ttl then
                    let e := entry_alloc key answer in
                    let e := {| e_hash := e_hash e; e_query := e_query e;
                                e_answer := e_answer e; e_expires := ttl + now;
                                e_id := e_id e |} in
                    _cache_add_p c lookup e
                  else c in
                let '(c, notified) := _cache_notify_waiting_tid_locked c key in
                (store_cache st id c notified, 0)
            end
        end
    end.

(** The entry that [resolv_cache_add] links for [key] and [answer]. *)
Definition new_entry (key : Entry) (answer : list Z) (now : Z) : Entry :=
  {| e_hash := e_hash key; e_query := e_query key; e_answer := answer;
     e_expires := answer_getTTL answer + now; e_id := 0 |}.

(** The cache after the insertion and the notification of [resolv_cache_add],
    [c1] being the cache once room was made. *)
Definition added (c1 : Cache) (key : Entry) (answer : list Z) (now : Z) : Cache * bool :=
  _cache_notify_waiting_tid_locked
    (if 0 <? answer_getTTL answer
     then _cache_add_p c1 (_cache_lookup_p c1 key) (new_entry key answer now)
     else c1) key.

Definition stats_zero : res_stats :=
  {| samples := replicate MAXNSSAMPLES (mkSample 0 0 0);
     sample_count := 0; sample_next := 0 |}.

(** [create_cache_info]: a zeroed record. *)
Definition create_cache_info : resolv_cache_info :=
  {| netid := 0; cache := resolv_cache_create; nscount := 0; nameservers := [];
     nsaddrinfo := replicate MAXNS None; revision_id := 0;
     params := mkParams 0 0 0 0 0 0; nsstats := replicate MAXNS stats_zero;
     search_domains := []; wait_for_pending_req_timeout_count := 0;
     dns_event_subsampling_map := [] |}.

Definition resolv_create_cache_for_net (st : State) (id : Z) : State * Z :=
  match find_named_cache_locked (res_cache_list st) id with
  | Some _ => (st, - EEXIST)
  | None =>
      let cache_info := create_cache_info in
      let cache_info :=
        mkInfo id resolv_cache_create (nscount cache_info) (nameservers cache_info)
          (nsaddrinfo cache_info) (revision_id cache_info) (params cache_info)
          (nsstats cache_info) (search_domains cache_info)
          (wait_for_pending_req_timeout_count cache_info)
          resolv_get_dns_event_subsampling_map in
      (* insert_cache_info_locked: at the end of the list *)
      ({| res_cache_list := res_cache_list st ++ [cache_info];
          cv_notified := cv_notified st |}, 0)
  end.

(** The record of the first network with that id is unlinked; its cache is
    flushed, which notifies the waiters, before it is freed. *)
Fixpoint delete_cache_info (l : list resolv_cache_info) (id : Z)
    : list resolv_cache_info * bool :=
  match l with
  | [] => ([], false)
  | cache_info :: l' =>
      if netid cache_info =? id then (l', snd (cache_flush_locked (cache cache_info)))
      else let '(l'', notified) := delete_cache_info l' id in
           (cache_info :: l'', notified)
  end.

Definition resolv_delete_cache_for_net (st : State) (id : Z) : State :=
  let '(l, notified) := delete_cache_info (res_cache_list st) id in
  {| res_cache_list := l;
     cv_notified := if notified then S (cv_notified st) else cv_notified st |}.

(** Modelled from the spec: [resolv_flush_cache_for_net] is declared in
    [resolv_cache.h] but its body is not among the sources.  The
    specification's [flush(net)] drops all entries and all pending records
    and notifies all waiters, which is [cache_flush_locked] on the cache of
    the network; an unknown network is an [-ENONET] operation. *)
Definition resolv_flush_cache_for_net (st : State) (id : Z) : State * Z :=
  match find_named_cache_locked (res_cache_list st) id with
  | None => (st, - ENONET)
  | Some c =>
      let '(c, notified) := cache_flush_locked c in
      (store_cache st id c notified, 0)
  end.

(** *** Nameservers and reachability statistics *)

Definition resolv_set_experiment_params (p : res_params) : res_params :=
  let retry :=
    if retry_count p =? 0 then default RES_DFLRETRY flag_retry_count
    else retry_count p in
  let timeout :=
    if base_timeout_msec p =? 0
    then default RES_TIMEOUT flag_retransmission_time_interval
    else base_timeout_msec p in
  mkParams (sample_validity p) (success_threshold p) (min_samples p)
    (max_samples p) timeout retry.

(** The [copy_if] of [filter_domains]: a domain is kept when it is not too
    long and was not seen before. *)
Fixpoint filter_domains_loop (domains : list string) (tmp_set : gset string)
    : list string :=
  match domains with
  | [] => []
  | str :: domains' =>
      if negb (Z.of_nat MAXDNSRCHPATH - 1 <? Z.of_nat (String.length str))
         && negb (bool_decide (str ∈ tmp_set))
      then str :: filter_domains_loop domains' ({[str]} ∪ tmp_set)
      else filter_domains_loop domains' tmp_set
  end.

Definition filter_domains (domains : list string) : list string :=
  let res := filter_domains_loop domains ∅ in
  if (MAXDNSRCH <? length res)%nat then take MAXDNSRCH res else res.

Definition filter_nameservers (servers : list string) : list string :=
  if (MAXNS <? length servers)%nat then take MAXNS servers else servers.

(** Order-insensitive comparison for the two sets of servers. *)
Definition resolv_is_nameservers_equal (oldServers newServers : list string) : bool :=
  bool_decide (list_to_set oldServers =@{gset string} list_to_set newServers).

Definition stats_reset (s : res_stats) : res_stats :=
  {| samples := samples s; sample_count := 0; sample_next := 0 |}.

(** [for (int i = 0; i < MAXNS; ++i)
       cache_info->nsstats->sample_count = cache_info->nsstats->sample_next = 0;]
    The body does not use [i]: [cache_info->nsstats->] is slot 0 in every
    round. *)
Definition res_cache_clear_stats_locked (cache_info : resolv_cache_info)
    : resolv_cache_info :=
  fold_left
    (fun info (_ : nat) => set_nsstats info (alter stats_reset 0%nat (nsstats info)))
    (seq 0 MAXNS) cache_info.

Definition free_nameservers_locked (cache_info : resolv_cache_info)
    : resolv_cache_info :=
  let info :=
    fold_left
      (fun info (i : nat) =>
         let info := set_nameservers info [] in
         let info := set_nsaddrinfo info (<[i:=None]> (nsaddrinfo info)) in
         set_nsstats info (alter stats_reset i (nsstats info)))
      (seq 0 (Z.to_nat (nscount cache_info))) cache_info in
  let info := set_nscount info 0 in
  let info := res_cache_clear_stats_locked info in
  set_revision_id info (revision_id info + 1).

Definition resolv_set_nameservers (st : State) (id : Z) (servers domains : list string)
    (p : res_params) : State * Z :=
  let nameservers' := filter_nameservers servers in
  let numservers := length nameservers' in
  (* Parse the addresses before actually locking or changing any state *)
  match mapM getaddrinfo_numeric nameservers' with
  | None => (st, - EINVAL)
  | Some nsaddrinfo' =>
      match find_cache_info_locked (res_cache_list st) id with
      | None => (st, - ENONET)
      | Some cache_info =>
          let old_max_samples := max_samples (params cache_info) in
          let cache_info := set_params cache_info (resolv_set_experiment_params p) in
          let cache_info :=
            if negb (resolv_is_nameservers_equal (nameservers cache_info) nameservers')
            then
              (* free current before adding new *)
              let cache_info := free_nameservers_locked cache_info in
              let cache_info := set_nameservers cache_info nameservers' in
              let cache_info :=
                set_nsaddrinfo cache_info
                  ((Some <$> nsaddrinfo') ++ drop numservers (nsaddrinfo cache_info)) in
              let cache_info := set_nscount cache_info (Z.of_nat numservers) in
              (* Clear the NS statistics because the mapping to nameservers
                 might have changed. *)
              let cache_info := res_cache_clear_stats_locked cache_info in
              set_revision_id cache_info (revision_id cache_info + 1)
            else if negb (max_samples (params cache_info) =? old_max_samples)
            then
              let cache_info := res_cache_clear_stats_locked cache_info in
              set_revision_id cache_info (revision_id cache_info + 1)
            else cache_info in
          (* Always update the search paths. *)
          let cache_info := set_search_domains cache_info (filter_domains domains) in
          ({| res_cache_list :=
                update_cache_info (res_cache_list st) id (fun _ => cache_info);
              cv_notified := cv_notified st |}, 0)
      end
  end.

Definition _res_cache_add_stats_sample_locked (stats : res_stats)
    (sample : res_sample) (max_samples : Z) : res_stats :=
  let samples' := <[Z.to_nat (sample_next stats) := sample]> (samples stats) in
  let count' := if sample_count stats <? max_samples
                then sample_count stats + 1 else sample_count stats in
  let next' := (sample_next stats + 1) mod 256 in
  {| samples := samples'; sample_count := count';
     sample_next := if max_samples <=? next' then 0 else next' |}.

Definition _resolv_cache_add_resolver_stats_sample (st : State) (id : Z)
    (revision : Z) (ns : nat) (sample : res_sample) (max_samples : Z) : State :=
  if max_samples <=? 0 then st
  else
    match find_cache_info_locked (res_cache_list st) id with
    | Some info =>
        if revision_id info =? revision then
          {| res_cache_list :=
               update_cache_info (res_cache_list st) id
                 (fun info =>
                    set_nsstats info
                      (alter (fun s => _res_cache_add_stats_sample_locked s sample max_samples)
                         ns (nsstats info)));
             cv_notified := cv_notified st |}
        else st
    | None => st
    end.

(** The statistics of one server after the samples [l] were added in that
    order. *)
Definition add_samples (stats : res_stats) (l : list res_sample) (max_samples : Z)
    : res_stats :=
  fold_left (fun s x => _res_cache_add_stats_sample_locked s x max_samples) l stats.

(** The loop of [_resolv_populate_res_for_net] over the address slots: it
    stops at the first null slot, and [nserv] is where it stopped. *)
Fixpoint populate_loop (slots : list (option addrinfo)) : nat :=
  match slots with
  | Some _ :: slots' => S (populate_loop slots')
  | _ => O
  end.

(** [_resolv_populate_res_for_net]: what it stores into [statp->nscount] and
    [statp->search_domains]; [None] when the network is unknown and [statp]
    is left as it was.  The copies of the addresses into the slots of
    [statp] are not part of the result. *)
Definition _resolv_populate_res_for_net (st : State) (id : Z)
    : option (Z * list string) :=
  match find_cache_info_locked (res_cache_list st) id with
  | Some info =>
      Some (Z.of_nat (populate_loop (take MAXNS (nsaddrinfo info))),
            search_domains info)
  | None => None
  end.

(** The shape of the nameserver fields of a record: [nscount] addresses in
    the first slots, null in the others, and as many names as addresses. *)
Definition info_ok (info : resolv_cache_info) : Prop :=
  exists addrs : list addrinfo,
    nsaddrinfo info = (Some <$> addrs) ++ replicate (MAXNS - length addrs) None
    /\ (length addrs <= MAXNS)%nat
    /\ nscount info = Z.of_nat (length addrs)
    /\ length (nameservers info) = length addrs.

(** No two records of the registry carry the same netid, and every record
    has that shape. *)
Definition registry_ok (st : State) : Prop :=
  NoDup (netid <$> res_cache_list st) /\ Forall info_ok (res_cache_list st).

(** [resolv_cache_get_resolver_stats]: the revision id, or [-1]. *)
Definition resolv_cache_get_resolver_stats (st : State) (id : Z)
    : Z * option (res_params * list res_stats) :=
  match find_cache_info_locked (res_cache_list st) id with
  | Some info => (revision_id info, Some (params info, nsstats info))
  | None => (-1, None)
  end.

Definition step (st : State) (o : op) : State :=
  match o with
  | OpCreate id => fst (resolv_create_cache_for_net st id)
  | OpDelete id => resolv_delete_cache_for_net st id
  | OpFlush id => fst (resolv_flush_cache_for_net st id)
  | OpLookup id query answersize flags now =>
      fst (resolv_cache_lookup st id query answersize flags now)
  | OpWakeup id key answersize now =>
      fst (resolv_cache_lookup_wakeup st id key answersize now)
  | OpAdd id query answer now => fst (resolv_cache_add st id query answer now)
  | OpQueryFailed id query flags => _resolv_cache_query_failed st id query flags
  | OpSetNameservers id servers domains p =>
      fst (resolv_set_nameservers st id servers domains p)
  | OpAddSample id revision ns sample max_samples =>
      _resolv_cache_add_resolver_stats_sample st id revision ns sample max_samples
  end.

(** The state after the operations [ops], made in that order from [st]. *)
Definition run (ops : list op) (st : State) : State := fold_left step ops st.

End Env.

(** *** An environment for the examples *)

(** A reader that takes every buffer to parse to the message [m]. *)
Definition reader_of (m : Answer.ns_msg) (answer : list Z) : option Answer.ns_msg :=
  Some m.

(** One A record with the given TTL in the answer section. *)
Definition msg_one_answer (ttl : Z) : Answer.ns_msg :=
  Answer.mk_msg [Some (Answer.mk_rr 1 ttl [1; 2; 3; 4])] [].

(** Dotted-quad addresses of one-digit parts, e.g. ["8.8.4.4"]; everything
    else does not parse. *)
Definition digit_of (c : Ascii.ascii) : option Z :=
  let n := Z.of_nat (Ascii.nat_of_ascii c) in
  if (48 <=? n) && (n <=? 57) then Some (n - 48) else None.

Definition parse_quad (server : string) : option (list Z) :=
  match server with
  | String a (String dot1 (String b (String dot2
      (String c (String dot3 (String d EmptyString)))))) =>
      if forallb (fun x => Ascii.nat_of_ascii x =? 46)%nat [dot1; dot2; dot3]
      then mapM digit_of [a; b; c; d] else None
  | _ => None
  end.

Definition getaddrinfo_quad (server : string) : option addrinfo :=
  mkAddrinfo 2 <$> parse_quad server.

Definition example_query : list Z := mk_query 18 52 1 0 1 0 q_www_android_com.

(** An answer buffer for the examples; the reader decides what it means. *)
Definition example_answer : list Z :=
  mk_query 18 52 129 128 1 0 q_www_android_com.

(** Queries for distinct two-byte names, TYPE A, CLASS IN, and the
    operations that create the cache of network [id] and add an answer for
    the first [n] of them. *)
Definition numbered_query (n : nat) : list Z :=
  mk_query 0 0 1 0 1 0 [2; Z.of_nat (n / 256); Z.of_nat (n mod 256); 0; 0; 1; 0; 1].

Definition fill_ops (id : Z) (n : nat) : list op :=
  OpCreate id :: ((fun i => OpAdd id (numbered_query i) example_answer 1000) <$> seq 0 n).

(** The cache of a network known to have one. *)
Definition cache_of (st : State) (id : Z) : Cache :=
  default resolv_cache_create (find_named_cache_locked (res_cache_list st) id).

(** The record of a network known to the registry. *)
Definition info_of (st : State) (id : Z) : resolv_cache_info :=
  default (create_cache_info 0 0) (find_cache_info_locked (res_cache_list st) id).

(** The entry points under the environment of the examples: every answer
    parses to one A record with TTL [ttl], four nameserver slots. *)
Definition ex_add (ttl : Z) : State -> Z -> list Z -> list Z -> Z -> State * Z :=
  resolv_cache_add (reader_of (msg_one_answer ttl)) Answer.dn_skipname_labels.

Definition ex_run (ttl : Z) : list op -> State -> State :=
  run (reader_of (msg_one_answer ttl)) Answer.dn_skipname_labels 4 64 6 256
    getaddrinfo_quad None None [].

Definition ex_set_nameservers
    : State -> Z -> list string -> list string -> res_params -> State * Z :=
  resolv_set_nameservers 4 6 256 getaddrinfo_quad None None.

Definition ex_params (max_samples : Z) : res_params :=
  mkParams 1800 75 8 max_samples 0 0.

(** Network 30 with two nameservers and at most 8 samples per server, after
    one sample was recorded for the first server and two for the second
    (the revision id is 2 after the first configuration). *)
Definition ex_configured : State :=
  ex_run 60
    [OpCreate 30;
     OpSetNameservers 30 ["8.8.8.8"; "8.8.4.4"]%string [] (ex_params 8);
     OpAddSample 30 2 0 (mkSample 1000 20000 0) 8;
     OpAddSample 30 2 1 (mkSample 1000 30000 0) 8;
     OpAddSample 30 2 1 (mkSample 1001 30000 2) 8]
    initial_state.

(** [sample_count] and [sample_next] of every slot, and the revision id, of
    a network. *)
Definition stats_view (st : State) (id : Z) : list (Z * Z) * Z :=
  match find_cache_info_locked (res_cache_list st) id with
  | Some info => ((fun s => (sample_count s, sample_next s)) <$> nsstats info,
                  revision_id info)
  | None => ([], -1)
  end.

End Resolv.

(** ** The send engine (res_send.cpp, lines 284-392, 478-606 and 608-1046) *)

Module Send.
Import Resolv.

Definition PACKETSZ : Z := 512.
Definition HFIXEDSZ : Z := 12.

Definition FORMERR : Z := 1.
Definition SERVFAIL : Z := 2.
Definition NOTIMP : Z := 4.
Definition REFUSED : Z := 5.
Definition RCODE_INTERNAL_ERROR : Z := 254.
Definition RCODE_TIMEOUT : Z := 255.

(** [int] results are reduced to the 32-bit two's complement range. *)
Definition wrap_int (z : Z) : Z := (z + 2 ^ 31) mod 2 ^ 32 - 2 ^ 31.

Record timespec := mkTimespec { tv_sec : Z; tv_nsec : Z }.

(** The value of [msec] at the end of [get_timeout]; [/=] is C's truncating
    division. *)
Definition get_timeout_msec (nscount : Z) (p : res_params) (ns : Z) : Z :=
  (* Legacy algorithm which scales the timeout by nameserver number. *)
  let msec := wrap_int (Z.shiftl (base_timeout_msec p) ns) in
  let msec := if 0 <? ns then Z.quot msec nscount else msec in
  (* Use at least 1000ms *)
  if msec <? 1000 then 1000 else msec.

Definition get_timeout (nscount : Z) (p : res_params) (ns : Z) : timespec :=
  let msec := get_timeout_msec nscount p ns in
  {| tv_sec := Z.quot msec 1000; tv_nsec := Z.rem msec 1000 * 1000000 |}.

(** The milliseconds a [timespec] stands for. *)
Definition timespec_msec (t : timespec) : Z :=
  tv_sec t * 1000 + Z.quot (tv_nsec t) 1000000.

(** *** Deadlines (the ISC eventlib code, lines 174-228, and
        [retrying_poll])

    [time_t] and [long] arithmetic is written on [Z]: the values are
    readings of the clock and timeouts of a few seconds, and a sum of two
    nanosecond fields below one billion stays below 2^31. *)

Definition BILLION : Z := 1000000000.

Definition evConsTime (sec nsec : Z) : timespec :=
  {| tv_sec := sec; tv_nsec := nsec |}.

Definition evAddTime (addend1 addend2 : timespec) : timespec :=
  let sec := tv_sec addend1 + tv_sec addend2 in
  let nsec := tv_nsec addend1 + tv_nsec addend2 in
  if BILLION <=? nsec then {| tv_sec := sec + 1; tv_nsec := nsec - BILLION |}
  else {| tv_sec := sec; tv_nsec := nsec |}.

Definition evSubTime (minuend subtrahend : timespec) : timespec :=
  let sec := tv_sec minuend - tv_sec subtrahend in
  if tv_nsec subtrahend <=? tv_nsec minuend
  then {| tv_sec := sec; tv_nsec := tv_nsec minuend - tv_nsec subtrahend |}
  else {| tv_sec := sec - 1;
          tv_nsec := BILLION - tv_nsec subtrahend + tv_nsec minuend |}.

(** [#define SGN(x) ((x) < 0 ? (-1) : (x) > 0 ? (1) : (0))] *)
Definition SGN (x : Z) : Z := if x <? 0 then -1 else if 0 <? x then 1 else 0.

Definition evCmpTime (a b : timespec) : Z :=
  let s := tv_sec a - tv_sec b in
  if negb (s =? 0) then SGN s
  else SGN (tv_nsec a - tv_nsec b).

(** The timeout that one pass of [retrying_poll] hands to [ppoll], [now]
    being what [evNowTime()] gives in that pass. *)
Definition poll_timeout (finish now : timespec) : timespec :=
  if 0 <? evCmpTime finish now then evSubTime finish now
  else evConsTime 0 0.

(** The nanoseconds a [timespec] stands for, and the [timespec]s whose
    nanosecond field is in range. *)
Definition timespec_nsec (t : timespec) : Z := tv_sec t * BILLION + tv_nsec t.

Definition timespec_ok (t : timespec) : Prop := 0 <= tv_nsec t < BILLION.

(** *** Choice of one server ([res_set_usable_server]) *)

(** [for (ns = 0; ns < nscount; ns++)], [servers] being the flags from slot
    [ns] on and [usableIndex] the count so far. *)
Fixpoint set_usable_loop (selectedServer usableIndex : Z) (servers : list bool)
    : list bool :=
  match servers with
  | [] => []
  | usable :: servers' =>
      let usableIndex := if usable then usableIndex + 1 else usableIndex in
      (if negb (usableIndex =? selectedServer) then false else usable)
      :: set_usable_loop selectedServer usableIndex servers'
  end.

(** Disables all nameservers other than [selectedServer]; the slots from
    [nscount] on are not visited. *)
Definition res_set_usable_server (selectedServer : Z) (nscount : nat)
    (usable_servers : list bool) : list bool :=
  set_usable_loop selectedServer 0 (take nscount usable_servers)
  ++ drop nscount usable_servers.

(** The number of usable servers among [servers]. *)
Fixpoint count_usable (servers : list bool) : Z :=
  match servers with
  | [] => 0
  | usable :: servers' => (if usable then 1 else 0) + count_usable servers'
  end.

(** *** What the network does

    The sockets are the environment of the engine.  One call of [send_dg] is
    driven by what the socket set-up and [send] did, and by the sequence of
    things [retrying_poll] and [recvfrom] report afterwards; one call of
    [send_vc] by the way each pass over its body ends. *)

Inductive dg_setup :=
  | DgReady                      (* a socket is there and [send] went through *)
  | DgSocketUnsupported          (* socket(): E(PROTO|PF|AF)NOSUPPORT *)
  | DgSocketError (errno : Z)    (* socket(): any other error *)
  | DgSetsockoptError
  | DgBindError
  | DgConnectError
  | DgSendError.

(** The outcome of the tests that [send_dg] makes on a datagram; see
    [datagram_of] for how they come from the bytes received. *)
Record datagram := mkDatagram {
  d_resplen : Z;          (* what recvfrom returned *)
  d_id_ok : bool;         (* hp->id == anhp->id *)
  d_ourserver : bool;     (* res_ourserver_p *)
  d_rcode : Z;            (* anhp->rcode *)
  d_queriesmatch : bool;  (* res_queriesmatch *)
  d_tc : bool             (* anhp->tc *)
}.

Inductive dg_event :=
  | DgPollTimeout
  | DgPollError
  | DgRecv (d : datagram).

Record dg_io := mkDgIo { dg_set_up : dg_setup; dg_events : list dg_event }.

(** How a pass over the body of [send_vc] ends.  [send_vc] reads without
    a deadline and reads again after an answer with a foreign id
    ([goto read_len]): a pass that never ends has no outcome here, and what
    is proved of the retry loop is proved of the runs in which every call of
    [send_vc] returns. *)
Inductive vc_round :=
  | VcSocketUnsupported
  | VcSocketError (errno : Z)
  | VcSetsockoptError (errno : Z)
  | VcBindError (errno : Z)
  | VcConnectError (errno : Z)
  | VcWriteError (errno : Z)
  | VcReadLenError (errno : Z)   (* reading the 2-byte length failed *)
  | VcUndersized
  | VcReadError (errno : Z)      (* reading the body failed *)
  | VcAnswer (resplen rcode : Z).

(** The second round is looked at only when the first one ends in a
    connection reset while reading the length ([goto same_ns]). *)
Record vc_io := mkVcIo { vc_first : vc_round; vc_second : vc_round }.

Record net_io := mkNetIo { as_dg : dg_io; as_vc : vc_io }.

(** The variables of [res_nsend] that the two senders write through
    pointers, with the loop counter and the number of calls of [send_dg] and
    [send_vc] made so far. *)
Record loop_state := mkLoop {
  attempt : Z;
  useTcp : bool;
  gotsomewhere : bool;
  terrno : Z;
  rcode : Z;
  sends : nat
}.

Definition set_terrno (st : loop_state) (e : Z) : loop_state :=
  mkLoop (attempt st) (useTcp st) (gotsomewhere st) e (rcode st) (sends st).
Definition set_rcode (st : loop_state) (r : Z) : loop_state :=
  mkLoop (attempt st) (useTcp st) (gotsomewhere st) (terrno st) r (sends st).
Definition set_gotsomewhere (st : loop_state) : loop_state :=
  mkLoop (attempt st) (useTcp st) true (terrno st) (rcode st) (sends st).
Definition set_useTcp (st : loop_state) (b : bool) : loop_state :=
  mkLoop (attempt st) b (gotsomewhere st) (terrno st) (rcode st) (sends st).
Definition set_attempt (st : loop_state) (a : Z) : loop_state :=
  mkLoop a (useTcp st) (gotsomewhere st) (terrno st) (rcode st) (sends st).
Definition count_send (st : loop_state) : loop_state :=
  mkLoop (attempt st) (useTcp st) (gotsomewhere st) (terrno st) (rcode st) (S (sends st)).

(** [send_dg] from the label [retry] on. [use_edns] is
    [statp->netcontext_flags & NET_CONTEXT_FLAG_USE_EDNS].  When the
    environment has nothing more to report, the poll runs into its
    deadline. *)
Fixpoint send_dg_wait (use_edns : bool) (events : list dg_event) (st : loop_state)
    : Z * loop_state :=
  match events with
  | [] => (0, set_gotsomewhere (set_rcode st RCODE_TIMEOUT))
  | DgPollTimeout :: _ => (0, set_gotsomewhere (set_rcode st RCODE_TIMEOUT))
  | DgPollError :: _ => (0, st)
  | DgRecv d :: events' =>
      if d_resplen d <=? 0 then (0, st)
      else
        let st := set_gotsomewhere st in
        if d_resplen d <? HFIXEDSZ then (0, set_terrno st EMSGSIZE)
        else if negb (d_id_ok d) then send_dg_wait use_edns events' st
        else if negb (d_ourserver d) then send_dg_wait use_edns events' st
        else if (d_rcode d =? FORMERR) && use_edns then (0, st)
        else if negb (d_queriesmatch d) then send_dg_wait use_edns events' st
        else if (d_rcode d =? SERVFAIL) || (d_rcode d =? NOTIMP) || (d_rcode d =? REFUSED)
        then (0, set_rcode st (d_rcode d))
        else if d_tc d then (1, set_useTcp st true)
        else (d_resplen d, set_rcode st (d_rcode d))
  end.

Definition send_dg (use_edns : bool) (io : dg_io) (st : loop_state) : Z * loop_state :=
  match dg_set_up io with
  | DgSocketUnsupported => (0, st)
  | DgSocketError errno => (-1, set_terrno st errno)
  | DgSetsockoptError => (-1, st)
  | DgBindError | DgConnectError | DgSendError => (0, st)
  | DgReady => send_dg_wait use_edns (dg_events io) st
  end.

(** One pass over the body of [send_vc]; [None] is [goto same_ns]. *)
Definition send_vc_round (r : vc_round) (connreset : bool) (st : loop_state)
    : option (Z * loop_state) :=
  match r with
  | VcSocketUnsupported => Some (0, st)
  | VcSocketError errno => Some (-1, set_terrno st errno)
  | VcSetsockoptError errno => Some (-1, set_terrno st errno)
  | VcBindError errno => Some (0, set_terrno st errno)
  | VcConnectError errno => Some (0, set_rcode (set_terrno st errno) RCODE_TIMEOUT)
  | VcWriteError errno => Some (0, set_terrno st errno)
  | VcReadLenError errno =>
      if (errno =? ECONNRESET) && negb connreset then None
      else Some (0, set_terrno st errno)
  | VcUndersized => Some (0, set_terrno st EMSGSIZE)
  | VcReadError errno => Some (0, set_terrno st errno)
  | VcAnswer resplen rc =>
      Some (resplen, if 0 <? resplen then set_rcode st rc else st)
  end.

Definition send_vc (io : vc_io) (st : loop_state) : Z * loop_state :=
  match send_vc_round (vc_first io) false st with
  | Some r => r
  | None =>
      (* one reset is forgiven: the same server is tried once more *)
      let st := set_terrno st ECONNRESET in
      match send_vc_round (vc_second io) true st with
      | Some r => r
      | None => (0, st)
      end
  end.

(** *** Whose answer it is: [res_ourserver_p], [res_nameinquery] and
        [res_queriesmatch] (lines 284-392)

    The tests that [send_dg] makes on a datagram, computed from what
    [recvfrom] delivered. *)

Definition INT16SZ : nat := 2.
Definition ns_o_update : Z := 5.
Definition INADDR_ANY : Z := 0.

(** A socket address, as far as [res_ourserver_p] reads it: port and
    address of an [AF_INET] one, port, scope id and the 16 address bytes of
    an [AF_INET6] one, the family of any other. *)
Inductive sockaddr :=
  | sockaddr_in (sin_port : Z) (s_addr : Z)
  | sockaddr_in6 (sin6_port : Z) (sin6_scope_id : Z) (sin6_addr : list Z)
  | sockaddr_other (sa_family : Z).

(** The fields of [HEADER] that the senders read.  [HEADER]
    (arpa/nameser_compat.h) overlays the wire format, the one that
    [_dnsPacket_checkQuery] reads byte by byte: the id in bytes 0 and 1;
    QR, the opcode (4 bits), AA, TC and RD in byte 2; the rcode in the low
    four bits of byte 3; QDCOUNT in bytes 4 and 5. *)
Definition header_id (buf : list Z) : Z := Packet.read16 buf 0.
Definition header_opcode (buf : list Z) : Z :=
  Z.land (Z.shiftr (Packet.byte_at buf 2) 3) 15.
Definition header_tc (buf : list Z) : bool := Z.testbit (Packet.byte_at buf 2) 1.
Definition header_rcode (buf : list Z) : Z := Z.land (Packet.byte_at buf 3) 15.
Definition header_qdcount (buf : list Z) : Z := Packet.read16 buf 4.

(** What one [recvfrom] of [send_dg] delivered: the value returned, the
    address stored into [from], and the answer buffer afterwards, all
    [anssiz] bytes of it. *)
Record received := mkReceived {
  rv_resplen : Z;
  rv_from : sockaddr;
  rv_ans : list Z
}.

Inductive dg_raw_event :=
  | RawPollTimeout
  | RawPollError
  | RawRecv (r : received).

Section Match.

(** [dn_expand(msg, eom, msg + cp, tname, sizeof tname)] and [ns_samename]
    of the resolver library (res_comp.cpp and ns_samedomain.cpp, not among
    the sources at hand): the expanded name with the number of bytes it
    takes at [cp], [None] for a negative result; and 1, 0 or -1. *)
Variable dn_expand : list Z -> nat -> option (list Z * nat).
Variable ns_samename : list Z -> list Z -> Z.

(** Whether [HAVE_SIN6_SCOPE_ID] is defined. *)
Variable HAVE_SIN6_SCOPE_ID : bool.

(** The test that [res_ourserver_p] makes on the server [srv] for the
    address [inp] of family [AF_INET]. *)
Definition ourserver_in (sin_port s_addr : Z) (srv : sockaddr) : bool :=
  match srv with
  | sockaddr_in srv_port srv_addr =>
      (srv_port =? sin_port) && ((srv_addr =? INADDR_ANY) || (srv_addr =? s_addr))
  | _ => false
  end.

(** The same for an address of family [AF_INET6]. *)
Definition ourserver_in6 (sin6_port sin6_scope_id : Z) (sin6_addr : list Z)
    (srv : sockaddr) : bool :=
  match srv with
  | sockaddr_in6 srv_port srv_scope_id srv_addr =>
      (srv_port =? sin6_port)
      && (if HAVE_SIN6_SCOPE_ID
          then (srv_scope_id =? 0) || (srv_scope_id =? sin6_scope_id)
          else true)
      && (forallb (fun b => b =? 0) srv_addr        (* IN6_IS_ADDR_UNSPECIFIED *)
          || Packet.bytes_eqb srv_addr sin6_addr)   (* IN6_ARE_ADDR_EQUAL *)
  | _ => false
  end.

(** Looks up the nameserver address in [nsaddrs], the first [nscount]
    slots of it. *)
Definition res_ourserver_p (nscount : Z) (nsaddrs : list sockaddr) (sa : sockaddr)
    : bool :=
  match sa with
  | sockaddr_in sin_port s_addr =>
      existsb (ourserver_in sin_port s_addr) (take (Z.to_nat nscount) nsaddrs)
  | sockaddr_in6 sin6_port sin6_scope_id sin6_addr =>
      existsb (ourserver_in6 sin6_port sin6_scope_id sin6_addr)
        (take (Z.to_nat nscount) nsaddrs)
  | sockaddr_other _ => false
  end.

(** Whether [res_ourserver_p] takes the server [srv] for the one at
    [sa]. *)
Definition ourserver_match (sa srv : sockaddr) : bool :=
  match sa with
  | sockaddr_in sin_port s_addr => ourserver_in sin_port s_addr srv
  | sockaddr_in6 sin6_port sin6_scope_id sin6_addr =>
      ourserver_in6 sin6_port sin6_scope_id sin6_addr srv
  | sockaddr_other _ => false
  end.

(** The [while (qdcount-- > 0)] loop of [res_nameinquery]; [buf] is the
    packet up to [eom], [cp] the offset reached. *)
Fixpoint nameinquery_loop (qdcount : nat) (name : list Z) (type cl : Z)
    (buf : list Z) (cp : nat) : Z :=
  match qdcount with
  | O => 0
  | S qdcount' =>
      match dn_expand buf cp with
      | None => -1
      | Some (tname, n) =>
          let cp := (cp + n)%nat in
          if (length buf <? cp + 2 * INT16SZ)%nat then -1
          else
            let ttype := Packet.read16 buf cp in
            let cp := (cp + INT16SZ)%nat in
            let tclass := Packet.read16 buf cp in
            let cp := (cp + INT16SZ)%nat in
            if (ttype =? type) && (tclass =? cl) && (ns_samename tname name =? 1)
            then 1
            else nameinquery_loop qdcount' name type cl buf cp
      end
  end.

(** Looks for (name, type, cl) in the query section of the packet:
    -1 format error, 0 not found, 1 found. *)
Definition res_nameinquery (name : list Z) (type cl : Z) (buf : list Z) : Z :=
  nameinquery_loop (Z.to_nat (header_qdcount buf)) name type cl buf
    (Z.to_nat HFIXEDSZ).

(** The [while (qdcount-- > 0)] loop of [res_queriesmatch]. *)
Fixpoint queriesmatch_loop (qdcount : nat) (buf1 buf2 : list Z) (cp : nat) : Z :=
  match qdcount with
  | O => 1
  | S qdcount' =>
      match dn_expand buf1 cp with
      | None => -1
      | Some (tname, n) =>
          let cp := (cp + n)%nat in
          if (length buf1 <? cp + 2 * INT16SZ)%nat then -1
          else
            let ttype := Packet.read16 buf1 cp in
            let cp := (cp + INT16SZ)%nat in
            let tclass := Packet.read16 buf1 cp in
            let cp := (cp + INT16SZ)%nat in
            if res_nameinquery tname ttype tclass buf2 =? 0 then 0
            else queriesmatch_loop qdcount' buf1 buf2 cp
      end
  end.

Definition res_queriesmatch (buf1 buf2 : list Z) : Z :=
  if (Z.of_nat (length buf1) <? HFIXEDSZ) || (Z.of_nat (length buf2) <? HFIXEDSZ)
  then -1
  (* Only header section present in replies to dynamic update packets. *)
  else if (header_opcode buf1 =? ns_o_update) && (header_opcode buf2 =? ns_o_update)
  then 1
  else if negb (header_qdcount buf1 =? header_qdcount buf2) then 0
  else queriesmatch_loop (Z.to_nat (header_qdcount buf1)) buf1 buf2 (Z.to_nat HFIXEDSZ).

(** The query [buf] that [send_dg] sent, and the servers of [statp]. *)
Variable buf : list Z.
Variable nscount : Z.
Variable nsaddrs : list sockaddr.

(** The outcome of the tests of [send_dg] on what [recvfrom] delivered:
    [hp->id != anhp->id], [!res_ourserver_p(statp, &from)], [anhp->rcode],
    [!res_queriesmatch(buf, buf + buflen, ans, ans + anssiz)] and
    [anhp->tc]. *)
Definition datagram_of (r : received) : datagram :=
  {| d_resplen := rv_resplen r;
     d_id_ok := header_id buf =? header_id (rv_ans r);
     d_ourserver := res_ourserver_p nscount nsaddrs (rv_from r);
     d_rcode := header_rcode (rv_ans r);
     d_queriesmatch := negb (res_queriesmatch buf (rv_ans r) =? 0);
     d_tc := header_tc (rv_ans r) |}.

Definition dg_event_of (ev : dg_raw_event) : dg_event :=
  match ev with
  | RawPollTimeout => DgPollTimeout
  | RawPollError => DgPollError
  | RawRecv r => DgRecv (datagram_of r)
  end.

(** The questions of a packet as [res_nameinquery] and [res_queriesmatch]
    walk them: name, type and class of each of the first [qdcount], [None]
    where the walk meets a format error. *)
Fixpoint questions_loop (qdcount : nat) (msg : list Z) (cp : nat)
    : option (list (list Z * Z * Z)) :=
  match qdcount with
  | O => Some []
  | S qdcount' =>
      match dn_expand msg cp with
      | None => None
      | Some (tname, n) =>
          let cp := (cp + n)%nat in
          if (length msg <? cp + 2 * INT16SZ)%nat then None
          else
            let ttype := Packet.read16 msg cp in
            let cp := (cp + INT16SZ)%nat in
            let tclass := Packet.read16 msg cp in
            let cp := (cp + INT16SZ)%nat in
            match questions_loop qdcount' msg cp with
            | None => None
            | Some qs => Some ((tname, ttype, tclass) :: qs)
            end
      end
  end.

Definition questions (msg : list Z) : option (list (list Z * Z * Z)) :=
  questions_loop (Z.to_nat (header_qdcount msg)) msg (Z.to_nat HFIXEDSZ).

(** Whether the question [q'] of an answer is the question [q]: the test of
    [res_nameinquery]. *)
Definition same_question (q q' : list Z * Z * Z) : bool :=
  let '(name, type, cl) := q in
  let '(tname, ttype, tclass) := q' in
  (ttype =? type) && (tclass =? cl) && (ns_samename tname name =? 1).

End Match.

(** A reader of names made of plain labels, giving the labels joined by
    dots, and the comparison of names byte by byte; used to run the
    examples. *)
Fixpoint expand_labels (fuel : nat) (p : list Z) : option (list Z * nat) :=
  match fuel with
  | O => None
  | S fuel' =>
      match p with
      | [] => None
      | n :: p' =>
          if n =? 0 then Some ([], 1%nat)
          else if (n <? 64) && (Z.to_nat n <=? length p')%nat then
            match expand_labels fuel' (drop (Z.to_nat n) p') with
            | None => None
            | Some (name, k) =>
                Some (take (Z.to_nat n) p' ++ (if bool_decide (name = []) then []
                                                else 46 :: name),
                      (1 + Z.to_nat n + k)%nat)
            end
          else None
      end
  end.

Definition dn_expand_labels (msg : list Z) (cp : nat) : option (list Z * nat) :=
  expand_labels (S (length msg)) (drop cp msg).

Definition ns_samename_bytes (a b : list Z) : Z :=
  if bool_decide (a = b) then 1 else 0.

(** The answer of 8.8.8.8, port 53, to [example_query], in a buffer of 64
    bytes: the header and the question, then what the buffer held before. *)
Definition ex_received : received :=
  {| rv_resplen := 33;
     rv_from := sockaddr_in 53 134744072;
     rv_ans := Packet.mk_query 18 52 129 128 1 0 Packet.q_www_android_com
               ++ replicate 31 0 |}.

(** *** The retry loop of [res_nsend] (lines 478-579) *)

(** One [DnsQueryEvent]: which send it was, the server, [attempt] as passed
    to [set_retry_times], the protocol, the rcode, and whether a statistics
    sample was recorded for it. *)
Record query_event := mkEvent {
  ev_send : nat;
  ev_ns : Z;
  ev_retry_times : Z;
  ev_tcp : bool;
  ev_rcode : Z;
  ev_sample : bool
}.

(** How the [for each ns] loop is left. *)
Inductive ns_exit :=
  | Answered (resplen : Z) (st : loop_state)   (* return resplen *)
  | Failed (st : loop_state)                   (* resplen < 0: return -terrno *)
  | ServersDone (st : loop_state).             (* ns reached nscount *)

(** What [res_nsend] asks of the cache on its way out. *)
Inductive cache_call :=
  | CallNothing
  | CallQueryFailed
  | CallAdd (resplen : Z).

Record nsend_result := mkResult {
  nr_ret : Z;
  nr_cache : cache_call;
  nr_events : list query_event
}.

Section Retry.

(** What the network does at the k-th call of [send_dg] or [send_vc]. *)
Variable net : nat -> net_io.
Variable use_edns : bool.
(** [statp->tc_mode == TC_MODE_UDP_TCP] *)
Variable tc_mode_udp_tcp : bool.
(** [statp->nscount] and [usable_servers[]] *)
Variable nscount : Z.
Variable usable_servers : list bool.
Variable retryTimes : Z.
Variable buflen : Z.

(** The body of the inner loop up to the statistics: the send itself. The
    result is [resplen], the state and [fallbackTCP]. *)
Definition send_once (st : loop_state) : Z * loop_state * bool :=
  let io := net (sends st) in
  let st := count_send st in
  if useTcp st then
    (* TCP; at most one attempt per server. *)
    let st := set_attempt st retryTimes in
    let '(resplen, st) := send_vc (as_vc io) st in
    let st :=
      if (buflen <=? PACKETSZ) && (resplen <=? 0) && tc_mode_udp_tcp
      then set_useTcp st false else st in
    (resplen, st, false)
  else
    (* UDP *)
    let '(resplen, st) := send_dg use_edns (as_dg io) st in
    (resplen, st, useTcp st).

(** [for (int ns = 0; ns < statp->nscount; ++ns)]. [ns--; continue] makes a
    round start again at the same server, so the rounds are counted by
    [fuel]; [None] is "out of fuel" (lemma [ns_loop_fuel]: it does not
    happen from [2 * nscount + 1] rounds on). *)
Fixpoint ns_loop (fuel : nat) (ns : Z) (st : loop_state) (log : list query_event)
    : option (ns_exit * list query_event) :=
  match fuel with
  | O => None
  | S fuel' =>
      if nscount <=? ns then Some (ServersDone st, log)
      else if negb (nth (Z.to_nat ns) usable_servers false)
      then ns_loop fuel' (ns + 1) st log
      else
        let st := set_rcode st RCODE_INTERNAL_ERROR in
        let tcp := useTcp st in
        let shouldRecordStats := attempt st =? 0 in
        let k := sends st in
        let '(resplen, st, fallbackTCP) := send_once st in
        let log := log ++ [mkEvent k ns (attempt st) tcp (rcode st) shouldRecordStats] in
        if resplen =? 0 then ns_loop fuel' (ns + 1) st log
        else if fallbackTCP then ns_loop fuel' (ns - 1 + 1) st log
        else if resplen <? 0 then Some (Failed st, log)
        else Some (Answered resplen st, log)
  end.

(** [for (int attempt = 0; attempt < retryTimes; ++attempt)]: [attempt]
    grows in every round, so [retryTimes] rounds are enough. *)
Fixpoint attempt_loop (rounds : nat) (st : loop_state) (log : list query_event)
    : option (ns_exit * list query_event) :=
  if retryTimes <=? attempt st then Some (ServersDone st, log)
  else
    match rounds with
    | O => None
    | S rounds' =>
        match ns_loop (2 * Z.to_nat nscount + 1) 0 st log with
        | Some (ServersDone st, log) =>
            attempt_loop rounds' (set_attempt st (attempt st + 1)) log
        | r => r
        end
    end.

Definition loop_start : loop_state :=
  {| attempt := 0; useTcp := PACKETSZ <? buflen; gotsomewhere := false;
     terrno := ETIMEDOUT; rcode := 0; sends := 0 |}.

Definition retry_loop : option (ns_exit * list query_event) :=
  attempt_loop (Z.to_nat retryTimes) loop_start [].

(** [terrno = useTcp ? terrno : gotsomewhere ? ETIMEDOUT : ECONNREFUSED] *)
Definition final_terrno (st : loop_state) : Z :=
  if useTcp st then terrno st
  else if gotsomewhere st then ETIMEDOUT else ECONNREFUSED.

(** [res_nsend] from "Send request, RETRY times, or until successful" to its
    end; [cache_status] is what the lookup at the start of [res_nsend]
    gave. *)
Definition res_nsend_retry (cache_status : ResolvCacheStatus)
    : option nsend_result :=
  match retry_loop with
  | None => None
  | Some (Answered resplen st, log) =>
      Some (mkResult resplen
              (match cache_status with
               | RESOLV_CACHE_NOTFOUND => CallAdd resplen
               | _ => CallNothing
               end) log)
  | Some (Failed st, log) => Some (mkResult (- terrno st) CallQueryFailed log)
  | Some (ServersDone st, log) =>
      Some (mkResult (- final_terrno st) CallQueryFailed log)
  end.

End Retry.

(** Whether a call of [send_dg] "got somewhere": the socket was ready and
    the first thing to happen was a poll timeout or the arrival of a
    datagram. *)
Definition dg_contact (io : dg_io) : bool :=
  match dg_set_up io with
  | DgReady =>
      match dg_events io with
      | [] => true
      | DgPollTimeout :: _ => true
      | DgPollError :: _ => false
      | DgRecv d :: _ => 0 <? d_resplen d
      end
  | _ => false
  end.


(** The state in which the loop over the servers is left. *)
Definition exit_state (x : ns_exit) : loop_state :=
  match x with
  | Answered _ st | Failed st | ServersDone st => st
  end.


(** The rounds that the loop over the servers may still need: one to see
    that the servers are done, else two per server left, one less when the
    query is in TCP mode (a TCP send never asks for the same server
    again). *)
Definition rounds_needed (nscount : Z) (ns : Z) (st : loop_state) : nat :=
  if nscount <=? ns then 1%nat
  else (2 * Z.to_nat (nscount - ns) + (if useTcp st then 0 else 1))%nat.

(** An event that names a server of the list, one that is usable. *)
Definition event_ok (nscount : Z) (usable_servers : list bool) (ev : query_event)
    : Prop :=
  0 <= ev_ns ev < nscount
  /\ nth (Z.to_nat (ev_ns ev)) usable_servers false = true.

(** One event per call of [send_dg] or [send_vc], in the order of the
    calls, each for a usable server. *)
Definition log_ok (nscount : Z) (usable_servers : list bool) (st : loop_state)
    (log : list query_event) : Prop :=
  length log = sends st
  /\ Forall (event_ok nscount usable_servers) log
  /\ (forall (i : nat) (ev : query_event), log !! i = Some ev -> ev_send ev = i).

(** Networks for the examples. *)
Definition dg_truncated : dg_io :=
  mkDgIo DgReady [DgRecv (mkDatagram 40 true true 0 true true)].
Definition dg_silent : dg_io := mkDgIo DgReady [DgPollTimeout].
Definition vc_refused : vc_io :=
  mkVcIo (VcConnectError ECONNREFUSED) (VcConnectError ECONNREFUSED).

(** A server that answers over UDP with TC set and refuses TCP. *)
Definition net_truncated_then_refused (k : nat) : net_io :=
  mkNetIo dg_truncated vc_refused.
(** A server that never answers. *)
Definition net_silent (k : nat) : net_io := mkNetIo dg_silent vc_refused.

End Send.

(** ** The private-DNS tracker (PrivateDnsConfiguration.cpp) *)

Module PrivateDns.

Inductive PrivateDnsMode := OFF | OPPORTUNISTIC | STRICT.

(** [enum class Validation] *)
Module Validation.
Inductive t := in_process | success | fail.
End Validation.

(** [DnsTlsServer]: [ss] is the parsed socket address. *)
Record DnsTlsServer := mkServer {
  ss : list Z;
  name : string;
  certificate : string;
  connectTimeout : Z
}.

(** Modelled from the spec: [DnsTlsServer.h] is not among the sources.
    [operator==] of [DnsTlsServer] compares what the specification orders a
    server record by: address, hostname and certificate. *)
Definition server_eqb (a b : DnsTlsServer) : bool :=
  bool_decide (ss a = ss b) && bool_decide (name a = name b)
  && bool_decide (certificate a = certificate b).

(** Modelled from the spec: [PrivateDnsConfiguration.h] is not among the
    sources.  Two keys of a [PrivateDnsTracker] are the same key when their
    addresses are equal; this is what lets [recordPrivateDnsValidation] find
    an entry that "was changed" (hostname or certificate differ). *)
Definition same_address (a b : DnsTlsServer) : bool := bool_decide (ss a = ss b).

(** [PrivateDnsTracker]: a [std::map] from server to validation state, kept
    as the list of its pairs.  The order of the pairs is not the order of
    the map; no function below depends on it. *)
Definition PrivateDnsTracker := list (DnsTlsServer * Validation.t).

Section Tracker.

(** The equivalence of keys under the comparator of the tracker. *)
Variable same_key : DnsTlsServer -> DnsTlsServer -> bool.

(** [tracker.find(server)] *)
Fixpoint tracker_find (tracker : PrivateDnsTracker) (server : DnsTlsServer)
    : option (DnsTlsServer * Validation.t) :=
  match tracker with
  | [] => None
  | (k, v) :: tracker' =>
      if same_key k server then Some (k, v) else tracker_find tracker' server
  end.

(** [tracker[server] = v]: the value of an existing key is overwritten (the
    key itself stays as it was), a missing key is inserted. *)
Fixpoint tracker_assign (tracker : PrivateDnsTracker) (server : DnsTlsServer)
    (v : Validation.t) : PrivateDnsTracker :=
  match tracker with
  | [] => [(server, v)]
  | (k, x) :: tracker' =>
      if same_key k server then (k, v) :: tracker'
      else (k, x) :: tracker_assign tracker' server v
  end.

(** One [onPrivateDnsValidationEvent(netId, address, hostname, success)]. *)
Record validation_event := mkValidationEvent {
  ve_netId : Z;
  ve_address : list Z;
  ve_hostname : string;
  ve_success : bool
}.

(** The members guarded by [mPrivateDnsLock], and the events sent to the
    listeners so far. *)
Record PrivateDnsConfiguration := mkConfig {
  mPrivateDnsModes : gmap Z PrivateDnsMode;
  mPrivateDnsTransports : gmap Z PrivateDnsTracker;
  sent_events : list validation_event
}.

(** The number of registered listeners
    ([ResolverEventReporter::getInstance().getListeners().size()]). *)
Variable listeners : nat.

Definition NEEDS_REEVALUATION : bool := true.
Definition DONT_REEVALUATE : bool := false.

Definition recordPrivateDnsValidation (cfg : PrivateDnsConfiguration)
    (server : DnsTlsServer) (netId : Z) (success : bool)
    : PrivateDnsConfiguration * bool :=
  match mPrivateDnsTransports cfg !! netId with
  | None => (cfg, DONT_REEVALUATE)
  | Some tracker =>
      match mPrivateDnsModes cfg !! netId with
      | None => (cfg, DONT_REEVALUATE)
      | Some mode =>
          let modeDoesReevaluation :=
            match mode with STRICT => true | _ => false end in
          let reevaluationStatus :=
            if success || negb modeDoesReevaluation
            then DONT_REEVALUATE else NEEDS_REEVALUATION in
          let '(success, reevaluationStatus) :=
            match tracker_find tracker server with
            | None =>
                (* the server was removed during private DNS validation *)
                (false, DONT_REEVALUATE)
            | Some (key, _) =>
                if negb (server_eqb key server)
                then (* the server was changed during private DNS validation *)
                  (false, DONT_REEVALUATE)
                else (success, reevaluationStatus)
            end in
          (* Send a validation event to NetdEventListenerService. *)
          let events :=
            sent_events cfg ++
            replicate listeners (mkValidationEvent netId (ss server) (name server) success) in
          let tracker :=
            if success then tracker_assign tracker server Validation.success
            else tracker_assign tracker server
                   (if reevaluationStatus then Validation.in_process
                    else Validation.fail) in
          ({| mPrivateDnsModes := mPrivateDnsModes cfg;
              mPrivateDnsTransports := <[netId := tracker]> (mPrivateDnsTransports cfg);
              sent_events := events |}, reevaluationStatus)
      end
  end.

(** Start validation for newly added servers as well as any servers that
    have landed in [fail] state. *)
Definition needsValidation (tracker : PrivateDnsTracker) (server : DnsTlsServer) : bool :=
  match tracker_find tracker server with
  | None => true
  | Some (_, v) => match v with Validation.fail => true | _ => false end
  end.

(** [validatePrivateDnsProvider] marks the server and starts a detached
    thread; the thread is not part of the state. *)
Definition validatePrivateDnsProvider (tracker : PrivateDnsTracker)
    (server : DnsTlsServer) : PrivateDnsTracker :=
  tracker_assign tracker server Validation.in_process.

(** [parseServer]: [None] when the address does not parse. *)
Variable parseServer : string -> option (list Z).
(** The connect timeout a [DnsTlsServer] is constructed with. *)
Variable kDotConnectTimeoutMs : Z.
(** [resolv_stats_set_servers_for_dot] belongs to the statistics export. *)
Variable resolv_stats_set_servers_for_dot : Z -> list string -> Z.

(** The members of [tlsServers], a [std::set]: no two are equal. *)
Fixpoint set_insert (server : DnsTlsServer) (l : list DnsTlsServer) : list DnsTlsServer :=
  match l with
  | [] => [server]
  | x :: l' => if server_eqb x server then l else x :: set_insert server l'
  end.

Definition set_config (netId : Z) (servers : list string) (hostname caCert : string)
    (connectTimeoutMs : Z) (cfg : PrivateDnsConfiguration)
    : PrivateDnsConfiguration * Z :=
  (* Parse the list of servers that has been passed in *)
  match mapM parseServer servers with
  | None => (cfg, - EINVAL)
  | Some parsed =>
      let tlsServers :=
        fold_left
          (fun acc addr =>
             set_insert
               (mkServer addr hostname caCert
                  (if 0 <? connectTimeoutMs
                   then (if connectTimeoutMs <? 1000 then 1000 else connectTimeoutMs)
                   else kDotConnectTimeoutMs)) acc)
          parsed [] in
      if negb (bool_decide (hostname = EmptyString)) || negb (bool_decide (tlsServers = [])) then
        let mode := if negb (bool_decide (hostname = EmptyString)) then STRICT
                    else OPPORTUNISTIC in
        (* Create the tracker if it was not present *)
        let tracker := default [] (mPrivateDnsTransports cfg !! netId) in
        (* Remove any servers from the tracker that are not in |servers| exactly. *)
        let tracker :=
          filter (fun kv => existsb (server_eqb (fst kv)) tlsServers = true) tracker in
        (* Add any new or changed servers to the tracker, and initiate async
           checks for them. *)
        let tracker :=
          fold_left
            (fun tracker server =>
               if needsValidation tracker server
               then validatePrivateDnsProvider tracker server else tracker)
            tlsServers tracker in
        ({| mPrivateDnsModes := <[netId := mode]> (mPrivateDnsModes cfg);
            mPrivateDnsTransports := <[netId := tracker]> (mPrivateDnsTransports cfg);
            sent_events := sent_events cfg |},
         resolv_stats_set_servers_for_dot netId servers)
      else
        ({| mPrivateDnsModes := <[netId := OFF]> (mPrivateDnsModes cfg);
            mPrivateDnsTransports := delete netId (mPrivateDnsTransports cfg);
            sent_events := sent_events cfg |}, 0)
  end.

Definition clear (netId : Z) (cfg : PrivateDnsConfiguration) : PrivateDnsConfiguration :=
  {| mPrivateDnsModes := delete netId (mPrivateDnsModes cfg);
     mPrivateDnsTransports := delete netId (mPrivateDnsTransports cfg);
     sent_events := sent_events cfg |}.

(** [getStatus]: the mode and the servers of the tracker with their state. *)
Definition getStatus (netId : Z) (cfg : PrivateDnsConfiguration)
    : PrivateDnsMode * PrivateDnsTracker :=
  match mPrivateDnsModes cfg !! netId with
  | None => (OFF, [])
  | Some mode => (mode, default [] (mPrivateDnsTransports cfg !! netId))
  end.

End Tracker.

Definition config_empty : PrivateDnsConfiguration :=
  {| mPrivateDnsModes := ∅; mPrivateDnsTransports := ∅; sent_events := [] |}.

(** The tracker of a network, empty when there is none. *)
Definition tracker_of (cfg : PrivateDnsConfiguration) (netId : Z) : PrivateDnsTracker :=
  default [] (mPrivateDnsTransports cfg !! netId).

(** The entry points for the examples: trackers keyed by address, one
    listener, dotted-quad addresses. *)
Definition ex_set_config
    : Z -> list string -> string -> string -> Z -> PrivateDnsConfiguration ->
      PrivateDnsConfiguration * Z :=
  set_config same_address Resolv.parse_quad 127000 (fun _ _ => 0).

Definition ex_record
    : PrivateDnsConfiguration -> DnsTlsServer -> Z -> bool ->
      PrivateDnsConfiguration * bool :=
  recordPrivateDnsValidation same_address 1.

Definition server_a : DnsTlsServer := mkServer [1; 1; 1; 1] "" "" 127000.
Definition server_a_strict : DnsTlsServer :=
  mkServer [1; 1; 1; 1] "dns.example" "" 127000.
Definition server_b : DnsTlsServer := mkServer [8; 8; 8; 8] "" "" 127000.

(** Network 30 is configured with 1.1.1.1, whose validation starts. *)
Definition cfg_validating : PrivateDnsConfiguration :=
  fst (ex_set_config 30 ["1.1.1.1"]%string "" "" 0 config_empty).

(** While that validation runs, the network is reconfigured with 8.8.8.8
    alone: 1.1.1.1 is removed from the tracker. *)
Definition cfg_removed : PrivateDnsConfiguration :=
  fst (ex_set_config 30 ["8.8.8.8"]%string "" "" 0 cfg_validating).

(** Or it is reconfigured with 1.1.1.1 under a hostname: the entry of
    1.1.1.1 is replaced by one that differs in the hostname. *)
Definition cfg_changed : PrivateDnsConfiguration :=
  fst (ex_set_config 30 ["1.1.1.1"]%string "dns.example" "" 0 cfg_validating).

End PrivateDns.

(** ** DNS over TLS and the whole of [res_nsend]
       (res_send.cpp, lines 398-476 and 1102-1188) *)

Module Nsend.
Import Resolv Send PrivateDns.

(** [DnsTlsTransport::Response]: the code names three of its values and
    treats the others alike. *)
Module Response.
Inductive t := success | network_error | internal_error | other.
End Response.

(** What [res_tls_send] uses of a [PrivateDnsStatus]: the mode and the
    validated servers. *)
Record PrivateDnsStatus := mkStatus {
  mode : PrivateDnsMode;
  validatedServers : list DnsTlsServer
}.

(** [validatedServers().empty()] *)
Definition empty (l : list DnsTlsServer) : bool :=
  match l with [] => true | _ => false end.

(** What [res_tls_send] hands back: the value returned, the value stored
    through [rcode] if one is, [*fallback], and the number of 100 ms sleeps
    it made. *)
Record tls_result := mkTls {
  tls_ret : Z;
  tls_rcode : option Z;
  tls_fallback : bool;
  tls_sleeps : nat
}.

(** What [res_nsend] hands back: the value returned, what it asks of the
    cache on its way out, whether it logged an event for a cache hit, the
    outcome of the attempt over TLS if one was made, and the events of the
    cleartext sends. *)
Record nsend_out := mkNsend {
  no_ret : Z;
  no_cache : cache_call;
  no_cache_hit : bool;
  no_tls : option tls_result;
  no_events : list query_event
}.

Section Nsend.

(** The k-th call of [gPrivateDnsConfiguration.getStatus(netId)] that this
    call of [res_tls_send] makes. *)
Variable getStatus_at : nat -> PrivateDnsStatus.

(** [sDnsTlsDispatcher.query] on the validated servers: the response,
    [resplen], and the rcode in the header of the answer. *)
Variable dispatch : list DnsTlsServer -> Response.t * Z * Z.

(** The wait of strict mode, [for (int i = 0; i < 42; i++)]: [rounds] rounds
    are left, [k] calls of [getStatus] and [sleeps] sleeps were made. *)
Fixpoint tls_wait (rounds k sleeps : nat) (privateDnsStatus : PrivateDnsStatus)
    : PrivateDnsStatus * nat :=
  match rounds with
  | O => (privateDnsStatus, sleeps)
  | S rounds' =>
      (* sleep for 100 ms, then look again *)
      if negb (empty (validatedServers (getStatus_at k)))
      then (getStatus_at (S k), S sleeps)
      else tls_wait rounds' (S k) (S sleeps) privateDnsStatus
  end.

(** [res_tls_send] from "performing query over TLS" on. *)
Definition tls_query (privateDnsStatus : PrivateDnsStatus) (sleeps : nat) : tls_result :=
  let '(response, resplen, anrcode) := dispatch (validatedServers privateDnsStatus) in
  match mode privateDnsStatus with
  | OPPORTUNISTIC =>
      (* In opportunistic mode, handle falling back to cleartext in some cases *)
      match response with
      | Response.success => mkTls resplen (Some anrcode) false sleeps
      | Response.network_error | Response.internal_error => mkTls (-1) None true sleeps
      | Response.other => mkTls (-1) None false sleeps
      end
  | _ =>
      (* Strict mode *)
      match response with
      | Response.success => mkTls resplen (Some anrcode) false sleeps
      | Response.network_error => mkTls (-1) (Some RCODE_TIMEOUT) false sleeps
      | _ => mkTls (-1) None false sleeps
      end
  end.

Definition res_tls_send : tls_result :=
  let privateDnsStatus := getStatus_at 0 in
  match mode privateDnsStatus with
  | OFF => mkTls (-1) None true 0
  | m =>
      if empty (validatedServers privateDnsStatus) then
        match m with
        | OPPORTUNISTIC => mkTls (-1) None true 0
        | _ =>
            let '(privateDnsStatus, sleeps) := tls_wait 42 1 0 privateDnsStatus in
            if empty (validatedServers privateDnsStatus)
            then mkTls (-1) None false sleeps
            else tls_query privateDnsStatus sleeps
        end
      else tls_query privateDnsStatus 0
  end.

(** The network, as for the retry loop. *)
Variable net : nat -> net_io.
Variable use_edns : bool.
Variable tc_mode_udp_tcp : bool.

(** The arguments: [buflen], [anssiz], [flags], and the id in the header of
    the query ([hp->id]). *)
Variable buflen anssiz flags : Z.
Variable query_id : Z.

(** What [resolv_cache_lookup] gives: the status and [anslen]. *)
Variable cache_status : ResolvCacheStatus.
Variable anslen : Z.

(** [statp->nscount], once [resolv_populate_res_for_net] was or was not
    called. *)
Variable nscount : Z.

(** [statp->netcontext_flags & NET_CONTEXT_FLAG_USE_LOCAL_NAMESERVERS] *)
Variable use_local_nameservers : bool.

(** What [resolv_cache_get_resolver_stats] gives. *)
Variable resolver_stats : Z * option (res_params * list res_stats).

(** [android_net_res_stats_get_usable_servers]: the number of usable servers
    and the flags it stores. *)
Variable android_net_res_stats_get_usable_servers
  : res_params -> list res_stats -> Z -> Z * list bool.

(** [res_nsend] from "res_stats stats[MAXNS]" on: the cleartext path. *)
Definition res_nsend_cleartext (tls : option tls_result) : option nsend_out :=
  match resolver_stats with
  | (revision_id, Some (params, stats)) =>
      if revision_id <? 0 then Some (mkNsend (- ESRCH) CallNothing false tls [])
      else
        let '(usableServersCount, usable_servers) :=
          android_net_res_stats_get_usable_servers params stats nscount in
        let usable_servers :=
          if flag_set flags ANDROID_RESOLV_NO_RETRY && (1 <? usableServersCount) then
            (* Select a random server based on the query id *)
            let selectedServer := Z.rem query_id usableServersCount + 1 in
            res_set_usable_server selectedServer (Z.to_nat nscount) usable_servers
          else usable_servers in
        let retryTimes :=
          if flag_set flags ANDROID_RESOLV_NO_RETRY then 1 else retry_count params in
        match res_nsend_retry net use_edns tc_mode_udp_tcp nscount usable_servers
                retryTimes buflen cache_status with
        | Some r => Some (mkNsend (nr_ret r) (nr_cache r) false tls (nr_events r))
        | None => None
        end
  | (_, None) => Some (mkNsend (- ESRCH) CallNothing false tls [])
  end.

Definition res_nsend : option nsend_out :=
  (* Should not happen *)
  if anssiz <? HFIXEDSZ then Some (mkNsend (- EINVAL) CallNothing false None [])
  else
    match cache_status with
    | RESOLV_CACHE_FOUND => Some (mkNsend anslen CallNothing true None [])
    | _ =>
        if nscount =? 0 then
          (* We have no nameservers configured, so there's no point trying. *)
          Some (mkNsend (- ESRCH) CallQueryFailed false None [])
        else if negb use_local_nameservers then
          (* DoT *)
          let tls := res_tls_send in
          if 0 <? tls_ret tls then
            Some (mkNsend (tls_ret tls)
                    (match cache_status with
                     | RESOLV_CACHE_NOTFOUND => CallAdd (tls_ret tls)
                     | _ => CallNothing
                     end) false (Some tls) [])
          else if negb (tls_fallback tls) then
            Some (mkNsend (- ETIMEDOUT) CallQueryFailed false (Some tls) [])
          else res_nsend_cleartext (Some tls)
        else res_nsend_cleartext None
    end.

End Nsend.

(** A strict-mode network whose only server validates after the third
    look, and a dispatcher whose connection fails. *)
Definition status_validating (k : nat) : PrivateDnsStatus :=
  if (k <? 3)%nat then mkStatus STRICT [] else mkStatus STRICT [server_a_strict].

Definition dispatch_network_error (servers : list DnsTlsServer) : Response.t * Z * Z :=
  (Response.network_error, 0, 0).

End Nsend.

(** * Properties *)

(** ** Fingerprints of queries *)

Module PacketFacts.
Import Packet.

(** The loop of [_dnsPacket_hashBytes] never stops before the end of the
    packet, so the hash of a query is the FNV fold of the RD bit followed by
    everything from header byte 3 on. *)
Lemma hashQuery_unfold (q : list Z) :
  fingerprint_hash q
  = fnv_fold (drop 3 q) (fnv_step FNV_BASIS (Z.land (byte_at q 2) 1)).
Proof.
  unfold fingerprint_hash, _dnsPacket_hashQuery, _dnsPacket_rewind,
    _dnsPacket_skip, _dnsPacket_init, _dnsPacket_hashBytes.
  cbn [base cursor]. rewrite drop_drop.
  change (0 <? 1) with true. cbn iota.
  unfold _dnsPacket_readInt16. cbn [base cursor drop].
  change (Z.to_nat (-1)) with O. cbn [hash_loop]. reflexivity.
Qed.

Lemma land_lor_tc (b m : Z) : Z.land 2 m = 0 -> Z.land (Z.lor b 2) m = Z.land b m.
Proof.
  intros H. rewrite Z.land_lor_distr_l, H. apply Z.lor_0_r.
Qed.

Lemma land_land_tc (b m : Z) : Z.land 0xFD m = m -> Z.land (Z.land b 0xFD) m = Z.land b m.
Proof.
  intros H. rewrite <- Z.land_assoc, H. reflexivity.
Qed.

Lemma tc_masked (b m : Z) (tc : bool) :
  Z.land 2 m = 0 -> Z.land 0xFD m = m ->
  Z.land (if tc then Z.lor b 2 else Z.land b 0xFD) m = Z.land b m.
Proof.
  intros H1 H2. destruct tc; [apply land_lor_tc | apply land_land_tc]; assumption.
Qed.

Lemma length_variant (q : list Z) (id0 id1 : Z) (tc : bool) :
  length (variant q id0 id1 tc) = length q.
Proof.
  unfold variant, set_tc, set_id.
  rewrite length_alter, !length_insert. reflexivity.
Qed.

(** Header byte 2 of a variant differs from the original in the TC bit
    only. *)
Lemma byte2_variant (q : list Z) (id0 id1 : Z) (tc : bool) (m : Z) :
  Z.land 2 m = 0 -> Z.land 0xFD m = m ->
  Z.land (byte_at (variant q id0 id1 tc) 2) m = Z.land (byte_at q 2) m.
Proof.
  intros H1 H2.
  destruct q as [|a [|b [|c q]]]; try reflexivity.
  cbn. apply tc_masked; assumption.
Qed.

Lemma byte_at_variant (q : list Z) (id0 id1 : Z) (tc : bool) (i : nat) :
  (3 <= i)%nat -> byte_at (variant q id0 id1 tc) i = byte_at q i.
Proof.
  intros Hi.
  destruct i as [|[|[|i]]]; try lia.
  destruct q as [|a [|b [|c q]]]; reflexivity.
Qed.

Lemma drop_variant (q : list Z) (id0 id1 : Z) (tc : bool) (n : nat) :
  (3 <= n)%nat -> drop n (variant q id0 id1 tc) = drop n q.
Proof.
  intros Hn.
  destruct n as [|[|[|n]]]; try lia.
  destruct q as [|a [|b [|c q]]]; reflexivity.
Qed.

Lemma read16_variant (q : list Z) (id0 id1 : Z) (tc : bool) (i : nat) :
  (3 <= i)%nat -> read16 (variant q id0 id1 tc) i = read16 q i.
Proof.
  intros Hi. unfold read16.
  rewrite !byte_at_variant by lia. reflexivity.
Qed.

(** The hash half of the fingerprint ignores the transaction id and the TC
    bit, for every buffer. *)
Lemma hash_variant (q : list Z) (id0 id1 : Z) (tc : bool) :
  fingerprint_hash (variant q id0 id1 tc) = fingerprint_hash q.
Proof.
  rewrite !hashQuery_unfold.
  rewrite byte2_variant by reflexivity.
  rewrite drop_variant by lia. reflexivity.
Qed.

(** *** The walkers do not look at [base]

    Past the header, every function reads the packet through its cursor
    only: two packets with the same cursor give the same results and leave
    the same cursors. *)


Lemma readInt16_ceq (p p' : DnsPacket) :
  ceq p p' ->
  fst (_dnsPacket_readInt16 p) = fst (_dnsPacket_readInt16 p')
  /\ ceq (snd (_dnsPacket_readInt16 p)) (snd (_dnsPacket_readInt16 p')).
Proof.
  unfold ceq, _dnsPacket_readInt16. intros H. rewrite H.
  destruct (cursor p') as [|a [|b l]] eqn:E; cbn; split;
    try reflexivity; congruence.
Qed.

Lemma skip_ceq (p p' : DnsPacket) (n : nat) :
  ceq p p' -> ceq (_dnsPacket_skip p n) (_dnsPacket_skip p' n).
Proof. unfold ceq, _dnsPacket_skip. cbn. intros ->. reflexivity. Qed.

Lemma checkBytes_ceq (p p' : DnsPacket) (n : nat) (bytes : list Z) :
  ceq p p' -> ceq2 (_dnsPacket_checkBytes p n bytes) (_dnsPacket_checkBytes p' n bytes).
Proof.
  unfold ceq2, ceq, _dnsPacket_checkBytes. intros H. rewrite H.
  destruct (_ <? _)%nat; [cbn; split; congruence|].
  destruct (negb _); cbn; split; congruence.
Qed.

Lemma checkQName_ceq (p p' : DnsPacket) :
  ceq p p' -> ceq2 (_dnsPacket_checkQName p) (_dnsPacket_checkQName p').
Proof.
  unfold ceq2, ceq, _dnsPacket_checkQName. intros H. rewrite H.
  destruct (checkQName_loop _ _); cbn; split; congruence.
Qed.

Lemma checkQR_ceq (p p' : DnsPacket) :
  ceq p p' -> ceq2 (_dnsPacket_checkQR p) (_dnsPacket_checkQR p').
Proof.
  intros H. unfold _dnsPacket_checkQR.
  destruct (checkQName_ceq p p' H) as [Hb Hc].
  destruct (_dnsPacket_checkQName p) as [ok1 p1].
  destruct (_dnsPacket_checkQName p') as [ok1' p1'].
  cbn in Hb, Hc. subst ok1'.
  destruct ok1; cbn [negb]; [|split; [reflexivity | exact Hc]].
  assert (Hty : forall ty k k', ceq2 k k' ->
            ceq2 (let '(ok, q) := _dnsPacket_checkBytes p1 2 ty in if ok then (true, q) else k)
                 (let '(ok, q) := _dnsPacket_checkBytes p1' 2 ty in if ok then (true, q) else k')).
  { intros ty k k' Hk.
    destruct (checkBytes_ceq p1 p1' 2 ty Hc) as [Hb' Hc'].
    destruct (_dnsPacket_checkBytes p1 2 ty) as [o q].
    destruct (_dnsPacket_checkBytes p1' 2 ty) as [o' q'].
    cbn in Hb', Hc'. subst o'. destruct o; [split; [reflexivity | exact Hc'] | exact Hk]. }
  pose proof (Hty DNS_TYPE_A _ _
                (Hty DNS_TYPE_PTR _ _
                   (Hty DNS_TYPE_MX _ _
                      (Hty DNS_TYPE_AAAA _ _
                         (Hty DNS_TYPE_ALL (false, p1) (false, p1')
                            (conj eq_refl Hc)))))) as Hall.
  cbv zeta in Hall |- *.
  match goal with
  | Hall : ceq2 ?x ?y |- _ => destruct x as [o q]; destruct y as [o' q']
  end.
  destruct Hall as [Hb' Hc']. cbn in Hb', Hc'. subst o'.
  destruct o; cbn [negb]; [apply checkBytes_ceq; exact Hc' | split; [reflexivity | exact Hc']].
Qed.

Lemma checkQuery_loop_ceq (n : nat) (p p' : DnsPacket) :
  ceq p p' -> checkQuery_loop n p = checkQuery_loop n p'.
Proof.
  revert p p'. induction n as [|n IH]; intros p p' H; [reflexivity|].
  cbn [checkQuery_loop].
  destruct (checkQR_ceq p p' H) as [Hb Hc].
  destruct (_dnsPacket_checkQR p) as [o q].
  destruct (_dnsPacket_checkQR p') as [o' q'].
  cbn in Hb, Hc. subst o'. destruct o; [apply IH; exact Hc | reflexivity].
Qed.

Lemma isEqualDomainName_ceq (p1 p1' p2 p2' : DnsPacket) :
  ceq p1 p1' -> ceq p2 p2' ->
  ceq3 (_dnsPacket_isEqualDomainName p1 p2) (_dnsPacket_isEqualDomainName p1' p2').
Proof.
  unfold ceq3, ceq, _dnsPacket_isEqualDomainName. intros H1 H2. rewrite H1, H2.
  destruct (isEqualDomainName_loop _ _ _) as [[c1 c2]|]; cbn; repeat split; congruence.
Qed.

Lemma isEqualBytes_ceq (p1 p1' p2 p2' : DnsPacket) (n : Z) :
  ceq p1 p1' -> ceq p2 p2' ->
  ceq3 (_dnsPacket_isEqualBytes p1 p2 n) (_dnsPacket_isEqualBytes p1' p2' n).
Proof.
  unfold ceq3, ceq, _dnsPacket_isEqualBytes. intros H1 H2. rewrite H1, H2.
  destruct (_ || _); [cbn; repeat split; congruence|].
  destruct (n <? 0); [cbn; repeat split; congruence|].
  destruct (negb _); cbn; repeat split; congruence.
Qed.

Lemma isEqualQR_ceq (p1 p1' p2 p2' : DnsPacket) :
  ceq p1 p1' -> ceq p2 p2' ->
  ceq3 (_dnsPacket_isEqualQR p1 p2) (_dnsPacket_isEqualQR p1' p2').
Proof.
  intros H1 H2. unfold _dnsPacket_isEqualQR.
  destruct (isEqualDomainName_ceq _ _ _ _ H1 H2) as (Hb & Hc1 & Hc2).
  destruct (_dnsPacket_isEqualDomainName p1 p2) as [[o a] b].
  destruct (_dnsPacket_isEqualDomainName p1' p2') as [[o' a'] b'].
  cbn in Hb, Hc1, Hc2. subst o'.
  destruct o; cbn [negb]; [apply isEqualBytes_ceq; assumption | repeat split; assumption].
Qed.

Lemma isEqualRR_ceq (p1 p1' p2 p2' : DnsPacket) :
  ceq p1 p1' -> ceq p2 p2' ->
  ceq3 (_dnsPacket_isEqualRR p1 p2) (_dnsPacket_isEqualRR p1' p2').
Proof.
  intros H1 H2. unfold _dnsPacket_isEqualRR.
  destruct (isEqualQR_ceq _ _ _ _ H1 H2) as (Hb & Hc1 & Hc2).
  destruct (_dnsPacket_isEqualQR p1 p2) as [[o a] b].
  destruct (_dnsPacket_isEqualQR p1' p2') as [[o' a'] b'].
  cbn in Hb, Hc1, Hc2. subst o'.
  destruct o; cbn [negb]; [|repeat split; assumption].
  destruct (isEqualBytes_ceq _ _ _ _ 4 Hc1 Hc2) as (Hb & Hd1 & Hd2).
  destruct (_dnsPacket_isEqualBytes a b 4) as [[o a2] b2].
  destruct (_dnsPacket_isEqualBytes a' b' 4) as [[o' a2'] b2'].
  cbn in Hb, Hd1, Hd2. subst o'.
  destruct o; cbn [negb]; [|repeat split; assumption].
  destruct (readInt16_ceq _ _ Hd1) as [Hv1 He1].
  destruct (readInt16_ceq _ _ Hd2) as [Hv2 He2].
  destruct (_dnsPacket_readInt16 a2) as [v1 a3].
  destruct (_dnsPacket_readInt16 a2') as [v1' a3'].
  destruct (_dnsPacket_readInt16 b2) as [v2 b3].
  destruct (_dnsPacket_readInt16 b2') as [v2' b3'].
  cbn in Hv1, Hv2, He1, He2. subst v1' v2'.
  destruct (negb _); [repeat split; assumption | apply isEqualBytes_ceq; assumption].
Qed.

Lemma isEqual_loop_ceq f (n : nat) (p1 p1' p2 p2' : DnsPacket) :
  (forall a a' b b', ceq a a' -> ceq b b' -> ceq3 (f a b) (f a' b')) ->
  ceq p1 p1' -> ceq p2 p2' ->
  ceq3 (isEqual_loop f n p1 p2) (isEqual_loop f n p1' p2').
Proof.
  intros Hf. revert p1 p1' p2 p2'.
  induction n as [|n IH]; intros p1 p1' p2 p2' H1 H2; [repeat split; assumption|].
  cbn [isEqual_loop].
  destruct (Hf _ _ _ _ H1 H2) as (Hb & Hc1 & Hc2).
  destruct (f p1 p2) as [[o a] b]. destruct (f p1' p2') as [[o' a'] b'].
  cbn in Hb, Hc1, Hc2. subst o'.
  destruct o; [apply IH; assumption | repeat split; assumption].
Qed.


Lemma isEqualQuery_unfold (q1 q2 : list Z) :
  fingerprint_equal q1 q2
  = if negb (Z.land (byte_at q1 2) 1 =? Z.land (byte_at q2 2) 1) then false
    else if negb (byte_at q1 3 =? byte_at q2 3) then false
    else equal_tail {| base := q1; cursor := drop 4 q1 |}
                    {| base := q2; cursor := drop 4 q2 |}.
Proof. reflexivity. Qed.

Lemma equal_tail_ceq (p1 p1' p2 p2' : DnsPacket) :
  ceq p1 p1' -> ceq p2 p2' -> equal_tail p1 p2 = equal_tail p1' p2'.
Proof.
  intros H1 H2. unfold equal_tail.
  destruct (readInt16_ceq _ _ H1) as [Hv1 He1].
  destruct (readInt16_ceq _ _ H2) as [Hv2 He2].
  destruct (_dnsPacket_readInt16 p1) as [v1 a]. destruct (_dnsPacket_readInt16 p1') as [v1' a'].
  destruct (_dnsPacket_readInt16 p2) as [v2 b]. destruct (_dnsPacket_readInt16 p2') as [v2' b'].
  cbn in Hv1, Hv2, He1, He2. subst v1' v2'.
  destruct (_ || _); [reflexivity|].
  cbv zeta.
  destruct (readInt16_ceq _ _ (skip_ceq _ _ 4 He1)) as [Hw1 Hf1].
  destruct (readInt16_ceq _ _ (skip_ceq _ _ 4 He2)) as [Hw2 Hf2].
  destruct (_dnsPacket_readInt16 (_dnsPacket_skip a 4)) as [w1 c].
  destruct (_dnsPacket_readInt16 (_dnsPacket_skip a' 4)) as [w1' c'].
  destruct (_dnsPacket_readInt16 (_dnsPacket_skip b 4)) as [w2 d].
  destruct (_dnsPacket_readInt16 (_dnsPacket_skip b' 4)) as [w2' d'].
  cbn in Hw1, Hw2, Hf1, Hf2. subst w1' w2'.
  destruct (_ || _); [reflexivity|].
  destruct (isEqual_loop_ceq _ (Z.to_nat v1) _ _ _ _ isEqualQR_ceq Hf1 Hf2)
    as (Hb & Hg1 & Hg2).
  destruct (isEqual_loop _dnsPacket_isEqualQR (Z.to_nat v1) c d) as [[o e] g].
  destruct (isEqual_loop _dnsPacket_isEqualQR (Z.to_nat v1) c' d') as [[o' e'] g'].
  cbn in Hb, Hg1, Hg2. subst o'.
  destruct o; cbn [negb]; [|reflexivity].
  destruct (isEqual_loop_ceq _ (Z.to_nat w1) _ _ _ _ isEqualRR_ceq Hg1 Hg2)
    as (Hb & _ & _).
  destruct (isEqual_loop _dnsPacket_isEqualRR (Z.to_nat w1) e g) as [[o h] k].
  destruct (isEqual_loop _dnsPacket_isEqualRR (Z.to_nat w1) e' g') as [[o' h'] k'].
  exact Hb.
Qed.

(** The comparison looks at the RD bit, at header byte 3 and at the bytes
    from offset 4 on: replacing a packet by one of its variants does not
    change its verdict. *)
Lemma equal_variant_l (q1 q2 : list Z) (id0 id1 : Z) (tc : bool) :
  fingerprint_equal (variant q1 id0 id1 tc) q2 = fingerprint_equal q1 q2.
Proof.
  rewrite !isEqualQuery_unfold.
  rewrite byte2_variant by reflexivity.
  rewrite byte_at_variant by lia.
  rewrite (equal_tail_ceq _ {| base := q1; cursor := drop 4 q1 |}
             _ {| base := q2; cursor := drop 4 q2 |}); [reflexivity| |reflexivity].
  unfold ceq. cbn. apply drop_variant. lia.
Qed.

Lemma equal_variant_r (q1 q2 : list Z) (id0 id1 : Z) (tc : bool) :
  fingerprint_equal q1 (variant q2 id0 id1 tc) = fingerprint_equal q1 q2.
Proof.
  rewrite !isEqualQuery_unfold.
  rewrite byte2_variant by reflexivity.
  rewrite byte_at_variant by lia.
  rewrite (equal_tail_ceq _ {| base := q1; cursor := drop 4 q1 |}
             _ {| base := q2; cursor := drop 4 q2 |}); [reflexivity|reflexivity|].
  unfold ceq. cbn. apply drop_variant. lia.
Qed.

(** Two variants of a query compare the way the query compares with
    itself. *)
Lemma equal_variants (q : list Z) (id0 id1 id0' id1' : Z) (tc tc' : bool) :
  fingerprint_equal (variant q id0 id1 tc) (variant q id0' id1' tc')
  = fingerprint_equal q q.
Proof.
  rewrite equal_variant_l, equal_variant_r. reflexivity.
Qed.

(** A variant of a cacheable query is cacheable. *)
Lemma cacheable_variant (q : list Z) (id0 id1 : Z) (tc : bool) :
  cacheable (variant q id0 id1 tc) = cacheable q.
Proof.
  unfold cacheable, _dnsPacket_checkQuery, _dnsPacket_init.
  cbn [base cursor].
  rewrite length_variant.
  rewrite byte2_variant by reflexivity.
  rewrite byte_at_variant by lia.
  rewrite !read16_variant by lia.
  rewrite (checkQuery_loop_ceq _ _ {| base := q; cursor := drop DNS_HEADER_SIZE q |});
    [reflexivity|].
  unfold ceq. cbn. apply drop_variant. unfold DNS_HEADER_SIZE. lia.
Qed.

(** *** The name walkers have rounds enough

    Every round of the three walks over a name consumes at least the length
    byte: the walks end within [S (length cursor)] rounds, and more rounds
    change nothing. *)

Lemma checkQName_loop_fuel (fuel fuel' : nat) (p : list Z) :
  (length p < fuel)%nat -> (length p < fuel')%nat ->
  checkQName_loop fuel p = checkQName_loop fuel' p.
Proof.
  revert fuel' p. induction fuel as [|fuel IH]; intros fuel' p H H'; [lia|].
  destruct fuel' as [|fuel']; [lia|]. cbn [checkQName_loop].
  destruct p as [|c p]; [reflexivity|].
  destruct (c =? 0); [reflexivity|]. destruct (64 <=? c); [reflexivity|].
  cbn [length] in H, H'.
  apply IH; rewrite length_drop; lia.
Qed.

Lemma hashQName_loop_fuel (fuel fuel' : nat) (p : list Z) (hash : Z) :
  (length p < fuel)%nat -> (length p < fuel')%nat ->
  hashQName_loop fuel p hash = hashQName_loop fuel' p hash.
Proof.
  revert fuel' p hash. induction fuel as [|fuel IH]; intros fuel' p hash H H'; [lia|].
  destruct fuel' as [|fuel']; [lia|]. cbn [hashQName_loop].
  destruct p as [|c p]; [reflexivity|].
  destruct (c =? 0); [reflexivity|]. destruct (64 <=? c); [reflexivity|].
  destruct (length p <=? Z.to_nat c)%nat; [reflexivity|].
  cbn [length] in H, H'.
  apply IH; rewrite length_drop; lia.
Qed.

Lemma isEqualDomainName_loop_fuel (fuel fuel' : nat) (p1 p2 : list Z) :
  (length p1 < fuel)%nat -> (length p1 < fuel')%nat ->
  isEqualDomainName_loop fuel p1 p2 = isEqualDomainName_loop fuel' p1 p2.
Proof.
  revert fuel' p1 p2. induction fuel as [|fuel IH]; intros fuel' p1 p2 H H'; [lia|].
  destruct fuel' as [|fuel']; [lia|]. cbn [isEqualDomainName_loop].
  destruct p1 as [|c1 p1]; [reflexivity|]. destruct p2 as [|c2 p2]; [reflexivity|].
  destruct (negb (c1 =? c2)); [reflexivity|].
  destruct (c1 =? 0); [reflexivity|]. destruct (64 <=? c1); [reflexivity|].
  destruct (_ || _); [reflexivity|]. destruct (negb (bytes_eqb _ _)); [reflexivity|].
  cbn [length] in H, H'.
  apply IH; rewrite length_drop; lia.
Qed.

(** *** A checked query without additional records equals itself *)

Lemma checkQName_loop_nil (fuel : nat) : checkQName_loop fuel [] = None.
Proof. destruct fuel; reflexivity. Qed.

Lemma bytes_eqb_refl (l : list Z) : bytes_eqb l l = true.
Proof. unfold bytes_eqb. apply bool_decide_eq_true. reflexivity. Qed.

(** A name that [_dnsPacket_checkQName] walks is a name that
    [_dnsPacket_isEqualDomainName] finds equal to itself, ending at the same
    place. *)
Lemma checkQName_loop_self (fuel : nat) (p p' : list Z) :
  checkQName_loop fuel p = Some p' ->
  isEqualDomainName_loop fuel p p = Some (p', p').
Proof.
  revert p. induction fuel as [|fuel IH]; intros p;
    cbn [checkQName_loop isEqualDomainName_loop]; [discriminate|].
  destruct p as [|c p]; [discriminate|].
  rewrite Z.eqb_refl. cbn [negb].
  destruct (c =? 0); [intros [= <-]; reflexivity|].
  destruct (64 <=? c); [discriminate|].
  intros H.
  assert (Hlen : (length p <? Z.to_nat c)%nat = false).
  { apply Nat.ltb_ge. destruct (Nat.le_gt_cases (Z.to_nat c) (length p)) as [Hle|Hgt];
      [exact Hle|].
    rewrite drop_ge in H by lia. rewrite checkQName_loop_nil in H. discriminate. }
  rewrite Hlen, bytes_eqb_refl. cbn [orb negb]. apply IH, H.
Qed.

Lemma checkBytes_true (p p' : DnsPacket) (n : nat) (bytes : list Z) :
  _dnsPacket_checkBytes p n bytes = (true, p') ->
  (n <= length (cursor p))%nat
  /\ p' = {| base := base p; cursor := drop n (cursor p) |}.
Proof.
  unfold _dnsPacket_checkBytes.
  destruct (_ <? _)%nat eqn:E; [discriminate|]. apply Nat.ltb_ge in E.
  destruct (negb _); [discriminate|]. intros [= <-]. split; [exact E | reflexivity].
Qed.

Lemma isEqualBytes_self (p : DnsPacket) (n : nat) :
  (n <= length (cursor p))%nat ->
  _dnsPacket_isEqualBytes p p (Z.of_nat n)
  = (true, {| base := base p; cursor := drop n (cursor p) |},
           {| base := base p; cursor := drop n (cursor p) |}).
Proof.
  intros Hn. unfold _dnsPacket_isEqualBytes.
  replace (Z.of_nat (length (cursor p)) <? Z.of_nat n) with false
    by (symmetry; apply Z.ltb_ge; lia).
  replace (Z.of_nat n <? 0) with false by (symmetry; apply Z.ltb_ge; lia).
  rewrite Nat2Z.id, bytes_eqb_refl. reflexivity.
Qed.

Lemma checkQR_self (p p' : DnsPacket) :
  _dnsPacket_checkQR p = (true, p') -> _dnsPacket_isEqualQR p p = (true, p', p').
Proof.
  unfold _dnsPacket_checkQR, _dnsPacket_isEqualQR,
    _dnsPacket_checkQName, _dnsPacket_isEqualDomainName.
  destruct (checkQName_loop _ (cursor p)) as [c1|] eqn:Hname; [|discriminate].
  rewrite (checkQName_loop_self _ _ _ Hname). cbn [negb].
  set (p1 := {| base := base p; cursor := c1 |}).
  cbv zeta.
  assert (Hty : forall ty k,
            (let '(ok, q) := _dnsPacket_checkBytes p1 2 ty in
             if ok then (true, q) else k)
            = (true, {| base := base p; cursor := drop 2 c1 |})
            \/ (let '(ok, q) := _dnsPacket_checkBytes p1 2 ty in
                if ok then (true, q) else k) = k).
  { intros ty k. destruct (_dnsPacket_checkBytes p1 2 ty) as [ok q] eqn:E.
    destruct ok; [|right; reflexivity].
    left. apply checkBytes_true in E as [_ ->]. reflexivity. }
  assert (Hall : forall r : bool * DnsPacket,
            (r = (true, {| base := base p; cursor := drop 2 c1 |})
             \/ r = (false, p1)) ->
            (let '(ok, q) := r in
             if negb ok then (false, q) else _dnsPacket_checkBytes q 2 DNS_CLASS_IN)
            = (true, p') ->
            (2 <= length (drop 2 c1))%nat
            /\ p' = {| base := base p; cursor := drop 2 (drop 2 c1) |}).
  { intros r [-> | ->]; cbn [negb]; [|discriminate].
    intros H. apply checkBytes_true in H. exact H. }
  intros H.
  destruct (Hall _ ltac:(
    destruct (Hty DNS_TYPE_A
                (let '(ok, q) := _dnsPacket_checkBytes p1 2 DNS_TYPE_PTR in
                 if ok then (true, q) else
                 let '(ok, q) := _dnsPacket_checkBytes p1 2 DNS_TYPE_MX in
                 if ok then (true, q) else
                 let '(ok, q) := _dnsPacket_checkBytes p1 2 DNS_TYPE_AAAA in
                 if ok then (true, q) else
                 let '(ok, q) := _dnsPacket_checkBytes p1 2 DNS_TYPE_ALL in
                 if ok then (true, q) else (false, p1))) as [HA|HA];
      [left; exact HA|]; rewrite HA;
    destruct (Hty DNS_TYPE_PTR
                (let '(ok, q) := _dnsPacket_checkBytes p1 2 DNS_TYPE_MX in
                 if ok then (true, q) else
                 let '(ok, q) := _dnsPacket_checkBytes p1 2 DNS_TYPE_AAAA in
                 if ok then (true, q) else
                 let '(ok, q) := _dnsPacket_checkBytes p1 2 DNS_TYPE_ALL in
                 if ok then (true, q) else (false, p1))) as [HP|HP];
      [left; exact HP|]; rewrite HP;
    destruct (Hty DNS_TYPE_MX
                (let '(ok, q) := _dnsPacket_checkBytes p1 2 DNS_TYPE_AAAA in
                 if ok then (true, q) else
                 let '(ok, q) := _dnsPacket_checkBytes p1 2 DNS_TYPE_ALL in
                 if ok then (true, q) else (false, p1))) as [HM|HM];
      [left; exact HM|]; rewrite HM;
    destruct (Hty DNS_TYPE_AAAA
                (let '(ok, q) := _dnsPacket_checkBytes p1 2 DNS_TYPE_ALL in
                 if ok then (true, q) else (false, p1))) as [H4|H4];
      [left; exact H4|]; rewrite H4;
    destruct (Hty DNS_TYPE_ALL (false, p1)) as [H5|H5];
      [left; exact H5 | right; exact H5]) H) as [Hlen ->].
  rewrite length_drop in Hlen.
  change (2 + 2) with (Z.of_nat 4).
  rewrite (isEqualBytes_self p1 4) by (cbn [cursor p1]; lia).
  cbn [base cursor p1]. rewrite drop_drop. reflexivity.
Qed.

Lemma checkQuery_loop_self (n : nat) (p : DnsPacket) :
  checkQuery_loop n p = true ->
  fst (fst (isEqual_loop _dnsPacket_isEqualQR n p p)) = true.
Proof.
  revert p. induction n as [|n IH]; intros p; [reflexivity|].
  cbn [checkQuery_loop isEqual_loop].
  destruct (_dnsPacket_checkQR p) as [ok p'] eqn:E.
  destruct ok; [|discriminate].
  rewrite (checkQR_self _ _ E). apply IH.
Qed.

Lemma read16_nonneg (q : list Z) (i : nat) :
  Forall (fun b => 0 <= b < 256) q -> 0 <= read16 q i.
Proof.
  intros Hq. unfold read16, byte_at.
  assert (Hb : forall j, 0 <= nth j q 0).
  { intros j. destruct (Nat.lt_ge_cases j (length q)) as [Hlt|Hge].
    - rewrite Forall_forall in Hq. apply Hq, list_elem_of_In, nth_In, Hlt.
    - rewrite nth_overflow by exact Hge. lia. }
  apply Z.lor_nonneg. split; [apply Z.shiftl_nonneg|]; apply Hb.
Qed.

(** A query made of bytes that passes the check and announces no additional
    record compares equal to itself. *)
Lemma cacheable_self_equal (q : list Z) :
  Forall (fun b => 0 <= b < 256) q ->
  cacheable q = true ->
  read16 q 10 = 0 ->
  fingerprint_equal q q = true.
Proof.
  intros Hbytes Hq Har.
  pose proof (read16_nonneg q 4 Hbytes) as Hqd.
  rewrite isEqualQuery_unfold, !Z.eqb_refl. cbn [negb].
  unfold cacheable, _dnsPacket_checkQuery, _dnsPacket_init in Hq. cbn [base] in Hq.
  destruct (length q <? DNS_HEADER_SIZE)%nat eqn:Hlen; [discriminate|].
  destruct (negb (_ && _)); [discriminate|].
  destruct (negb (_ && _ && _)); [discriminate|].
  destruct (read16 q 4 =? 0); [discriminate|].
  apply checkQuery_loop_self in Hq.
  apply Nat.ltb_ge in Hlen. unfold DNS_HEADER_SIZE in *.
  destruct q as [|b0 [|b1 [|b2 [|b3 [|b4 [|b5 [|b6 [|b7 [|b8 [|b9 [|b10 [|b11 q]]]]]]]]]]]];
    cbn [length] in Hlen; try lia.
  unfold equal_tail, _dnsPacket_readInt16, _dnsPacket_skip. cbn [cursor base drop].
  unfold read16, byte_at in Har, Hqd, Hq. cbn [nth] in Har, Hqd, Hq.
  rewrite !Z.eqb_refl, Har. cbn [negb orb].
  replace (Z.lor (Z.shiftl b4 8) b5 <? 0) with false by (symmetry; apply Z.ltb_ge, Hqd).
  change (0 <? 0) with false. cbv iota.
  cbn [drop] in Hq.
  destruct (isEqual_loop _dnsPacket_isEqualQR _ _ _) as [[ok p1] p2].
  cbn [fst] in Hq. subst ok. reflexivity.
Qed.

(** C7 (code defect).  The specification has the fingerprint of every
    validated query unchanged by a change of the transaction id or of the TC
    bit, two such variants comparing equal.  The hash half holds for every
    buffer ([hash_variant]) and the comparison gives every pair of variants
    the verdict it gives the query against itself ([equal_variants]).  But
    [_dnsPacket_checkQuery] lets ARCOUNT = 1 through without walking the
    additional record, against its own comment ("ANCOUNT, DNCOUNT and ARCOUNT
    must be 0") and against the assumption of the comparison that its inputs
    were checked: the query [q_dangling_ar], which announces an additional
    record and ends after the question, passes the check, keeps its hash
    under a change of id, and does not compare equal to its variant with
    another id, nor to itself. *)
Theorem C7_dangling_additional_not_equal :
  cacheable q_dangling_ar = true
  /\ cacheable (variant q_dangling_ar 0 1 false) = true
  /\ fingerprint_hash (variant q_dangling_ar 0 1 false) = fingerprint_hash q_dangling_ar
  /\ fingerprint_equal (variant q_dangling_ar 0 1 false) (variant q_dangling_ar 0 0 false) = false
  /\ fingerprint_equal q_dangling_ar q_dangling_ar = false.
Proof. repeat split; vm_compute; reflexivity. Qed.

End PacketFacts.

(** ** The per-attempt timeout *)

Module SendFacts.
Import Resolv Send.

Lemma timespec_msec_get_timeout (N : Z) (p : res_params) (ns : Z) :
  timespec_msec (get_timeout N p ns) = get_timeout_msec N p ns.
Proof.
  unfold timespec_msec, get_timeout. cbn [tv_sec tv_nsec].
  set (msec := get_timeout_msec N p ns).
  assert (Hge : 1000 <= msec).
  { subst msec. unfold get_timeout_msec. cbv zeta.
    destruct (_ <? 1000) eqn:E; [lia | apply Z.ltb_ge in E; exact E]. }
  rewrite Z.quot_mul by lia.
  rewrite (Z.mul_comm (Z.quot msec 1000)).
  symmetry. rewrite <- Z.quot_rem' at 1. lia.
Qed.

(** C6.  For every 0-based server index [ns] and every server count [N],
    the timeout that [get_timeout] computes is, in milliseconds,
    [max(1000, (base_timeout_msec << ns) / (ns == 0 ? 1 : N))], the shift and
    the division being those of C on [int]; with a base of 5000 ms and four
    servers the timeouts of servers 0, 1, 2, 3 are 5000, 2500, 5000 and
    10000 ms. *)
Theorem C6_get_timeout (N : Z) (p : res_params) (ns : nat) :
  timespec_msec (get_timeout N p (Z.of_nat ns))
  = Z.max 1000
      (Z.quot (wrap_int (Z.shiftl (base_timeout_msec p) (Z.of_nat ns)))
              (if Z.of_nat ns =? 0 then 1 else N))
  /\ map (fun ns => timespec_msec (get_timeout 4 (mkParams 0 0 0 0 5000 2) ns))
         [0; 1; 2; 3]
     = [5000; 2500; 5000; 10000].
Proof.
  split; [|reflexivity].
  rewrite timespec_msec_get_timeout. unfold get_timeout_msec. cbv zeta.
  destruct ns as [|ns].
  - change (Z.of_nat 0) with 0. cbn [Z.ltb Z.eqb Z.compare].
    rewrite Z.quot_1_r.
    destruct (_ <? 1000) eqn:E; [apply Z.ltb_lt in E | apply Z.ltb_ge in E]; lia.
  - replace (0 <? Z.of_nat (S ns)) with true by (symmetry; apply Z.ltb_lt; lia).
    replace (Z.of_nat (S ns) =? 0) with false by (symmetry; apply Z.eqb_neq; lia).
    destruct (_ <? 1000) eqn:E; [apply Z.ltb_lt in E | apply Z.ltb_ge in E]; lia.
Qed.

(** Where the shift does not overflow, this is the formula over the
    integers. *)
Lemma get_timeout_no_overflow (N : Z) (p : res_params) (ns : nat) :
  0 <= base_timeout_msec p ->
  base_timeout_msec p * 2 ^ Z.of_nat ns < 2 ^ 31 ->
  0 < N ->
  timespec_msec (get_timeout N p (Z.of_nat ns))
  = Z.max 1000 (base_timeout_msec p * 2 ^ Z.of_nat ns / (if Z.of_nat ns =? 0 then 1 else N)).
Proof.
  intros Hb Hlt HN.
  destruct (C6_get_timeout N p ns) as [-> _].
  rewrite Z.shiftl_mul_pow2 by lia.
  assert (Hw : wrap_int (base_timeout_msec p * 2 ^ Z.of_nat ns)
               = base_timeout_msec p * 2 ^ Z.of_nat ns).
  { unfold wrap_int. rewrite Z.mod_small; [lia|].
    assert (0 <= base_timeout_msec p * 2 ^ Z.of_nat ns) by (apply Z.mul_nonneg_nonneg; lia).
    lia. }
  rewrite Hw.
  rewrite Z.quot_div_nonneg; [reflexivity | apply Z.mul_nonneg_nonneg; lia |].
  destruct (_ =? 0); lia.
Qed.

End SendFacts.

(** ** The answer cache *)

Module CacheFacts.
Import Packet Cache.


Lemma has_pending_true (h : Z) (l : list Z) : has_pending h l = true <-> h ∈ l.
Proof.
  unfold has_pending. rewrite existsb_exists, list_elem_of_In. split.
  - intros (x & Hx & Heq). apply Z.eqb_eq in Heq. subst. exact Hx.
  - intros Hin. exists h. split; [exact Hin | apply Z.eqb_refl].
Qed.

Lemma has_pending_false (h : Z) (l : list Z) : has_pending h l = false <-> h ∉ l.
Proof.
  rewrite <- has_pending_true. destruct (has_pending h l); split; congruence.
Qed.

Lemma pending_remove_subset (h x : Z) (l : list Z) :
  x ∈ pending_remove h l -> x ∈ l.
Proof.
  induction l as [|y l IH]; cbn; [auto|].
  destruct (y =? h).
  - intros H. right. exact H.
  - rewrite !elem_of_cons. intros [->|H]; [left; reflexivity | right; auto].
Qed.

Lemma pending_remove_NoDup (h : Z) (l : list Z) :
  NoDup l -> NoDup (pending_remove h l).
Proof.
  induction 1 as [|y l Hy Hl IH]; cbn; [constructor|].
  destruct (y =? h); [exact Hl|].
  constructor; [|exact IH].
  intros Hin. apply Hy. eapply pending_remove_subset; exact Hin.
Qed.

(** With at most one record per hash, removing the record of [h] leaves
    none. *)
Lemma pending_remove_gone (h : Z) (l : list Z) :
  NoDup l -> h ∉ pending_remove h l.
Proof.
  induction 1 as [|y l Hy Hl IH]; cbn; [apply not_elem_of_nil|].
  destruct (y =? h) eqn:E.
  - apply Z.eqb_eq in E. subst y. exact Hy.
  - apply Z.eqb_neq in E. rewrite elem_of_cons. intros [Heq|Hin]; [congruence | auto].
Qed.

Lemma pending_append_NoDup (h : Z) (l : list Z) :
  NoDup l -> has_pending h l = false -> NoDup (l ++ [h]).
Proof.
  intros Hl Hh. apply has_pending_false in Hh.
  apply NoDup_app. split; [exact Hl|]. split; [|apply NoDup_singleton].
  intros x Hx Hx'. apply list_elem_of_singleton in Hx'. subst. auto.
Qed.

Lemma cache_ok_set_pending (c : Cache) (l : list Z) :
  cache_ok c -> NoDup l -> cache_ok (set_pending c l).
Proof. intros (H1 & H2 & _) Hl. repeat split; assumption. Qed.

Lemma cache_ok_set_mru (c : Cache) (l : list Entry) :
  cache_ok c -> cache_ok (set_mru c l).
Proof. intros (H1 & H2 & H3). repeat split; assumption. Qed.

Lemma cache_ok_create : cache_ok resolv_cache_create.
Proof.
  split; [reflexivity|]. split; [apply length_replicate | constructor].
Qed.

Lemma cache_ok_add_p (c : Cache) (lookup : lookup_ref) (e : Entry) :
  cache_ok c -> cache_ok (_cache_add_p c lookup e).
Proof.
  intros (H1 & H2 & H3). repeat split; cbn; [assumption | | assumption].
  rewrite length_alter. exact H2.
Qed.

Lemma cache_ok_remove_p (c : Cache) (lookup : lookup_ref) :
  cache_ok c -> cache_ok (_cache_remove_p c lookup).
Proof.
  intros (H1 & H2 & H3). unfold _cache_remove_p.
  destruct (deref c lookup); [|repeat split; assumption].
  repeat split; cbn; [assumption | | assumption].
  rewrite length_alter. exact H2.
Qed.

Lemma cache_ok_remove_oldest (c : Cache) :
  cache_ok c -> cache_ok (_cache_remove_oldest c).
Proof.
  intros H. unfold _cache_remove_oldest. cbv zeta.
  destruct (deref c (_cache_lookup_p c (mru_oldest c)));
    [apply cache_ok_remove_p|]; exact H.
Qed.

Lemma cache_ok_remove_expired (now : Z) (c : Cache) :
  cache_ok c -> cache_ok (_cache_remove_expired now c).
Proof.
  unfold _cache_remove_expired. generalize (mru_list c) as es.
  intros es. revert c.
  induction es as [|e es IH]; intros c H; cbn [remove_expired_loop]; [exact H|].
  destruct (e_expires e <=? now); [|apply IH; exact H].
  destruct (deref c (_cache_lookup_p c e)); [|exact H].
  apply IH. apply cache_ok_remove_p. exact H.
Qed.

Lemma cache_ok_flush (c : Cache) : cache_ok c -> cache_ok (fst (cache_flush_locked c)).
Proof.
  intros (H1 & H2 & H3). repeat split; cbn; [assumption | | constructor].
  rewrite length_fmap. exact H2.
Qed.

Lemma cache_ok_has_pending (c : Cache) (key : Entry) (append : bool) :
  cache_ok c -> cache_ok (snd (cache_has_pending_request_locked c key append)).
Proof.
  intros H. unfold cache_has_pending_request_locked.
  destruct (has_pending _ _) eqn:E; [exact H|].
  destruct append; [|exact H]. cbn.
  apply cache_ok_set_pending; [exact H|].
  apply pending_append_NoDup; [apply H | exact E].
Qed.

Lemma cache_ok_notify (c : Cache) (key : Entry) :
  cache_ok c -> cache_ok (fst (_cache_notify_waiting_tid_locked c key)).
Proof.
  intros H. unfold _cache_notify_waiting_tid_locked.
  destruct (has_pending _ _); [|exact H]. cbn.
  apply cache_ok_set_pending; [exact H|].
  apply pending_remove_NoDup, H.
Qed.

(** The size of the table is never touched after creation. *)
Lemma max_entries_remove_p (c : Cache) (lookup : lookup_ref) :
  max_entries (_cache_remove_p c lookup) = max_entries c.
Proof. unfold _cache_remove_p. destruct (deref c lookup); reflexivity. Qed.

Lemma max_entries_remove_oldest (c : Cache) :
  max_entries (_cache_remove_oldest c) = max_entries c.
Proof.
  unfold _cache_remove_oldest. cbv zeta.
  destruct (deref c (_cache_lookup_p c (mru_oldest c)));
    [apply max_entries_remove_p | reflexivity].
Qed.

Lemma max_entries_remove_expired (now : Z) (c : Cache) :
  max_entries (_cache_remove_expired now c) = max_entries c.
Proof.
  unfold _cache_remove_expired. generalize (mru_list c) as es.
  intros es. revert c.
  induction es as [|e es IH]; intros c; cbn [remove_expired_loop]; [reflexivity|].
  destruct (e_expires e <=? now); [|apply IH].
  destruct (deref c (_cache_lookup_p c e)); [|reflexivity].
  rewrite IH. apply max_entries_remove_p.
Qed.

(** *** Searching a collision chain *)


Lemma chain_find_le (key : Entry) (chain : list Entry) :
  (chain_find key chain <= length chain)%nat.
Proof.
  induction chain as [|node chain IH]; cbn; [lia|].
  destruct (_ && _); lia.
Qed.

(** The walk stops at the first node that matches. *)
Lemma chain_find_hit (key e : Entry) (chain : list Entry) :
  chain !! chain_find key chain = Some e -> matches key e = true.
Proof.
  induction chain as [|node chain IH]; cbn; [discriminate|].
  destruct (_ && _) eqn:E; cbn.
  - intros [= <-]. exact E.
  - exact IH.
Qed.

Lemma chain_find_miss (key : Entry) (chain : list Entry) :
  chain !! chain_find key chain = None -> chain_find key chain = length chain.
Proof.
  intros H. apply lookup_ge_None in H.
  pose proof (chain_find_le key chain). lia.
Qed.

(** A node linked at the null end of a chain in which nothing matches is
    what the next walk finds, provided it matches. *)
Lemma chain_find_app (key e : Entry) (chain : list Entry) :
  chain_find key chain = length chain ->
  matches key e = true ->
  chain_find key (chain ++ [e]) = length chain.
Proof.
  intros Hmiss He. induction chain as [|node chain IH]; cbn in *.
  - unfold matches in He. rewrite He. reflexivity.
  - destruct (_ && _); [discriminate|].
    f_equal. apply IH. lia.
Qed.

Lemma bucket_in_range (c : Cache) (h : Z) :
  cache_ok c -> (Z.to_nat (h mod max_entries c) < length (entries c))%nat.
Proof.
  intros (H1 & H2 & _). rewrite H2.
  pose proof (Z.mod_pos_bound h (max_entries c) H1). lia.
Qed.

Lemma chain_at_add_p (c : Cache) (key e : Entry) :
  cache_ok c ->
  let lookup := _cache_lookup_p c key in
  chain_at (_cache_add_p c lookup e) (lk_bucket lookup)
  = take (lk_pos lookup) (chain_at c (lk_bucket lookup))
    ++ [mkEntry (e_hash e) (e_query e) (e_answer e) (e_expires e) (last_id c + 1)].
Proof.
  intros Hok lookup.
  pose proof (bucket_in_range c (e_hash key) Hok) as Hb.
  unfold chain_at, _cache_add_p. cbn [entries].
  rewrite list_lookup_alter_eq.
  subst lookup. cbn [lk_bucket lk_pos _cache_lookup_p].
  destruct (lookup_lt_is_Some_2 _ _ Hb) as [chain Hchain].
  rewrite Hchain. reflexivity.
Qed.

End CacheFacts.

(** ** The registry and the cache entry points *)

Module ResolvFacts.
Import Packet Cache Resolv CacheFacts.


Lemma find_elem_of (l : list resolv_cache_info) (id : Z) (info : resolv_cache_info) :
  find_cache_info_locked l id = Some info -> info ∈ l /\ netid info = id.
Proof.
  induction l as [|x l IH]; cbn; [discriminate|].
  destruct (netid x =? id) eqn:E.
  - intros [= <-]. split; [left | apply Z.eqb_eq, E].
  - intros H. destruct (IH H). split; [right|]; assumption.
Qed.

Lemma find_named_ok (st : State) (id : Z) (c : Cache) :
  state_ok st -> find_named_cache_locked (res_cache_list st) id = Some c -> cache_ok c.
Proof.
  unfold state_ok, find_named_cache_locked. intros Hok H.
  destruct (find_cache_info_locked _ _) as [info|] eqn:E; [|discriminate].
  injection H as <-. apply find_elem_of in E as [Hin _].
  rewrite Forall_forall in Hok. apply Hok, Hin.
Qed.

Lemma update_Forall (P : resolv_cache_info -> Prop) (l : list resolv_cache_info)
    (id : Z) (f : resolv_cache_info -> resolv_cache_info) :
  Forall P l ->
  (forall info, find_cache_info_locked l id = Some info -> P (f info)) ->
  Forall P (update_cache_info l id f).
Proof.
  induction 1 as [|x l Hx Hl IH]; cbn; intros Hf; [constructor|].
  destruct (netid x =? id).
  - constructor; [apply Hf; reflexivity | exact Hl].
  - constructor; [exact Hx | apply IH, Hf].
Qed.

Lemma find_update (l : list resolv_cache_info) (id : Z)
    (f : resolv_cache_info -> resolv_cache_info) :
  (forall info, netid (f info) = netid info) ->
  find_cache_info_locked (update_cache_info l id f) id
  = f <$> find_cache_info_locked l id.
Proof.
  intros Hf. induction l as [|x l IH]; cbn; [reflexivity|].
  destruct (netid x =? id) eqn:E; cbn; rewrite ?Hf, E; [reflexivity | exact IH].
Qed.

Lemma find_update_found (l : list resolv_cache_info) (id : Z)
    (f : resolv_cache_info -> resolv_cache_info) (info : resolv_cache_info) :
  find_cache_info_locked l id = Some info ->
  netid (f info) = id ->
  find_cache_info_locked (update_cache_info l id f) id = Some (f info).
Proof.
  intros Hfind Hid. induction l as [|x l IH]; cbn in *; [discriminate|].
  destruct (netid x =? id) eqn:E; cbn.
  - injection Hfind as ->. rewrite Hid, Z.eqb_refl. reflexivity.
  - rewrite E. apply IH, Hfind.
Qed.

Lemma find_named_store (st : State) (id : Z) (c c0 : Cache) (notified : bool) :
  find_named_cache_locked (res_cache_list st) id = Some c0 ->
  find_named_cache_locked (res_cache_list (store_cache st id c notified)) id = Some c.
Proof.
  unfold find_named_cache_locked, store_cache. cbn [res_cache_list].
  rewrite find_update by reflexivity.
  destruct (find_cache_info_locked _ _); [reflexivity | discriminate].
Qed.

Lemma store_cache_ok (st : State) (id : Z) (c : Cache) (notified : bool) :
  state_ok st -> cache_ok c -> state_ok (store_cache st id c notified).
Proof.
  unfold state_ok, store_cache. cbn [res_cache_list]. intros Hst Hc.
  apply update_Forall; [exact Hst | intros info _; exact Hc].
Qed.

(** An update of the registry that leaves the caches alone. *)
Lemma update_keeps_ok (st : State) (id : Z)
    (f : resolv_cache_info -> resolv_cache_info) (n : nat) :
  state_ok st ->
  (forall info, find_cache_info_locked (res_cache_list st) id = Some info ->
                cache (f info) = cache info) ->
  state_ok {| res_cache_list := update_cache_info (res_cache_list st) id f;
              cv_notified := n |}.
Proof.
  unfold state_ok. cbn [res_cache_list]. intros Hst Hf.
  apply update_Forall; [exact Hst|].
  intros info Hinfo. rewrite (Hf info Hinfo).
  apply find_elem_of in Hinfo as [Hin _].
  rewrite Forall_forall in Hst. apply Hst, Hin.
Qed.

Lemma lookup_entry_ok (c : Cache) (lookup : lookup_ref) (e : Entry) (answersize now : Z) :
  cache_ok c -> cache_ok (fst (lookup_entry c lookup e answersize now)).
Proof.
  intros H. unfold lookup_entry.
  destruct (e_expires e <=? now); [apply cache_ok_remove_p, H|].
  destruct (answersize <? _); [exact H|]. cbn [fst].
  destruct (match mru_list c with [] => false | first :: _ => e_id first =? e_id e end);
    [exact H | apply cache_ok_set_mru, H].
Qed.

Lemma lookup_ok (st : State) (id : Z) (query : list Z) (answersize flags now : Z) :
  state_ok st -> state_ok (fst (resolv_cache_lookup st id query answersize flags now)).
Proof.
  intros Hst. unfold resolv_cache_lookup.
  destruct (flag_set flags ANDROID_RESOLV_NO_CACHE_LOOKUP); [exact Hst|].
  destruct (entry_init_key query) as [ok key].
  destruct ok; cbn [negb]; [|exact Hst].
  destruct (find_named_cache_locked _ _) as [c|] eqn:Hc; [|exact Hst].
  pose proof (find_named_ok _ _ _ Hst Hc) as Hok.
  destruct (deref c (_cache_lookup_p c key)) as [e|].
  - pose proof (lookup_entry_ok c (_cache_lookup_p c key) e answersize now Hok) as H.
    destruct (lookup_entry _ _ _ _ _) as [c' out]. cbn [fst] in *.
    apply store_cache_ok; assumption.
  - destruct (flag_set flags ANDROID_RESOLV_NO_CACHE_STORE); [exact Hst|].
    pose proof (cache_ok_has_pending c key true Hok) as H.
    destruct (cache_has_pending_request_locked c key true) as [pending c'].
    cbn [snd] in H. destruct pending; cbn [negb fst]; [exact Hst|].
    apply store_cache_ok; assumption.
Qed.

Lemma wakeup_ok (st : State) (id : Z) (key : Entry) (answersize now : Z) :
  state_ok st -> state_ok (fst (resolv_cache_lookup_wakeup st id key answersize now)).
Proof.
  intros Hst. unfold resolv_cache_lookup_wakeup. cbv zeta.
  destruct (find_named_cache_locked _ _) as [c|] eqn:Hc; [|exact Hst].
  pose proof (find_named_ok _ _ _ Hst Hc) as Hok.
  set (st' := if negb (wait_predicate st id key) then _ else st).
  assert (Hst' : state_ok st').
  { subst st'. destruct (negb _); [|exact Hst].
    apply update_keeps_ok; [exact Hst | reflexivity]. }
  destruct (deref c (_cache_lookup_p c key)) as [e|]; [|exact Hst'].
  pose proof (lookup_entry_ok c (_cache_lookup_p c key) e answersize now Hok) as H.
  destruct (lookup_entry _ _ _ _ _) as [c' out]. cbn [fst] in *.
  apply store_cache_ok; assumption.
Qed.

Lemma query_failed_ok (st : State) (id : Z) (query : list Z) (flags : Z) :
  state_ok st -> state_ok (_resolv_cache_query_failed st id query flags).
Proof.
  intros Hst. unfold _resolv_cache_query_failed.
  destruct (flag_set flags _); [exact Hst|].
  destruct (entry_init_key query) as [ok key].
  destruct ok; cbn [negb]; [|exact Hst].
  destruct (find_named_cache_locked _ _) as [c|] eqn:Hc; [|exact Hst].
  pose proof (cache_ok_notify c key (find_named_ok _ _ _ Hst Hc)) as H.
  destruct (_cache_notify_waiting_tid_locked c key) as [c' n]. cbn [fst] in H.
  apply store_cache_ok; assumption.
Qed.


Lemma evict_ok (now : Z) (c : Cache) : cache_ok c -> cache_ok (evict now c).
Proof.
  intros H. unfold evict. destruct (_ <=? _); [|exact H]. cbv zeta.
  destruct (_ <=? _); [apply cache_ok_remove_oldest|];
    apply cache_ok_remove_expired, H.
Qed.

Lemma evict_max_entries (now : Z) (c : Cache) :
  max_entries (evict now c) = max_entries c.
Proof.
  unfold evict. destruct (_ <=? _); [|reflexivity]. cbv zeta.
  destruct (_ <=? _); rewrite ?max_entries_remove_oldest;
    apply max_entries_remove_expired.
Qed.

Section Env.

Variable ns_initparse : list Z -> option Answer.ns_msg.
Variable dn_skipname : list Z -> option nat.
Variable MAXNS MAXNSSAMPLES MAXDNSRCH MAXDNSRCHPATH : nat.
Variable getaddrinfo_numeric : string -> option addrinfo.
Variable flag_retry_count : option Z.
Variable flag_retransmission_time_interval : option Z.
Variable resolv_get_dns_event_subsampling_map : list (Z * Z).

Let add := resolv_cache_add ns_initparse dn_skipname.
Let ttl_of := answer_getTTL ns_initparse dn_skipname.
Let create := resolv_create_cache_for_net MAXNS MAXNSSAMPLES
                resolv_get_dns_event_subsampling_map.
Let set_servers := resolv_set_nameservers MAXNS MAXDNSRCH MAXDNSRCHPATH
                     getaddrinfo_numeric flag_retry_count
                     flag_retransmission_time_interval.
Let step' := step ns_initparse dn_skipname MAXNS MAXNSSAMPLES MAXDNSRCH MAXDNSRCHPATH
               getaddrinfo_numeric flag_retry_count
               flag_retransmission_time_interval
               resolv_get_dns_event_subsampling_map.
Let run' := run ns_initparse dn_skipname MAXNS MAXNSSAMPLES MAXDNSRCH MAXDNSRCHPATH
              getaddrinfo_numeric flag_retry_count
              flag_retransmission_time_interval
              resolv_get_dns_event_subsampling_map.


(** [resolv_cache_add] by cases on its return paths. *)
Lemma add_cases (st : State) (id : Z) (query answer : list Z) (now : Z) :
  let key := snd (entry_init_key query) in
  let r := add st id query answer now in
  (cacheable query = false /\ r = (st, - EINVAL))
  \/ (cacheable query = true
      /\ find_named_cache_locked (res_cache_list st) id = None
      /\ r = (st, - ENONET))
  \/ (exists c c1 e,
        cacheable query = true
        /\ find_named_cache_locked (res_cache_list st) id = Some c
        /\ (c1 = c \/ c1 = evict now c)
        /\ deref c1 (_cache_lookup_p c1 key) = Some e
        /\ r = (store_cache st id (fst (_cache_notify_waiting_tid_locked c1 key))
                             (snd (_cache_notify_waiting_tid_locked c1 key)),
                - EEXIST))
  \/ (exists c,
        cacheable query = true
        /\ find_named_cache_locked (res_cache_list st) id = Some c
        /\ deref c (_cache_lookup_p c key) = None
        /\ deref (evict now c) (_cache_lookup_p (evict now c) key) = None
        /\ r = (store_cache st id (fst (added ns_initparse dn_skipname (evict now c) key answer now))
                             (snd (added ns_initparse dn_skipname (evict now c) key answer now)), 0)).
Proof.
  cbv zeta. subst add. unfold resolv_cache_add.
  unfold cacheable, entry_init_key. cbn [snd e_query].
  set (key := mkEntry _ query [] 0 0).
  destruct (_dnsPacket_checkQuery (_dnsPacket_init query)); cbn [negb];
    [|left; split; reflexivity].
  right.
  destruct (find_named_cache_locked _ _) as [c|] eqn:Hc;
    [|left; repeat split; reflexivity].
  right.
  destruct (deref c (_cache_lookup_p c key)) as [e|] eqn:He.
  { left. exists c, c, e. repeat split; try assumption; [left; reflexivity|].
    destruct (_cache_notify_waiting_tid_locked c key); reflexivity. }
  unfold added, evict, new_entry, entry_alloc. subst ttl_of. cbv zeta.
  destruct (max_entries c <=? num_entries c) eqn:Hfull; cbv iota.
  - set (c1 := if max_entries (_cache_remove_expired now c)
                    <=? num_entries (_cache_remove_expired now c)
               then _cache_remove_oldest (_cache_remove_expired now c)
               else _cache_remove_expired now c).
    destruct (deref c1 (_cache_lookup_p c1 key)) as [e|] eqn:He1.
    + left. exists c, c1, e. repeat split; try assumption.
      * right. unfold evict. rewrite Hfull. reflexivity.
      * destruct (_cache_notify_waiting_tid_locked c1 key); reflexivity.
    + right. exists c. rewrite Hfull. cbv iota. fold c1.
      repeat split; try assumption.
      cbn [e_hash e_query e_answer e_id].
      match goal with
      | |- context [_cache_notify_waiting_tid_locked ?x key] =>
          destruct (_cache_notify_waiting_tid_locked x key)
      end; reflexivity.
  - right. exists c. rewrite Hfull. cbv iota.
    repeat split; try assumption.
    cbn [e_hash e_query e_answer e_id].
    match goal with
    | |- context [_cache_notify_waiting_tid_locked ?x key] =>
        destruct (_cache_notify_waiting_tid_locked x key)
    end; reflexivity.
Qed.

Lemma added_ok (c1 : Cache) (key : Entry) (answer : list Z) (now : Z) :
  cache_ok c1 -> cache_ok (fst (added ns_initparse dn_skipname c1 key answer now)).
Proof.
  intros H. unfold added. apply cache_ok_notify.
  destruct (0 <? _); [apply cache_ok_add_p|]; exact H.
Qed.

Lemma add_ok (st : State) (id : Z) (query answer : list Z) (now : Z) :
  state_ok st -> state_ok (fst (add st id query answer now)).
Proof.
  intros Hst.
  destruct (add_cases st id query answer now)
    as [[_ ->]|[(_ & _ & ->)|[(c & c1 & e & _ & Hc & Hc1 & _ & ->)|(c & _ & Hc & _ & _ & ->)]]];
    cbn [fst]; try exact Hst.
  - apply store_cache_ok; [exact Hst|]. apply cache_ok_notify.
    pose proof (find_named_ok _ _ _ Hst Hc).
    destruct Hc1 as [->| ->]; [|apply evict_ok]; assumption.
  - apply store_cache_ok; [exact Hst|]. apply added_ok, evict_ok.
    exact (find_named_ok _ _ _ Hst Hc).
Qed.

Lemma create_ok (st : State) (id : Z) :
  state_ok st -> state_ok (fst (create st id)).
Proof.
  intros Hst. subst create. unfold resolv_create_cache_for_net.
  destruct (find_named_cache_locked _ _); [exact Hst|].
  unfold state_ok. cbn. apply Forall_app. split; [exact Hst|].
  constructor; [apply cache_ok_create | constructor].
Qed.

Lemma delete_ok (st : State) (id : Z) :
  state_ok st -> state_ok (resolv_delete_cache_for_net st id).
Proof.
  unfold state_ok, resolv_delete_cache_for_net.
  generalize (res_cache_list st) as l. intros l Hl.
  assert (H : Forall (fun info => cache_ok (cache info)) (fst (delete_cache_info l id))).
  { induction Hl as [|x l Hx Hl IH]; cbn; [constructor|].
    destruct (netid x =? id); [exact Hl|].
    destruct (delete_cache_info l id) as [l' n]. cbn in *.
    constructor; assumption. }
  destruct (delete_cache_info l id) as [l' n]. exact H.
Qed.

Lemma flush_ok (st : State) (id : Z) :
  state_ok st -> state_ok (fst (resolv_flush_cache_for_net st id)).
Proof.
  intros Hst. unfold resolv_flush_cache_for_net.
  destruct (find_named_cache_locked _ _) as [c|] eqn:Hc; [|exact Hst].
  pose proof (cache_ok_flush c (find_named_ok _ _ _ Hst Hc)) as H.
  destruct (cache_flush_locked c) as [c' n]. cbn [fst] in *.
  apply store_cache_ok; assumption.
Qed.

(** The nameserver functions do not touch the cache of the record. *)
Lemma cache_fold_left {A} (g : resolv_cache_info -> A -> resolv_cache_info)
    (l : list A) (info : resolv_cache_info) :
  (forall i a, cache (g i a) = cache i) -> cache (fold_left g l info) = cache info.
Proof.
  intros Hg. revert info. induction l as [|a l IH]; intros info; cbn; [reflexivity|].
  rewrite IH. apply Hg.
Qed.

Lemma cache_clear_stats (info : resolv_cache_info) :
  cache (res_cache_clear_stats_locked MAXNS info) = cache info.
Proof. unfold res_cache_clear_stats_locked. apply cache_fold_left. reflexivity. Qed.

Lemma cache_free_nameservers (info : resolv_cache_info) :
  cache (free_nameservers_locked MAXNS info) = cache info.
Proof.
  unfold free_nameservers_locked. cbn [cache set_revision_id].
  rewrite cache_clear_stats. cbn [cache set_nscount].
  apply cache_fold_left. reflexivity.
Qed.

Lemma set_nameservers_ok (st : State) (id : Z) (servers domains : list string)
    (p : res_params) :
  state_ok st -> state_ok (fst (set_servers st id servers domains p)).
Proof.
  intros Hst. subst set_servers. unfold resolv_set_nameservers. cbv zeta.
  destruct (mapM _ _); [|exact Hst].
  destruct (find_cache_info_locked _ _) as [info|] eqn:Hinfo; [|exact Hst].
  cbn [fst]. apply update_keeps_ok; [exact Hst|].
  intros info' Hinfo'. rewrite Hinfo in Hinfo'. injection Hinfo' as <-.
  cbn [cache set_search_domains].
  destruct (negb (resolv_is_nameservers_equal _ _)).
  - cbn [cache set_revision_id]. rewrite cache_clear_stats.
    cbn [cache set_nscount set_nsaddrinfo set_nameservers].
    rewrite cache_free_nameservers. reflexivity.
  - destruct (negb (_ =? _)); [|reflexivity].
    cbn [cache set_revision_id]. rewrite cache_clear_stats. reflexivity.
Qed.

Lemma add_sample_ok (st : State) (id revision : Z) (ns : nat) (sample : res_sample)
    (max_samples : Z) :
  state_ok st ->
  state_ok (_resolv_cache_add_resolver_stats_sample st id revision ns sample max_samples).
Proof.
  intros Hst. unfold _resolv_cache_add_resolver_stats_sample.
  destruct (max_samples <=? 0); [exact Hst|].
  destruct (find_cache_info_locked _ _) as [info|]; [|exact Hst].
  destruct (revision_id info =? revision); [|exact Hst].
  apply update_keeps_ok; [exact Hst | reflexivity].
Qed.

Lemma step_ok (st : State) (o : op) : state_ok st -> state_ok (step' st o).
Proof.
  intros Hst. destruct o; cbn.
  - apply create_ok, Hst.
  - apply delete_ok, Hst.
  - apply flush_ok, Hst.
  - apply lookup_ok, Hst.
  - apply wakeup_ok, Hst.
  - apply add_ok, Hst.
  - apply query_failed_ok, Hst.
  - apply set_nameservers_ok, Hst.
  - apply add_sample_ok, Hst.
Qed.

Lemma run_ok (ops : list op) (st : State) : state_ok st -> state_ok (run' ops st).
Proof.
  revert st. induction ops as [|o ops IH]; intros st Hst; cbn; [exact Hst|].
  apply IH, step_ok, Hst.
Qed.

Lemma initial_ok : state_ok initial_state.
Proof. constructor. Qed.

(** C8.  After any sequence of cache creations and deletions, lookups
    (either half), adds, query-failed notifications, flushes and nameserver
    updates, started from the empty registry, the pending-request list of
    the cache of every network holds at most one record with any given
    hash. *)
Theorem C8_pending_unique (ops : list op) (id : Z) (c : Cache) (h : Z) :
  find_named_cache_locked (res_cache_list (run' ops initial_state)) id = Some c ->
  (count_occ Z.eq_dec (pending_requests c) h <= 1)%nat.
Proof.
  intros Hc.
  pose proof (find_named_ok _ _ _ (run_ok ops _ initial_ok) Hc) as (_ & _ & Hnd).
  apply NoDup_ListNoDup in Hnd.
  apply (proj1 (List.NoDup_count_occ Z.eq_dec _) Hnd).
Qed.

Lemma pending_remove_absent (h : Z) (l : list Z) :
  has_pending h l = false -> pending_remove h l = l.
Proof.
  induction l as [|y l IH]; cbn; [reflexivity|].
  destruct (y =? h); cbn; [discriminate|]. intros H. rewrite IH; auto.
Qed.

(** Notifying the waiters changes the pending list and nothing else. *)
Lemma notify_spec (c : Cache) (key : Entry) :
  _cache_notify_waiting_tid_locked c key
  = (set_pending c (pending_remove (e_hash key) (pending_requests c)),
     has_pending (e_hash key) (pending_requests c)).
Proof.
  unfold _cache_notify_waiting_tid_locked.
  destruct (has_pending _ _) eqn:E; [reflexivity|].
  rewrite pending_remove_absent by exact E.
  destruct c; reflexivity.
Qed.

(** The table is searched through [max_entries] and [entries] only. *)
Lemma deref_lookup_set_pending (c : Cache) (l : list Z) (key : Entry) :
  deref (set_pending c l) (_cache_lookup_p (set_pending c l) key)
  = deref c (_cache_lookup_p c key).
Proof. reflexivity. Qed.

(** When the search of the table ends at an entry for the key of a
    cacheable query (expired or not), [resolv_cache_add] returns [-EEXIST];
    the table, the MRU list and the entry found for the query, with its
    answer, are as before; the first pending record with the hash of the
    query is unlinked, so that none is left when the records were unique;
    and [cv.notify_all()] is called once if there was such a record. *)
Lemma add_found_gives_EEXIST (st : State) (id : Z) (query answer : list Z) (now : Z)
    (c : Cache) (e : Entry) :
  let key := snd (entry_init_key query) in
  let st' := fst (add st id query answer now) in
  cacheable query = true ->
  find_named_cache_locked (res_cache_list st) id = Some c ->
  deref c (_cache_lookup_p c key) = Some e ->
  snd (add st id query answer now) = - EEXIST
  /\ exists c',
      find_named_cache_locked (res_cache_list st') id = Some c'
      /\ entries c' = entries c
      /\ mru_list c' = mru_list c
      /\ num_entries c' = num_entries c
      /\ deref c' (_cache_lookup_p c' key) = Some e
      /\ pending_requests c' = pending_remove (e_hash key) (pending_requests c)
      /\ (NoDup (pending_requests c) ->
          has_pending (e_hash key) (pending_requests c') = false)
      /\ cv_notified st'
         = if has_pending (e_hash key) (pending_requests c)
           then S (cv_notified st) else cv_notified st.
Proof.
  intros key st' Hq Hc He. subst st' add. unfold resolv_cache_add.
  change (entry_init_key query) with (cacheable query, key).
  rewrite Hq. cbn [negb]. rewrite Hc, He, notify_spec. cbn [fst snd].
  split; [reflexivity|].
  exists (set_pending c (pending_remove (e_hash key) (pending_requests c))).
  split; [eapply find_named_store; exact Hc|].
  repeat split; try reflexivity; try assumption.
  intros Hnd. apply has_pending_false, pending_remove_gone, Hnd.
Qed.

Lemma matches_new_entry (query answer : list Z) (now id' : Z) :
  let key := snd (entry_init_key query) in
  fingerprint_equal query query = true ->
  matches key (mkEntry (e_hash key) (e_query key) answer now id') = true.
Proof.
  intros key Heq. unfold matches, entry_equals. cbn [e_hash e_query].
  rewrite Z.eqb_refl, Nat.eqb_refl. exact Heq.
Qed.

(** An entry linked by [_cache_add_p] where the lookup of its key ended is
    what the next lookup of that key finds. *)
Lemma deref_after_add_p (c : Cache) (query answer : list Z) (expires : Z) :
  let key := snd (entry_init_key query) in
  cache_ok c ->
  fingerprint_equal query query = true ->
  deref c (_cache_lookup_p c key) = None ->
  let c' := _cache_add_p c (_cache_lookup_p c key)
              (mkEntry (e_hash key) (e_query key) answer expires 0) in
  deref c' (_cache_lookup_p c' key)
  = Some (mkEntry (e_hash key) (e_query key) answer expires (last_id c + 1)).
Proof.
  intros key Hok Heq Hmiss c'.
  pose proof (chain_at_add_p c key (mkEntry (e_hash key) (e_query key) answer expires 0) Hok)
    as Hchain.
  cbv zeta in Hchain. cbn [e_hash e_query e_answer e_expires] in Hchain.
  unfold deref in *. fold c' in Hchain.
  assert (Hb : lk_bucket (_cache_lookup_p c' key) = lk_bucket (_cache_lookup_p c key))
    by reflexivity.
  rewrite Hb, Hchain.
  apply chain_find_miss in Hmiss.
  change (lk_pos (_cache_lookup_p c key)) with
    (chain_find key (chain_at c (lk_bucket (_cache_lookup_p c key)))) in *.
  rewrite Hmiss, firstn_all.
  change (lk_pos (_cache_lookup_p c' key)) with
    (chain_find key (chain_at c' (lk_bucket (_cache_lookup_p c key)))).
  rewrite Hchain, Hmiss, firstn_all.
  rewrite chain_find_app;
    [apply list_lookup_middle; reflexivity | exact Hmiss |].
  apply matches_new_entry. exact Heq.
Qed.

(** An add that returns 0 for an answer with a positive TTL, followed at once
    by a lookup of the same query, in any state whose caches are well
    formed. *)
Lemma add_then_lookup (st : State) (id : Z) (query answer : list Z)
    (now answersize flags : Z) :
  state_ok st ->
  snd (add st id query answer now) = 0 ->
  0 < ttl_of answer ->
  fingerprint_equal query query = true ->
  Z.of_nat (length answer) <= answersize ->
  flag_set flags ANDROID_RESOLV_NO_CACHE_LOOKUP = false ->
  snd (resolv_cache_lookup (fst (add st id query answer now)) id query answersize flags now)
  = Return {| lo_status := RESOLV_CACHE_FOUND;
              lo_answerlen := Some (length answer);
              lo_answer := Some answer |}.
Proof.
  intros Hst Hret Httl Heq Hsize Hflag.
  destruct (add_cases st id query answer now)
    as [[_ Hr]|[(_ & _ & Hr)|[(c & c1 & e & _ & _ & _ & _ & Hr)|(c & Hq & Hc & _ & Hmiss & Hr)]]];
    cbv zeta in Hr; fold add in Hr; rewrite Hr in Hret |- *; cbn [fst snd] in Hret |- *;
    try discriminate Hret.
  clear Hret Hr.
  pose proof (evict_ok now c (find_named_ok _ _ _ Hst Hc)) as Hok1.
  set (c1 := evict now c) in *.
  unfold resolv_cache_lookup. rewrite Hflag.
  change (entry_init_key query) with (cacheable query, snd (entry_init_key query)).
  rewrite Hq. cbn [negb].
  rewrite (find_named_store st id _ c _ Hc).
  unfold added. rewrite notify_spec. cbn [fst snd].
  rewrite deref_lookup_set_pending.
  unfold ttl_of in Httl.
  replace (0 <? answer_getTTL ns_initparse dn_skipname answer) with true
    by (symmetry; apply Z.ltb_lt; exact Httl).
  unfold new_entry.
  rewrite (deref_after_add_p c1 query answer
             (answer_getTTL ns_initparse dn_skipname answer + now) Hok1 Heq Hmiss).
  unfold lookup_entry. cbn [e_expires e_answer e_id].
  replace (answer_getTTL ns_initparse dn_skipname answer + now <=? now) with false
    by (symmetry; apply Z.leb_gt; lia).
  replace (answersize <? Z.of_nat (length answer)) with false
    by (symmetry; apply Z.ltb_ge; lia).
  match goal with
  | |- context [if ?b then ?x else ?y] => destruct b
  end; reflexivity.
Qed.

(** The queries the resolver builds itself, made of bytes and without an
    additional record, compare equal to themselves
    ([PacketFacts.cacheable_self_equal]): for them an add that returns 0 for
    an answer with a positive TTL is always followed by a hit. *)
Lemma add_then_lookup_no_additional (st : State) (id : Z) (query answer : list Z)
    (now answersize flags : Z) :
  state_ok st ->
  Forall (fun b => 0 <= b < 256) query ->
  read16 query 10 = 0 ->
  snd (add st id query answer now) = 0 ->
  0 < ttl_of answer ->
  Z.of_nat (length answer) <= answersize ->
  flag_set flags ANDROID_RESOLV_NO_CACHE_LOOKUP = false ->
  snd (resolv_cache_lookup (fst (add st id query answer now)) id query answersize flags now)
  = Return {| lo_status := RESOLV_CACHE_FOUND;
              lo_answerlen := Some (length answer);
              lo_answer := Some answer |}.
Proof.
  intros Hst Hbytes Har Hret Httl Hsize Hflag.
  apply add_then_lookup; try assumption.
  apply PacketFacts.cacheable_self_equal; try assumption.
  destruct (add_cases st id query answer now)
    as [[_ Hr]|[(_ & _ & Hr)|[(c & c1 & e & Hq & _)|(c & Hq & _)]]];
    try exact Hq; cbv zeta in Hr; fold add in Hr; rewrite Hr in Hret; discriminate Hret.
Qed.

(** C1 (amended).  For a network whose cache was created by the registry,
    every query and every answer: if [resolv_cache_add] returns 0, the
    minimum TTL of the answer is positive, and the query compares equal to
    itself under the canonical comparison, then a lookup of the same query
    made at once (same clock reading, cache lookups not disabled) with a
    buffer that can hold the answer returns FOUND, stores the length of the
    answer and copies the answer. *)
Theorem C1_add_then_lookup (ops : list op) (id : Z) (query answer : list Z)
    (now answersize flags : Z) :
  let st := run' ops initial_state in
  snd (add st id query answer now) = 0 ->
  0 < ttl_of answer ->
  fingerprint_equal query query = true ->
  Z.of_nat (length answer) <= answersize ->
  flag_set flags ANDROID_RESOLV_NO_CACHE_LOOKUP = false ->
  snd (resolv_cache_lookup (fst (add st id query answer now)) id query answersize flags now)
  = Return {| lo_status := RESOLV_CACHE_FOUND;
              lo_answerlen := Some (length answer);
              lo_answer := Some answer |}.
Proof.
  intros st. apply add_then_lookup. apply run_ok, initial_ok.
Qed.

End Env.

(** C10.  Where no cache was created for the network, a lookup of a query
    that passes validation, made without [NO_CACHE_LOOKUP], returns
    UNSUPPORTED and leaves the state as it was (so no pending request is
    registered); this is also what a query that fails validation gets. *)
Theorem C10_lookup_without_cache (st : State) (id : Z) (query : list Z)
    (answersize flags now : Z) :
  find_named_cache_locked (res_cache_list st) id = None ->
  cacheable query = true ->
  flag_set flags ANDROID_RESOLV_NO_CACHE_LOOKUP = false ->
  resolv_cache_lookup st id query answersize flags now
  = (st, Return (out_status RESOLV_CACHE_UNSUPPORTED))
  /\ forall query', cacheable query' = false ->
       resolv_cache_lookup st id query' answersize flags now
       = resolv_cache_lookup st id query answersize flags now.
Proof.
  intros Hc Hq Hflag.
  assert (H : resolv_cache_lookup st id query answersize flags now
              = (st, Return (out_status RESOLV_CACHE_UNSUPPORTED))).
  { unfold resolv_cache_lookup. rewrite Hflag.
    change (entry_init_key query) with (cacheable query, snd (entry_init_key query)).
    rewrite Hq, Hc. reflexivity. }
  split; [exact H|].
  intros query' Hq'. rewrite H.
  unfold resolv_cache_lookup. rewrite Hflag.
  change (entry_init_key query') with (cacheable query', snd (entry_init_key query')).
  rewrite Hq'. reflexivity.
Qed.

(** C1 as the specification has it fails: an add that returns 0 need not
    have stored anything.  Here the answer has TTL 0; the add returns 0 and
    the lookup that follows returns NOTFOUND. *)
Lemma C1_counterexample_ttl0 :
  let st := ex_run 0 [OpCreate 30] initial_state in
  snd (ex_add 0 st 30 example_query example_answer 1000) = 0
  /\ snd (resolv_cache_lookup (fst (ex_add 0 st 30 example_query example_answer 1000))
            30 example_query 512 0 1000)
     = Return (out_status RESOLV_CACHE_NOTFOUND).
Proof. vm_compute. split; reflexivity. Qed.

Lemma C1_witness :
  let st := ex_run 60 [OpCreate 30] initial_state in
  snd (resolv_cache_lookup (fst (ex_add 60 st 30 example_query example_answer 1000))
         30 example_query 512 0 1000)
  = Return {| lo_status := RESOLV_CACHE_FOUND;
              lo_answerlen := Some (length example_answer);
              lo_answer := Some example_answer |}.
Proof.
  refine (C1_add_then_lookup (reader_of (msg_one_answer 60)) Answer.dn_skipname_labels
            4 64 6 256 getaddrinfo_quad None None [] [OpCreate 30] 30
            example_query example_answer 1000 512 0 _ _ _ _ _).
  - vm_compute. reflexivity.
  - vm_compute. reflexivity.
  - vm_compute. reflexivity.
  - vm_compute. discriminate.
  - vm_compute. reflexivity.
Defined.

Lemma C8_witness :
  let st := ex_run 60 [OpCreate 30; OpLookup 30 example_query 512 0 1000] initial_state in
  pending_requests (cache_of st 30) = [fingerprint_hash example_query]
  /\ (count_occ Z.eq_dec (pending_requests (cache_of st 30))
        (fingerprint_hash example_query) <= 1)%nat.
Proof.
  split; [vm_compute; reflexivity|].
  refine (C8_pending_unique (reader_of (msg_one_answer 60)) Answer.dn_skipname_labels
            4 64 6 256 getaddrinfo_quad None None []
            [OpCreate 30; OpLookup 30 example_query 512 0 1000] 30 _ _ _).
  vm_compute. reflexivity.
Defined.

(** C9.  The claim fails on a query that [_dnsPacket_checkQuery] lets
    through although it does not compare equal to itself (see C7).  After a
    first add of [q_dangling_ar], the chain of its bucket and the MRU list
    hold an unexpired entry with the hash and the bytes of the query; a
    second add of the same query returns 0, not [-EEXIST], and links a second
    entry for the same bytes in front of the first. *)
Theorem C9_dangling_added_twice :
  let st0 := ex_run 60 [OpCreate 30] initial_state in
  let st1 := fst (ex_add 60 st0 30 q_dangling_ar example_answer 1000) in
  let st2 := fst (ex_add 60 st1 30 q_dangling_ar [9; 9] 1001) in
  let e1 := mkEntry (fingerprint_hash q_dangling_ar) q_dangling_ar example_answer
              1060 1 in
  cacheable q_dangling_ar = true
  /\ snd (ex_add 60 st0 30 q_dangling_ar example_answer 1000) = 0
  /\ mru_list (cache_of st1 30) = [e1]
  /\ chain_at (cache_of st1 30)
       (Z.to_nat (fingerprint_hash q_dangling_ar mod CONFIG_MAX_ENTRIES)) = [e1]
  /\ snd (ex_add 60 st1 30 q_dangling_ar [9; 9] 1001) = 0
  /\ mru_list (cache_of st2 30)
     = [mkEntry (fingerprint_hash q_dangling_ar) q_dangling_ar [9; 9] 1061 2; e1].
Proof. vm_compute. repeat split; reflexivity. Qed.

Lemma C10_witness :
  resolv_cache_lookup initial_state 30 example_query 512 0 1000
  = (initial_state, Return (out_status RESOLV_CACHE_UNSUPPORTED)).
Proof.
  refine (proj1 (C10_lookup_without_cache initial_state 30 example_query 512 0 1000 _ _ _)).
  - reflexivity.
  - vm_compute. reflexivity.
  - reflexivity.
Defined.

End ResolvFacts.

(** ** The TTL of a negative answer *)

Module AnswerFacts.
Import Answer.

Section Reader.

Variable ns_initparse : list Z -> option ns_msg.
Variable dn_skipname : list Z -> option nat.


Lemma soa_ttls_cons (r : option ns_rr) (rrs : list (option ns_rr)) :
  soa_ttls dn_skipname (r :: rrs)
  = match soa_ttl dn_skipname r with
    | Some v => v :: soa_ttls dn_skipname rrs
    | None => soa_ttls dn_skipname rrs
    end.
Proof. reflexivity. Qed.

(** One round of the loop of [answer_getNegativeTTL], by record number. *)
Lemma negativeTTL_step_spec (n : nat) (r : option ns_rr) (result : Z) :
  negativeTTL_step dn_skipname n r result
  = match soa_ttl dn_skipname r with
    | Some v => if (n =? 0)%nat then v else Z.min result v
    | None => result
    end.
Proof.
  unfold negativeTTL_step, soa_ttl, soa_minimum.
  destruct r as [rr|]; cbn [mbind option_bind]; [|reflexivity].
  destruct (rr_type rr =? ns_t_soa); cbn [mbind option_bind]; [|reflexivity].
  destruct (dn_skipname (rr_rdata rr)) as [len1|]; cbn [mbind option_bind]; [|reflexivity].
  destruct (dn_skipname (drop len1 (rr_rdata rr))) as [len2|];
    cbn [mbind option_bind]; [|reflexivity].
  change (5 * NS_INT32SZ)%nat with 20%nat. change (NS_INT32SZ * 4)%nat with 16%nat.
  destruct (length _ =? 20)%nat; cbn [negb mbind option_bind]; [|reflexivity].
  set (ttl := ntohl_at _).
  assert (Hmin : (if ttl <? rr_ttl rr then ttl else rr_ttl rr) = Z.min (rr_ttl rr) ttl).
  { destruct (ttl <? rr_ttl rr) eqn:E; [apply Z.ltb_lt in E | apply Z.ltb_ge in E]; lia. }
  rewrite Hmin. destruct (n =? 0)%nat; cbn [orb]; [reflexivity|].
  set (v := Z.min _ _).
  destruct (v <? result) eqn:E; [apply Z.ltb_lt in E | apply Z.ltb_ge in E]; lia.
Qed.

(** From record 1 on, the loop folds [min] over the SOA records. *)
Lemma negativeTTL_loop_tail (n : nat) (rrs : list (option ns_rr)) (result : Z) :
  negativeTTL_loop dn_skipname (S n) rrs result
  = list_min result (soa_ttls dn_skipname rrs).
Proof.
  revert n result. induction rrs as [|r rrs IH]; intros n result; [reflexivity|].
  cbn [negativeTTL_loop]. rewrite IH, negativeTTL_step_spec, soa_ttls_cons.
  destruct (soa_ttl dn_skipname r); reflexivity.
Qed.

(** What [answer_getNegativeTTL] computes: the smallest SOA value when
    record 0 of the authority section is an SOA record that parses; else the
    running value stays at its initial 0 through record 0. *)
Lemma answer_getNegativeTTL_spec (handle : ns_msg) :
  answer_getNegativeTTL dn_skipname handle
  = match ns_s_ns handle with
    | [] => 0
    | r :: rrs =>
        match soa_ttl dn_skipname r with
        | Some v => list_min v (soa_ttls dn_skipname rrs)
        | None => list_min 0 (soa_ttls dn_skipname rrs)
        end
    end.
Proof.
  unfold answer_getNegativeTTL. destruct (ns_s_ns handle) as [|r rrs]; [reflexivity|].
  cbn [negativeTTL_loop]. rewrite negativeTTL_loop_tail, negativeTTL_step_spec.
  destruct (soa_ttl dn_skipname r); reflexivity.
Qed.

Lemma list_min_zero (l : list Z) : Forall (fun v => 0 <= v) l -> list_min 0 l = 0.
Proof.
  unfold list_min. induction 1 as [|v l Hv Hl IH]; cbn; [reflexivity|].
  rewrite Z.min_l by lia. exact IH.
Qed.

(** With TTLs that are not negative, as 32-bit unsigned values are, the
    result is 0 as soon as record 0 of the authority section is not an SOA
    record that parses, whatever SOA records follow. *)
Lemma answer_getNegativeTTL_first_not_soa (handle : ns_msg) (r : option ns_rr)
    (rrs : list (option ns_rr)) :
  ns_s_ns handle = r :: rrs ->
  soa_ttl dn_skipname r = None ->
  Forall (fun v => 0 <= v) (soa_ttls dn_skipname rrs) ->
  answer_getNegativeTTL dn_skipname handle = 0.
Proof.
  intros Hns Hr Hpos. rewrite answer_getNegativeTTL_spec, Hns, Hr.
  apply list_min_zero, Hpos.
Qed.

(** The second half of the sentence of the specification: 0 on parse
    failure. *)
Lemma answer_getTTL_parse_failure (answer : list Z) :
  ns_initparse answer = None -> answer_getTTL ns_initparse dn_skipname answer = 0.
Proof. unfold answer_getTTL. intros ->. reflexivity. Qed.

End Reader.

(** C2 (code defect).  The specification has the TTL of an answer without
    answer records be the smallest [min(soa.ttl, soa.minimum_field)] over the
    SOA records of the authority section.  [answer_getNegativeTTL] takes the
    first value when the record NUMBER is 0 ([n == 0]), not at the first SOA
    record: for the authority section [NS; SOA(ttl 300, minimum 60)] the
    value of the specification is 60 and the function returns 0, while for
    [SOA; NS] it returns 60. *)
Theorem C2_soa_after_ns_gives_zero :
  ns_s_an msg_ns_then_soa = []
  /\ soa_ttls dn_skipname_labels (ns_s_ns msg_ns_then_soa) = [60]
  /\ answer_getTTL (fun _ => Some msg_ns_then_soa) dn_skipname_labels [] = 0
  /\ answer_getTTL (fun _ => Some msg_soa_then_ns) dn_skipname_labels [] = 60.
Proof. repeat split; vm_compute; reflexivity. Qed.

End AnswerFacts.

(** ** Races of the private-DNS validation *)

Module PrivateDnsFacts.
Import PrivateDns.

Section Tracker.

Variable same_key : DnsTlsServer -> DnsTlsServer -> bool.
Variable listeners : nat.

(** What [recordPrivateDnsValidation] does when the server was removed from
    the tracker, or is there under a key that differs from it: the outcome
    is reported as a failure and no re-evaluation is asked for, but the
    tracker IS written: [tracker[server] = Validation::fail] inserts the
    server in the first case and overwrites the state of the differing entry
    in the second. *)
Lemma record_race (cfg : PrivateDnsConfiguration) (server : DnsTlsServer) (netId : Z)
    (success : bool) (tracker : PrivateDnsTracker) (mode : PrivateDnsMode) :
  mPrivateDnsTransports cfg !! netId = Some tracker ->
  mPrivateDnsModes cfg !! netId = Some mode ->
  (tracker_find same_key tracker server = None
   \/ exists k v, tracker_find same_key tracker server = Some (k, v)
                  /\ server_eqb k server = false) ->
  recordPrivateDnsValidation same_key listeners cfg server netId success
  = ({| mPrivateDnsModes := mPrivateDnsModes cfg;
        mPrivateDnsTransports :=
          <[netId := tracker_assign same_key tracker server Validation.fail]>
            (mPrivateDnsTransports cfg);
        sent_events :=
          sent_events cfg
          ++ replicate listeners (mkValidationEvent netId (ss server) (name server) false) |},
     DONT_REEVALUATE).
Proof.
  intros Ht Hm Hrace. unfold recordPrivateDnsValidation. rewrite Ht, Hm.
  destruct Hrace as [-> | (k & v & -> & Hne)]; [reflexivity|].
  rewrite Hne. reflexivity.
Qed.

(** A server that is not in the tracker is in it afterwards. *)
Lemma tracker_find_assign (tracker : PrivateDnsTracker) (server : DnsTlsServer)
    (v : Validation.t) :
  same_key server server = true ->
  tracker_find same_key tracker server = None ->
  tracker_find same_key (tracker_assign same_key tracker server v) server
  = Some (server, v).
Proof.
  intros Hrefl. induction tracker as [|[k x] tracker IH]; cbn.
  - rewrite Hrefl. reflexivity.
  - destruct (same_key k server) eqn:E; [discriminate|].
    cbn. rewrite E. exact IH.
Qed.

End Tracker.

(** C3 (code defect).  The specification has a validation outcome that
    arrives after the server was removed from the tracker, or replaced by a
    differing entry, treated as a failure and the tracker left as it is.
    [recordPrivateDnsValidation] does treat it as a failure, but then runs
    [tracker[server] = Validation::fail] all the same (its own TODO comments
    say it should not): the removed server 1.1.1.1 is put back into the
    tracker of network 30, and the entry that replaced it under a hostname
    has its state overwritten from in_process to fail. *)
Theorem C3_record_writes_tracker :
  (tracker_of cfg_removed 30 = [(server_b, Validation.in_process)]
   /\ tracker_find same_address (tracker_of cfg_removed 30) server_a = None
   /\ snd (ex_record cfg_removed server_a 30 true) = false
   /\ sent_events (fst (ex_record cfg_removed server_a 30 true))
      = [mkValidationEvent 30 [1; 1; 1; 1] "" false]
   /\ tracker_of (fst (ex_record cfg_removed server_a 30 true)) 30
      = [(server_b, Validation.in_process); (server_a, Validation.fail)])
  /\ (tracker_of cfg_changed 30 = [(server_a_strict, Validation.in_process)]
      /\ snd (ex_record cfg_changed server_a 30 true) = false
      /\ sent_events (fst (ex_record cfg_changed server_a 30 true))
         = [mkValidationEvent 30 [1; 1; 1; 1] "" false]
      /\ tracker_of (fst (ex_record cfg_changed server_a 30 true)) 30
         = [(server_a_strict, Validation.fail)]).
Proof. repeat split; vm_compute; reflexivity. Qed.

End PrivateDnsFacts.

(** ** Reconfiguring the nameservers *)

Module NameserverFacts.
Import Resolv.

Section Env.

Variable MAXNS MAXDNSRCH MAXDNSRCHPATH : nat.
Variable getaddrinfo_numeric : string -> option addrinfo.
Variable flag_retry_count : option Z.
Variable flag_retransmission_time_interval : option Z.

Let set_servers := resolv_set_nameservers MAXNS MAXDNSRCH MAXDNSRCHPATH
                     getaddrinfo_numeric flag_retry_count
                     flag_retransmission_time_interval.

Lemma alter_stats_reset_twice (l : list res_stats) :
  alter stats_reset 0%nat (alter stats_reset 0%nat l) = alter stats_reset 0%nat l.
Proof. destruct l; reflexivity. Qed.

(** All the rounds of the loop of [res_cache_clear_stats_locked] write slot
    0: the other slots keep their samples. *)
Lemma clear_stats_spec (info : resolv_cache_info) :
  res_cache_clear_stats_locked MAXNS info
  = if (MAXNS =? 0)%nat then info
    else set_nsstats info (alter stats_reset 0%nat (nsstats info)).
Proof.
  unfold res_cache_clear_stats_locked.
  destruct MAXNS as [|n]; [reflexivity|]. cbn [Nat.eqb].
  change (seq 0 (S n)) with (0%nat :: seq 1 n). cbn [fold_left].
  generalize (seq 1 n) as l. intros l.
  assert (H : forall info', nsstats info' = alter stats_reset 0%nat (nsstats info') ->
            fold_left (fun i (_ : nat) => set_nsstats i (alter stats_reset 0%nat (nsstats i)))
              l info' = info').
  { induction l as [|a l IH]; intros info' Hfix; cbn [fold_left]; [reflexivity|].
    rewrite <- Hfix.
    replace (set_nsstats info' (nsstats info')) with info' by (destruct info'; reflexivity).
    apply IH, Hfix. }
  apply H. cbn [nsstats set_nsstats]. symmetry. apply alter_stats_reset_twice.
Qed.

(** [resolv_set_nameservers] for a known network, servers that parse and
    form the configured set: the record that results. *)
Lemma set_nameservers_same_set (st : State) (id : Z) (servers domains : list string)
    (p : res_params) (info : resolv_cache_info) (parsed : list addrinfo) :
  mapM getaddrinfo_numeric (filter_nameservers MAXNS servers) = Some parsed ->
  find_cache_info_locked (res_cache_list st) id = Some info ->
  resolv_is_nameservers_equal (nameservers info) (filter_nameservers MAXNS servers) = true ->
  let st' := fst (set_servers st id servers domains p) in
  snd (set_servers st id servers domains p) = 0
  /\ exists info',
      find_cache_info_locked (res_cache_list st') id = Some info'
      /\ (max_samples p <> max_samples (params info) ->
          revision_id info' = revision_id info + 1
          /\ nsstats info'
             = if (MAXNS =? 0)%nat then nsstats info
               else alter stats_reset 0%nat (nsstats info))
      /\ (max_samples p = max_samples (params info) ->
          revision_id info' = revision_id info /\ nsstats info' = nsstats info).
Proof.
  intros Hparse Hinfo Hsame st'. subst st' set_servers.
  unfold resolv_set_nameservers. cbv zeta. rewrite Hparse, Hinfo.
  cbn [fst snd res_cache_list]. split; [reflexivity|].
  cbn [nameservers set_params]. rewrite Hsame. cbn [negb].
  cbn [params set_params max_samples resolv_set_experiment_params].
  pose proof (find_elem_of := ResolvFacts.find_elem_of _ _ _ Hinfo).
  destruct find_elem_of as [_ Hid].
  eexists. split.
  { apply (ResolvFacts.find_update_found _ _ _ info Hinfo).
    cbn [netid set_search_domains].
    destruct (negb _); [rewrite clear_stats_spec; destruct (MAXNS =? 0)%nat|];
      cbn; exact Hid. }
  destruct (max_samples p =? max_samples (params info)) eqn:E; cbn [negb].
  - apply Z.eqb_eq in E. split; [intros Hne; contradiction|].
    intros _. split; reflexivity.
  - apply Z.eqb_neq in E. split; [|intros Heq; contradiction].
    intros _. rewrite clear_stats_spec.
    destruct (MAXNS =? 0)%nat; split; reflexivity.
Qed.

End Env.

(** C4 (code defect).  The specification has a change of [max_samples] alone
    clear the statistics of every server slot.  The loop of
    [res_cache_clear_stats_locked] runs over the MAXNS slots but writes
    [cache_info->nsstats->...], which is slot 0, in every round: after the
    servers of network 30 are set again, in another order, with
    [max_samples] changed from 8 to 16, the revision id has gone from 2 to 3
    and slot 0 is cleared, while slot 1 still counts its two samples. *)
Theorem C4_only_slot_zero_cleared :
  stats_view ex_configured 30 = ([(1, 1); (2, 2); (0, 0); (0, 0)], 2)
  /\ snd (ex_set_nameservers ex_configured 30 ["8.8.4.4"; "8.8.8.8"]%string []
            (ex_params 16)) = 0
  /\ stats_view (fst (ex_set_nameservers ex_configured 30 ["8.8.4.4"; "8.8.8.8"]%string []
                        (ex_params 16))) 30
     = ([(0, 0); (2, 2); (0, 0); (0, 0)], 3)
  /\ stats_view (fst (ex_set_nameservers ex_configured 30 ["8.8.4.4"; "8.8.8.8"]%string []
                        (ex_params 8))) 30
     = ([(1, 1); (2, 2); (0, 0); (0, 0)], 2).
Proof. repeat split; vm_compute; reflexivity. Qed.

End NameserverFacts.

(** ** The retry loop of the send engine *)

Module RetryFacts.
Import Resolv Send.

(** *** What the senders do to [gotsomewhere], [useTcp] and [sends] *)

Lemma send_dg_wait_keeps (use_edns : bool) (events : list dg_event) (st : loop_state) :
  gotsomewhere st = true ->
  gotsomewhere (snd (send_dg_wait use_edns events st)) = true.
Proof.
  revert st. induction events as [|ev events IH]; intros st Hst; [reflexivity|].
  destruct ev as [| |d]; cbn [send_dg_wait]; [reflexivity | exact Hst |].
  destruct (d_resplen d <=? 0); [exact Hst|]. cbv zeta.
  repeat (match goal with
          | |- context [if ?b then _ else _] => destruct b
          end; try reflexivity; try (apply IH; reflexivity)).
Qed.

Lemma send_dg_gotsomewhere (use_edns : bool) (io : dg_io) (st : loop_state) :
  gotsomewhere (snd (send_dg use_edns io st)) = gotsomewhere st || dg_contact io.
Proof.
  unfold send_dg, dg_contact.
  destruct (dg_set_up io); cbn [snd gotsomewhere set_terrno];
    rewrite ?orb_false_r; try reflexivity.
  destruct (dg_events io) as [|ev events]; cbn [send_dg_wait];
    [rewrite orb_true_r; reflexivity|].
  destruct ev as [| |d]; cbn [send_dg_wait];
    [rewrite orb_true_r; reflexivity | rewrite orb_false_r; reflexivity |].
  destruct (d_resplen d <=? 0) eqn:E.
  - replace (0 <? d_resplen d) with false by (symmetry; apply Z.ltb_ge, Z.leb_le, E).
    rewrite orb_false_r. reflexivity.
  - replace (0 <? d_resplen d) with true by (symmetry; apply Z.ltb_lt, Z.leb_gt, E).
    rewrite orb_true_r. cbv zeta.
    repeat (match goal with
            | |- context [if ?b then _ else _] => destruct b
            end; try reflexivity; try (apply send_dg_wait_keeps; reflexivity)).
Qed.

Lemma send_dg_wait_sends (use_edns : bool) (events : list dg_event) (st : loop_state) :
  sends (snd (send_dg_wait use_edns events st)) = sends st
  /\ attempt (snd (send_dg_wait use_edns events st)) = attempt st.
Proof.
  revert st. induction events as [|ev events IH]; intros st; [split; reflexivity|].
  destruct ev as [| |d]; cbn [send_dg_wait]; try (split; reflexivity).
  destruct (d_resplen d <=? 0); [split; reflexivity|]. cbv zeta.
  repeat (match goal with
          | |- context [if ?b then _ else _] => destruct b
          end; try (split; reflexivity); try exact (IH _)).
Qed.

Lemma send_dg_sends (use_edns : bool) (io : dg_io) (st : loop_state) :
  sends (snd (send_dg use_edns io st)) = sends st
  /\ attempt (snd (send_dg use_edns io st)) = attempt st.
Proof.
  unfold send_dg. destruct (dg_set_up io); try (split; reflexivity).
  apply send_dg_wait_sends.
Qed.

Lemma send_vc_round_keeps (r : vc_round) (connreset : bool) (st : loop_state)
    (resplen : Z) (st' : loop_state) :
  send_vc_round r connreset st = Some (resplen, st') ->
  gotsomewhere st' = gotsomewhere st /\ useTcp st' = useTcp st
  /\ sends st' = sends st /\ attempt st' = attempt st.
Proof.
  destruct r; cbn; try (intros [= <- <-]; repeat split; reflexivity).
  - destruct (_ && _); [discriminate|]. intros [= <- <-]. repeat split; reflexivity.
  - destruct (0 <? _); intros [= <- <-]; repeat split; reflexivity.
Qed.

Lemma send_vc_keeps (io : vc_io) (st : loop_state) :
  gotsomewhere (snd (send_vc io st)) = gotsomewhere st
  /\ useTcp (snd (send_vc io st)) = useTcp st
  /\ sends (snd (send_vc io st)) = sends st
  /\ attempt (snd (send_vc io st)) = attempt st.
Proof.
  unfold send_vc.
  destruct (send_vc_round (vc_first io) false st) as [[resplen st']|] eqn:E1.
  - exact (send_vc_round_keeps _ _ _ _ _ E1).
  - destruct (send_vc_round (vc_second io) true (set_terrno st ECONNRESET))
      as [[resplen st']|] eqn:E2; [|repeat split; reflexivity].
    exact (send_vc_round_keeps _ _ _ _ _ E2).
Qed.

Section Retry.

Variable net : nat -> net_io.
Variable use_edns : bool.
Variable tc_mode_udp_tcp : bool.
Variable nscount : Z.
Variable usable_servers : list bool.
Variable retryTimes : Z.
Variable buflen : Z.

Let send_once' := send_once net use_edns tc_mode_udp_tcp retryTimes buflen.
Let ns_loop' := ns_loop net use_edns tc_mode_udp_tcp nscount usable_servers
                  retryTimes buflen.
Let attempt_loop' := attempt_loop net use_edns tc_mode_udp_tcp nscount usable_servers
                       retryTimes buflen.

(** One send: the counter of sends moves on by one; [gotsomewhere] is set
    exactly by a UDP send that got somewhere; a fall-back to TCP is asked
    for only by a UDP send, and leaves [useTcp] set; [attempt] stays or
    jumps to [retryTimes]. *)
Lemma send_once_spec (st : loop_state) :
  let r := send_once' st in
  sends (snd (fst r)) = S (sends st)
  /\ gotsomewhere (snd (fst r))
     = gotsomewhere st || (negb (useTcp st) && dg_contact (as_dg (net (sends st))))
  /\ (snd r = true -> useTcp st = false /\ useTcp (snd (fst r)) = true)
  /\ (attempt (snd (fst r)) = attempt st \/ attempt (snd (fst r)) = retryTimes).
Proof.
  subst send_once'. unfold send_once. cbv zeta.
  change (useTcp (count_send st)) with (useTcp st).
  destruct (useTcp st) eqn:Htcp.
  - pose proof (send_vc_keeps (as_vc (net (sends st)))
                  (set_attempt (count_send st) retryTimes)) as (Hg & Hu & Hs & Ha).
    destruct (send_vc _ _) as [resplen st1]. cbn [snd] in Hg, Hu, Hs, Ha.
    cbn [fst snd negb andb]. rewrite orb_false_r.
    destruct (_ && _ && _); cbn [sends gotsomewhere attempt set_useTcp];
      rewrite ?Hs, ?Hg, ?Ha; (repeat split; try reflexivity; try discriminate);
      right; reflexivity.
  - pose proof (send_dg_gotsomewhere use_edns (as_dg (net (sends st))) (count_send st)) as Hg.
    pose proof (send_dg_sends use_edns (as_dg (net (sends st))) (count_send st)) as [Hs Ha].
    destruct (send_dg _ _ _) as [resplen st1]. cbn [snd] in Hg, Hs, Ha.
    cbn [fst snd negb andb]. rewrite Hs, Hg, Ha.
    repeat split; try reflexivity; try assumption. left. reflexivity.
Qed.






(** *** The loops come to an end *)


Lemma rounds_needed_next (ns : Z) (st st' : loop_state) :
  (nscount <=? ns) = false ->
  (S (rounds_needed nscount (ns + 1) st') <= 2 * Z.to_nat (nscount - ns))%nat.
Proof.
  intros Hns. apply Z.leb_gt in Hns. unfold rounds_needed.
  destruct (nscount <=? ns + 1) eqn:E; [lia|].
  apply Z.leb_gt in E. destruct (useTcp st'); lia.
Qed.

Lemma ns_loop_fuel (fuel : nat) (ns : Z) (st : loop_state) (log : list query_event) :
  (rounds_needed nscount ns st <= fuel)%nat -> is_Some (ns_loop' fuel ns st log).
Proof.
  subst ns_loop'. revert ns st log.
  induction fuel as [|fuel IH]; intros ns st log; unfold rounds_needed.
  - destruct (nscount <=? ns) eqn:Hns; [lia|].
    apply Z.leb_gt in Hns. destruct (useTcp st); lia.
  - cbn [ns_loop].
    destruct (nscount <=? ns) eqn:Hns; [eexists; reflexivity|].
    intros Hfuel.
    destruct (negb (nth (Z.to_nat ns) usable_servers false)).
    { apply IH. pose proof (rounds_needed_next ns st st Hns). lia. }
    cbv zeta.
    pose proof (send_once_spec (set_rcode st RCODE_INTERNAL_ERROR)) as (_ & _ & Hfb & _).
    cbv zeta in Hfb. subst send_once'.
    destruct (send_once _ _ _ _ _ _) as [[resplen st1] fb]. cbn [fst snd] in Hfb.
    destruct (resplen =? 0).
    { apply IH. pose proof (rounds_needed_next ns st st1 Hns). lia. }
    destruct fb.
    + destruct (Hfb eq_refl) as [Hudp Htcp].
      change (useTcp (set_rcode st RCODE_INTERNAL_ERROR)) with (useTcp st) in Hudp.
      replace (ns - 1 + 1) with ns by lia.
      apply IH. unfold rounds_needed. rewrite Hns, Htcp. rewrite Hudp in Hfuel. lia.
    + destruct (resplen <? 0); eexists; reflexivity.
Qed.

Lemma ns_loop_attempt (fuel : nat) (ns : Z) (st : loop_state) (log : list query_event)
    (x : ns_exit) (log' : list query_event) :
  ns_loop' fuel ns st log = Some (x, log') ->
  attempt (exit_state x) = attempt st \/ attempt (exit_state x) = retryTimes.
Proof.
  subst ns_loop'. revert ns st log.
  induction fuel as [|fuel IH]; intros ns st log; cbn [ns_loop]; [discriminate|].
  destruct (nscount <=? ns); [intros [= <- <-]; left; reflexivity|].
  destruct (negb (nth (Z.to_nat ns) usable_servers false)); [apply IH|].
  cbv zeta.
  pose proof (send_once_spec (set_rcode st RCODE_INTERNAL_ERROR)) as (_ & _ & _ & Ha).
  cbv zeta in Ha. subst send_once'.
  destruct (send_once _ _ _ _ _ _) as [[resplen st1] fb]. cbn [fst snd] in Ha.
  change (attempt (set_rcode st RCODE_INTERNAL_ERROR)) with (attempt st) in *.
  assert (Hrec : forall ns' log1,
            ns_loop net use_edns tc_mode_udp_tcp nscount usable_servers retryTimes buflen
              fuel ns' st1 log1 = Some (x, log') ->
            attempt (exit_state x) = attempt st \/ attempt (exit_state x) = retryTimes).
  { intros ns' log1 H. destruct (IH _ _ _ H) as [H1|H1]; [|right; exact H1].
    rewrite H1. exact Ha. }
  destruct (resplen =? 0); [apply Hrec|].
  destruct fb; [apply Hrec|].
  destruct (resplen <? 0); intros [= <- <-]; exact Ha.
Qed.

Lemma attempt_loop_total (rounds : nat) (st : loop_state) (log : list query_event) :
  (Z.to_nat (retryTimes - attempt st) <= rounds)%nat ->
  is_Some (attempt_loop' rounds st log).
Proof.
  subst attempt_loop'. revert st log.
  induction rounds as [|rounds IH]; intros st log Hr; cbn [attempt_loop];
    destruct (retryTimes <=? attempt st) eqn:E; try (eexists; reflexivity).
  - apply Z.leb_gt in E. lia.
  - apply Z.leb_gt in E.
    destruct (ns_loop_fuel (2 * Z.to_nat nscount + 1) 0 st log) as [[y log1] Hy].
    { unfold rounds_needed. destruct (nscount <=? 0); [lia|].
      rewrite Z.sub_0_r. destruct (useTcp st); lia. }
    unfold ns_loop' in Hy. rewrite Hy.
    destruct y as [resplen st1|st1|st1]; try (eexists; reflexivity).
    apply IH. cbn [attempt set_attempt].
    destruct (ns_loop_attempt _ _ _ _ _ _ Hy) as [Ha|Ha]; cbn [exit_state] in Ha; lia.
Qed.

(** [res_nsend] leaves its retry loop, whatever the network does. *)
Lemma res_nsend_retry_total (cache_status : ResolvCacheStatus) :
  is_Some (res_nsend_retry net use_edns tc_mode_udp_tcp nscount usable_servers
             retryTimes buflen cache_status).
Proof.
  unfold res_nsend_retry, retry_loop.
  destruct (attempt_loop_total (Z.to_nat retryTimes)
              (loop_start buflen) []) as [[x log] Hx].
  { cbn [attempt loop_start]. lia. }
  subst attempt_loop'. rewrite Hx.
  destruct x; eexists; reflexivity.
Qed.


End Retry.



End RetryFacts.

(** ** More on fingerprints: what the hash covers, symmetry of the comparison *)

Module FingerprintFacts.
Import Packet PacketFacts.

Lemma lxor_range (a b n : Z) :
  0 <= n -> 0 <= a < 2 ^ n -> 0 <= b < 2 ^ n -> 0 <= Z.lxor a b < 2 ^ n.
Proof.
  intros Hn Ha Hb. split; [apply Z.lxor_nonneg; lia|].
  assert (E : Z.lxor a b = Z.lxor a b mod 2 ^ n).
  { apply Z.bits_inj'. intros i Hi.
    destruct (Z.lt_ge_cases i n) as [Hlt|Hge].
    - rewrite Z.mod_pow2_bits_low by lia. reflexivity.
    - rewrite Z.mod_pow2_bits_high by lia.
      rewrite Z.lxor_spec.
      rewrite <- (Z.mod_small a (2 ^ n)) by lia.
      rewrite <- (Z.mod_small b (2 ^ n)) by lia.
      rewrite !Z.mod_pow2_bits_high by lia. reflexivity. }
  rewrite E. apply Z.mod_pos_bound. lia.
Qed.

Lemma fnv_step_range (hash byte : Z) :
  0 <= byte < 256 -> 0 <= fnv_step hash byte < 2 ^ 32.
Proof.
  intros Hb. unfold fnv_step. apply lxor_range; [lia| |lia].
  apply Z.mod_pos_bound. lia.
Qed.

Lemma fnv_fold_range (bytes : list Z) (hash : Z) :
  Forall (fun b => 0 <= b < 256) bytes ->
  0 <= hash < 2 ^ 32 -> 0 <= fnv_fold bytes hash < 2 ^ 32.
Proof.
  intros Hbytes. revert hash. unfold fnv_fold.
  induction Hbytes as [|b bytes Hb _ IH]; intros hash Hh; cbn [fold_left]; [exact Hh|].
  apply IH, fnv_step_range, Hb.
Qed.

(** X1.  A change of the two transaction-id bytes or of the TC bit of any
    buffer changes neither the verdict of [_dnsPacket_checkQuery] nor the
    value of [_dnsPacket_hashQuery]. *)
Theorem check_and_hash_ignore_id_and_tc (q : list Z) (id0 id1 : Z) (tc : bool) :
  cacheable (variant q id0 id1 tc) = cacheable q
  /\ fingerprint_hash (variant q id0 id1 tc) = fingerprint_hash q.
Proof. split; [apply cacheable_variant | apply hash_variant]. Qed.

(** X2.  [_dnsPacket_hashBytes] never decrements its counter, so the first
    call made by [_dnsPacket_hashQuery] runs to the end of the buffer: the
    hash of a buffer is the FNV fold over the RD bit followed by every byte
    from offset 3 on, whatever the counts in the header say.  For a buffer of
    bytes it is a 32-bit value. *)
Theorem hash_is_fold_from_offset_3 (q : list Z) :
  Forall (fun b => 0 <= b < 256) q ->
  fingerprint_hash q
  = fnv_fold (drop 3 q) (fnv_step FNV_BASIS (Z.land (byte_at q 2) 1))
  /\ 0 <= fingerprint_hash q < 2 ^ 32.
Proof.
  intros Hq. rewrite hashQuery_unfold. split; [reflexivity|].
  apply fnv_fold_range.
  - apply Forall_drop, Hq.
  - apply fnv_step_range.
    assert (H : 0 <= Z.land (byte_at q 2) 1 < 2); [|lia].
    change 1 with (Z.ones 1). rewrite Z.land_ones by lia.
    apply Z.mod_pos_bound. lia.
Qed.

Lemma hash_is_fold_from_offset_3_witness :
  fingerprint_hash Resolv.example_query
  = fnv_fold (drop 3 Resolv.example_query)
      (fnv_step FNV_BASIS (Z.land (byte_at Resolv.example_query 2) 1))
  /\ 0 <= fingerprint_hash Resolv.example_query < 2 ^ 32.
Proof.
  apply (hash_is_fold_from_offset_3 Resolv.example_query).
  vm_compute. repeat constructor; discriminate.
Defined.

(** X3.  A query made of bytes that passes the check and announces no
    additional record: any two of its variants (other transaction ids, TC
    set or cleared) compare equal under [_dnsPacket_isEqualQuery]. *)
Theorem checked_variants_compare_equal (q : list Z) (id0 id1 id0' id1' : Z)
    (tc tc' : bool) :
  Forall (fun b => 0 <= b < 256) q ->
  cacheable q = true ->
  read16 q 10 = 0 ->
  fingerprint_equal (variant q id0 id1 tc) (variant q id0' id1' tc') = true.
Proof.
  intros Hbytes Hq Har. rewrite equal_variants.
  apply cacheable_self_equal; assumption.
Qed.

Lemma checked_variants_compare_equal_witness :
  fingerprint_equal (variant Resolv.example_query 0 7 true)
                    (variant Resolv.example_query 9 9 false) = true.
Proof.
  apply (checked_variants_compare_equal Resolv.example_query 0 7 9 9 true false).
  - vm_compute. repeat constructor; discriminate.
  - vm_compute. reflexivity.
  - vm_compute. reflexivity.
Defined.

(** *** The comparison is symmetric *)

Lemma bytes_eqb_sym (a b : list Z) : bytes_eqb a b = bytes_eqb b a.
Proof.
  unfold bytes_eqb. destruct (bool_decide_reflect (a = b)) as [->|Hne].
  - symmetry. apply bool_decide_eq_true. reflexivity.
  - symmetry. apply bool_decide_eq_false. congruence.
Qed.

Lemma isEqualDomainName_loop_fuel_r (fuel fuel' : nat) (p1 p2 : list Z) :
  (length p2 < fuel)%nat -> (length p2 < fuel')%nat ->
  isEqualDomainName_loop fuel p1 p2 = isEqualDomainName_loop fuel' p1 p2.
Proof.
  revert fuel' p1 p2. induction fuel as [|fuel IH]; intros fuel' p1 p2 H H'; [lia|].
  destruct fuel' as [|fuel']; [lia|]. cbn [isEqualDomainName_loop].
  destruct p1 as [|c1 p1]; [reflexivity|]. destruct p2 as [|c2 p2]; [reflexivity|].
  destruct (negb (c1 =? c2)); [reflexivity|].
  destruct (c1 =? 0); [reflexivity|]. destruct (64 <=? c1); [reflexivity|].
  destruct (_ || _); [reflexivity|]. destruct (negb (bytes_eqb _ _)); [reflexivity|].
  cbn [length] in H, H'.
  apply IH; rewrite length_drop; lia.
Qed.

Lemma isEqualDomainName_loop_sym (fuel : nat) (p1 p2 : list Z) :
  isEqualDomainName_loop fuel p2 p1
  = match isEqualDomainName_loop fuel p1 p2 with
    | Some (a, b) => Some (b, a)
    | None => None
    end.
Proof.
  revert p1 p2. induction fuel as [|fuel IH]; intros p1 p2; [reflexivity|].
  cbn [isEqualDomainName_loop].
  destruct p1 as [|c1 p1], p2 as [|c2 p2]; try reflexivity.
  rewrite (Z.eqb_sym c2 c1).
  destruct (Z.eqb_spec c1 c2) as [->|Hne]; cbn [negb]; [|reflexivity].
  destruct (c2 =? 0); [reflexivity|]. destruct (64 <=? c2); [reflexivity|].
  rewrite (orb_comm (length p2 <? Z.to_nat c2)%nat).
  destruct (_ || _); [reflexivity|].
  rewrite (bytes_eqb_sym (take (Z.to_nat c2) p2)).
  destruct (negb (bytes_eqb _ _)); [reflexivity|].
  apply IH.
Qed.

Lemma isEqualDomainName_sym (p1 p2 : DnsPacket) :
  _dnsPacket_isEqualDomainName p2 p1
  = let '(ok, a, b) := _dnsPacket_isEqualDomainName p1 p2 in (ok, b, a).
Proof.
  unfold _dnsPacket_isEqualDomainName.
  rewrite isEqualDomainName_loop_sym.
  assert (E : isEqualDomainName_loop (S (length (cursor p2))) (cursor p1) (cursor p2)
              = isEqualDomainName_loop (S (length (cursor p1))) (cursor p1) (cursor p2)).
  { destruct (Nat.le_gt_cases (length (cursor p2)) (length (cursor p1))).
    - apply isEqualDomainName_loop_fuel_r; lia.
    - apply isEqualDomainName_loop_fuel; lia. }
  rewrite E. clear E.
  destruct (isEqualDomainName_loop _ _ _) as [[a b]|]; reflexivity.
Qed.

Lemma isEqualBytes_sym (p1 p2 : DnsPacket) (n : Z) :
  _dnsPacket_isEqualBytes p2 p1 n
  = let '(ok, a, b) := _dnsPacket_isEqualBytes p1 p2 n in (ok, b, a).
Proof.
  unfold _dnsPacket_isEqualBytes.
  rewrite (orb_comm (Z.of_nat (length (cursor p2)) <? n)).
  destruct (_ || _); [reflexivity|].
  destruct (n <? 0); [reflexivity|].
  rewrite (bytes_eqb_sym (take (Z.to_nat n) (cursor p2))).
  destruct (negb (bytes_eqb _ _)); reflexivity.
Qed.

Lemma isEqualQR_sym (p1 p2 : DnsPacket) :
  _dnsPacket_isEqualQR p2 p1
  = let '(ok, a, b) := _dnsPacket_isEqualQR p1 p2 in (ok, b, a).
Proof.
  unfold _dnsPacket_isEqualQR. rewrite isEqualDomainName_sym.
  destruct (_dnsPacket_isEqualDomainName p1 p2) as [[ok a] b].
  destruct ok; cbn [negb]; [|reflexivity].
  apply isEqualBytes_sym.
Qed.

Lemma isEqualRR_sym (p1 p2 : DnsPacket) :
  _dnsPacket_isEqualRR p2 p1
  = let '(ok, a, b) := _dnsPacket_isEqualRR p1 p2 in (ok, b, a).
Proof.
  unfold _dnsPacket_isEqualRR. rewrite isEqualQR_sym.
  destruct (_dnsPacket_isEqualQR p1 p2) as [[ok a] b].
  destruct ok; cbn [negb]; [|reflexivity].
  rewrite isEqualBytes_sym.
  destruct (_dnsPacket_isEqualBytes a b 4) as [[ok a'] b'].
  destruct ok; cbn [negb]; [|reflexivity].
  destruct (_dnsPacket_readInt16 a') as [r1 a''].
  destruct (_dnsPacket_readInt16 b') as [r2 b''].
  rewrite (Z.eqb_sym r2 r1).
  destruct (Z.eqb_spec r1 r2) as [->|Hne]; cbn [negb]; [|reflexivity].
  apply isEqualBytes_sym.
Qed.

Lemma isEqual_loop_sym f (n : nat) (p1 p2 : DnsPacket) :
  (forall a b, f b a = let '(ok, a', b') := f a b in (ok, b', a')) ->
  isEqual_loop f n p2 p1
  = let '(ok, a, b) := isEqual_loop f n p1 p2 in (ok, b, a).
Proof.
  intros Hf. revert p1 p2. induction n as [|n IH]; intros p1 p2; [reflexivity|].
  cbn [isEqual_loop]. rewrite Hf.
  destruct (f p1 p2) as [[ok a] b].
  destruct ok; [apply IH | reflexivity].
Qed.

Lemma isEqualQuery_sym (q1 q2 : list Z) :
  _dnsPacket_isEqualQuery (_dnsPacket_init q2) (_dnsPacket_init q1)
  = _dnsPacket_isEqualQuery (_dnsPacket_init q1) (_dnsPacket_init q2).
Proof.
  unfold _dnsPacket_isEqualQuery, _dnsPacket_rewind,
    _dnsPacket_skip, _dnsPacket_init. cbn [base cursor].
  rewrite (Z.eqb_sym (Z.land (byte_at q2 2) 1)).
  destruct (negb (_ =? _)); [reflexivity|].
  rewrite (Z.eqb_sym (byte_at q2 3)).
  destruct (negb (_ =? _)); [reflexivity|].
  destruct (_dnsPacket_readInt16 {| base := q1; cursor := drop 4 q1 |}) as [c1 a].
  destruct (_dnsPacket_readInt16 {| base := q2; cursor := drop 4 q2 |}) as [c2 b].
  rewrite (Z.eqb_sym c2 c1).
  destruct (Z.eqb_spec c1 c2) as [->|Hne]; cbn [negb orb]; [|reflexivity].
  destruct (c2 <? 0); [reflexivity|].
  destruct (_dnsPacket_readInt16 {| base := base a; cursor := drop 4 (cursor a) |})
    as [ar1 a'].
  destruct (_dnsPacket_readInt16 {| base := base b; cursor := drop 4 (cursor b) |})
    as [ar2 b'].
  rewrite (Z.eqb_sym ar2 ar1).
  destruct (Z.eqb_spec ar1 ar2) as [->|Hne]; cbn [negb orb]; [|reflexivity].
  destruct (ar2 <? 0); [reflexivity|].
  rewrite (isEqual_loop_sym _ _ a' b' isEqualQR_sym).
  destruct (isEqual_loop _dnsPacket_isEqualQR _ a' b') as [[ok a''] b''].
  destruct ok; cbn [negb]; [|reflexivity].
  rewrite (isEqual_loop_sym _ _ a'' b'' isEqualRR_sym).
  destruct (isEqual_loop _dnsPacket_isEqualRR _ a'' b'') as [[ok a3] b3].
  reflexivity.
Qed.

(** X4.  [_dnsPacket_isEqualQuery] gives the same verdict whichever of the
    two packets comes first. *)
Theorem fingerprint_equal_sym (q1 q2 : list Z) :
  fingerprint_equal q2 q1 = fingerprint_equal q1 q2.
Proof. unfold fingerprint_equal. apply isEqualQuery_sym. Qed.

End FingerprintFacts.

(** ** The TTL of an answer: where the minimum is found *)

Module TtlFacts.
Import Answer AnswerFacts.

Section Reader.

Variable ns_initparse : list Z -> option ns_msg.
Variable dn_skipname : list Z -> option nat.

Lemma getTTL_loop_tail (n : nat) (rrs : list (option ns_rr)) (result : Z) :
  getTTL_loop (S n) rrs result = list_min result (rr_ttl <$> omap id rrs).
Proof.
  revert n result. induction rrs as [|r rrs IH]; intros n result; [reflexivity|].
  cbn [getTTL_loop]. rewrite IH. destruct r as [rr|]; cbn; [|reflexivity].
  unfold list_min. cbn [fold_left]. f_equal.
  destruct (Z.ltb_spec (rr_ttl rr) result); lia.
Qed.

(** X5.  An answer that parses and has answer records: when record 0 of the
    answer section parses, [answer_getTTL] is the smallest TTL among the
    answer records that parse; when record 0 does not parse (and TTLs are
    unsigned), it is 0 whatever the other records carry, so the answer is
    not cached. *)
Theorem answer_getTTL_of_answers (answer : list Z) (handle : ns_msg)
    (r : option ns_rr) (rest : list (option ns_rr)) :
  ns_initparse answer = Some handle ->
  ns_s_an handle = r :: rest ->
  match r with
  | Some rr =>
      answer_getTTL ns_initparse dn_skipname answer
      = list_min (rr_ttl rr) (rr_ttl <$> omap id rest)
  | None =>
      Forall (fun x => 0 <= x) (rr_ttl <$> omap id rest) ->
      answer_getTTL ns_initparse dn_skipname answer = 0
  end.
Proof.
  intros Hparse Han. unfold answer_getTTL. rewrite Hparse, Han.
  cbn [length Nat.eqb getTTL_loop getTTL_step].
  rewrite getTTL_loop_tail. destruct r as [rr|]; cbn [orb Nat.eqb]; [reflexivity|].
  apply list_min_zero.
Qed.

(** X6.  An answer that parses and has no answer record, whose authority
    section starts with a well-formed SOA record: [answer_getTTL] is the
    smallest [min(ttl, MINIMUM)] over the well-formed SOA records of the
    authority section. *)
Theorem answer_getTTL_negative_soa_first (answer : list Z) (handle : ns_msg)
    (r : option ns_rr) (rrs : list (option ns_rr)) (v : Z) :
  ns_initparse answer = Some handle ->
  ns_s_an handle = [] ->
  ns_s_ns handle = r :: rrs ->
  soa_ttl dn_skipname r = Some v ->
  answer_getTTL ns_initparse dn_skipname answer
  = list_min v (soa_ttls dn_skipname rrs).
Proof.
  intros Hparse Han Hns Hr. unfold answer_getTTL. rewrite Hparse, Han.
  cbn [length Nat.eqb]. rewrite answer_getNegativeTTL_spec, Hns, Hr. reflexivity.
Qed.

End Reader.

Lemma answer_getTTL_of_answers_witness :
  answer_getTTL
    (fun _ => Some (mk_msg [Some (mk_rr 1 300 []); None; Some (mk_rr 1 60 [])] []))
    dn_skipname_labels [] = 60.
Proof.
  exact (answer_getTTL_of_answers
           (fun _ => Some (mk_msg [Some (mk_rr 1 300 []); None; Some (mk_rr 1 60 [])] []))
           dn_skipname_labels []
           (mk_msg [Some (mk_rr 1 300 []); None; Some (mk_rr 1 60 [])] [])
           (Some (mk_rr 1 300 [])) [None; Some (mk_rr 1 60 [])]
           eq_refl eq_refl).
Defined.

Lemma answer_getTTL_negative_soa_first_witness :
  answer_getTTL (fun _ => Some msg_soa_then_ns) dn_skipname_labels [] = 60.
Proof.
  refine (answer_getTTL_negative_soa_first (fun _ => Some msg_soa_then_ns)
            dn_skipname_labels [] msg_soa_then_ns
            (Some (mk_rr ns_t_soa 300 (soa_rdata 60)))
            [Some (mk_rr ns_t_ns 3600 [2; 110; 115; 0])] 60 _ _ _ _).
  - reflexivity.
  - reflexivity.
  - reflexivity.
  - vm_compute. reflexivity.
Defined.

End TtlFacts.

(** ** The registry: what the cache operations leave alone, and the shape of
       the nameserver fields *)

Module RegistryFacts.
Import Packet Cache Resolv CacheFacts ResolvFacts.

Lemma view_update (l : list resolv_cache_info) (id : Z)
    (f : resolv_cache_info -> resolv_cache_info) :
  (forall info, ns_fields (f info) = ns_fields info) ->
  ns_fields <$> update_cache_info l id f = ns_fields <$> l.
Proof.
  intros Hf. induction l as [|x l IH]; [reflexivity|].
  cbn [update_cache_info]. destruct (netid x =? id); cbn [fmap list_fmap].
  - rewrite Hf. reflexivity.
  - f_equal. exact IH.
Qed.

Lemma view_store_cache (st : State) (id : Z) (c : Cache) (notified : bool) :
  ns_view (store_cache st id c notified) = ns_view st.
Proof. apply view_update. reflexivity. Qed.

Lemma view_lookup (st : State) (id : Z) (query : list Z) (answersize flags now : Z) :
  ns_view (fst (resolv_cache_lookup st id query answersize flags now)) = ns_view st.
Proof.
  unfold resolv_cache_lookup.
  repeat case_match; cbn [fst]; rewrite ?view_store_cache; reflexivity.
Qed.

Lemma view_wakeup (st : State) (id : Z) (key : Entry) (answersize now : Z) :
  ns_view (fst (resolv_cache_lookup_wakeup st id key answersize now)) = ns_view st.
Proof.
  unfold resolv_cache_lookup_wakeup.
  repeat case_match; cbn [fst]; rewrite ?view_store_cache; try reflexivity;
    apply view_update; reflexivity.
Qed.

Lemma view_query_failed (st : State) (id : Z) (query : list Z) (flags : Z) :
  ns_view (_resolv_cache_query_failed st id query flags) = ns_view st.
Proof.
  unfold _resolv_cache_query_failed.
  repeat case_match; rewrite ?view_store_cache; reflexivity.
Qed.

Lemma view_flush (st : State) (id : Z) :
  ns_view (fst (resolv_flush_cache_for_net st id)) = ns_view st.
Proof.
  unfold resolv_flush_cache_for_net.
  repeat case_match; cbn [fst]; rewrite ?view_store_cache; reflexivity.
Qed.

Lemma view_add_sample (st : State) (id revision : Z) (ns : nat) (sample : res_sample)
    (max_samples : Z) :
  ns_view (_resolv_cache_add_resolver_stats_sample st id revision ns sample max_samples)
  = ns_view st.
Proof.
  unfold _resolv_cache_add_resolver_stats_sample.
  repeat case_match; try reflexivity. apply view_update. reflexivity.
Qed.

Lemma view_add ns_initparse dn_skipname (st : State) (id : Z) (query answer : list Z)
    (now : Z) :
  ns_view (fst (resolv_cache_add ns_initparse dn_skipname st id query answer now))
  = ns_view st.
Proof.
  unfold resolv_cache_add.
  repeat case_match; cbn [fst]; rewrite ?view_store_cache; reflexivity.
Qed.

Lemma find_None (l : list resolv_cache_info) (id : Z) :
  find_cache_info_locked l id = None <-> id ∉ netid <$> l.
Proof.
  induction l as [|x l IH]; cbn [find_cache_info_locked fmap list_fmap].
  - split; [intros _; apply not_elem_of_nil | reflexivity].
  - rewrite not_elem_of_cons.
    destruct (Z.eqb_spec (netid x) id) as [E|E].
    + split; [discriminate|]. intros [H _]. congruence.
    + rewrite IH. split; [intros H; split; [congruence | exact H] | intros [_ H]; exact H].
Qed.

Lemma fold_left_proj {A B} (proj : resolv_cache_info -> B)
    (g : resolv_cache_info -> A -> resolv_cache_info) (l : list A)
    (info : resolv_cache_info) :
  (forall i a, proj (g i a) = proj i) -> proj (fold_left g l info) = proj info.
Proof.
  intros Hg. revert info. induction l as [|a l IH]; intros info; [reflexivity|].
  cbn [fold_left]. rewrite IH. apply Hg.
Qed.

Lemma fold_left_nsaddrinfo (g : resolv_cache_info -> nat -> resolv_cache_info)
    (l : list nat) (info : resolv_cache_info) :
  (forall info i, nsaddrinfo (g info i) = <[i:=None]> (nsaddrinfo info)) ->
  nsaddrinfo (fold_left g l info)
  = fold_left (fun a i => <[i:=None]> a) l (nsaddrinfo info).
Proof.
  intros Hg. revert info. induction l as [|i l IH]; intros info; [reflexivity|].
  cbn [fold_left]. rewrite IH, Hg. reflexivity.
Qed.

Lemma clear_slots (pre : list (option addrinfo)) (addrs : list addrinfo)
    (post : list (option addrinfo)) :
  fold_left (fun a i => <[i:=None]> a) (seq (length pre) (length addrs))
    (pre ++ (Some <$> addrs) ++ post)
  = pre ++ replicate (length addrs) None ++ post.
Proof.
  revert pre. induction addrs as [|x addrs IH]; intros pre; [reflexivity|].
  cbn [length seq fold_left fmap list_fmap replicate app].
  rewrite insert_app_r_alt by lia. rewrite Nat.sub_diag.
  cbn [insert list_insert].
  rewrite (cons_middle None pre), app_assoc.
  replace (S (length pre)) with (length (pre ++ [None]))
    by (rewrite length_app; cbn; lia).
  rewrite IH, <- app_assoc. reflexivity.
Qed.

Section Env.

Variable ns_initparse : list Z -> option Answer.ns_msg.
Variable dn_skipname : list Z -> option nat.
Variable MAXNS MAXNSSAMPLES MAXDNSRCH MAXDNSRCHPATH : nat.
Variable getaddrinfo_numeric : string -> option addrinfo.
Variable flag_retry_count : option Z.
Variable flag_retransmission_time_interval : option Z.
Variable resolv_get_dns_event_subsampling_map : list (Z * Z).

Local Abbreviation create :=
  (resolv_create_cache_for_net MAXNS MAXNSSAMPLES resolv_get_dns_event_subsampling_map).
Local Abbreviation set_servers :=
  (resolv_set_nameservers MAXNS MAXDNSRCH MAXDNSRCHPATH getaddrinfo_numeric
     flag_retry_count flag_retransmission_time_interval).
Local Abbreviation step' :=
  (step ns_initparse dn_skipname MAXNS MAXNSSAMPLES MAXDNSRCH MAXDNSRCHPATH
     getaddrinfo_numeric flag_retry_count flag_retransmission_time_interval
     resolv_get_dns_event_subsampling_map).
Local Abbreviation run' :=
  (run ns_initparse dn_skipname MAXNS MAXNSSAMPLES MAXDNSRCH MAXDNSRCHPATH
     getaddrinfo_numeric flag_retry_count flag_retransmission_time_interval
     resolv_get_dns_event_subsampling_map).

Lemma info_ok_fields (i i' : resolv_cache_info) :
  ns_fields i' = ns_fields i -> info_ok MAXNS i -> info_ok MAXNS i'.
Proof.
  unfold ns_fields. intros [= Hn Hc Hs Ha Hr Hp Hd] (addrs & H1 & H2 & H3 & H4).
  exists addrs. rewrite Ha, Hc, Hs. auto.
Qed.

Lemma registry_ok_view (st st' : State) :
  ns_view st' = ns_view st -> registry_ok MAXNS st -> registry_ok MAXNS st'.
Proof.
  unfold ns_view, registry_ok. generalize (res_cache_list st') (res_cache_list st).
  intros l' l Hv [Hnd Hall]. split.
  - assert (E : forall k : list resolv_cache_info,
              netid <$> k = (fun v => v.1.1.1.1.1.1) <$> (ns_fields <$> k)).
    { intros k. rewrite <- list_fmap_compose. reflexivity. }
    rewrite E, Hv, <- E. exact Hnd.
  - clear Hnd. revert l Hv Hall. induction l' as [|x l' IH]; intros [|y l] Hv Hall;
      try discriminate; constructor.
    + assert (Hx : ns_fields x = ns_fields y) by (cbn in Hv; congruence).
      inversion Hall; subst. eapply info_ok_fields; eauto.
    + assert (Hv' : ns_fields <$> l' = ns_fields <$> l) by (cbn in Hv; congruence).
      inversion Hall; subst. eapply IH; eauto.
Qed.

Lemma create_registry_ok (st : State) (id : Z) :
  registry_ok MAXNS st -> registry_ok MAXNS (fst (create st id)).
Proof.
  intros [Hnd Hall]. unfold resolv_create_cache_for_net, find_named_cache_locked.
  destruct (find_cache_info_locked (res_cache_list st) id) as [info|] eqn:Hf;
    cbn [fst]; [split; assumption|].
  split; cbn [res_cache_list].
  - rewrite fmap_app. apply NoDup_app. split; [exact Hnd|]. split.
    + intros x Hx Hin. apply list_elem_of_singleton in Hin. cbn in Hin. subst x.
      apply find_None in Hf. exact (Hf Hx).
    + apply NoDup_singleton.
  - apply Forall_app. split; [exact Hall|]. constructor; [|constructor].
    exists []. cbn. rewrite Nat.sub_0_r. repeat split; try reflexivity. lia.
Qed.

Lemma delete_sublist (l : list resolv_cache_info) (id : Z) :
  fst (delete_cache_info l id) `sublist_of` l.
Proof.
  induction l as [|x l IH]; cbn [delete_cache_info fst]; [constructor|].
  destruct (netid x =? id); cbn [fst]; [apply sublist_cons; reflexivity|].
  destruct (delete_cache_info l id) as [l'' n]. cbn [fst] in *.
  apply sublist_skip, IH.
Qed.

Lemma clear_stats_proj {B} (proj : resolv_cache_info -> B) (info : resolv_cache_info) :
  (forall i l, proj (set_nsstats i l) = proj i) ->
  proj (res_cache_clear_stats_locked MAXNS info) = proj info.
Proof.
  intros H. unfold res_cache_clear_stats_locked. apply fold_left_proj.
  intros i _. apply H.
Qed.

Lemma free_nameservers_fields (info : resolv_cache_info) :
  info_ok MAXNS info ->
  nsaddrinfo (free_nameservers_locked MAXNS info) = replicate MAXNS None
  /\ netid (free_nameservers_locked MAXNS info) = netid info
  /\ revision_id (free_nameservers_locked MAXNS info) = revision_id info + 1
  /\ cache (free_nameservers_locked MAXNS info) = cache info.
Proof.
  intros (addrs & Ha & Hlen & Hc & Hn).
  unfold free_nameservers_locked. cbv zeta.
  unfold set_revision_id. cbn [nsaddrinfo netid revision_id cache].
  rewrite !clear_stats_proj by reflexivity.
  unfold set_nscount. cbn [nsaddrinfo netid revision_id cache].
  repeat split.
  - rewrite fold_left_nsaddrinfo by reflexivity.
    rewrite Hc, Nat2Z.id, Ha.
    pose proof (clear_slots [] addrs (replicate (MAXNS - length addrs) None)) as E.
    cbn [length app] in E. rewrite E.
    rewrite <- replicate_add. f_equal. lia.
  - apply fold_left_proj. reflexivity.
  - f_equal. apply fold_left_proj. reflexivity.
  - apply fold_left_proj. reflexivity.
Qed.

(** What a call of [resolv_set_nameservers] that gets past the parsing of
    the addresses does to the record of the network. *)
Lemma set_nameservers_result (st : State) (id : Z) (servers domains : list string)
    (p : res_params) (info : resolv_cache_info) (parsed : list addrinfo) :
  mapM getaddrinfo_numeric (filter_nameservers MAXNS servers) = Some parsed ->
  find_cache_info_locked (res_cache_list st) id = Some info ->
  info_ok MAXNS info ->
  exists info',
    set_servers st id servers domains p
    = ({| res_cache_list := update_cache_info (res_cache_list st) id (fun _ => info');
          cv_notified := cv_notified st |}, 0)
    /\ netid info' = netid info
    /\ cache info' = cache info
    /\ info_ok MAXNS info'
    /\ search_domains info' = filter_domains MAXDNSRCH MAXDNSRCHPATH domains
    /\ if resolv_is_nameservers_equal (nameservers info) (filter_nameservers MAXNS servers)
       then nameservers info' = nameservers info
            /\ nsaddrinfo info' = nsaddrinfo info
            /\ nscount info' = nscount info
            /\ revision_id info'
               = if max_samples p =? max_samples (params info)
                 then revision_id info else revision_id info + 1
       else nameservers info' = filter_nameservers MAXNS servers
            /\ nsaddrinfo info' = (Some <$> parsed) ++ replicate (MAXNS - length parsed) None
            /\ nscount info' = Z.of_nat (length parsed)
            /\ revision_id info' = revision_id info + 2.
Proof.
  intros Hmap Hfind Hok.
  unfold resolv_set_nameservers. cbv zeta. rewrite Hmap, Hfind.
  eexists. split; [reflexivity|].
  assert (Hlen : (length parsed <= MAXNS)%nat).
  { apply length_mapM in Hmap. rewrite <- Hmap. unfold filter_nameservers.
    destruct (Nat.ltb_spec MAXNS (length servers)); [rewrite length_take|]; lia. }
  destruct (resolv_is_nameservers_equal _ _); cbn [negb].
  - cbn [max_samples params set_params resolv_set_experiment_params].
    destruct (Z.eqb_spec (max_samples p) (max_samples (params info))) as [E|E];
      cbn [negb].
    + cbn. repeat split; try reflexivity.
      destruct Hok as (addrs & H1 & H2 & H3 & H4). exists addrs. cbn. auto.
    + unfold set_search_domains, set_revision_id.
      cbn [netid cache search_domains nameservers nsaddrinfo nscount revision_id].
      rewrite !clear_stats_proj by reflexivity. cbn.
      repeat split; try reflexivity.
      destruct Hok as (addrs & H1 & H2 & H3 & H4). exists addrs. cbn. auto.
  - set (info1 := set_params info _).
    assert (Hok1 : info_ok MAXNS info1).
    { destruct Hok as (addrs & H1 & H2 & H3 & H4). exists addrs. cbn. auto. }
    destruct (free_nameservers_fields info1 Hok1) as (Fa & Fn & Fr & Fc).
    pose proof (length_mapM _ _ _ Hmap) as Hl.
    set (F := free_nameservers_locked MAXNS info1) in *.
    unfold set_search_domains, set_revision_id.
    cbn [netid cache search_domains nameservers nsaddrinfo nscount revision_id].
    rewrite !clear_stats_proj by reflexivity.
    cbn [set_nscount set_nsaddrinfo set_nameservers
         netid cache search_domains nameservers nsaddrinfo nscount revision_id].
    rewrite Fa, Fn, Fr, Fc, Hl, drop_replicate.
    repeat split; try reflexivity; try lia.
    + exists parsed. cbn [nsaddrinfo nscount nameservers]. auto.
    + subst info1. cbn. lia.
Qed.

Lemma netids_update_const (l : list resolv_cache_info) (id : Z)
    (info' : resolv_cache_info) :
  netid info' = id ->
  netid <$> update_cache_info l id (fun _ => info') = netid <$> l.
Proof.
  intros Hn. induction l as [|x l IH]; [reflexivity|].
  cbn [update_cache_info]. destruct (Z.eqb_spec (netid x) id); cbn [fmap list_fmap].
  - congruence.
  - f_equal. exact IH.
Qed.

Lemma set_nameservers_registry_ok (st : State) (id : Z) (servers domains : list string)
    (p : res_params) :
  registry_ok MAXNS st -> registry_ok MAXNS (fst (set_servers st id servers domains p)).
Proof.
  intros [Hnd Hall].
  destruct (mapM getaddrinfo_numeric (filter_nameservers MAXNS servers))
    as [parsed|] eqn:Hmap.
  2: { unfold resolv_set_nameservers. cbv zeta. rewrite Hmap. split; assumption. }
  destruct (find_cache_info_locked (res_cache_list st) id) as [info|] eqn:Hf.
  2: { unfold resolv_set_nameservers. cbv zeta. rewrite Hmap, Hf. split; assumption. }
  pose proof (find_elem_of _ _ _ Hf) as [Hin Hid].
  assert (Hok : info_ok MAXNS info) by (rewrite Forall_forall in Hall; apply Hall, Hin).
  destruct (set_nameservers_result st id servers domains p info parsed Hmap Hf Hok)
    as (info' & -> & Hn & _ & Hok' & _).
  cbn [fst]. split; cbn [res_cache_list].
  - rewrite netids_update_const; [exact Hnd | congruence].
  - apply update_Forall; [exact Hall|]. intros _ _. exact Hok'.
Qed.

Lemma delete_registry_ok (st : State) (id : Z) :
  registry_ok MAXNS st -> registry_ok MAXNS (resolv_delete_cache_for_net st id).
Proof.
  intros [Hnd Hall]. unfold resolv_delete_cache_for_net.
  pose proof (delete_sublist (res_cache_list st) id) as Hs.
  destruct (delete_cache_info (res_cache_list st) id) as [l n]. cbn [fst] in Hs.
  split; cbn [res_cache_list].
  - eapply sublist_NoDup; [exact Hnd|]. apply fmap_sublist, Hs.
  - rewrite Forall_forall in Hall |- *. intros x Hx.
    apply Hall. eapply elem_of_sublist; eassumption.
Qed.

Lemma step_registry_ok (st : State) (o : op) :
  registry_ok MAXNS st -> registry_ok MAXNS (step' st o).
Proof.
  intros Hst. destruct o; cbn [step].
  - apply create_registry_ok, Hst.
  - apply delete_registry_ok, Hst.
  - eapply registry_ok_view; [apply view_flush | exact Hst].
  - eapply registry_ok_view; [apply view_lookup | exact Hst].
  - eapply registry_ok_view; [apply view_wakeup | exact Hst].
  - eapply registry_ok_view; [apply view_add | exact Hst].
  - eapply registry_ok_view; [apply view_query_failed | exact Hst].
  - apply set_nameservers_registry_ok, Hst.
  - eapply registry_ok_view; [apply view_add_sample | exact Hst].
Qed.

Lemma run_registry_ok (ops : list op) (st : State) :
  registry_ok MAXNS st -> registry_ok MAXNS (run' ops st).
Proof.
  revert st. induction ops as [|o ops IH]; intros st Hst; [exact Hst|].
  apply IH, step_registry_ok, Hst.
Qed.

Lemma reachable_registry_ok (ops : list op) : registry_ok MAXNS (run' ops initial_state).
Proof. apply run_registry_ok. split; constructor. Qed.

Lemma populate_loop_addrs (addrs : list addrinfo) (k : nat) :
  populate_loop ((Some <$> addrs) ++ replicate k None) = length addrs.
Proof.
  induction addrs as [|a addrs IH]; cbn [fmap list_fmap app populate_loop length].
  - destruct k; reflexivity.
  - f_equal. exact IH.
Qed.

(** X7.  In every state the registry can reach, the record of a network
    holds between 0 and MAXNS nameservers, as many names as addresses:
    [_resolv_populate_res_for_net] then sets [statp->nscount] to the
    [nscount] of the record, and [resolv_has_nameservers] tells whether the
    list of names is non-empty. *)
Theorem reachable_nameserver_shape (ops : list op) (id : Z) (info : resolv_cache_info) :
  let st := run' ops initial_state in
  find_cache_info_locked (res_cache_list st) id = Some info ->
  0 <= nscount info <= Z.of_nat MAXNS
  /\ nscount info = Z.of_nat (length (nameservers info))
  /\ _resolv_populate_res_for_net MAXNS st id = Some (nscount info, search_domains info)
  /\ resolv_has_nameservers st id = negb (bool_decide (nameservers info = [])).
Proof.
  intros st Hf.
  destruct (reachable_registry_ok ops) as [_ Hall]. fold st in Hall.
  rewrite Forall_forall in Hall.
  destruct (Hall info (proj1 (find_elem_of _ _ _ Hf))) as (addrs & Ha & Hlen & Hc & Hn).
  unfold _resolv_populate_res_for_net, resolv_has_nameservers. rewrite Hf.
  repeat split; try lia.
  - rewrite Ha, take_ge, populate_loop_addrs, Hc; [reflexivity|].
    rewrite length_app, length_fmap, length_replicate. lia.
  - rewrite Hc, <- Hn. destruct (nameservers info); reflexivity.
Qed.

Lemma find_app_miss (l : list resolv_cache_info) (id : Z) (x : resolv_cache_info) :
  find_cache_info_locked l id = None ->
  find_cache_info_locked (l ++ [x]) id = if netid x =? id then Some x else None.
Proof.
  induction l as [|y l IH]; cbn [app find_cache_info_locked]; [reflexivity|].
  destruct (netid y =? id); [discriminate | exact IH].
Qed.

Lemma find_app_hit (l k : list resolv_cache_info) (id : Z) (info : resolv_cache_info) :
  find_cache_info_locked l id = Some info ->
  find_cache_info_locked (l ++ k) id = Some info.
Proof.
  induction l as [|y l IH]; cbn [app find_cache_info_locked]; [discriminate|].
  destruct (netid y =? id); [trivial | exact IH].
Qed.

Lemma find_delete_same (l : list resolv_cache_info) (id : Z) :
  NoDup (netid <$> l) ->
  find_cache_info_locked (fst (delete_cache_info l id)) id = None.
Proof.
  induction l as [|x l IH]; intros Hnd; [reflexivity|].
  cbn [fmap list_fmap] in Hnd. apply NoDup_cons in Hnd as [Hx Hnd].
  cbn [delete_cache_info].
  destruct (Z.eqb_spec (netid x) id) as [E|E]; cbn [fst].
  - apply find_None. congruence.
  - specialize (IH Hnd). destruct (delete_cache_info l id) as [l'' n]. cbn [fst] in *.
    cbn [find_cache_info_locked]. destruct (Z.eqb_spec (netid x) id); [contradiction|].
    exact IH.
Qed.

Lemma find_delete_other (l : list resolv_cache_info) (id id' : Z) :
  id' <> id ->
  find_cache_info_locked (fst (delete_cache_info l id)) id'
  = find_cache_info_locked l id'.
Proof.
  intros Hne. induction l as [|x l IH]; [reflexivity|].
  cbn [delete_cache_info].
  destruct (Z.eqb_spec (netid x) id) as [E|E]; cbn [fst].
  - cbn [find_cache_info_locked].
    destruct (Z.eqb_spec (netid x) id'); [congruence | reflexivity].
  - destruct (delete_cache_info l id) as [l'' n]. cbn [fst] in *.
    cbn [find_cache_info_locked]. rewrite IH. reflexivity.
Qed.

Lemma delete_notifies (l : list resolv_cache_info) (id : Z) :
  snd (delete_cache_info l id) = bool_decide (is_Some (find_cache_info_locked l id)).
Proof.
  induction l as [|x l IH]; cbn [delete_cache_info find_cache_info_locked].
  - symmetry. apply bool_decide_eq_false. intros [? ?]. discriminate.
  - destruct (netid x =? id); cbn [snd].
    + symmetry. apply bool_decide_eq_true. eexists. reflexivity.
    + destruct (delete_cache_info l id) as [l'' n]. exact IH.
Qed.

Lemma find_update_other (l : list resolv_cache_info) (id id' : Z)
    (f : resolv_cache_info -> resolv_cache_info) :
  id' <> id ->
  (forall info, netid info = id -> netid (f info) = id) ->
  find_cache_info_locked (update_cache_info l id f) id' = find_cache_info_locked l id'.
Proof.
  intros Hne Hf. induction l as [|x l IH]; [reflexivity|].
  cbn [update_cache_info].
  destruct (Z.eqb_spec (netid x) id) as [E|E]; cbn [find_cache_info_locked].
  - rewrite (Hf x E).
    destruct (Z.eqb_spec id id'); [congruence|].
    destruct (Z.eqb_spec (netid x) id'); [congruence | reflexivity].
  - rewrite IH. reflexivity.
Qed.

Lemma find_view (l l' : list resolv_cache_info) (id : Z) (info info' : resolv_cache_info) :
  ns_fields <$> l' = ns_fields <$> l ->
  find_cache_info_locked l id = Some info ->
  find_cache_info_locked l' id = Some info' ->
  ns_fields info' = ns_fields info.
Proof.
  revert l'. induction l as [|x l IH]; intros [|y l'] Hv Hf Hf'; try discriminate.
  assert (Hx : ns_fields y = ns_fields x) by (cbn in Hv; congruence).
  assert (Hv' : ns_fields <$> l' = ns_fields <$> l) by (cbn in Hv; congruence).
  assert (Hn : netid y = netid x) by (unfold ns_fields in Hx; congruence).
  cbn [find_cache_info_locked] in Hf, Hf'. rewrite Hn in Hf'.
  destruct (netid x =? id); [congruence|].
  eapply IH; eassumption.
Qed.

(** X8.  The life of a cache, in every state the registry can reach:
    creating a cache that exists is refused with [-EEXIST] and changes
    nothing; creating one that does not exist returns 0 and leaves an empty
    cache for the network; after [resolv_delete_cache_for_net] the network
    has no cache, the waiters were notified if it had one, and the records of
    the other networks are as before. *)
Theorem cache_lifecycle (ops : list op) (id : Z) :
  let st := run' ops initial_state in
  (has_named_cache st id = true -> create st id = (st, - EEXIST))
  /\ (has_named_cache st id = false ->
      snd (create st id) = 0
      /\ find_named_cache_locked (res_cache_list (fst (create st id))) id
         = Some resolv_cache_create)
  /\ has_named_cache (resolv_delete_cache_for_net st id) id = false
  /\ cv_notified (resolv_delete_cache_for_net st id)
     = (if has_named_cache st id then S (cv_notified st) else cv_notified st)
  /\ (forall id', id' <> id ->
        find_cache_info_locked (res_cache_list (resolv_delete_cache_for_net st id)) id'
        = find_cache_info_locked (res_cache_list st) id').
Proof.
  intros st. destruct (reachable_registry_ok ops) as [Hnd _]. fold st in Hnd.
  unfold has_named_cache, resolv_create_cache_for_net, find_named_cache_locked.
  repeat split.
  - intros H. apply bool_decide_eq_true in H.
    destruct (find_cache_info_locked (res_cache_list st) id); [reflexivity|].
    destruct H as [? H]. discriminate.
  - apply bool_decide_eq_false in H.
    destruct (find_cache_info_locked (res_cache_list st) id); [|reflexivity].
    exfalso. apply H. eexists. reflexivity.
  - apply bool_decide_eq_false in H.
    destruct (find_cache_info_locked (res_cache_list st) id) eqn:Hf.
    { exfalso. apply H. eexists. reflexivity. }
    cbn [fst res_cache_list]. rewrite (find_app_miss _ _ _ Hf). cbn [netid].
    rewrite Z.eqb_refl. reflexivity.
  - apply bool_decide_eq_false. intros [c Hc].
    unfold resolv_delete_cache_for_net in Hc.
    pose proof (find_delete_same (res_cache_list st) id Hnd) as Hd.
    destruct (delete_cache_info (res_cache_list st) id) as [l n].
    cbn [fst res_cache_list] in *. rewrite Hd in Hc. discriminate.
  - unfold resolv_delete_cache_for_net.
    pose proof (delete_notifies (res_cache_list st) id) as Hn.
    destruct (delete_cache_info (res_cache_list st) id) as [l n].
    cbn [snd cv_notified] in *. subst n.
    destruct (find_cache_info_locked (res_cache_list st) id) eqn:Hf.
    + rewrite !bool_decide_eq_true_2; [reflexivity | eexists; reflexivity | eexists; reflexivity].
    + rewrite !bool_decide_eq_false_2; [reflexivity | intros [? ?]; discriminate
                                        | intros [? ?]; discriminate].
  - intros id' Hne. unfold resolv_delete_cache_for_net.
    pose proof (find_delete_other (res_cache_list st) id id' Hne) as Hd.
    destruct (delete_cache_info (res_cache_list st) id) as [l n]. exact Hd.
Qed.

(** X9.  Lookups, the second half of a lookup that waited, adds, failure
    notices and statistics samples never add or remove a network and never
    change the configuration of one: netid, nameservers and their addresses,
    revision id, parameters and search domains stay as they were. *)
Theorem cache_operations_keep_configuration (st : State) (id : Z)
    (query answer : list Z) (key : Entry) (answersize flags now revision max_samples : Z)
    (ns : nat) (sample : res_sample) :
  ns_view (step' st (OpLookup id query answersize flags now)) = ns_view st
  /\ ns_view (step' st (OpWakeup id key answersize now)) = ns_view st
  /\ ns_view (step' st (OpAdd id query answer now)) = ns_view st
  /\ ns_view (step' st (OpQueryFailed id query flags)) = ns_view st
  /\ ns_view (step' st (OpAddSample id revision ns sample max_samples)) = ns_view st.
Proof.
  cbn [step]. repeat split.
  - apply view_lookup.
  - apply view_wakeup.
  - apply view_add.
  - apply view_query_failed.
  - apply view_add_sample.
Qed.

(** X10.  In every state the registry can reach, no operation makes the
    revision id of a network smaller: a sample tagged with a revision id
    that was current once can become stale, never current again while the
    network is there. *)
Theorem revision_id_never_decreases (ops : list op) (o : op) (id : Z)
    (info info' : resolv_cache_info) :
  let st := run' ops initial_state in
  find_cache_info_locked (res_cache_list st) id = Some info ->
  find_cache_info_locked (res_cache_list (step' st o)) id = Some info' ->
  revision_id info <= revision_id info'.
Proof.
  intros st Hf Hf'.
  destruct (reachable_registry_ok ops) as [Hnd Hall]. fold st in Hnd, Hall.
  assert (Hview : ns_view (step' st o) = ns_view st -> revision_id info <= revision_id info').
  { intros Hv. pose proof (find_view _ _ _ _ _ Hv Hf Hf') as E.
    unfold ns_fields in E. assert (revision_id info' = revision_id info) by congruence. lia. }
  destruct o as [id0|id0|id0| | | | |id0 servers domains p| ]; cbn [step] in Hf', Hview.
  - unfold resolv_create_cache_for_net, find_named_cache_locked in Hf'.
    destruct (find_cache_info_locked (res_cache_list st) id0) eqn:Hf0; cbn [fst] in Hf'.
    + assert (info' = info) by congruence. subst. lia.
    + cbn [res_cache_list] in Hf'.
      rewrite (find_app_hit _ _ _ _ Hf) in Hf'.
      assert (info' = info) by congruence. subst. lia.
  - destruct (Z.eq_dec id0 id) as [->|Hne].
    + unfold resolv_delete_cache_for_net in Hf'.
      pose proof (find_delete_same (res_cache_list st) id Hnd) as Hd.
      destruct (delete_cache_info (res_cache_list st) id) as [l n].
      cbn [fst res_cache_list] in *. congruence.
    + unfold resolv_delete_cache_for_net in Hf'.
      pose proof (find_delete_other (res_cache_list st) id0 id (not_eq_sym Hne)) as Hd.
      destruct (delete_cache_info (res_cache_list st) id0) as [l n].
      cbn [fst res_cache_list] in *. assert (info' = info) by congruence. subst. lia.
  - apply Hview, view_flush.
  - apply Hview, view_lookup.
  - apply Hview, view_wakeup.
  - apply Hview, view_add.
  - apply Hview, view_query_failed.
  - destruct (mapM getaddrinfo_numeric (filter_nameservers MAXNS servers))
      as [parsed|] eqn:Hmap.
    2: { unfold resolv_set_nameservers in Hf'. cbv zeta in Hf'. rewrite Hmap in Hf'.
         assert (info' = info) by (cbn [fst] in Hf'; congruence). subst. lia. }
    destruct (find_cache_info_locked (res_cache_list st) id0) as [info0|] eqn:Hf0.
    2: { unfold resolv_set_nameservers in Hf'. cbv zeta in Hf'. rewrite Hmap, Hf0 in Hf'.
         assert (info' = info) by (cbn [fst] in Hf'; congruence). subst. lia. }
    pose proof (find_elem_of _ _ _ Hf0) as [Hin Hid].
    assert (Hok : info_ok MAXNS info0) by (rewrite Forall_forall in Hall; apply Hall, Hin).
    destruct (set_nameservers_result st id0 servers domains p info0 parsed Hmap Hf0 Hok)
      as (info1 & E & Hn & _ & _ & _ & Hrev).
    rewrite E in Hf'. cbn [fst res_cache_list] in Hf'.
    destruct (Z.eq_dec id0 id) as [->|Hne].
    + rewrite (find_update_found _ _ _ _ Hf0) in Hf' by congruence.
      assert (info0 = info) by congruence. assert (info' = info1) by congruence. subst.
      destruct (resolv_is_nameservers_equal _ _).
      * destruct Hrev as (_ & _ & _ & ->). destruct (_ =? _); lia.
      * destruct Hrev as (_ & _ & _ & ->). lia.
    + rewrite find_update_other in Hf' by (intros; congruence).
      assert (info' = info) by congruence. subst. lia.
  - apply Hview, view_add_sample.
Qed.

(** X11.  In every state the registry can reach: once
    [resolv_set_nameservers] has replaced the set of servers of a network,
    or changed [max_samples], a sample taken under the revision id that was
    current before the call is dropped, whatever server slot it names. *)
Theorem stale_sample_is_dropped (ops : list op) (id : Z) (servers domains : list string)
    (p : res_params) (info : resolv_cache_info) (ns : nat) (sample : res_sample)
    (max_samples' : Z) :
  let st := run' ops initial_state in
  let st' := fst (set_servers st id servers domains p) in
  find_cache_info_locked (res_cache_list st) id = Some info ->
  snd (set_servers st id servers domains p) = 0 ->
  resolv_is_nameservers_equal (nameservers info) (filter_nameservers MAXNS servers) = false
  \/ max_samples p <> max_samples (params info) ->
  revision_id info < fst (resolv_cache_get_resolver_stats st' id)
  /\ _resolv_cache_add_resolver_stats_sample st' id (revision_id info) ns sample max_samples'
     = st'.
Proof.
  intros st st' Hf Hret Hchg. subst st'.
  destruct (reachable_registry_ok ops) as [_ Hall]. fold st in Hall.
  destruct (mapM getaddrinfo_numeric (filter_nameservers MAXNS servers))
    as [parsed|] eqn:Hmap.
  2: { unfold resolv_set_nameservers in Hret. cbv zeta in Hret. rewrite Hmap in Hret.
       discriminate Hret. }
  pose proof (find_elem_of _ _ _ Hf) as [Hin Hid].
  assert (Hok : info_ok MAXNS info) by (rewrite Forall_forall in Hall; apply Hall, Hin).
  destruct (set_nameservers_result st id servers domains p info parsed Hmap Hf Hok)
    as (info1 & E & Hn & _ & _ & _ & Hrev).
  rewrite E. cbn [fst].
  set (st' := {| res_cache_list := _; cv_notified := _ |}).
  assert (Hf1 : find_cache_info_locked (res_cache_list st') id = Some info1).
  { apply (find_update_found _ _ (fun _ => info1) info Hf). congruence. }
  assert (Hlt : revision_id info < revision_id info1).
  { destruct (resolv_is_nameservers_equal _ _).
    - destruct Hrev as (_ & _ & _ & ->). destruct Hchg as [?|Hm]; [discriminate|].
      destruct (Z.eqb_spec (max_samples p) (max_samples (params info))); [contradiction|lia].
    - destruct Hrev as (_ & _ & _ & ->). lia. }
  unfold resolv_cache_get_resolver_stats, _resolv_cache_add_resolver_stats_sample.
  rewrite Hf1. cbn [fst]. split; [exact Hlt|].
  destruct (max_samples' <=? 0); [reflexivity|].
  destruct (Z.eqb_spec (revision_id info1) (revision_id info)); [lia | reflexivity].
Qed.

End Env.

Lemma reachable_nameserver_shape_witness :
  0 <= nscount (info_of ex_configured 30) <= 4
  /\ nscount (info_of ex_configured 30)
     = Z.of_nat (length (nameservers (info_of ex_configured 30)))
  /\ _resolv_populate_res_for_net 4 ex_configured 30
     = Some (nscount (info_of ex_configured 30), search_domains (info_of ex_configured 30))
  /\ resolv_has_nameservers ex_configured 30
     = negb (bool_decide (nameservers (info_of ex_configured 30) = [])).
Proof.
  refine (reachable_nameserver_shape (reader_of (msg_one_answer 60))
            Answer.dn_skipname_labels 4 64 6 256 getaddrinfo_quad None None []
            [OpCreate 30;
             OpSetNameservers 30 ["8.8.8.8"; "8.8.4.4"]%string [] (ex_params 8);
             OpAddSample 30 2 0 (mkSample 1000 20000 0) 8;
             OpAddSample 30 2 1 (mkSample 1000 30000 0) 8;
             OpAddSample 30 2 1 (mkSample 1001 30000 2) 8]
            30 (info_of ex_configured 30) _).
  vm_compute. reflexivity.
Defined.

Lemma cache_lifecycle_witness :
  let st := ex_run 60 [OpCreate 30] initial_state in
  resolv_create_cache_for_net 4 64 [] st 30 = (st, - EEXIST).
Proof.
  refine (proj1 (cache_lifecycle (reader_of (msg_one_answer 60))
                   Answer.dn_skipname_labels 4 64 6 256 getaddrinfo_quad None None []
                   [OpCreate 30] 30) _).
  vm_compute. reflexivity.
Defined.

Lemma revision_id_never_decreases_witness :
  revision_id (info_of ex_configured 30)
  <= revision_id (info_of (fst (ex_set_nameservers ex_configured 30 ["1.1.1.1"]%string []
                                  (ex_params 8))) 30).
Proof.
  refine (revision_id_never_decreases (reader_of (msg_one_answer 60))
            Answer.dn_skipname_labels 4 64 6 256 getaddrinfo_quad None None []
            [OpCreate 30;
             OpSetNameservers 30 ["8.8.8.8"; "8.8.4.4"]%string [] (ex_params 8);
             OpAddSample 30 2 0 (mkSample 1000 20000 0) 8;
             OpAddSample 30 2 1 (mkSample 1000 30000 0) 8;
             OpAddSample 30 2 1 (mkSample 1001 30000 2) 8]
            (OpSetNameservers 30 ["1.1.1.1"]%string [] (ex_params 8))
            30 (info_of ex_configured 30) _ _ _).
  - vm_compute. reflexivity.
  - vm_compute. reflexivity.
Defined.

Lemma stale_sample_is_dropped_witness :
  _resolv_cache_add_resolver_stats_sample
    (fst (ex_set_nameservers ex_configured 30 ["1.1.1.1"]%string [] (ex_params 8)))
    30 (revision_id (info_of ex_configured 30)) 0 (mkSample 1002 1000 0) 8
  = fst (ex_set_nameservers ex_configured 30 ["1.1.1.1"]%string [] (ex_params 8)).
Proof.
  refine (proj2 (stale_sample_is_dropped (reader_of (msg_one_answer 60))
            Answer.dn_skipname_labels 4 64 6 256 getaddrinfo_quad None None []
            [OpCreate 30;
             OpSetNameservers 30 ["8.8.8.8"; "8.8.4.4"]%string [] (ex_params 8);
             OpAddSample 30 2 0 (mkSample 1000 20000 0) 8;
             OpAddSample 30 2 1 (mkSample 1000 30000 0) 8;
             OpAddSample 30 2 1 (mkSample 1001 30000 2) 8]
            30 ["1.1.1.1"]%string [] (ex_params 8) (info_of ex_configured 30)
            0%nat (mkSample 1002 1000 0) 8 _ _ _)).
  - vm_compute. reflexivity.
  - vm_compute. reflexivity.
  - left. vm_compute. reflexivity.
Defined.

End RegistryFacts.

(** ** The ring of samples of one server *)

Module StatsFacts.
Import Resolv.

Lemma add_samples_snoc (stats : res_stats) (l : list res_sample) (x : res_sample)
    (max_samples : Z) :
  add_samples stats (l ++ [x]) max_samples
  = _res_cache_add_stats_sample_locked (add_samples stats l max_samples) x max_samples.
Proof. unfold add_samples. rewrite fold_left_app. reflexivity. Qed.

Lemma mod_shift_ne (a j m : Z) : 0 < j < m -> (a - j) mod m <> a mod m.
Proof.
  intros Hj E.
  assert (H : j mod m = 0).
  { replace j with (a - (a - j)) at 1 by lia.
    rewrite Zminus_mod, E, Z.sub_diag. apply Z.mod_0_l. lia. }
  rewrite Z.mod_small in H by lia. lia.
Qed.

(** X12.  Samples added to a cleared ring, one after the other, with
    [max_samples] between 1 and 255 (the two counters are 8-bit) and not
    above the size of the array:
    [sample_count] is the number of samples added, capped at [max_samples];
    [sample_next] is that number modulo [max_samples]; and the ring holds
    the [sample_count] most recent samples, the j-th most recent one in slot
    [(n - 1 - j) mod max_samples]. *)
Theorem sample_ring (stats : res_stats) (l : list res_sample) (max_samples : Z) :
  0 < max_samples <= 255 ->
  max_samples <= Z.of_nat (length (samples stats)) ->
  sample_count stats = 0 ->
  sample_next stats = 0 ->
  let s := add_samples stats l max_samples in
  let n := Z.of_nat (length l) in
  sample_count s = Z.min n max_samples
  /\ sample_next s = n mod max_samples
  /\ forall j : nat,
       Z.of_nat j < Z.min n max_samples ->
       samples s !! Z.to_nat ((n - 1 - Z.of_nat j) mod max_samples) = rev l !! j.
Proof.
  intros Hmax Hsize Hc Hn. cbv zeta.
  assert (Hlen : length (samples (add_samples stats l max_samples))
                 = length (samples stats) /\
          sample_count (add_samples stats l max_samples)
          = Z.min (Z.of_nat (length l)) max_samples /\
          sample_next (add_samples stats l max_samples)
          = Z.of_nat (length l) mod max_samples /\
          forall j : nat,
            Z.of_nat j < Z.min (Z.of_nat (length l)) max_samples ->
            samples (add_samples stats l max_samples)
              !! Z.to_nat ((Z.of_nat (length l) - 1 - Z.of_nat j) mod max_samples)
            = rev l !! j); [|tauto].
  induction l as [|x l IH] using rev_ind.
  - cbn. rewrite Hc, Hn, Z.mod_0_l by lia. repeat split; lia.
  - destruct IH as (IHl & IHc & IHn & IHr).
    rewrite add_samples_snoc. set (s := add_samples stats l max_samples) in *.
    rewrite length_app, rev_app_distr. cbn [length rev app].
    replace (Z.of_nat (length l + 1)) with (Z.of_nat (length l) + 1) by lia.
    set (n := Z.of_nat (length l)) in *.
    assert (Hnext : 0 <= sample_next s < max_samples)
      by (rewrite IHn; apply Z.mod_pos_bound; lia).
    unfold _res_cache_add_stats_sample_locked. cbn [samples sample_count sample_next].
    repeat split.
    + rewrite length_insert. exact IHl.
    + rewrite IHc. destruct (Z.ltb_spec (Z.min n max_samples) max_samples); lia.
    + assert (E : (n + 1) mod max_samples = (sample_next s + 1) mod max_samples)
        by (rewrite IHn, Zplus_mod_idemp_l; reflexivity).
      rewrite E.
      destruct (Z.eq_dec (sample_next s + 1) 256) as [E256|N256].
      * rewrite E256. change (256 mod 256) with 0.
        destruct (Z.leb_spec max_samples 0); [lia|].
        assert (max_samples = 256) by lia. subst max_samples. reflexivity.
      * rewrite (Z.mod_small (sample_next s + 1) 256) by lia.
        destruct (Z.leb_spec max_samples (sample_next s + 1)).
        -- assert (sample_next s + 1 = max_samples) by lia.
           replace (sample_next s + 1) with max_samples by lia.
           rewrite Z.mod_same by lia. reflexivity.
        -- rewrite Z.mod_small by lia. reflexivity.
    + intros j Hj. destruct j as [|j].
      * replace (n + 1 - 1 - Z.of_nat 0) with n by lia. rewrite <- IHn.
        cbn [lookup list_lookup]. apply list_lookup_insert_eq. lia.
      * cbn [lookup list_lookup].
        replace (n + 1 - 1 - Z.of_nat (S j)) with (n - 1 - Z.of_nat j) by lia.
        rewrite list_lookup_insert_ne.
        -- apply IHr. lia.
        -- rewrite IHn. intros E. apply Z2Nat.inj in E;
             [|apply Z.mod_pos_bound; lia | apply Z.mod_pos_bound; lia].
           apply (mod_shift_ne n (1 + Z.of_nat j) max_samples); [lia|].
           rewrite E. f_equal. lia.
Qed.

Lemma sample_ring_witness :
  let s := add_samples (mkStats (replicate 4 (mkSample 0 0 0)) 0 0)
             [mkSample 1 10 0; mkSample 2 20 0; mkSample 3 30 0] 2 in
  sample_count s = 2 /\ sample_next s = 1
  /\ forall j : nat,
       Z.of_nat j < 2 ->
       samples s !! Z.to_nat ((3 - 1 - Z.of_nat j) mod 2)
       = rev [mkSample 1 10 0; mkSample 2 20 0; mkSample 3 30 0] !! j.
Proof.
  refine (sample_ring (mkStats (replicate 4 (mkSample 0 0 0)) 0 0)
            [mkSample 1 10 0; mkSample 2 20 0; mkSample 3 30 0] 2 _ _ _ _).
  - lia.
  - cbn. lia.
  - reflexivity.
  - reflexivity.
Defined.

End StatsFacts.

(** ** Search domains *)

Module DomainFacts.
Import Resolv.

Section Env.

Variable MAXDNSRCH MAXDNSRCHPATH : nat.

Local Abbreviation short d := (Z.of_nat (String.length d) <= Z.of_nat MAXDNSRCHPATH - 1).

Lemma filter_domains_loop_spec (domains : list string) (tmp_set : gset string) :
  let res := filter_domains_loop MAXDNSRCHPATH domains tmp_set in
  NoDup res
  /\ (forall d, d ∈ res -> d ∉ tmp_set)
  /\ res `sublist_of` domains
  /\ Forall (fun d => short d) res
  /\ (forall d, d ∈ domains -> short d -> d ∈ res \/ d ∈ tmp_set).
Proof.
  revert tmp_set. induction domains as [|str domains IH]; intros tmp_set; cbv zeta.
  - cbn. repeat split; try constructor; try (intros d Hd; inversion Hd); auto.
  - cbn [filter_domains_loop].
    destruct (Z.ltb_spec (Z.of_nat MAXDNSRCHPATH - 1) (Z.of_nat (String.length str)))
      as [Hlong|Hshort]; cbn [negb andb].
    + destruct (IH tmp_set) as (H1 & H2 & H3 & H4 & H5).
      repeat split; try assumption.
      * apply sublist_cons, H3.
      * intros d Hd Hs. apply elem_of_cons in Hd as [->|Hd]; [lia | auto].
    + destruct (bool_decide_reflect (str ∈ tmp_set)) as [Hin|Hnin]; cbn [negb].
      * destruct (IH tmp_set) as (H1 & H2 & H3 & H4 & H5).
        repeat split; try assumption.
        -- apply sublist_cons, H3.
        -- intros d Hd Hs. apply elem_of_cons in Hd as [->|Hd]; auto.
      * destruct (IH ({[str]} ∪ tmp_set)) as (H1 & H2 & H3 & H4 & H5).
        repeat split.
        -- constructor; [|exact H1]. intros Hin. apply (H2 _ Hin).
           apply elem_of_union. left. apply elem_of_singleton. reflexivity.
        -- intros d Hd. apply elem_of_cons in Hd as [->|Hd]; [exact Hnin|].
           intros Hc. apply (H2 _ Hd), elem_of_union. right. exact Hc.
        -- apply sublist_skip, H3.
        -- constructor; assumption.
        -- intros d Hd Hs. apply elem_of_cons in Hd as [->|Hd]; [left; left|].
           destruct (H5 d Hd Hs) as [?|Hu]; [left; right; assumption|].
           apply elem_of_union in Hu as [Hu|Hu]; [|right; exact Hu].
           apply elem_of_singleton in Hu. subst. left. left.
Qed.

(** X13.  The search domains that [filter_domains] keeps: no domain twice,
    in the order of the input, at most MAXDNSRCH of them, none longer than
    MAXDNSRCHPATH - 1 characters; and when no more than MAXDNSRCH distinct
    domains are short enough, every such domain of the input is kept. *)
Theorem filter_domains_spec (domains : list string) :
  (0 < MAXDNSRCHPATH)%nat ->
  let res := filter_domains MAXDNSRCH MAXDNSRCHPATH domains in
  NoDup res
  /\ res `sublist_of` domains
  /\ (length res <= MAXDNSRCH)%nat
  /\ Forall (fun d => short d) res
  /\ ((length (filter_domains_loop MAXDNSRCHPATH domains ∅) <= MAXDNSRCH)%nat ->
      forall d, d ∈ domains -> short d -> d ∈ res).
Proof.
  intros _. cbv zeta. unfold filter_domains.
  destruct (filter_domains_loop_spec domains ∅) as (H1 & H2 & H3 & H4 & H5).
  cbv zeta in *.
  set (res := filter_domains_loop MAXDNSRCHPATH domains ∅) in *.
  destruct (Nat.ltb_spec MAXDNSRCH (length res)) as [Hlt|Hge].
  - repeat split.
    + eapply sublist_NoDup; [exact H1 | apply sublist_take].
    + etransitivity; [apply sublist_take | exact H3].
    + rewrite length_take. lia.
    + apply Forall_take, H4.
    + intros Hle. lia.
  - repeat split; try assumption.
    intros _ d Hd Hs. destruct (H5 d Hd Hs) as [?|Hin]; [assumption|].
    apply elem_of_empty in Hin. contradiction.
Qed.

End Env.

Lemma filter_domains_spec_witness :
  filter_domains 2 8 ["a.net"; "too.long.example"; "b.org"; "a.net"; "c.com"]%string
  = ["a.net"; "b.org"]%string
  /\ NoDup (filter_domains 2 8
              ["a.net"; "too.long.example"; "b.org"; "a.net"; "c.com"]%string).
Proof.
  split; [vm_compute; reflexivity|].
  refine (proj1 (filter_domains_spec 2 8
                   ["a.net"; "too.long.example"; "b.org"; "a.net"; "c.com"]%string _)).
  lia.
Defined.

End DomainFacts.

(** ** An answer is served until it expires; pending requests *)

Module CacheUseFacts.
Import Packet Cache Resolv CacheFacts ResolvFacts.

Section Reader.

Variable ns_initparse : list Z -> option Answer.ns_msg.
Variable dn_skipname : list Z -> option nat.

Local Abbreviation add := (resolv_cache_add ns_initparse dn_skipname).
Local Abbreviation ttl_of := (answer_getTTL ns_initparse dn_skipname).

(** What an add that returns 0 for an answer with a positive TTL leaves in
    the cache of the network. *)
Lemma add_stores (st : State) (id : Z) (query answer : list Z) (now : Z) :
  let key := snd (entry_init_key query) in
  state_ok st ->
  snd (add st id query answer now) = 0 ->
  0 < ttl_of answer ->
  fingerprint_equal query query = true ->
  cacheable query = true
  /\ exists c' id',
      find_named_cache_locked (res_cache_list (fst (add st id query answer now))) id
      = Some c'
      /\ deref c' (_cache_lookup_p c' key)
         = Some (mkEntry (e_hash key) (e_query key) answer (ttl_of answer + now) id').
Proof.
  intros key Hst Hret Httl Heq.
  destruct (add_cases ns_initparse dn_skipname st id query answer now)
    as [[_ Hr]|[(_ & _ & Hr)|[(c & c1 & e & _ & _ & _ & _ & Hr)|(c & Hq & Hc & _ & Hmiss & Hr)]]];
    cbv zeta in Hr; rewrite Hr in Hret |- *; cbn [fst snd] in Hret |- *;
    try discriminate Hret.
  split; [exact Hq|].
  pose proof (evict_ok now c (find_named_ok _ _ _ Hst Hc)) as Hok1.
  eexists. eexists. split; [eapply find_named_store; exact Hc|].
  unfold added. rewrite notify_spec. cbn [fst snd].
  rewrite deref_lookup_set_pending.
  replace (0 <? answer_getTTL ns_initparse dn_skipname answer) with true
    by (symmetry; apply Z.ltb_lt; exact Httl).
  unfold new_entry.
  apply (deref_after_add_p (evict now c) query answer _ Hok1 Heq Hmiss).
Qed.

(** X14.  After an add that returned 0 for an answer with a positive TTL (the
    query comparing equal to itself), a lookup of the same query with a
    buffer that can hold the answer returns FOUND with the answer at every
    clock reading before [now + TTL], and NOTFOUND from [now + TTL] on;
    [resolv_cache_get_expiration] gives [now + TTL] before that moment and
    [-ENODATA] from it on. *)
Theorem answer_served_until_expiry (st : State) (id : Z) (query answer : list Z)
    (now answersize flags now' : Z) :
  let st' := fst (add st id query answer now) in
  state_ok st ->
  snd (add st id query answer now) = 0 ->
  0 < ttl_of answer ->
  fingerprint_equal query query = true ->
  Z.of_nat (length answer) <= answersize ->
  flag_set flags ANDROID_RESOLV_NO_CACHE_LOOKUP = false ->
  (now' < ttl_of answer + now ->
   snd (resolv_cache_lookup st' id query answersize flags now')
   = Return {| lo_status := RESOLV_CACHE_FOUND;
               lo_answerlen := Some (length answer);
               lo_answer := Some answer |}
   /\ resolv_cache_get_expiration st' id query now' = (0, ttl_of answer + now))
  /\ (ttl_of answer + now <= now' ->
      snd (resolv_cache_lookup st' id query answersize flags now')
      = Return (out_status RESOLV_CACHE_NOTFOUND)
      /\ resolv_cache_get_expiration st' id query now' = (- ENODATA, -1)).
Proof.
  intros st' Hst Hret Httl Heq Hsize Hflag.
  destruct (add_stores st id query answer now Hst Hret Httl Heq)
    as (Hq & c' & id' & Hc' & He).
  fold st' in Hc'.
  unfold resolv_cache_lookup, resolv_cache_get_expiration. rewrite Hflag.
  change (entry_init_key query) with (cacheable query, snd (entry_init_key query)).
  rewrite Hq. cbn [negb]. rewrite Hc', He.
  unfold lookup_entry. cbn [e_expires e_answer e_id].
  split; intros Hnow.
  - replace (answer_getTTL ns_initparse dn_skipname answer + now <=? now') with false
      by (symmetry; apply Z.leb_gt; lia).
    replace (answersize <? Z.of_nat (length answer)) with false
      by (symmetry; apply Z.ltb_ge; lia).
    split; [|reflexivity].
    match goal with
    | |- context [if ?b then c' else ?y] => destruct b
    end; reflexivity.
  - replace (answer_getTTL ns_initparse dn_skipname answer + now <=? now') with true
      by (symmetry; apply Z.leb_le; lia).
    split; reflexivity.
Qed.

End Reader.

Lemma answer_served_until_expiry_witness :
  let st := ex_run 60 [OpCreate 30] initial_state in
  let st' := fst (ex_add 60 st 30 example_query example_answer 1000) in
  snd (resolv_cache_lookup st' 30 example_query 512 0 1059)
  = Return {| lo_status := RESOLV_CACHE_FOUND;
              lo_answerlen := Some (length example_answer);
              lo_answer := Some example_answer |}
  /\ resolv_cache_get_expiration st' 30 example_query 1059 = (0, 1060).
Proof.
  refine (proj1 (answer_served_until_expiry (reader_of (msg_one_answer 60))
                   Answer.dn_skipname_labels
                   (ex_run 60 [OpCreate 30] initial_state) 30
                   example_query example_answer 1000 512 0 1059 _ _ _ _ _ _) _).
  - apply (run_ok (reader_of (msg_one_answer 60)) Answer.dn_skipname_labels
             4 64 6 256 getaddrinfo_quad None None [] [OpCreate 30]). apply initial_ok.
  - vm_compute. reflexivity.
  - vm_compute. reflexivity.
  - vm_compute. reflexivity.
  - vm_compute. discriminate.
  - vm_compute. reflexivity.
  - vm_compute. reflexivity.
Defined.

Lemma has_pending_snoc (h : Z) (l : list Z) : has_pending h (l ++ [h]) = true.
Proof.
  unfold has_pending. rewrite existsb_app. cbn. rewrite Z.eqb_refl.
  apply orb_true_iff. right. reflexivity.
Qed.

Lemma pending_remove_snoc (h : Z) (l : list Z) :
  has_pending h l = false -> pending_remove h (l ++ [h]) = l.
Proof.
  induction l as [|x l IH]; cbn [has_pending existsb app pending_remove].
  - intros _. rewrite Z.eqb_refl. reflexivity.
  - intros H. apply orb_false_iff in H as [Hx Hl]. rewrite Hx.
    f_equal. apply IH, Hl.
Qed.

(** X15.  Two lookups of a query that is not in the cache and has no pending
    request: the first returns NOTFOUND and registers the pending request;
    the second, made before an answer or a failure was reported, is made to
    wait; once [_resolv_cache_query_failed] is called for the query the
    pending request is gone, the waiters were notified, the predicate of the
    wait holds, and the lookup that waited returns NOTFOUND. *)
Theorem second_lookup_waits_until_failure (st : State) (id : Z) (query : list Z)
    (answersize flags now now' : Z) (c : Cache) :
  let key := snd (entry_init_key query) in
  let st1 := fst (resolv_cache_lookup st id query answersize flags now) in
  let st2 := _resolv_cache_query_failed st1 id query flags in
  cacheable query = true ->
  flag_set flags ANDROID_RESOLV_NO_CACHE_LOOKUP = false ->
  flag_set flags ANDROID_RESOLV_NO_CACHE_STORE = false ->
  flag_set flags (Z.lor ANDROID_RESOLV_NO_CACHE_STORE ANDROID_RESOLV_NO_CACHE_LOOKUP)
  = false ->
  find_named_cache_locked (res_cache_list st) id = Some c ->
  deref c (_cache_lookup_p c key) = None ->
  has_pending (e_hash key) (pending_requests c) = false ->
  snd (resolv_cache_lookup st id query answersize flags now)
  = Return (out_status RESOLV_CACHE_NOTFOUND)
  /\ resolv_cache_lookup st1 id query answersize flags now' = (st1, Wait key)
  /\ wait_predicate st1 id key = false
  /\ wait_predicate st2 id key = true
  /\ cv_notified st2 = S (cv_notified st1)
  /\ resolv_cache_lookup_wakeup st2 id key answersize now'
     = (st2, out_status RESOLV_CACHE_NOTFOUND).
Proof.
  intros key st1 st2 Hq Hfl Hfs Hfb Hc Hmiss Hpend.
  set (c1 := set_pending c (pending_requests c ++ [e_hash key])).
  assert (E1 : resolv_cache_lookup st id query answersize flags now
               = (store_cache st id c1 false, Return (out_status RESOLV_CACHE_NOTFOUND))).
  { unfold resolv_cache_lookup. rewrite Hfl.
    change (entry_init_key query) with (cacheable query, key).
    rewrite Hq. cbn [negb]. rewrite Hc, Hmiss, Hfs.
    unfold cache_has_pending_request_locked. rewrite Hpend. reflexivity. }
  assert (Hst1 : st1 = store_cache st id c1 false) by (subst st1; rewrite E1; reflexivity).
  assert (Hc1 : find_named_cache_locked (res_cache_list st1) id = Some c1)
    by (rewrite Hst1; eapply find_named_store; exact Hc).
  assert (Hmiss1 : deref c1 (_cache_lookup_p c1 key) = None)
    by (unfold c1; rewrite deref_lookup_set_pending; exact Hmiss).
  assert (Hp1 : has_pending (e_hash key) (pending_requests c1) = true)
    by apply has_pending_snoc.
  assert (E2 : st2 = store_cache st1 id (set_pending c1 (pending_requests c)) true).
  { subst st2. unfold _resolv_cache_query_failed. rewrite Hfb.
    change (entry_init_key query) with (cacheable query, key).
    rewrite Hq. cbn [negb]. rewrite Hc1, notify_spec, Hp1.
    unfold c1 at 2. cbn [pending_requests set_pending].
    rewrite pending_remove_snoc by exact Hpend. reflexivity. }
  set (c2 := set_pending c1 (pending_requests c)) in *.
  assert (Hc2 : find_named_cache_locked (res_cache_list st2) id = Some c2)
    by (rewrite E2; eapply find_named_store; exact Hc1).
  assert (Hmiss2 : deref c2 (_cache_lookup_p c2 key) = None)
    by (unfold c2; rewrite deref_lookup_set_pending; exact Hmiss1).
  assert (Hw2 : wait_predicate st2 id key = true).
  { unfold wait_predicate. rewrite Hc2. unfold cache_has_pending_request_locked.
    cbn [pending_requests c2 set_pending]. rewrite Hpend. reflexivity. }
  repeat split.
  - rewrite E1. reflexivity.
  - unfold resolv_cache_lookup. rewrite Hfl.
    change (entry_init_key query) with (cacheable query, key).
    rewrite Hq. cbn [negb]. rewrite Hc1, Hmiss1, Hfs.
    unfold cache_has_pending_request_locked. rewrite Hp1. reflexivity.
  - unfold wait_predicate. rewrite Hc1. unfold cache_has_pending_request_locked.
    rewrite Hp1. reflexivity.
  - exact Hw2.
  - rewrite E2. reflexivity.
  - unfold resolv_cache_lookup_wakeup. rewrite Hw2, Hc2. cbn [negb].
    rewrite Hmiss2. reflexivity.
Qed.

Lemma second_lookup_waits_until_failure_witness :
  let st := ex_run 60 [OpCreate 30] initial_state in
  let st1 := fst (resolv_cache_lookup st 30 example_query 512 0 1000) in
  resolv_cache_lookup st1 30 example_query 512 0 1001
  = (st1, Wait (snd (entry_init_key example_query))).
Proof.
  refine (proj1 (proj2 (second_lookup_waits_until_failure
                          (ex_run 60 [OpCreate 30] initial_state) 30 example_query
                          512 0 1000 1001 resolv_cache_create _ _ _ _ _ _ _))).
  - vm_compute. reflexivity.
  - reflexivity.
  - reflexivity.
  - reflexivity.
  - vm_compute. reflexivity.
  - vm_compute. reflexivity.
  - reflexivity.
Defined.

End CacheUseFacts.

(** ** Deadlines *)

Module TimeFacts.
Import Resolv Send.

Lemma SGN_spec (x : Z) : SGN x = Z.sgn x.
Proof.
  unfold SGN. destruct (Z.ltb_spec x 0); [|destruct (Z.ltb_spec 0 x)]; lia.
Qed.

(** X16.  On time values whose nanosecond field is in range, [evAddTime] and
    [evSubTime] are the sum and the difference of the values they stand for
    and leave the nanosecond field in range, [evCmpTime] is the sign of the
    difference, and subtracting what was added gives back the value one
    started from. *)
Theorem ev_time_arithmetic (a b : timespec) :
  timespec_ok a -> timespec_ok b ->
  (timespec_ok (evAddTime a b)
   /\ timespec_nsec (evAddTime a b) = timespec_nsec a + timespec_nsec b)
  /\ (timespec_ok (evSubTime a b)
      /\ timespec_nsec (evSubTime a b) = timespec_nsec a - timespec_nsec b)
  /\ evCmpTime a b = Z.sgn (timespec_nsec a - timespec_nsec b)
  /\ evSubTime (evAddTime a b) b = a.
Proof.
  destruct a as [sa na], b as [sb nb].
  unfold timespec_ok, timespec_nsec, evAddTime, evSubTime, evCmpTime, BILLION.
  cbn [tv_sec tv_nsec]. intros Ha Hb.
  repeat split.
  - destruct (Z.leb_spec 1000000000 (na + nb)); cbn [tv_nsec]; lia.
  - destruct (Z.leb_spec 1000000000 (na + nb)); cbn [tv_nsec]; lia.
  - destruct (Z.leb_spec 1000000000 (na + nb)); cbn [tv_sec tv_nsec]; lia.
  - destruct (Z.leb_spec nb na); cbn [tv_nsec]; lia.
  - destruct (Z.leb_spec nb na); cbn [tv_nsec]; lia.
  - destruct (Z.leb_spec nb na); cbn [tv_sec tv_nsec]; lia.
  - rewrite !SGN_spec. destruct (Z.eqb_spec (sa - sb) 0); cbn [negb]; lia.
  - destruct (Z.leb_spec 1000000000 (na + nb)); cbn [tv_sec tv_nsec].
    + destruct (Z.leb_spec nb (na + nb - 1000000000)); [lia|]. f_equal; lia.
    + destruct (Z.leb_spec nb (na + nb)); [|lia]. f_equal; lia.
Qed.

Lemma ev_time_arithmetic_witness :
  evSubTime (evAddTime (mkTimespec 1700000000 900000000) (mkTimespec 2 500000000))
            (mkTimespec 2 500000000)
  = mkTimespec 1700000000 900000000.
Proof.
  refine (proj2 (proj2 (proj2 (ev_time_arithmetic (mkTimespec 1700000000 900000000)
                                 (mkTimespec 2 500000000) _ _)))).
  - unfold timespec_ok, BILLION. cbn. lia.
  - unfold timespec_ok, BILLION. cbn. lia.
Defined.

Lemma get_timeout_ok (nscount : Z) (p : res_params) (ns : Z) :
  timespec_ok (get_timeout nscount p ns)
  /\ timespec_nsec (get_timeout nscount p ns)
     = get_timeout_msec nscount p ns * 1000000.
Proof.
  unfold timespec_ok, timespec_nsec, get_timeout, BILLION. cbn [tv_sec tv_nsec].
  assert (H : 1000 <= get_timeout_msec nscount p ns).
  { unfold get_timeout_msec. cbv zeta.
    match goal with
    | |- context [?x <? 1000] => destruct (Z.ltb_spec x 1000)
    end; lia. }
  set (m := get_timeout_msec nscount p ns) in *.
  pose proof (Z.quot_rem' m 1000) as E.
  pose proof (Z.rem_bound_pos m 1000) as B.
  split; lia.
Qed.

(** X17.  The deadline of a UDP send: with [finish = evAddTime(start,
    get_timeout(...))] as [send_dg] computes it, the timeout that
    [retrying_poll] hands to [ppoll] at a reading [now] of the clock is never
    negative and stands for what is left of the timeout of the server,
    [get_timeout_msec] milliseconds less the time elapsed since [start], or
    for zero when nothing is left. *)
Theorem poll_timeout_is_time_left (nscount : Z) (p : res_params) (ns : Z)
    (start now : timespec) :
  timespec_ok start -> timespec_ok now ->
  let finish := evAddTime start (get_timeout nscount p ns) in
  let t := poll_timeout finish now in
  timespec_ok t
  /\ 0 <= tv_sec t
  /\ timespec_nsec t
     = Z.max 0 (get_timeout_msec nscount p ns * 1000000
                - (timespec_nsec now - timespec_nsec start)).
Proof.
  intros Hs Hn finish t.
  destruct (get_timeout_ok nscount p ns) as [Hok Hns].
  destruct (ev_time_arithmetic start (get_timeout nscount p ns) Hs Hok)
    as ((Hfin & Hfns) & _).
  fold finish in Hfin, Hfns.
  destruct (ev_time_arithmetic finish now Hfin Hn) as (_ & (Hsub & Hsns) & Hcmp & _).
  subst t. unfold poll_timeout. rewrite Hcmp.
  set (d := timespec_nsec finish - timespec_nsec now) in *.
  assert (Hd : d = get_timeout_msec nscount p ns * 1000000
                   - (timespec_nsec now - timespec_nsec start)) by lia.
  rewrite <- Hd.
  destruct (Z.sgn_spec d) as [[Hgt ->]|[[Hz ->]|[Hlt ->]]].
  - change (0 <? 1) with true. cbv iota.
    split; [exact Hsub|]. split; [|lia].
    unfold timespec_ok, timespec_nsec, BILLION in *. lia.
  - change (0 <? 0) with false. cbv iota.
    unfold evConsTime, timespec_ok, timespec_nsec, BILLION. cbn [tv_sec tv_nsec]. lia.
  - change (0 <? Z.opp 1) with false. cbv iota.
    unfold evConsTime, timespec_ok, timespec_nsec, BILLION. cbn [tv_sec tv_nsec]. lia.
Qed.

Lemma poll_timeout_is_time_left_witness :
  timespec_nsec
    (poll_timeout (evAddTime (mkTimespec 100 900000000)
                     (get_timeout 4 (mkParams 0 0 0 0 5000 2) 1))
                  (mkTimespec 102 0))
  = 1400000000.
Proof.
  refine (proj2 (proj2 (poll_timeout_is_time_left 4 (mkParams 0 0 0 0 5000 2) 1
                          (mkTimespec 100 900000000) (mkTimespec 102 0) _ _))).
  - unfold timespec_ok, BILLION. cbn. lia.
  - unfold timespec_ok, BILLION. cbn. lia.
Defined.

End TimeFacts.

(** ** The choice of one server *)

Module UsableFacts.
Import Send.

Lemma length_set_usable_loop (k idx : Z) (servers : list bool) :
  length (set_usable_loop k idx servers) = length servers.
Proof.
  revert idx. induction servers as [|u servers IH]; intros idx; [reflexivity|].
  cbn [set_usable_loop length]. rewrite IH. reflexivity.
Qed.

Lemma count_usable_nonneg (servers : list bool) : 0 <= count_usable servers.
Proof.
  induction servers as [|u servers IH]; cbn [count_usable]; [lia|].
  destruct u; lia.
Qed.

Lemma set_usable_loop_lookup (k idx : Z) (servers : list bool) (i : nat) :
  set_usable_loop k idx servers !! i = Some true
  <-> servers !! i = Some true /\ idx + count_usable (take (S i) servers) = k.
Proof.
  revert idx i. induction servers as [|u servers IH]; intros idx i.
  - cbn. split; [discriminate | intros [H _]; discriminate].
  - cbn [set_usable_loop]. destruct i as [|i].
    + change (take 1 (u :: servers)) with [u].
      cbn [lookup list_lookup count_usable].
      destruct u; [destruct (Z.eqb_spec (idx + 1) k) | destruct (Z.eqb_spec idx k)];
        cbn [negb]; intuition (try discriminate; try lia).
    + change ((u :: servers) !! S i) with (servers !! i).
      change (take (S (S i)) (u :: servers)) with (u :: take (S i) servers).
      cbn [lookup list_lookup count_usable]. rewrite IH.
      destruct u; split; intros [H1 H2]; split; try assumption; lia.
Qed.

Lemma set_usable_loop_count (k idx : Z) (servers : list bool) :
  count_usable (set_usable_loop k idx servers)
  = if (idx <? k) && (k <=? idx + count_usable servers) then 1 else 0.
Proof.
  revert idx. induction servers as [|u servers IH]; intros idx.
  - cbn. destruct (Z.ltb_spec idx k), (Z.leb_spec k (idx + 0)); cbn; lia.
  - cbn [set_usable_loop count_usable]. rewrite IH.
    pose proof (count_usable_nonneg servers) as Hc.
    destruct u.
    + destruct (Z.eqb_spec (idx + 1) k); cbn [negb];
        destruct (Z.ltb_spec (idx + 1) k), (Z.leb_spec k (idx + 1 + count_usable servers)),
          (Z.ltb_spec idx k), (Z.leb_spec k (idx + (1 + count_usable servers)));
        cbn [andb]; lia.
    + destruct (Z.eqb_spec idx k); cbn [negb];
        destruct (Z.ltb_spec idx k), (Z.leb_spec k (idx + count_usable servers)),
          (Z.leb_spec k (idx + (0 + count_usable servers)));
        cbn [andb]; lia.
Qed.

Lemma res_set_usable_server_lookup (selectedServer : Z) (nscount : nat)
    (usable_servers : list bool) :
  (nscount <= length usable_servers)%nat ->
  forall i : nat, (i < nscount)%nat ->
    res_set_usable_server selectedServer nscount usable_servers !! i = Some true ->
    usable_servers !! i = Some true
    /\ count_usable (take (S i) usable_servers) = selectedServer.
Proof.
  intros Hn i Hi. unfold res_set_usable_server.
  assert (Hlen : length (set_usable_loop selectedServer 0 (take nscount usable_servers))
                 = nscount).
  { rewrite length_set_usable_loop, length_take. lia. }
  rewrite lookup_app_l by lia. rewrite set_usable_loop_lookup.
  rewrite lookup_take_lt by lia. rewrite take_take.
  replace (S i `min` nscount)%nat with (S i) by lia.
  intros [H1 H2]. split; [exact H1 | lia].
Qed.

(** X18.  [res_set_usable_server] on an array of at least [nscount] flags: a
    server among the first [nscount] is usable afterwards exactly when it
    was usable before and is the [selectedServer]-th usable one (counting
    from 1); the flags from [nscount] on are untouched; and when
    [selectedServer] is between 1 and the number of usable servers, as
    [res_nsend] picks it, exactly one server is left usable. *)
Theorem res_set_usable_server_spec (selectedServer : Z) (nscount : nat)
    (usable_servers : list bool) :
  (nscount <= length usable_servers)%nat ->
  let res := res_set_usable_server selectedServer nscount usable_servers in
  length res = length usable_servers
  /\ (forall i : nat, (i < nscount)%nat ->
        (res !! i = Some true
         <-> usable_servers !! i = Some true
             /\ count_usable (take (S i) usable_servers) = selectedServer))
  /\ (forall i : nat, (nscount <= i)%nat -> res !! i = usable_servers !! i)
  /\ (1 <= selectedServer <= count_usable (take nscount usable_servers) ->
      count_usable (take nscount res) = 1).
Proof.
  intros Hn res. subst res. unfold res_set_usable_server.
  assert (Hlen : length (set_usable_loop selectedServer 0 (take nscount usable_servers))
                 = nscount).
  { rewrite length_set_usable_loop, length_take. lia. }
  split; [|split; [|split]].
  - rewrite length_app, Hlen, length_drop. lia.
  - intros i Hi. rewrite lookup_app_l by lia. rewrite set_usable_loop_lookup.
    rewrite lookup_take_lt by lia. rewrite take_take.
    replace (S i `min` nscount)%nat with (S i) by lia.
    split; intros [H1 H2]; (split; [exact H1 | lia]).
  - intros i Hi. rewrite lookup_app_r by lia. rewrite Hlen, lookup_drop.
    f_equal. lia.
  - intros [H1 H2]. rewrite take_app_length' by (symmetry; exact Hlen).
    rewrite set_usable_loop_count.
    destruct (Z.ltb_spec 0 selectedServer),
      (Z.leb_spec selectedServer (0 + count_usable (take nscount usable_servers)));
      cbn [andb]; lia.
Qed.

Lemma res_set_usable_server_spec_witness :
  res_set_usable_server 2 4 [true; false; true; true] = [false; false; true; false]
  /\ count_usable (take 4 (res_set_usable_server 2 4 [true; false; true; true])) = 1.
Proof.
  split; [reflexivity|].
  refine (proj2 (proj2 (proj2 (res_set_usable_server_spec 2 4 [true; false; true; true] _))) _).
  - cbn. lia.
  - cbn. lia.
Defined.

End UsableFacts.

(** ** The retry loop: which servers are asked, and how often *)

Module RetryBoundFacts.
Import Resolv Send RetryFacts.

Section Retry.

Variable net : nat -> net_io.
Variable use_edns : bool.
Variable tc_mode_udp_tcp : bool.
Variable nscount : Z.
Variable usable_servers : list bool.
Variable retryTimes : Z.
Variable buflen : Z.

Local Abbreviation ns_loop' :=
  (ns_loop net use_edns tc_mode_udp_tcp nscount usable_servers retryTimes buflen).
Local Abbreviation attempt_loop' :=
  (attempt_loop net use_edns tc_mode_udp_tcp nscount usable_servers retryTimes buflen).
Local Abbreviation log_ok' := (log_ok nscount usable_servers).

Lemma log_ok_snoc (st st1 : loop_state) (log : list query_event) (ns a r : Z)
    (tcp sample : bool) :
  log_ok' st log ->
  sends st1 = S (sends st) ->
  0 <= ns -> (nscount <=? ns) = false ->
  negb (nth (Z.to_nat ns) usable_servers false) = false ->
  log_ok' st1 (log ++ [mkEvent (sends st) ns a tcp r sample]).
Proof.
  intros (Hlen & Hall & Hidx) Hs Hns Hlt Hus.
  apply Z.leb_gt in Hlt. apply negb_false_iff in Hus.
  split; [|split].
  - rewrite length_app. cbn. lia.
  - apply Forall_app. split; [exact Hall|]. constructor; [|constructor].
    split; cbn [ev_ns]; [lia | exact Hus].
  - intros i ev Hi. destruct (Nat.lt_ge_cases i (length log)) as [Hlt'|Hge].
    + rewrite lookup_app_l in Hi by exact Hlt'. apply Hidx, Hi.
    + rewrite lookup_app_r in Hi by exact Hge.
      destruct (i - length log)%nat as [|k] eqn:E; cbn in Hi; [|discriminate].
      injection Hi as <-. cbn [ev_send]. lia.
Qed.

Lemma ns_loop_log_ok (fuel : nat) (ns : Z) (st : loop_state) (log : list query_event)
    (x : ns_exit) (log' : list query_event) :
  0 <= ns ->
  log_ok' st log ->
  ns_loop' fuel ns st log = Some (x, log') ->
  log_ok' (exit_state x) log'.
Proof.
  revert ns st log.
  induction fuel as [|fuel IH]; intros ns st log Hns Hinv; cbn [ns_loop]; [discriminate|].
  destruct (nscount <=? ns) eqn:Hlt; [intros [= <- <-]; exact Hinv|].
  destruct (negb (nth (Z.to_nat ns) usable_servers false)) eqn:Hus;
    [apply IH; [lia | exact Hinv]|].
  cbv zeta.
  pose proof (send_once_spec net use_edns tc_mode_udp_tcp retryTimes buflen
                (set_rcode st RCODE_INTERNAL_ERROR)) as (Hs & _).
  cbv zeta in Hs.
  destruct (send_once _ _ _ _ _ _) as [[resplen st1] fb]. cbn [fst snd] in Hs.
  change (sends (set_rcode st RCODE_INTERNAL_ERROR)) with (sends st) in *.
  pose proof (log_ok_snoc st st1 log ns (attempt st1)
                (rcode st1) (useTcp (set_rcode st RCODE_INTERNAL_ERROR))
                (attempt (set_rcode st RCODE_INTERNAL_ERROR) =? 0) Hinv Hs Hns Hlt Hus)
    as Hinv'.
  destruct (resplen =? 0); [apply IH; [lia | exact Hinv']|].
  destruct fb; [apply IH; [lia | exact Hinv']|].
  destruct (resplen <? 0); intros [= <- <-]; exact Hinv'.
Qed.

Lemma attempt_loop_log_ok (rounds : nat) (st : loop_state) (log : list query_event)
    (x : ns_exit) (log' : list query_event) :
  log_ok' st log ->
  attempt_loop' rounds st log = Some (x, log') ->
  log_ok' (exit_state x) log'.
Proof.
  revert st log.
  induction rounds as [|rounds IH]; intros st log Hinv; cbn [attempt_loop].
  - destruct (retryTimes <=? attempt st); [intros [= <- <-]; exact Hinv | discriminate].
  - destruct (retryTimes <=? attempt st); [intros [= <- <-]; exact Hinv|].
    destruct (ns_loop _ _ _ _ _ _ _ _ 0 st log) as [[y log1]|] eqn:E; [|discriminate].
    pose proof (ns_loop_log_ok _ _ _ _ _ _ (Z.le_refl 0) Hinv E) as Hinv1.
    destruct y as [resplen st1|st1|st1]; try (intros [= <- <-]; exact Hinv1).
    apply IH. exact Hinv1.
Qed.

Lemma ns_loop_sends (fuel : nat) (ns : Z) (st : loop_state) (log : list query_event)
    (x : ns_exit) (log' : list query_event) :
  ns_loop' fuel ns st log = Some (x, log') ->
  (sends (exit_state x) + 1 <= sends st + rounds_needed nscount ns st)%nat.
Proof.
  revert ns st log.
  induction fuel as [|fuel IH]; intros ns st log; cbn [ns_loop]; [discriminate|].
  unfold rounds_needed at 1.
  destruct (nscount <=? ns) eqn:Hns; [intros [= <- <-]; cbn [exit_state]; lia|].
  destruct (negb (nth (Z.to_nat ns) usable_servers false)).
  { intros H. apply IH in H.
    pose proof (rounds_needed_next nscount ns st st Hns). destruct (useTcp st); lia. }
  cbv zeta.
  pose proof (send_once_spec net use_edns tc_mode_udp_tcp retryTimes buflen
                (set_rcode st RCODE_INTERNAL_ERROR)) as (Hs & _ & Hfb & _).
  cbv zeta in Hs, Hfb.
  destruct (send_once _ _ _ _ _ _) as [[resplen st1] fb]. cbn [fst snd] in Hs, Hfb.
  change (sends (set_rcode st RCODE_INTERNAL_ERROR)) with (sends st) in *.
  change (useTcp (set_rcode st RCODE_INTERNAL_ERROR)) with (useTcp st) in *.
  apply Z.leb_gt in Hns as Hns'.
  destruct (resplen =? 0).
  { intros H. apply IH in H.
    pose proof (rounds_needed_next nscount ns st st1 Hns). destruct (useTcp st); lia. }
  destruct fb.
  - destruct (Hfb eq_refl) as [Hudp Htcp].
    replace (ns - 1 + 1) with ns by lia.
    intros H. apply IH in H. unfold rounds_needed in H.
    rewrite Hns, Htcp in H. rewrite Hudp. lia.
  - destruct (resplen <? 0); intros [= <- <-]; cbn [exit_state];
      destruct (useTcp st); lia.
Qed.

Lemma attempt_loop_sends (rounds : nat) (st : loop_state) (log : list query_event)
    (x : ns_exit) (log' : list query_event) :
  attempt_loop' rounds st log = Some (x, log') ->
  (sends (exit_state x)
   <= sends st + 2 * Z.to_nat nscount * Z.to_nat (retryTimes - attempt st))%nat.
Proof.
  revert st log.
  induction rounds as [|rounds IH]; intros st log; cbn [attempt_loop].
  - destruct (retryTimes <=? attempt st);
      [intros [= <- <-]; cbn [exit_state]; apply Nat.le_add_r | discriminate].
  - destruct (retryTimes <=? attempt st) eqn:Hr;
      [intros [= <- <-]; cbn [exit_state]; apply Nat.le_add_r|].
    apply Z.leb_gt in Hr.
    destruct (ns_loop _ _ _ _ _ _ _ _ 0 st log) as [[y log1]|] eqn:E; [|discriminate].
    pose proof (ns_loop_sends _ _ _ _ _ _ E) as Hs.
    pose proof (ns_loop_attempt _ _ _ _ _ _ _ _ _ _ _ _ _ E) as Ha.
    assert (Hy : (sends (exit_state y) <= sends st + 2 * Z.to_nat nscount)%nat).
    { unfold rounds_needed in Hs. destruct (nscount <=? 0); [lia|].
      rewrite Z.sub_0_r in Hs. destruct (useTcp st); lia. }
    assert (Hone : (2 * Z.to_nat nscount
                    <= 2 * Z.to_nat nscount * Z.to_nat (retryTimes - attempt st))%nat) by nia.
    destruct y as [resplen st1|st1|st1]; cbn [exit_state] in *;
      try (intros [= <- <-]; cbn [exit_state]; lia).
    intros H. apply IH in H. cbn [attempt sends set_attempt] in H.
    destruct Ha as [Ha|Ha]; rewrite Ha in H.
    + replace (Z.to_nat (retryTimes - (attempt st + 1)))
        with (Z.to_nat (retryTimes - attempt st) - 1)%nat in H by lia.
      nia.
    + replace (Z.to_nat (retryTimes - (retryTimes + 1))) with 0%nat in H by lia. lia.
Qed.

Lemma retry_events_ok (cache_status : ResolvCacheStatus) :
  exists r,
    res_nsend_retry net use_edns tc_mode_udp_tcp nscount usable_servers retryTimes
      buflen cache_status = Some r
    /\ Forall (event_ok nscount usable_servers) (nr_events r)
    /\ forall (i : nat) (ev : query_event), nr_events r !! i = Some ev -> ev_send ev = i.
Proof.
  destruct (res_nsend_retry_total net use_edns tc_mode_udp_tcp nscount usable_servers
              retryTimes buflen cache_status) as [r Hr].
  exists r. split; [exact Hr|].
  unfold res_nsend_retry in Hr.
  destruct (retry_loop _ _ _ _ _ _ _) as [[x log]|] eqn:E; [|discriminate].
  unfold retry_loop in E. apply attempt_loop_log_ok in E.
  2: { split; [reflexivity|]. split; [constructor|]. intros i ev H. discriminate. }
  destruct E as (_ & Hall & Hidx).
  destruct x; injection Hr as <-; cbn [nr_events]; split; assumption.
Qed.

(** X19.  Whenever the retry loop of [res_nsend] returns (the calls of
    [send_vc] it made having returned: [send_vc] reads without a deadline),
    every query event it recorded names a server below [nscount] that is
    marked usable, and the events are numbered in the order of the calls of
    [send_dg] and [send_vc]. *)
Theorem only_usable_servers_are_asked (cache_status : ResolvCacheStatus)
    (r : nsend_result) :
  res_nsend_retry net use_edns tc_mode_udp_tcp nscount usable_servers retryTimes
    buflen cache_status = Some r ->
  Forall (event_ok nscount usable_servers) (nr_events r)
  /\ forall (i : nat) (ev : query_event), nr_events r !! i = Some ev -> ev_send ev = i.
Proof.
  intros Hr. unfold res_nsend_retry in Hr.
  destruct (retry_loop _ _ _ _ _ _ _) as [[x log]|] eqn:E; [|discriminate].
  unfold retry_loop in E. apply attempt_loop_log_ok in E.
  2: { split; [reflexivity|]. split; [constructor|]. intros i ev H. discriminate. }
  destruct E as (_ & Hall & Hidx).
  destruct x; injection Hr as <-; cbn [nr_events]; split; assumption.
Qed.

(** X20.  Whenever the retry loop of [res_nsend] returns, it has called
    [send_dg] and [send_vc] at most [2 * nscount * retryTimes] times in all
    (per server and attempt one call of [send_dg] and, after a truncated
    answer, one of [send_vc]), and it recorded one query event per call.  A
    call of [send_vc] may itself transmit the query twice, after a
    connection reset. *)
Theorem calls_are_bounded (cache_status : ResolvCacheStatus) (r : nsend_result) :
  res_nsend_retry net use_edns tc_mode_udp_tcp nscount usable_servers retryTimes
    buflen cache_status = Some r ->
  (length (nr_events r) <= 2 * Z.to_nat nscount * Z.to_nat retryTimes)%nat.
Proof.
  intros Hr. unfold res_nsend_retry in Hr.
  destruct (retry_loop _ _ _ _ _ _ _) as [[x log]|] eqn:E; [|discriminate].
  unfold retry_loop in E.
  pose proof (attempt_loop_sends _ _ _ _ _ E) as Hs.
  apply attempt_loop_log_ok in E.
  2: { split; [reflexivity|]. split; [constructor|]. intros i ev H. discriminate. }
  destruct E as (Hlen & _ & _).
  cbn [sends attempt loop_start] in Hs. rewrite Z.sub_0_r in Hs.
  destruct x; injection Hr as <-; cbn [nr_events exit_state] in *; lia.
Qed.

End Retry.

Lemma only_usable_servers_are_asked_witness :
  let r := default (mkResult 0 CallNothing [])
             (res_nsend_retry net_truncated_then_refused false true 3
                [true; false; true] 2 40 RESOLV_CACHE_NOTFOUND) in
  Forall (event_ok 3 [true; false; true]) (nr_events r).
Proof.
  refine (proj1 (only_usable_servers_are_asked net_truncated_then_refused false true 3
                   [true; false; true] 2 40 RESOLV_CACHE_NOTFOUND _ _)).
  vm_compute. reflexivity.
Defined.

Lemma calls_are_bounded_witness :
  let r := default (mkResult 0 CallNothing [])
             (res_nsend_retry net_truncated_then_refused false true 3
                [true; false; true] 2 40 RESOLV_CACHE_NOTFOUND) in
  (length (nr_events r) <= 2 * 3 * 2)%nat.
Proof.
  refine (calls_are_bounded net_truncated_then_refused false true 3
            [true; false; true] 2 40 RESOLV_CACHE_NOTFOUND _ _).
  vm_compute. reflexivity.
Defined.

End RetryBoundFacts.

(** ** Strict mode, and the choice of a server under NO_RETRY *)

Module NsendFacts.
Import Resolv Send PrivateDns Nsend.

Section Nsend.

Variable getStatus_at : nat -> PrivateDnsStatus.
Variable dispatch : list DnsTlsServer -> Response.t * Z * Z.
Variable net : nat -> net_io.
Variable use_edns : bool.
Variable tc_mode_udp_tcp : bool.
Variable buflen anssiz flags : Z.
Variable query_id : Z.
Variable cache_status : ResolvCacheStatus.
Variable anslen : Z.
Variable nscount : Z.
Variable use_local_nameservers : bool.
Variable resolver_stats : Z * option (res_params * list res_stats).
Variable android_net_res_stats_get_usable_servers
  : res_params -> list res_stats -> Z -> Z * list bool.

Lemma tls_wait_spec (rounds k sleeps : nat) (status : PrivateDnsStatus) :
  (forall j, mode (getStatus_at j) = STRICT) ->
  mode status = STRICT ->
  mode (fst (tls_wait getStatus_at rounds k sleeps status)) = STRICT
  /\ (snd (tls_wait getStatus_at rounds k sleeps status) <= sleeps + rounds)%nat.
Proof.
  intros Hall. revert k sleeps.
  induction rounds as [|rounds IH]; intros k sleeps Hm; cbn [tls_wait fst snd].
  - split; [exact Hm | lia].
  - destruct (negb (empty (validatedServers (getStatus_at k)))); cbn [fst snd].
    + split; [apply Hall | lia].
    + destruct (IH (S k) (S sleeps) Hm) as [H1 H2]. split; [exact H1 | lia].
Qed.

Lemma tls_query_strict (status : PrivateDnsStatus) (sleeps : nat) :
  mode status = STRICT ->
  tls_fallback (tls_query dispatch status sleeps) = false
  /\ tls_sleeps (tls_query dispatch status sleeps) = sleeps.
Proof.
  intros Hm. unfold tls_query. rewrite Hm.
  destruct (dispatch (validatedServers status)) as [[response resplen] anrcode].
  destruct response; split; reflexivity.
Qed.

Lemma res_tls_send_strict :
  (forall j, mode (getStatus_at j) = STRICT) ->
  tls_fallback (res_tls_send getStatus_at dispatch) = false
  /\ (tls_sleeps (res_tls_send getStatus_at dispatch) <= 42)%nat.
Proof.
  intros Hall. unfold res_tls_send. cbv zeta. rewrite (Hall 0%nat).
  destruct (empty (validatedServers (getStatus_at 0))).
  - destruct (tls_wait_spec 42 1 0 (getStatus_at 0) Hall (Hall 0%nat)) as [Hm Hs].
    destruct (tls_wait getStatus_at 42 1 0 (getStatus_at 0)) as [status sleeps].
    cbn [fst snd] in Hm, Hs.
    destruct (empty (validatedServers status)); cbn [tls_fallback tls_sleeps].
    + split; [reflexivity | lia].
    + destruct (tls_query_strict status sleeps Hm) as [-> ->]. split; [reflexivity | lia].
  - destruct (tls_query_strict (getStatus_at 0) 0 (Hall 0%nat)) as [-> ->].
    split; [reflexivity | lia].
Qed.

(** X21.  A query for a network that stays in strict mode, with the local
    nameservers not asked for, an answer buffer of at least 12 bytes, no hit
    in the cache and a nameserver configured: [res_nsend] makes no cleartext
    send.  It waits at most 42 times 100 ms for a validated server, and
    either returns the answer obtained over TLS (which goes to the cache
    after a lookup that returned NOTFOUND) or returns [-ETIMEDOUT] after
    telling the cache that the query failed. *)
Theorem strict_mode_never_sends_cleartext :
  (forall j, mode (getStatus_at j) = STRICT) ->
  use_local_nameservers = false ->
  HFIXEDSZ <= anssiz ->
  cache_status <> RESOLV_CACHE_FOUND ->
  nscount <> 0 ->
  let tls := res_tls_send getStatus_at dispatch in
  tls_fallback tls = false
  /\ (tls_sleeps tls <= 42)%nat
  /\ res_nsend getStatus_at dispatch net use_edns tc_mode_udp_tcp buflen anssiz flags
       query_id cache_status anslen nscount use_local_nameservers resolver_stats
       android_net_res_stats_get_usable_servers
     = Some (if 0 <? tls_ret tls
             then mkNsend (tls_ret tls)
                    (match cache_status with
                     | RESOLV_CACHE_NOTFOUND => CallAdd (tls_ret tls)
                     | _ => CallNothing
                     end) false (Some tls) []
             else mkNsend (- ETIMEDOUT) CallQueryFailed false (Some tls) []).
Proof.
  intros Hall Hlocal Hsiz Hcache Hns tls.
  destruct (res_tls_send_strict Hall) as [Hfb Hsl]. fold tls in Hfb, Hsl.
  split; [exact Hfb|]. split; [exact Hsl|].
  unfold res_nsend. fold tls.
  replace (anssiz <? HFIXEDSZ) with false by (symmetry; apply Z.ltb_ge; exact Hsiz).
  replace (nscount =? 0) with false by (symmetry; apply Z.eqb_neq; exact Hns).
  rewrite Hlocal, Hfb. cbn [negb].
  destruct cache_status; try contradiction; destruct (0 <? tls_ret tls); reflexivity.
Qed.

(** X22.  Under [ANDROID_RESOLV_NO_RETRY], with more than one usable server
    (as many as the flags of the first [nscount] slots say) and a
    non-negative query id: every cleartext send of [res_nsend] goes to one
    and the same server, the usable server number [id % count + 1]. *)
Theorem no_retry_asks_one_server (tls : option tls_result) (rev : Z)
    (params : res_params) (stats : list res_stats) (count : Z) (usable : list bool) :
  flag_set flags ANDROID_RESOLV_NO_RETRY = true ->
  resolver_stats = (rev, Some (params, stats)) ->
  0 <= rev ->
  android_net_res_stats_get_usable_servers params stats nscount = (count, usable) ->
  1 < count ->
  count = count_usable (take (Z.to_nat nscount) usable) ->
  (Z.to_nat nscount <= length usable)%nat ->
  0 <= query_id ->
  exists out,
    res_nsend_cleartext net use_edns tc_mode_udp_tcp buflen flags query_id cache_status
      nscount resolver_stats android_net_res_stats_get_usable_servers tls = Some out
    /\ Forall (fun ev =>
                 usable !! Z.to_nat (ev_ns ev) = Some true
                 /\ count_usable (take (S (Z.to_nat (ev_ns ev))) usable)
                    = Z.rem query_id count + 1)
         (no_events out).
Proof.
  intros Hflag Hstats Hrev Husable Hcount Hc Hlen Hid.
  unfold res_nsend_cleartext. rewrite Hstats.
  replace (rev <? 0) with false by (symmetry; apply Z.ltb_ge; exact Hrev).
  rewrite Husable, Hflag.
  replace (1 <? count) with true by (symmetry; apply Z.ltb_lt; exact Hcount).
  cbn [andb].
  set (sel := Z.rem query_id count + 1).
  destruct (RetryBoundFacts.retry_events_ok net use_edns tc_mode_udp_tcp nscount
              (res_set_usable_server sel (Z.to_nat nscount) usable) 1 buflen cache_status)
    as (r & Hr & Hall & _).
  rewrite Hr. eexists. split; [reflexivity|]. cbn [no_events].
  pose proof (UsableFacts.res_set_usable_server_lookup sel (Z.to_nat nscount) usable Hlen)
    as Hspec.
  eapply Forall_impl; [exact Hall|].
  intros ev [Hns Hnth]. cbn beta.
  apply Hspec; [lia|].
  rewrite nth_lookup in Hnth.
  destruct (res_set_usable_server sel (Z.to_nat nscount) usable !! Z.to_nat (ev_ns ev))
    as [[|]|]; cbn in Hnth; congruence.
Qed.

End Nsend.

Lemma strict_mode_never_sends_cleartext_witness :
  res_nsend status_validating dispatch_network_error net_silent false false
    40 512 0 4660 RESOLV_CACHE_NOTFOUND 0 2 false (-1, None) (fun _ _ _ => (0, []))
  = Some (mkNsend (- ETIMEDOUT) CallQueryFailed false
            (Some (mkTls (-1) (Some RCODE_TIMEOUT) false 3)) []).
Proof.
  refine (proj2 (proj2 (strict_mode_never_sends_cleartext status_validating
                          dispatch_network_error net_silent false false
                          40 512 0 4660 RESOLV_CACHE_NOTFOUND 0 2 false (-1, None)
                          (fun _ _ _ => (0, [])) _ _ _ _ _))).
  - intros j. unfold status_validating. destruct (j <? 3)%nat; reflexivity.
  - reflexivity.
  - vm_compute. discriminate.
  - discriminate.
  - discriminate.
Defined.

Lemma no_retry_asks_one_server_witness :
  exists out,
    res_nsend_cleartext net_silent false false 40 1 4660 RESOLV_CACHE_NOTFOUND 2
      (2, Some (ex_params 8, [])) (fun _ _ _ => (2, [true; true])) None = Some out
    /\ Forall (fun ev =>
                 [true; true] !! Z.to_nat (ev_ns ev) = Some true
                 /\ count_usable (take (S (Z.to_nat (ev_ns ev))) [true; true])
                    = Z.rem 4660 2 + 1)
         (no_events out).
Proof.
  refine (no_retry_asks_one_server net_silent false false 40 1 4660 RESOLV_CACHE_NOTFOUND 2
            (2, Some (ex_params 8, [])) (fun _ _ _ => (2, [true; true])) None
            2 (ex_params 8) [] 2 [true; true] _ _ _ _ _ _ _ _).
  - reflexivity.
  - reflexivity.
  - lia.
  - reflexivity.
  - lia.
  - reflexivity.
  - cbn. lia.
  - lia.
Defined.

End NsendFacts.

(** ** Which datagram a UDP send accepts *)

Module DatagramFacts.
Import Resolv Send.

Lemma send_dg_wait_accepts (use_edns : bool) (events : list dg_event) (st : loop_state) :
  0 < fst (send_dg_wait use_edns events st) ->
  exists d,
    DgRecv d ∈ events
    /\ HFIXEDSZ <= d_resplen d
    /\ d_id_ok d = true /\ d_ourserver d = true /\ d_queriesmatch d = true
    /\ (d_rcode d =? SERVFAIL) || (d_rcode d =? NOTIMP) || (d_rcode d =? REFUSED) = false
    /\ if d_tc d
       then fst (send_dg_wait use_edns events st) = 1
            /\ useTcp (snd (send_dg_wait use_edns events st)) = true
       else fst (send_dg_wait use_edns events st) = d_resplen d
            /\ rcode (snd (send_dg_wait use_edns events st)) = d_rcode d.
Proof.
  revert st. induction events as [|ev events IH]; intros st; cbn [send_dg_wait fst].
  - lia.
  - assert (Hrec : forall st',
              0 < fst (send_dg_wait use_edns events st') ->
              exists d,
                DgRecv d ∈ ev :: events
                /\ HFIXEDSZ <= d_resplen d
                /\ d_id_ok d = true /\ d_ourserver d = true /\ d_queriesmatch d = true
                /\ (d_rcode d =? SERVFAIL) || (d_rcode d =? NOTIMP)
                   || (d_rcode d =? REFUSED) = false
                /\ if d_tc d
                   then fst (send_dg_wait use_edns events st') = 1
                        /\ useTcp (snd (send_dg_wait use_edns events st')) = true
                   else fst (send_dg_wait use_edns events st') = d_resplen d
                        /\ rcode (snd (send_dg_wait use_edns events st')) = d_rcode d).
    { intros st' H. destruct (IH st' H) as (d & Hin & Hd). exists d.
      split; [right; exact Hin | exact Hd]. }
    destruct ev as [| |d]; cbn [fst]; try lia.
    destruct (d_resplen d <=? 0); cbn [fst]; [lia|].
    destruct (Z.ltb_spec (d_resplen d) HFIXEDSZ); cbn [fst]; [lia|].
    destruct (d_id_ok d) eqn:Hid; cbn [negb]; [|apply Hrec].
    destruct (d_ourserver d) eqn:Hsrv; cbn [negb]; [|apply Hrec].
    destruct ((d_rcode d =? FORMERR) && use_edns); cbn [fst]; [lia|].
    destruct (d_queriesmatch d) eqn:Hqm; cbn [negb]; [|apply Hrec].
    destruct ((d_rcode d =? SERVFAIL) || (d_rcode d =? NOTIMP) || (d_rcode d =? REFUSED))
      eqn:Hrc; cbn [fst]; [lia|].
    intros _. exists d. split; [left|].
    repeat (split; [assumption|]).
    destruct (d_tc d); cbn [fst snd]; split; reflexivity.
Qed.

Section Match.

Variable dn_expand : list Z -> nat -> option (list Z * nat).
Variable ns_samename : list Z -> list Z -> Z.
Variable HAVE_SIN6_SCOPE_ID : bool.

Local Abbreviation res_nameinquery' := (res_nameinquery dn_expand ns_samename).
Local Abbreviation res_queriesmatch' := (res_queriesmatch dn_expand ns_samename).
Local Abbreviation questions' := (questions dn_expand).
Local Abbreviation same_question' := (same_question ns_samename).
Local Abbreviation res_ourserver_p' := (res_ourserver_p HAVE_SIN6_SCOPE_ID).
Local Abbreviation ourserver_match' := (ourserver_match HAVE_SIN6_SCOPE_ID).

(** [res_ourserver_p] is true exactly when one of the first [nscount]
    servers passes its test. *)
Lemma res_ourserver_p_spec (nscount : Z) (nsaddrs : list sockaddr) (sa : sockaddr) :
  res_ourserver_p' nscount nsaddrs sa = true
  <-> exists (ns : nat) (srv : sockaddr),
        (Z.of_nat ns < nscount) /\ nsaddrs !! ns = Some srv
        /\ ourserver_match' sa srv = true.
Proof.
  assert (Hex : forall f : sockaddr -> bool,
            existsb f (take (Z.to_nat nscount) nsaddrs) = true
            <-> exists (ns : nat) (srv : sockaddr),
                  (Z.of_nat ns < nscount) /\ nsaddrs !! ns = Some srv /\ f srv = true).
  { intros f. rewrite existsb_exists. split.
    - intros (srv & Hin & Hf). apply list_elem_of_In, list_elem_of_lookup_1 in Hin as [ns Hns].
      apply lookup_take_Some in Hns as [Hns Hlt].
      exists ns, srv. split; [lia|]. split; assumption.
    - intros (ns & srv & Hlt & Hns & Hf). exists srv. split; [|exact Hf].
      apply list_elem_of_In. apply (list_elem_of_lookup_2 _ ns).
      apply lookup_take_Some. split; [exact Hns | lia]. }
  unfold res_ourserver_p, ourserver_match. destruct sa; [apply Hex | apply Hex |].
  split; [discriminate|]. intros (ns & srv & _ & _ & H). discriminate.
Qed.

(** Where the questions of the packet parse, [res_nameinquery] finds a
    question exactly when one of them passes its test. *)
Lemma nameinquery_loop_spec (n : nat) (name : list Z) (type cl : Z) (msg : list Z)
    (cp : nat) (qs : list (list Z * Z * Z)) :
  questions_loop dn_expand n msg cp = Some qs ->
  nameinquery_loop dn_expand ns_samename n name type cl msg cp
  = if existsb (same_question' (name, type, cl)) qs then 1 else 0.
Proof.
  revert cp qs. induction n as [|n IH]; intros cp qs; cbn [questions_loop nameinquery_loop].
  - intros [= <-]. reflexivity.
  - destruct (dn_expand msg cp) as [[tname k]|]; [|discriminate].
    destruct (_ <? _)%nat; [discriminate|]. cbv zeta.
    destruct (questions_loop _ _ _ _) as [qs'|] eqn:E; [|discriminate].
    intros [= <-]. cbn [existsb same_question].
    destruct (_ && _); [reflexivity|]. cbn [orb]. apply IH, E.
Qed.

Lemma queriesmatch_loop_spec (n : nat) (buf1 buf2 : list Z) (cp : nat)
    (qs1 qs2 : list (list Z * Z * Z)) :
  questions_loop dn_expand n buf1 cp = Some qs1 ->
  questions' buf2 = Some qs2 ->
  queriesmatch_loop dn_expand ns_samename n buf1 buf2 cp
  = if forallb (fun q => existsb (same_question' q) qs2) qs1 then 1 else 0.
Proof.
  intros H1 H2. revert cp qs1 H1.
  induction n as [|n IH]; intros cp qs1; cbn [questions_loop queriesmatch_loop].
  - intros [= <-]. reflexivity.
  - destruct (dn_expand buf1 cp) as [[tname k]|]; [|discriminate].
    destruct (_ <? _)%nat; [discriminate|]. cbv zeta.
    destruct (questions_loop _ _ _ _) as [qs'|] eqn:E; [|discriminate].
    intros [= <-]. cbn [forallb].
    unfold res_nameinquery. rewrite (nameinquery_loop_spec _ _ _ _ _ _ _ H2).
    destruct (existsb _ qs2); cbn [andb]; [|reflexivity].
    change (1 =? 0) with false. cbv iota. apply IH, E.
Qed.

(** Two packets that are not both dynamic updates and whose questions
    parse: [res_queriesmatch] is 1 when they announce as many questions and
    every question of the first is among those of the second, and 0
    otherwise. *)
Lemma res_queriesmatch_spec (buf1 buf2 : list Z) (qs1 qs2 : list (list Z * Z * Z)) :
  HFIXEDSZ <= Z.of_nat (length buf1) -> HFIXEDSZ <= Z.of_nat (length buf2) ->
  (header_opcode buf1 =? ns_o_update) && (header_opcode buf2 =? ns_o_update) = false ->
  questions' buf1 = Some qs1 ->
  questions' buf2 = Some qs2 ->
  res_queriesmatch' buf1 buf2
  = if (header_qdcount buf1 =? header_qdcount buf2)
       && forallb (fun q => existsb (same_question' q) qs2) qs1
    then 1 else 0.
Proof.
  intros Hl1 Hl2 Hup H1 H2. unfold res_queriesmatch.
  replace (Z.of_nat (length buf1) <? HFIXEDSZ) with false by (symmetry; apply Z.ltb_ge; lia).
  replace (Z.of_nat (length buf2) <? HFIXEDSZ) with false by (symmetry; apply Z.ltb_ge; lia).
  cbn [orb]. rewrite Hup.
  destruct (header_qdcount buf1 =? header_qdcount buf2); cbn [negb andb]; [|reflexivity].
  apply (queriesmatch_loop_spec _ _ _ _ _ _ H1 H2).
Qed.

(** A format error in the question section of the answer does not make
    [res_queriesmatch] return 0: [res_nameinquery] returns -1, which the
    test [!res_nameinquery(...)] lets through. *)
Lemma res_queriesmatch_unparsable_answer (buf1 buf2 : list Z)
    (qs1 : list (list Z * Z * Z)) :
  HFIXEDSZ <= Z.of_nat (length buf1) -> HFIXEDSZ <= Z.of_nat (length buf2) ->
  (header_opcode buf1 =? ns_o_update) && (header_opcode buf2 =? ns_o_update) = false ->
  header_qdcount buf1 = header_qdcount buf2 ->
  0 < header_qdcount buf2 ->
  questions' buf1 = Some qs1 ->
  dn_expand buf2 (Z.to_nat HFIXEDSZ) = None ->
  res_queriesmatch' buf1 buf2 = 1.
Proof.
  intros Hl1 Hl2 Hup Hqd Hpos H1 Hbad. unfold res_queriesmatch.
  replace (Z.of_nat (length buf1) <? HFIXEDSZ) with false by (symmetry; apply Z.ltb_ge; lia).
  replace (Z.of_nat (length buf2) <? HFIXEDSZ) with false by (symmetry; apply Z.ltb_ge; lia).
  cbn [orb]. rewrite Hup, Hqd, Z.eqb_refl. cbn [negb].
  assert (Hni : forall name type cl, res_nameinquery' name type cl buf2 = -1).
  { intros name type cl. unfold res_nameinquery.
    destruct (Z.to_nat (header_qdcount buf2)) as [|n] eqn:E; [lia|].
    cbn [nameinquery_loop]. rewrite Hbad. reflexivity. }
  unfold questions in H1. rewrite Hqd in H1. revert H1.
  generalize (Z.to_nat HFIXEDSZ) as cp. generalize (Z.to_nat (header_qdcount buf2)) as n.
  intros n. revert qs1. induction n as [|n IH]; intros qs1 cp;
    cbn [questions_loop queriesmatch_loop]; [reflexivity|].
  destruct (dn_expand buf1 cp) as [[tname k]|]; [|discriminate].
  destruct (_ <? _)%nat; [discriminate|]. cbv zeta.
  destruct (questions_loop _ _ _ _) as [qs'|] eqn:E; [|discriminate].
  intros _. rewrite Hni. change (-1 =? 0) with false. cbv iota.
  apply (IH qs' _ E).
Qed.

Variable buf : list Z.
Variable nscount : Z.
Variable nsaddrs : list sockaddr.

Local Abbreviation datagram_of' :=
  (datagram_of dn_expand ns_samename HAVE_SIN6_SCOPE_ID buf nscount nsaddrs).
Local Abbreviation dg_event_of' :=
  (dg_event_of dn_expand ns_samename HAVE_SIN6_SCOPE_ID buf nscount nsaddrs).

(** X23.  [send_dg] returns a positive value only for a datagram that it
    received on a socket that was ready, of at least 12 bytes, with the id
    of the query, from an address that passes the test of [res_ourserver_p]
    for one of the first [nscount] servers, with an rcode that is none of
    SERVFAIL, NOTIMP, REFUSED, and for which [res_queriesmatch] did not
    return 0.  Where the query and the answer buffer are not both dynamic
    updates and the questions of both parse, this means that they announce
    as many questions and that every question of the query is among the
    questions of the answer.  If the datagram has TC set the value returned
    is 1 and the query goes to TCP; otherwise it is the length of the
    datagram, whose rcode is the rcode reported. *)
Theorem send_dg_accepts_only_matching (use_edns : bool) (set_up : dg_setup)
    (events : list dg_raw_event) (st : loop_state) :
  let io := mkDgIo set_up (dg_event_of' <$> events) in
  0 < fst (send_dg use_edns io st) ->
  set_up = DgReady
  /\ exists r,
      RawRecv r ∈ events
      /\ HFIXEDSZ <= rv_resplen r
      /\ header_id (rv_ans r) = header_id buf
      /\ (exists (ns : nat) (srv : sockaddr),
            Z.of_nat ns < nscount /\ nsaddrs !! ns = Some srv
            /\ ourserver_match' (rv_from r) srv = true)
      /\ header_rcode (rv_ans r) <> SERVFAIL
      /\ header_rcode (rv_ans r) <> NOTIMP
      /\ header_rcode (rv_ans r) <> REFUSED
      /\ res_queriesmatch' buf (rv_ans r) <> 0
      /\ (forall qs1 qs2,
            HFIXEDSZ <= Z.of_nat (length buf) ->
            HFIXEDSZ <= Z.of_nat (length (rv_ans r)) ->
            (header_opcode buf =? ns_o_update)
            && (header_opcode (rv_ans r) =? ns_o_update) = false ->
            questions' buf = Some qs1 ->
            questions' (rv_ans r) = Some qs2 ->
            header_qdcount buf = header_qdcount (rv_ans r)
            /\ forall q, q ∈ qs1 -> exists q', q' ∈ qs2 /\ same_question' q q' = true)
      /\ if header_tc (rv_ans r)
         then fst (send_dg use_edns io st) = 1
              /\ useTcp (snd (send_dg use_edns io st)) = true
         else fst (send_dg use_edns io st) = rv_resplen r
              /\ rcode (snd (send_dg use_edns io st)) = header_rcode (rv_ans r).
Proof.
  intros io H. unfold send_dg in *. subst io. cbn [dg_set_up dg_events] in *.
  destruct set_up; cbn [fst] in H; try lia.
  split; [reflexivity|].
  destruct (send_dg_wait_accepts _ _ _ H)
    as (d & Hin & Hlen & Hid & Hsrv & Hqm & Hrc & Hres).
  apply list_elem_of_fmap in Hin as (ev & Hev & Hin).
  destruct ev as [| |r]; try discriminate. injection Hev as ->.
  exists r. split; [exact Hin|]. cbn [datagram_of d_resplen d_id_ok d_ourserver d_rcode
                                      d_queriesmatch d_tc] in *.
  split; [exact Hlen|].
  split; [apply Z.eqb_eq in Hid; congruence|].
  split; [apply res_ourserver_p_spec, Hsrv|].
  apply orb_false_iff in Hrc as [Hrc Hrc3]. apply orb_false_iff in Hrc as [Hrc1 Hrc2].
  apply Z.eqb_neq in Hrc1, Hrc2, Hrc3.
  repeat (split; [assumption|]).
  apply negb_true_iff, Z.eqb_neq in Hqm.
  split; [exact Hqm|]. split; [|exact Hres].
  intros qs1 qs2 Hl1 Hl2 Hup H1 H2.
  rewrite (res_queriesmatch_spec _ _ _ _ Hl1 Hl2 Hup H1 H2) in Hqm.
  destruct (Z.eqb_spec (header_qdcount buf) (header_qdcount (rv_ans r))) as [Hqd|];
    cbn [andb] in Hqm; [|congruence].
  split; [exact Hqd|].
  destruct (forallb _ qs1) eqn:Hall; [|congruence].
  intros q Hq. apply list_elem_of_In in Hq.
  pose proof (proj1 (forallb_forall _ _) Hall q Hq) as Hex.
  apply existsb_exists in Hex as (q' & Hq' & Hsame).
  exists q'. split; [apply list_elem_of_In, Hq' | exact Hsame].
Qed.

End Match.

Lemma send_dg_accepts_only_matching_witness :
  let io := mkDgIo DgReady
              (dg_event_of dn_expand_labels ns_samename_bytes true example_query 2
                 [sockaddr_in 53 134743044; sockaddr_in 53 134744072]
               <$> [RawRecv ex_received]) in
  fst (send_dg false io (loop_start 33)) = rv_resplen ex_received.
Proof.
  pose proof (send_dg_accepts_only_matching dn_expand_labels ns_samename_bytes true
                example_query 2 [sockaddr_in 53 134743044; sockaddr_in 53 134744072]
                false DgReady [RawRecv ex_received] (loop_start 33)) as H.
  cbv zeta in H. destruct H as (_ & r & Hin & _ & _ & _ & _ & _ & _ & _ & _ & Hres).
  - vm_compute. reflexivity.
  - apply list_elem_of_singleton in Hin. injection Hin as ->.
    exact (proj1 Hres).
Defined.

End DatagramFacts.

(** ** The tracker: outcomes of a validation, and what a configuration
       leaves in it *)

Module TrackerFacts.
Import PrivateDns PrivateDnsFacts.

Section Tracker.

Variable same_key : DnsTlsServer -> DnsTlsServer -> bool.
Variable listeners : nat.
Variable parseServer : string -> option (list Z).
Variable kDotConnectTimeoutMs : Z.
Variable resolv_stats_set_servers_for_dot : Z -> list string -> Z.

Local Abbreviation find := (tracker_find same_key).
Local Abbreviation assign := (tracker_assign same_key).
Local Abbreviation record := (recordPrivateDnsValidation same_key listeners).
Local Abbreviation set' :=
  (set_config same_key parseServer kDotConnectTimeoutMs resolv_stats_set_servers_for_dot).

Lemma find_assign_found (tracker : PrivateDnsTracker) (server k : DnsTlsServer)
    (v v' : Validation.t) :
  find tracker server = Some (k, v) ->
  find (assign tracker server v') server = Some (k, v')
  /\ fst <$> assign tracker server v' = fst <$> tracker.
Proof.
  induction tracker as [|[k0 v0] tracker IH]; cbn [tracker_find tracker_assign];
    [discriminate|].
  destruct (same_key k0 server) eqn:E.
  - intros [= <- <-]. cbn [tracker_find fmap list_fmap fst]. rewrite E. split; reflexivity.
  - intros H. destruct (IH H) as [H1 H2]. cbn [tracker_find fmap list_fmap fst].
    rewrite E. split; [exact H1 | f_equal; exact H2].
Qed.

(** X24.  A validation outcome recorded for a server that the tracker still
    holds unchanged: success marks it [success], failure marks it
    [in_process] in strict mode (and the validation is to be repeated) and
    [fail] otherwise; no server is added to or removed from the tracker, the
    modes are as before, and every listener gets one event with the
    outcome. *)
Theorem record_outcome (cfg : PrivateDnsConfiguration) (server k : DnsTlsServer)
    (netId : Z) (success : bool) (tracker : PrivateDnsTracker) (mode : PrivateDnsMode)
    (v : Validation.t) :
  mPrivateDnsTransports cfg !! netId = Some tracker ->
  mPrivateDnsModes cfg !! netId = Some mode ->
  find tracker server = Some (k, v) ->
  server_eqb k server = true ->
  let strict := match mode with STRICT => true | _ => false end in
  let v' := if success then Validation.success
            else if strict then Validation.in_process else Validation.fail in
  let cfg' := fst (record cfg server netId success) in
  snd (record cfg server netId success) = negb success && strict
  /\ find (tracker_of cfg' netId) server = Some (k, v')
  /\ fst <$> tracker_of cfg' netId = fst <$> tracker
  /\ mPrivateDnsModes cfg' = mPrivateDnsModes cfg
  /\ sent_events cfg'
     = sent_events cfg
       ++ replicate listeners (mkValidationEvent netId (ss server) (name server) success).
Proof.
  intros Ht Hm Hf Heq strict v' cfg'. subst cfg'.
  unfold recordPrivateDnsValidation. rewrite Ht, Hm, Hf, Heq. cbn [negb].
  unfold tracker_of, NEEDS_REEVALUATION, DONT_REEVALUATE.
  assert (E : (if success
               then assign tracker server Validation.success
               else assign tracker server
                      (if (if success || negb strict then false else true)
                       then Validation.in_process else Validation.fail))
              = assign tracker server v').
  { subst v'. destruct success, strict; reflexivity. }
  fold strict. rewrite E. cbn [fst snd mPrivateDnsTransports mPrivateDnsModes sent_events].
  rewrite lookup_insert_eq. cbn [default].
  destruct (find_assign_found tracker server k v v' Hf) as [H1 H2].
  repeat split; try assumption.
  destruct success, strict; reflexivity.
Qed.

Lemma server_eqb_refl (s : DnsTlsServer) : server_eqb s s = true.
Proof. unfold server_eqb. rewrite !bool_decide_eq_true_2; reflexivity. Qed.

Lemma server_eqb_fields (a b : DnsTlsServer) :
  server_eqb a b = true -> ss a = ss b /\ name a = name b /\ certificate a = certificate b.
Proof.
  unfold server_eqb. intros H.
  apply andb_true_iff in H as [H H3]. apply andb_true_iff in H as [H1 H2].
  apply bool_decide_eq_true in H1, H2, H3. auto.
Qed.

Lemma elem_of_set_insert (s x : DnsTlsServer) (l : list DnsTlsServer) :
  x ∈ set_insert s l -> x = s \/ x ∈ l.
Proof.
  induction l as [|y l IH]; cbn [set_insert].
  - intros H. apply list_elem_of_singleton in H. left. exact H.
  - destruct (server_eqb y s); [right; assumption|].
    intros H. apply elem_of_cons in H as [->|H]; [right; left|].
    destruct (IH H) as [->|H']; [left; reflexivity | right; right; exact H'].
Qed.

Lemma set_insert_keeps (s x : DnsTlsServer) (l : list DnsTlsServer) :
  x ∈ l -> x ∈ set_insert s l.
Proof.
  induction l as [|y l IH]; cbn [set_insert]; [intros H; inversion H|].
  destruct (server_eqb y s); [trivial|].
  intros H. apply elem_of_cons in H as [->|H]; [left | right; apply IH, H].
Qed.

Lemma set_insert_has (s : DnsTlsServer) (l : list DnsTlsServer) :
  exists x, x ∈ set_insert s l /\ server_eqb x s = true.
Proof.
  induction l as [|y l IH]; cbn [set_insert].
  - exists s. split; [left | apply server_eqb_refl].
  - destruct (server_eqb y s) eqn:E.
    + exists y. split; [left | exact E].
    + destruct IH as (x & Hx & Hs). exists x. split; [right; exact Hx | exact Hs].
Qed.

Lemma tls_servers_sound (mk : list Z -> DnsTlsServer) (parsed : list (list Z))
    (acc : list DnsTlsServer) (x : DnsTlsServer) :
  x ∈ fold_left (fun acc addr => set_insert (mk addr) acc) parsed acc ->
  x ∈ acc \/ exists addr, addr ∈ parsed /\ x = mk addr.
Proof.
  revert acc. induction parsed as [|a parsed IH]; intros acc; cbn [fold_left];
    [left; assumption|].
  intros H. destruct (IH _ H) as [Hx|(addr & Ha & ->)].
  - apply elem_of_set_insert in Hx as [->|Hx]; [|left; exact Hx].
    right. exists a. split; [left | reflexivity].
  - right. exists addr. split; [right; exact Ha | reflexivity].
Qed.

Lemma tls_servers_keeps (mk : list Z -> DnsTlsServer) (parsed : list (list Z))
    (acc : list DnsTlsServer) (x : DnsTlsServer) :
  x ∈ acc -> x ∈ fold_left (fun acc addr => set_insert (mk addr) acc) parsed acc.
Proof.
  revert acc. induction parsed as [|a parsed IH]; intros acc H; cbn [fold_left];
    [exact H|].
  apply IH, set_insert_keeps, H.
Qed.

Lemma tls_servers_complete (mk : list Z -> DnsTlsServer) (parsed : list (list Z))
    (acc : list DnsTlsServer) (addr : list Z) :
  addr ∈ parsed ->
  exists x, x ∈ fold_left (fun acc addr => set_insert (mk addr) acc) parsed acc
            /\ server_eqb x (mk addr) = true.
Proof.
  revert acc. induction parsed as [|a parsed IH]; intros acc H; [inversion H|].
  cbn [fold_left]. apply elem_of_cons in H as [->|H]; [|apply IH, H].
  destruct (set_insert_has (mk a) acc) as (x & Hx & Hs).
  exists x. split; [apply tls_servers_keeps, Hx | exact Hs].
Qed.

Lemma elem_of_assign (tracker : PrivateDnsTracker) (server k : DnsTlsServer)
    (v x : Validation.t) :
  (k, x) ∈ assign tracker server v ->
  k = server \/ exists x', (k, x') ∈ tracker.
Proof.
  induction tracker as [|[k0 v0] tracker IH]; cbn [tracker_assign].
  - intros H. apply list_elem_of_singleton in H. left. congruence.
  - destruct (same_key k0 server).
    + intros H. apply elem_of_cons in H as [H|H].
      * right. exists v0. injection H as -> _. left.
      * right. exists x. right. exact H.
    + intros H. apply elem_of_cons in H as [H|H].
      * right. exists x. rewrite H. left.
      * destruct (IH H) as [->|(x' & Hx')]; [left; reflexivity|].
        right. exists x'. right. exact Hx'.
Qed.

Lemma find_assign_is_Some (tracker : PrivateDnsTracker) (server s : DnsTlsServer)
    (v : Validation.t) :
  is_Some (find tracker s) -> is_Some (find (assign tracker server v) s).
Proof.
  induction tracker as [|[k0 v0] tracker IH]; cbn [tracker_find tracker_assign].
  - intros [? H]. discriminate.
  - destruct (same_key k0 server); cbn [tracker_find];
      destruct (same_key k0 s); try (intros _; eexists; reflexivity); try trivial.
Qed.

Lemma find_assign_same (tracker : PrivateDnsTracker) (server : DnsTlsServer)
    (v : Validation.t) :
  same_key server server = true -> is_Some (find (assign tracker server v) server).
Proof.
  intros Hrefl. induction tracker as [|[k0 v0] tracker IH]; cbn [tracker_assign].
  - cbn [tracker_find]. rewrite Hrefl. eexists. reflexivity.
  - destruct (same_key k0 server) eqn:E; cbn [tracker_find]; rewrite E;
      [eexists; reflexivity | exact IH].
Qed.

Lemma existsb_server (k : DnsTlsServer) (l : list DnsTlsServer) :
  existsb (server_eqb k) l = true <-> exists s, s ∈ l /\ server_eqb k s = true.
Proof.
  rewrite existsb_exists. split; intros (s & Hs & He); exists s; split; try assumption;
    apply list_elem_of_In; assumption.
Qed.

Local Abbreviation validate_step :=
  (fun tracker server =>
     if needsValidation same_key tracker server
     then validatePrivateDnsProvider same_key tracker server else tracker).

Lemma validate_fold_keys (tls l : list DnsTlsServer) (t : PrivateDnsTracker) :
  (forall s, s ∈ l -> s ∈ tls) ->
  (forall k v, (k, v) ∈ t -> existsb (server_eqb k) tls = true) ->
  forall k v, (k, v) ∈ fold_left validate_step l t -> existsb (server_eqb k) tls = true.
Proof.
  revert t. induction l as [|s l IH]; intros t Hl Ht; cbn [fold_left]; [exact Ht|].
  apply IH; [intros s' Hs'; apply Hl; right; exact Hs'|].
  intros k v. destruct (needsValidation same_key t s); [|apply Ht].
  unfold validatePrivateDnsProvider. intros H.
  apply elem_of_assign in H as [->|(x' & Hx')]; [|eapply Ht; exact Hx'].
  apply existsb_server. exists s. split; [apply Hl; left | apply server_eqb_refl].
Qed.

Lemma validate_fold_found (l : list DnsTlsServer) (t : PrivateDnsTracker) :
  (forall s, same_key s s = true) ->
  (forall s, is_Some (find t s) -> is_Some (find (fold_left validate_step l t) s))
  /\ (forall s, s ∈ l -> is_Some (find (fold_left validate_step l t) s)).
Proof.
  intros Hrefl. revert t. induction l as [|a l IH]; intros t; cbn [fold_left].
  - split; [trivial | intros s H; inversion H].
  - destruct (IH (validate_step t a)) as [IH1 IH2].
    assert (Hkeep : forall s, is_Some (find t s) -> is_Some (find (validate_step t a) s)).
    { intros s Hs. cbn beta. destruct (needsValidation same_key t a); [|exact Hs].
      apply find_assign_is_Some, Hs. }
    split.
    + intros s Hs. apply IH1, Hkeep, Hs.
    + intros s Hs. apply elem_of_cons in Hs as [->|Hs]; [|apply IH2, Hs].
      apply IH1. cbn beta. unfold needsValidation.
      destruct (find t a) as [[k v]|] eqn:E.
      * destruct v; try (rewrite E; eexists; reflexivity); apply find_assign_same, Hrefl.
      * apply find_assign_same, Hrefl.
Qed.

(** X25.  After [PrivateDnsConfiguration::set] with a hostname or at least
    one server (the addresses parsing): the mode is STRICT when a hostname
    is given and OPPORTUNISTIC otherwise; every server the tracker holds has
    one of the requested addresses, the requested hostname and the requested
    certificate; and, the comparator of the tracker being reflexive, every
    requested server is found in the tracker. *)
Theorem set_config_tracks_requested (netId : Z) (servers : list string)
    (hostname caCert : string) (connectTimeoutMs : Z) (cfg : PrivateDnsConfiguration)
    (parsed : list (list Z)) :
  (forall s, same_key s s = true) ->
  mapM parseServer servers = Some parsed ->
  hostname <> EmptyString \/ parsed <> [] ->
  let cfg' := fst (set' netId servers hostname caCert connectTimeoutMs cfg) in
  let timeout := if 0 <? connectTimeoutMs
                 then (if connectTimeoutMs <? 1000 then 1000 else connectTimeoutMs)
                 else kDotConnectTimeoutMs in
  mPrivateDnsModes cfg' !! netId
  = Some (if bool_decide (hostname = EmptyString) then OPPORTUNISTIC else STRICT)
  /\ (forall k v, (k, v) ∈ tracker_of cfg' netId ->
        ss k ∈ parsed /\ name k = hostname /\ certificate k = caCert)
  /\ (forall addr, addr ∈ parsed ->
        is_Some (find (tracker_of cfg' netId) (mkServer addr hostname caCert timeout))).
Proof.
  intros Hrefl Hmap Hsome cfg' timeout. subst cfg'.
  unfold set_config. rewrite Hmap. fold timeout.
  set (mk := fun addr => mkServer addr hostname caCert timeout).
  set (tls := fold_left (fun acc addr => set_insert (mkServer addr hostname caCert timeout) acc)
                parsed []).
  assert (Hsound : forall x, x ∈ tls -> x ∈ [] \/ exists addr, addr ∈ parsed /\ x = mk addr)
    by exact (tls_servers_sound mk parsed []).
  assert (Hcomplete : forall addr, addr ∈ parsed ->
                        exists x, x ∈ tls /\ server_eqb x (mk addr) = true)
    by exact (tls_servers_complete mk parsed []).
  assert (Hmk : forall s, s ∈ tls -> exists addr, addr ∈ parsed /\ s = mk addr).
  { intros s Hs. destruct (Hsound s Hs) as [H|H]; [inversion H | exact H]. }
  assert (Hcond : negb (bool_decide (hostname = EmptyString))
                  || negb (bool_decide (tls = [])) = true).
  { destruct Hsome as [Hh|Hp].
    - rewrite bool_decide_eq_false_2 by exact Hh. reflexivity.
    - apply orb_true_iff. right. apply negb_true_iff, bool_decide_eq_false.
      destruct parsed as [|a parsed']; [contradiction|].
      destruct (Hcomplete a) as (x & Hx & _); [left|].
      intros E. rewrite E in Hx. inversion Hx. }
  rewrite Hcond. cbn [fst mPrivateDnsModes mPrivateDnsTransports].
  unfold tracker_of. cbn [mPrivateDnsTransports]. rewrite !lookup_insert_eq. cbn [default].
  set (t1 := filter _ _).
  split; [|split].
  - destruct (bool_decide (hostname = EmptyString)); reflexivity.
  - intros k v Hkv.
    assert (He : existsb (server_eqb k) tls = true).
    { eapply (validate_fold_keys tls tls t1); [trivial| |exact Hkv].
      intros k' v' H'. subst t1. apply list_elem_of_filter in H' as [H' _]. exact H'. }
    apply existsb_server in He as (s & Hs & He).
    destruct (Hmk s Hs) as (addr & Ha & ->).
    apply server_eqb_fields in He as (H1 & H2 & H3). cbn in H1, H2, H3.
    rewrite H1. auto.
  - intros addr Ha.
    destruct (validate_fold_found tls t1 Hrefl) as [_ Hfound].
    apply Hfound.
    destruct (Hcomplete addr Ha) as (x & Hx & He).
    destruct (Hmk x Hx) as (addr' & _ & ->).
    apply server_eqb_fields in He as (H1 & _). cbn in H1. subst addr'. exact Hx.
Qed.

(** X26.  Once the network was cleared, or private DNS was turned off for
    it by a configuration without hostname and without servers, the status
    of the network is mode OFF with no server, and an outcome that a
    validation thread still records changes nothing and asks for no
    re-evaluation. *)
Theorem outcome_after_clear_or_off (cfg : PrivateDnsConfiguration) (server : DnsTlsServer)
    (netId : Z) (success : bool) (caCert : string) (connectTimeoutMs : Z) :
  let cleared := clear netId cfg in
  let off := fst (set' netId [] EmptyString caCert connectTimeoutMs cfg) in
  (getStatus netId cleared = (OFF, [])
   /\ record cleared server netId success = (cleared, false))
  /\ (snd (set' netId [] EmptyString caCert connectTimeoutMs cfg)  = 0
      /\ getStatus netId off = (OFF, [])
      /\ record off server netId success = (off, false)).
Proof.
  cbv zeta. split.
  - unfold getStatus, recordPrivateDnsValidation, clear.
    cbn [mPrivateDnsModes mPrivateDnsTransports]. rewrite !lookup_delete_eq.
    split; reflexivity.
  - unfold set_config. cbn [mapM fold_left]. cbn [mret option_ret].
    rewrite !bool_decide_eq_true_2 by reflexivity. cbn [negb orb fst snd].
    unfold getStatus, recordPrivateDnsValidation.
    cbn [mPrivateDnsModes mPrivateDnsTransports].
    rewrite lookup_insert_eq, !lookup_delete_eq. repeat split; reflexivity.
Qed.

End Tracker.

Lemma record_outcome_witness :
  tracker_find same_address
    (tracker_of (fst (ex_record cfg_validating server_a 30 true)) 30) server_a
  = Some (server_a, Validation.success).
Proof.
  refine (proj1 (proj2 (record_outcome same_address 1 cfg_validating server_a server_a
                          30 true [(server_a, Validation.in_process)] OPPORTUNISTIC
                          Validation.in_process _ _ _ _))).
  - vm_compute. reflexivity.
  - vm_compute. reflexivity.
  - vm_compute. reflexivity.
  - vm_compute. reflexivity.
Defined.

Lemma set_config_tracks_requested_witness :
  mPrivateDnsModes cfg_validating !! 30 = Some OPPORTUNISTIC.
Proof.
  refine (proj1 (set_config_tracks_requested same_address Resolv.parse_quad 127000
                   (fun _ _ => 0) 30 ["1.1.1.1"]%string EmptyString EmptyString 0
                   config_empty [[1; 1; 1; 1]] _ _ _)).
  - intros s. unfold same_address. apply bool_decide_eq_true_2. reflexivity.
  - reflexivity.
  - right. discriminate.
Defined.

End TrackerFacts.

(** ** The hash table and the MRU list; eviction
       (res_cache.cpp, lines 1017-1144 and 1249-1309) *)

Module TableFacts.
Import Packet Cache Resolv CacheFacts ResolvFacts FingerprintFacts.

Lemma alter_middle {A} (f : A -> A) (l : list A) (i : nat) (x : A) :
  l !! i = Some x -> alter f i l = take i l ++ f x :: drop (S i) l.
Proof.
  revert i. induction l as [|y l IH]; intros [|i]; cbn; try discriminate.
  - intros [= ->]. rewrite drop_0. reflexivity.
  - intros H. rewrite (IH i H). reflexivity.
Qed.

Lemma concat_middle {A} (l : list (list A)) (i : nat) (x : list A) :
  l !! i = Some x -> concat l = concat (take i l) ++ x ++ concat (drop (S i) l).
Proof.
  intros H. rewrite <- (take_drop_middle l i x H) at 1.
  rewrite concat_app. reflexivity.
Qed.

Lemma concat_alter {A} (f : list A -> list A) (l : list (list A)) (i : nat) (x : list A) :
  l !! i = Some x ->
  concat (alter f i l) = concat (take i l) ++ f x ++ concat (drop (S i) l).
Proof.
  intros H. rewrite (alter_middle f l i x H), concat_app. reflexivity.
Qed.

Lemma entry_equals_sym (e1 e2 : Entry) : entry_equals e2 e1 = entry_equals e1 e2.
Proof.
  unfold entry_equals. rewrite (Nat.eqb_sym (length (e_query e2))).
  destruct (negb _); [reflexivity | apply isEqualQuery_sym].
Qed.

Lemma matches_sym (e1 e2 : Entry) : matches e2 e1 = matches e1 e2.
Proof.
  unfold matches. rewrite (Z.eqb_sym (e_hash e1)), entry_equals_sym. reflexivity.
Qed.

Lemma matches_self (e : Entry) : matches e e = entry_equals e e.
Proof. unfold matches. rewrite Z.eqb_refl. reflexivity. Qed.

(** Only the hash and the query of the key count in a match. *)
Lemma matches_key (k k' x : Entry) :
  e_hash k' = e_hash k -> e_query k' = e_query k -> matches k' x = matches k x.
Proof. unfold matches, entry_equals. intros -> ->. reflexivity. Qed.

Lemma matches_node (k x x' : Entry) :
  e_hash x' = e_hash x -> e_query x' = e_query x -> matches k x' = matches k x.
Proof. unfold matches, entry_equals. intros -> ->. reflexivity. Qed.

Lemma chain_find_none (key : Entry) (chain : list Entry) :
  chain_find key chain = length chain <-> Forall (fun x => matches key x = false) chain.
Proof.
  induction chain as [|x chain IH]; cbn [chain_find length].
  - split; [constructor | reflexivity].
  - fold (matches key x). destruct (matches key x) eqn:E.
    + split; [discriminate|]. intros H. inversion H; congruence.
    + split.
      * intros H. constructor; [exact E|]. apply IH. lia.
      * intros H. inversion H; subst. f_equal. apply IH. assumption.
Qed.

Lemma chain_find_at (key e : Entry) (chain : list Entry) (p : nat) :
  chain !! p = Some e ->
  (forall i x, (i < p)%nat -> chain !! i = Some x -> matches key x = false) ->
  matches key e = true ->
  chain_find key chain = p.
Proof.
  revert p. induction chain as [|x chain IH]; intros p Hp Hpre He; [discriminate|].
  cbn [chain_find]. fold (matches key x). destruct p as [|p].
  - injection Hp as ->. rewrite He. reflexivity.
  - rewrite (Hpre O x) by (lia || reflexivity).
    f_equal. apply IH; [exact Hp | | exact He].
    intros i y Hi Hy. apply (Hpre (S i) y); [lia | exact Hy].
Qed.

Lemma mru_remove_Permutation (e : Entry) (mru : list Entry) :
  NoDup (e_id <$> mru) -> e ∈ mru -> mru ≡ₚ e :: entry_mru_remove e mru.
Proof.
  induction mru as [|x mru IH]; cbn [entry_mru_remove fmap list_fmap].
  - intros _ H. inversion H.
  - intros Hnd Hin. apply NoDup_cons in Hnd as [Hx Hnd].
    destruct (Z.eqb_spec (e_id x) (e_id e)) as [Heq|Hne].
    + apply elem_of_cons in Hin as [->|Hin]; [reflexivity|].
      exfalso. apply Hx. rewrite Heq. apply list_elem_of_fmap. exists e. auto.
    + apply elem_of_cons in Hin as [->|Hin]; [congruence|].
      rewrite (IH Hnd Hin) at 1. apply Permutation_swap.
Qed.


Lemma deref_chain (c : Cache) (lookup : lookup_ref) (e : Entry) :
  deref c lookup = Some e ->
  exists chain, entries c !! lk_bucket lookup = Some chain
                /\ chain !! lk_pos lookup = Some e.
Proof.
  unfold deref, chain_at. intros H.
  destruct (entries c !! lk_bucket lookup) as [chain|]; cbn [default] in H;
    [|discriminate].
  exists chain. split; [reflexivity | exact H].
Qed.

Lemma chain_elem_of (c : Cache) (index : nat) (chain : list Entry) (e : Entry) :
  entries c !! index = Some chain -> e ∈ chain -> e ∈ concat (entries c).
Proof.
  intros Hchain He. rewrite (concat_middle _ _ _ Hchain), !elem_of_app. auto.
Qed.

Lemma deref_stored (c : Cache) (lookup : lookup_ref) (e : Entry) :
  table_ok c -> deref c lookup = Some e -> e ∈ mru_list c.
Proof.
  intros (_ & Hperm & _) H. apply deref_chain in H as (chain & Hchain & He).
  rewrite <- Hperm. eapply chain_elem_of; [exact Hchain|].
  eapply list_elem_of_lookup_2. exact He.
Qed.

Lemma chain_ok_nil (max : Z) (index : nat) : chain_ok max index [].
Proof. split; [constructor|]. intros i j e1 e2 _ H. discriminate. Qed.

Lemma chain_ok_delete (max : Z) (index : nat) (chain : list Entry) (p : nat) :
  chain_ok max index chain -> chain_ok max index (delete p chain).
Proof.
  intros [Hb Hsep]. split.
  - rewrite Forall_forall in *. intros x Hx. apply Hb.
    eapply elem_of_sublist; [exact Hx | apply sublist_delete].
  - intros i j e1 e2 Hij H1 H2.
    destruct (decide (i < p)%nat); destruct (decide (j < p)%nat).
    + rewrite list_lookup_delete_lt in H1, H2 by assumption.
      exact (Hsep i j e1 e2 Hij H1 H2).
    + rewrite list_lookup_delete_lt in H1 by assumption.
      rewrite list_lookup_delete_ge in H2 by lia.
      apply (Hsep i (S j) e1 e2); [lia | assumption..].
    + lia.
    + rewrite list_lookup_delete_ge in H1, H2 by lia.
      apply (Hsep (S i) (S j) e1 e2); [lia | assumption..].
Qed.

Lemma table_ok_create : table_ok resolv_cache_create.
Proof.
  unfold table_ok, resolv_cache_create.
  cbn [num_entries mru_list entries last_id max_entries length fmap list_fmap].
  split; [reflexivity|]. split.
  { generalize (Z.to_nat CONFIG_MAX_ENTRIES). intros n.
    induction n as [|n IH]; [reflexivity | exact IH]. }
  split; [constructor|]. split; [constructor|].
  intros index chain H. apply lookup_replicate in H as [-> _]. apply chain_ok_nil.
Qed.

Lemma table_ok_set_pending (c : Cache) (l : list Z) :
  table_ok c -> table_ok (set_pending c l).
Proof. intros H. exact H. Qed.

Lemma table_ok_flush (c : Cache) : table_ok (fst (cache_flush_locked c)).
Proof.
  unfold table_ok, cache_flush_locked, cache_flush_pending_requests_locked.
  cbn [fst num_entries mru_list entries last_id max_entries set_pending length].
  split; [reflexivity|]. split.
  { generalize (entries c). intros l.
    induction l as [|x l IH]; [reflexivity | exact IH]. }
  split; [constructor|]. split; [constructor|].
  intros index chain H. apply list_lookup_fmap_Some in H as (x & -> & _).
  apply chain_ok_nil.
Qed.

Lemma table_ok_remove_p (c : Cache) (lookup : lookup_ref) :
  table_ok c -> table_ok (_cache_remove_p c lookup).
Proof.
  intros Hok. unfold _cache_remove_p.
  destruct (deref c lookup) as [e|] eqn:He; [|exact Hok].
  pose proof (deref_stored c lookup e Hok He) as Hin.
  destruct Hok as (Hn & Hperm & Hnd & Hid & Hch).
  apply deref_chain in He as (chain & Hchain & He).
  pose proof (mru_remove_Permutation e _ Hnd Hin) as Hm.
  assert (Hc : concat (entries c)
               ≡ₚ e :: concat (alter (delete (lk_pos lookup)) (lk_bucket lookup)
                                 (entries c))).
  { rewrite (concat_alter _ _ _ _ Hchain), (concat_middle _ _ _ Hchain).
    rewrite (delete_Permutation chain _ e He) at 1.
    cbn [app]. symmetry. apply Permutation_middle. }
  unfold table_ok. cbn [num_entries mru_list entries last_id max_entries].
  split. { apply Permutation_length in Hm. cbn [length] in Hm. lia. }
  split. { apply (Permutation_cons_inv (a := e)). rewrite <- Hc, Hperm. exact Hm. }
  split.
  { rewrite Hm in Hnd. cbn [fmap list_fmap] in Hnd.
    apply NoDup_cons in Hnd. tauto. }
  split. { rewrite Hm in Hid. inversion Hid; assumption. }
  intros index chain' H. destruct (decide (index = lk_bucket lookup)) as [->|Hne].
  - rewrite list_lookup_alter_eq, Hchain in H. cbn in H. injection H as <-.
    apply chain_ok_delete, (Hch _ _ Hchain).
  - rewrite list_lookup_alter_ne in H by congruence. apply (Hch _ _ H).
Qed.

Lemma table_ok_remove_oldest (c : Cache) :
  table_ok c -> table_ok (_cache_remove_oldest c).
Proof.
  intros H. unfold _cache_remove_oldest. cbv zeta.
  destruct (deref c (_cache_lookup_p c (mru_oldest c)));
    [apply table_ok_remove_p|]; exact H.
Qed.

Lemma table_ok_remove_expired_loop (now : Z) (es : list Entry) (c : Cache) :
  table_ok c -> table_ok (remove_expired_loop now es c).
Proof.
  revert c.
  induction es as [|e es IH]; intros c H; cbn [remove_expired_loop]; [exact H|].
  destruct (e_expires e <=? now); [|apply IH; exact H].
  destruct (deref c (_cache_lookup_p c e)); [|exact H].
  apply IH. apply table_ok_remove_p. exact H.
Qed.

Lemma table_ok_evict (now : Z) (c : Cache) : table_ok c -> table_ok (evict now c).
Proof.
  intros H. unfold evict. destruct (_ <=? _); [|exact H]. cbv zeta.
  destruct (_ <=? _); [apply table_ok_remove_oldest|];
    apply table_ok_remove_expired_loop, H.
Qed.

Lemma table_ok_bump (c : Cache) (lookup : lookup_ref) (e : Entry) :
  table_ok c -> deref c lookup = Some e ->
  table_ok (set_mru c (entry_mru_add e (entry_mru_remove e (mru_list c)))).
Proof.
  intros Hok He. pose proof (deref_stored c lookup e Hok He) as Hin.
  destruct Hok as (Hn & Hperm & Hnd & Hid & Hch).
  pose proof (mru_remove_Permutation e _ Hnd Hin) as Hm.
  unfold table_ok, entry_mru_add.
  cbn [num_entries mru_list entries last_id max_entries set_mru].
  rewrite <- Hm.
  split; [exact Hn|]. split; [exact Hperm|]. split; [exact Hnd|].
  split; [exact Hid | exact Hch].
Qed.

Lemma table_ok_add_p (c : Cache) (key e : Entry) :
  cache_ok c -> table_ok c ->
  deref c (_cache_lookup_p c key) = None ->
  e_hash e = e_hash key -> e_query e = e_query key ->
  table_ok (_cache_add_p c (_cache_lookup_p c key) e).
Proof.
  intros Hcok (Hn & Hperm & Hnd & Hid & Hch) Hmiss Hh Hq.
  pose proof (bucket_in_range c (e_hash key) Hcok) as Hb.
  destruct (lookup_lt_is_Some_2 _ _ Hb) as [chain Hchain].
  unfold deref, _cache_lookup_p, chain_at in Hmiss. cbn [lk_bucket lk_pos] in Hmiss.
  rewrite Hchain in Hmiss. change (chain !! chain_find key chain = None) in Hmiss.
  apply chain_find_miss in Hmiss.
  unfold table_ok, _cache_add_p, _cache_lookup_p, entry_mru_add, chain_at.
  cbn [num_entries mru_list entries last_id max_entries lk_bucket lk_pos].
  rewrite Hchain. change (default [] (Some chain)) with chain.
  rewrite Hmiss.
  set (e' := mkEntry _ _ _ _ _).
  split. { cbn [length]. lia. }
  split.
  { rewrite (concat_alter _ _ _ _ Hchain), <- Hperm, (concat_middle _ _ _ Hchain).
    rewrite firstn_all, (Permutation_app_comm chain [e']). cbn [app].
    symmetry. apply Permutation_middle. }
  split.
  { cbn [fmap list_fmap]. apply NoDup_cons. split; [|exact Hnd].
    intros Hin. apply list_elem_of_fmap in Hin as (y & Hy & Hin).
    rewrite Forall_forall in Hid. specialize (Hid y Hin).
    subst e'. cbn [e_id] in Hy. lia. }
  split.
  { constructor; [subst e'; cbn [e_id]; lia|].
    eapply Forall_impl; [exact Hid|]. intros y Hy. cbn beta in *. lia. }
  intros index chain' H.
  destruct (decide (index = Z.to_nat (e_hash key mod max_entries c))) as [->|Hne].
  - rewrite list_lookup_alter_eq, Hchain in H. cbn in H.
    rewrite firstn_all in H. injection H as <-.
    destruct (Hch _ _ Hchain) as [Hbk Hsep]. split.
    + apply Forall_app. split; [exact Hbk|].
      constructor; [|constructor]. subst e'. cbn [e_hash]. rewrite Hh. reflexivity.
    + intros i j e1 e2 Hij H1 H2.
      pose proof (lookup_lt_Some _ _ _ H2) as Hj. rewrite length_app in Hj.
      cbn [length] in Hj.
      rewrite lookup_app_l in H1 by lia.
      destruct (decide (j < length chain)%nat) as [Hlt|Hge].
      * rewrite lookup_app_l in H2 by lia. exact (Hsep i j e1 e2 Hij H1 H2).
      * rewrite lookup_app_r in H2 by lia.
        replace (j - length chain)%nat with O in H2 by lia.
        injection H2 as <-.
        rewrite (matches_key key e' e1) by (subst e'; cbn; assumption).
        apply chain_find_none in Hmiss. rewrite Forall_forall in Hmiss.
        apply Hmiss. eapply list_elem_of_lookup_2. exact H1.
  - rewrite list_lookup_alter_ne in H by congruence. apply (Hch _ _ H).
Qed.

Lemma table_ok_lookup_entry (c : Cache) (lookup : lookup_ref) (e : Entry)
    (answersize now : Z) :
  table_ok c -> deref c lookup = Some e ->
  table_ok (fst (lookup_entry c lookup e answersize now)).
Proof.
  intros H He. unfold lookup_entry.
  destruct (e_expires e <=? now); [apply table_ok_remove_p, H|].
  destruct (answersize <? _); [exact H|]. cbn [fst].
  destruct (match mru_list c with [] => false | first :: _ => e_id first =? e_id e end);
    [exact H | eapply table_ok_bump; eassumption].
Qed.


(** *** From the cache to the registry

    A property [P] of a cache that creation gives and that each change the
    entry points make to a cache keeps, holds of every cache of the registry
    after any sequence of operations whose adds satisfy [Q]. *)
Section Lift.

Variable ns_initparse : list Z -> option Answer.ns_msg.
Variable dn_skipname : list Z -> option nat.
Variable MAXNS MAXNSSAMPLES MAXDNSRCH MAXDNSRCHPATH : nat.
Variable getaddrinfo_numeric : string -> option addrinfo.
Variable flag_retry_count : option Z.
Variable flag_retransmission_time_interval : option Z.
Variable resolv_get_dns_event_subsampling_map : list (Z * Z).

Local Abbreviation add := (resolv_cache_add ns_initparse dn_skipname).
Local Abbreviation create :=
  (resolv_create_cache_for_net MAXNS MAXNSSAMPLES resolv_get_dns_event_subsampling_map).
Local Abbreviation set_servers :=
  (resolv_set_nameservers MAXNS MAXDNSRCH MAXDNSRCHPATH getaddrinfo_numeric
     flag_retry_count flag_retransmission_time_interval).
Local Abbreviation step' :=
  (step ns_initparse dn_skipname MAXNS MAXNSSAMPLES MAXDNSRCH MAXDNSRCHPATH
     getaddrinfo_numeric flag_retry_count flag_retransmission_time_interval
     resolv_get_dns_event_subsampling_map).
Local Abbreviation run' :=
  (run ns_initparse dn_skipname MAXNS MAXNSSAMPLES MAXDNSRCH MAXDNSRCHPATH
     getaddrinfo_numeric flag_retry_count flag_retransmission_time_interval
     resolv_get_dns_event_subsampling_map).

Variable P : Cache -> Prop.
Variable Q : list Z -> Prop.

Hypothesis P_create : P resolv_cache_create.
Hypothesis P_pending : forall c l, P c -> P (set_pending c l).
Hypothesis P_remove : forall c lookup,
  cache_ok c -> P c -> P (_cache_remove_p c lookup).
Hypothesis P_bump : forall c lookup e,
  cache_ok c -> P c -> deref c lookup = Some e ->
  P (set_mru c (entry_mru_add e (entry_mru_remove e (mru_list c)))).
Hypothesis P_flush : forall c, cache_ok c -> P c -> P (fst (cache_flush_locked c)).
Hypothesis P_add : forall now c key e,
  cache_ok c -> P c -> Q (e_query key) ->
  deref (evict now c) (_cache_lookup_p (evict now c) key) = None ->
  e_hash e = e_hash key -> e_query e = e_query key ->
  P (_cache_add_p (evict now c) (_cache_lookup_p (evict now c) key) e).

Local Abbreviation state_P st :=
  (state_ok st /\ Forall (fun info => P (cache info)) (res_cache_list st)).

Lemma P_remove_oldest (c : Cache) : cache_ok c -> P c -> P (_cache_remove_oldest c).
Proof.
  intros Hok H. unfold _cache_remove_oldest. cbv zeta.
  destruct (deref c (_cache_lookup_p c (mru_oldest c)));
    [apply P_remove|]; assumption.
Qed.

Lemma P_remove_expired (now : Z) (c : Cache) :
  cache_ok c -> P c -> P (_cache_remove_expired now c).
Proof.
  unfold _cache_remove_expired. generalize (mru_list c) as es.
  intros es. revert c.
  induction es as [|e es IH]; intros c Hok H; cbn [remove_expired_loop]; [exact H|].
  destruct (e_expires e <=? now); [|apply IH; assumption].
  destruct (deref c (_cache_lookup_p c e)); [|exact H].
  apply IH; [apply cache_ok_remove_p | apply P_remove]; assumption.
Qed.

Lemma P_evict (now : Z) (c : Cache) : cache_ok c -> P c -> P (evict now c).
Proof.
  intros Hok H. unfold evict. destruct (_ <=? _); [|exact H]. cbv zeta.
  destruct (_ <=? _);
    [apply P_remove_oldest; [apply cache_ok_remove_expired|]|];
    try apply P_remove_expired; assumption.
Qed.

Lemma find_named_P (st : State) (id : Z) (c : Cache) :
  state_P st -> find_named_cache_locked (res_cache_list st) id = Some c ->
  cache_ok c /\ P c.
Proof.
  intros [Hok HP] H. split; [exact (find_named_ok _ _ _ Hok H)|].
  unfold find_named_cache_locked in H.
  destruct (find_cache_info_locked _ _) as [info|] eqn:E; [|discriminate].
  injection H as <-. apply find_elem_of in E as [Hin _].
  rewrite Forall_forall in HP. apply HP, Hin.
Qed.

Lemma store_cache_P (st : State) (id : Z) (c : Cache) (notified : bool) :
  state_P st -> cache_ok c -> P c -> state_P (store_cache st id c notified).
Proof.
  intros [Hok HP] Hc HPc. split; [apply store_cache_ok; assumption|].
  unfold store_cache. cbn [res_cache_list].
  apply update_Forall; [exact HP | intros info _; exact HPc].
Qed.

Lemma update_keeps_P (st : State) (id : Z)
    (f : resolv_cache_info -> resolv_cache_info) (n : nat) :
  state_P st ->
  (forall info, find_cache_info_locked (res_cache_list st) id = Some info ->
                cache (f info) = cache info) ->
  state_P {| res_cache_list := update_cache_info (res_cache_list st) id f;
             cv_notified := n |}.
Proof.
  intros [Hok HP] Hf. split; [apply update_keeps_ok; assumption|].
  cbn [res_cache_list]. apply update_Forall; [exact HP|].
  intros info Hinfo. rewrite (Hf info Hinfo).
  apply find_elem_of in Hinfo as [Hin _].
  rewrite Forall_forall in HP. apply HP, Hin.
Qed.

Lemma lookup_entry_P (c : Cache) (lookup : lookup_ref) (e : Entry) (answersize now : Z) :
  cache_ok c -> P c -> deref c lookup = Some e ->
  P (fst (lookup_entry c lookup e answersize now)).
Proof.
  intros Hok H He. unfold lookup_entry.
  destruct (e_expires e <=? now); [apply P_remove; assumption|].
  destruct (answersize <? _); [exact H|]. cbn [fst].
  destruct (match mru_list c with [] => false | first :: _ => e_id first =? e_id e end);
    [exact H | eapply P_bump; eassumption].
Qed.

Lemma lookup_P (st : State) (id : Z) (query : list Z) (answersize flags now : Z) :
  state_P st -> state_P (fst (resolv_cache_lookup st id query answersize flags now)).
Proof.
  intros Hst. unfold resolv_cache_lookup.
  destruct (flag_set flags ANDROID_RESOLV_NO_CACHE_LOOKUP); [exact Hst|].
  destruct (entry_init_key query) as [ok key].
  destruct ok; cbn [negb]; [|exact Hst].
  destruct (find_named_cache_locked _ _) as [c|] eqn:Hc; [|exact Hst].
  destruct (find_named_P _ _ _ Hst Hc) as [Hok HPc].
  destruct (deref c (_cache_lookup_p c key)) as [e|] eqn:He.
  - pose proof (lookup_entry_ok c (_cache_lookup_p c key) e answersize now Hok) as H.
    pose proof (lookup_entry_P c (_cache_lookup_p c key) e answersize now Hok HPc He)
      as H'.
    destruct (lookup_entry _ _ _ _ _) as [c' out]. cbn [fst] in *.
    apply store_cache_P; assumption.
  - destruct (flag_set flags ANDROID_RESOLV_NO_CACHE_STORE); [exact Hst|].
    pose proof (cache_ok_has_pending c key true Hok) as H.
    unfold cache_has_pending_request_locked in *.
    destruct (has_pending _ _); cbn [negb fst snd] in *; [exact Hst|].
    apply store_cache_P; [exact Hst | exact H | apply P_pending, HPc].
Qed.

Lemma wakeup_P (st : State) (id : Z) (key : Entry) (answersize now : Z) :
  state_P st -> state_P (fst (resolv_cache_lookup_wakeup st id key answersize now)).
Proof.
  intros Hst. unfold resolv_cache_lookup_wakeup. cbv zeta.
  destruct (find_named_cache_locked _ _) as [c|] eqn:Hc; [|exact Hst].
  destruct (find_named_P _ _ _ Hst Hc) as [Hok HPc].
  set (st' := if negb (wait_predicate st id key) then _ else st).
  assert (Hst' : state_P st').
  { subst st'. destruct (negb _); [|exact Hst].
    apply update_keeps_P; [exact Hst | reflexivity]. }
  destruct (deref c (_cache_lookup_p c key)) as [e|] eqn:He; [|exact Hst'].
  pose proof (lookup_entry_ok c (_cache_lookup_p c key) e answersize now Hok) as H.
  pose proof (lookup_entry_P c (_cache_lookup_p c key) e answersize now Hok HPc He)
    as H'.
  destruct (lookup_entry _ _ _ _ _) as [c' out]. cbn [fst] in *.
  apply store_cache_P; assumption.
Qed.

Lemma notify_P (c : Cache) (key : Entry) :
  P c -> P (fst (_cache_notify_waiting_tid_locked c key)).
Proof. intros H. rewrite notify_spec. apply P_pending, H. Qed.

Lemma query_failed_P (st : State) (id : Z) (query : list Z) (flags : Z) :
  state_P st -> state_P (_resolv_cache_query_failed st id query flags).
Proof.
  intros Hst. unfold _resolv_cache_query_failed.
  destruct (flag_set flags _); [exact Hst|].
  destruct (entry_init_key query) as [ok key].
  destruct ok; cbn [negb]; [|exact Hst].
  destruct (find_named_cache_locked _ _) as [c|] eqn:Hc; [|exact Hst].
  destruct (find_named_P _ _ _ Hst Hc) as [Hok HPc].
  pose proof (cache_ok_notify c key Hok) as H.
  pose proof (notify_P c key HPc) as H'.
  destruct (_cache_notify_waiting_tid_locked c key) as [c' n]. cbn [fst] in *.
  apply store_cache_P; assumption.
Qed.

Lemma add_P (st : State) (id : Z) (query answer : list Z) (now : Z) :
  Q query -> state_P st -> state_P (fst (add st id query answer now)).
Proof.
  intros HQ Hst.
  destruct (add_cases ns_initparse dn_skipname st id query answer now)
    as [[_ ->]|[(_ & _ & ->)|[(c & c1 & e & _ & Hc & Hc1 & _ & ->)
                              |(c & _ & Hc & _ & Hmiss & ->)]]];
    cbn [fst]; try exact Hst.
  - destruct (find_named_P _ _ _ Hst Hc) as [Hok HPc].
    assert (cache_ok c1 /\ P c1) as [Hok1 HP1].
    { destruct Hc1 as [->| ->]; [split; assumption|].
      split; [apply evict_ok, Hok | apply P_evict; assumption]. }
    apply store_cache_P; [exact Hst | apply cache_ok_notify, Hok1 | apply notify_P, HP1].
  - destruct (find_named_P _ _ _ Hst Hc) as [Hok HPc].
    apply store_cache_P; [exact Hst | apply added_ok, evict_ok, Hok |].
    unfold added. apply notify_P.
    destruct (0 <? _); [|apply P_evict; assumption].
    apply P_add; try assumption; reflexivity.
Qed.

Lemma create_P (st : State) (id : Z) : state_P st -> state_P (fst (create st id)).
Proof.
  intros Hst. split; [apply create_ok, Hst|].
  unfold resolv_create_cache_for_net.
  destruct (find_named_cache_locked _ _); [apply Hst|].
  cbn. apply Forall_app. split; [apply Hst|].
  constructor; [exact P_create | constructor].
Qed.

Lemma delete_P (st : State) (id : Z) :
  state_P st -> state_P (resolv_delete_cache_for_net st id).
Proof.
  intros Hst. split; [apply delete_ok, Hst|]. destruct Hst as [_ Hl].
  unfold resolv_delete_cache_for_net. revert Hl.
  generalize (res_cache_list st) as l. intros l Hl.
  assert (H : Forall (fun info => P (cache info)) (fst (delete_cache_info l id))).
  { induction Hl as [|x l Hx Hl IH]; cbn; [constructor|].
    destruct (netid x =? id); [exact Hl|].
    destruct (delete_cache_info l id) as [l' n]. cbn in *.
    constructor; assumption. }
  destruct (delete_cache_info l id) as [l' n]. exact H.
Qed.

Lemma flush_P (st : State) (id : Z) :
  state_P st -> state_P (fst (resolv_flush_cache_for_net st id)).
Proof.
  intros Hst. unfold resolv_flush_cache_for_net.
  destruct (find_named_cache_locked _ _) as [c|] eqn:Hc; [|exact Hst].
  destruct (find_named_P _ _ _ Hst Hc) as [Hok HPc].
  pose proof (cache_ok_flush c Hok) as H.
  pose proof (P_flush c Hok HPc) as H'.
  destruct (cache_flush_locked c) as [c' n]. cbn [fst] in *.
  apply store_cache_P; assumption.
Qed.

Lemma set_nameservers_P (st : State) (id : Z) (servers domains : list string)
    (p : res_params) :
  state_P st -> state_P (fst (set_servers st id servers domains p)).
Proof.
  intros Hst. unfold resolv_set_nameservers. cbv zeta.
  destruct (mapM _ _); [|exact Hst].
  destruct (find_cache_info_locked _ _) as [info|] eqn:Hinfo; [|exact Hst].
  cbn [fst]. apply update_keeps_P; [exact Hst|].
  intros info' Hinfo'. rewrite Hinfo in Hinfo'. injection Hinfo' as <-.
  cbn [cache set_search_domains].
  destruct (negb (resolv_is_nameservers_equal _ _)).
  - cbn [cache set_revision_id]. rewrite cache_clear_stats.
    cbn [cache set_nscount set_nsaddrinfo set_nameservers].
    rewrite cache_free_nameservers. reflexivity.
  - destruct (negb (_ =? _)); [|reflexivity].
    cbn [cache set_revision_id]. rewrite cache_clear_stats. reflexivity.
Qed.

Lemma add_sample_P (st : State) (id revision : Z) (ns : nat) (sample : res_sample)
    (max_samples : Z) :
  state_P st ->
  state_P (_resolv_cache_add_resolver_stats_sample st id revision ns sample max_samples).
Proof.
  intros Hst. unfold _resolv_cache_add_resolver_stats_sample.
  destruct (max_samples <=? 0); [exact Hst|].
  destruct (find_cache_info_locked _ _) as [info|]; [|exact Hst].
  destruct (revision_id info =? revision); [|exact Hst].
  apply update_keeps_P; [exact Hst | reflexivity].
Qed.

Lemma step_P (st : State) (o : op) : op_adds Q o -> state_P st -> state_P (step' st o).
Proof.
  intros HQ Hst. destruct o; cbn [step].
  - apply create_P, Hst.
  - apply delete_P, Hst.
  - apply flush_P, Hst.
  - apply lookup_P, Hst.
  - apply wakeup_P, Hst.
  - apply add_P; [exact HQ | exact Hst].
  - apply query_failed_P, Hst.
  - apply set_nameservers_P, Hst.
  - apply add_sample_P, Hst.
Qed.

Lemma run_P (ops : list op) (st : State) :
  Forall (op_adds Q) ops -> state_P st -> state_P (run' ops st).
Proof.
  revert st. induction ops as [|o ops IH]; intros st Hops Hst; cbn; [exact Hst|].
  inversion Hops; subst. apply IH; [assumption|]. apply step_P; assumption.
Qed.

Lemma reachable_P (ops : list op) (id : Z) (c : Cache) :
  Forall (op_adds Q) ops ->
  find_named_cache_locked (res_cache_list (run' ops initial_state)) id = Some c ->
  cache_ok c /\ P c.
Proof.
  intros Hops Hc. eapply find_named_P; [|exact Hc].
  apply run_P; [exact Hops|]. split; [apply initial_ok | constructor].
Qed.

End Lift.


(** *** What the lookup of a stored entry finds *)

Lemma chain_find_stored (max : Z) (index : nat) (chain : list Entry) (p : nat)
    (e : Entry) :
  chain_ok max index chain -> chain !! p = Some e ->
  chain !! chain_find e chain = if entry_equals e e then Some e else None.
Proof.
  intros [_ Hsep] Hp. destruct (entry_equals e e) eqn:E.
  - rewrite (chain_find_at e e chain p Hp); [exact Hp | | rewrite matches_self; exact E].
    intros i x Hi Hx. exact (Hsep i p x e Hi Hx Hp).
  - assert (chain_find e chain = length chain) as ->.
    { apply chain_find_none, Forall_lookup. intros i x Hx.
      destruct (lt_eq_lt_dec i p) as [[Hlt| ->]|Hgt].
      - exact (Hsep i p x e Hlt Hx Hp).
      - rewrite Hp in Hx. injection Hx as <-. rewrite matches_self. exact E.
      - rewrite (matches_sym x e). exact (Hsep p i e x Hgt Hp Hx). }
    apply lookup_ge_None. lia.
Qed.

Lemma stored_chain (c : Cache) (e : Entry) :
  table_ok c -> e ∈ mru_list c ->
  exists chain p,
    entries c !! Z.to_nat (e_hash e mod max_entries c) = Some chain
    /\ chain !! p = Some e.
Proof.
  intros (_ & Hperm & _ & _ & Hch) Hin. rewrite <- Hperm in Hin.
  apply list_elem_of_In, in_concat in Hin as (chain & Hc & He).
  apply list_elem_of_In, list_elem_of_lookup_1 in Hc as [index Hindex].
  apply list_elem_of_In in He. pose proof He as He'.
  apply list_elem_of_lookup_1 in He as [p Hp].
  destruct (Hch _ _ Hindex) as [Hb _]. rewrite Forall_forall in Hb.
  rewrite <- (Hb e He'). exists chain, p. split; assumption.
Qed.

Lemma lookup_stored (c : Cache) (e : Entry) :
  table_ok c -> e ∈ mru_list c ->
  deref c (_cache_lookup_p c e) = if entry_equals e e then Some e else None.
Proof.
  intros Hok Hin. destruct (stored_chain c e Hok Hin) as (chain & p & Hchain & Hp).
  destruct Hok as (_ & _ & _ & _ & Hch).
  unfold deref, _cache_lookup_p, chain_at. cbn [lk_bucket lk_pos].
  rewrite Hchain. change (default [] (Some chain)) with chain.
  eapply chain_find_stored; [apply (Hch _ _ Hchain) | exact Hp].
Qed.

(** *** Room for a new entry *)

Lemma mru_remove_sublist (e : Entry) (mru : list Entry) :
  entry_mru_remove e mru `sublist_of` mru.
Proof.
  induction mru as [|x mru IH]; cbn [entry_mru_remove]; [constructor|].
  destruct (e_id x =? e_id e); [apply sublist_cons; reflexivity|].
  apply sublist_skip, IH.
Qed.

Lemma mru_remove_last (e : Entry) (mru : list Entry) :
  NoDup (e_id <$> mru) -> last mru = Some e -> entry_mru_remove e mru = removelast mru.
Proof.
  induction mru as [|x [|y l] IH]; [discriminate | |].
  - intros _ [= ->]. cbn. rewrite Z.eqb_refl. reflexivity.
  - intros Hnd Hlast. rewrite fmap_cons in Hnd. apply NoDup_cons in Hnd as [Hx Hnd].
    change (last (y :: l) = Some e) in Hlast.
    change (removelast (x :: y :: l)) with (x :: removelast (y :: l)).
    rewrite <- (IH Hnd Hlast).
    change (entry_mru_remove e (x :: y :: l))
      with (if e_id x =? e_id e then y :: l else x :: entry_mru_remove e (y :: l)).
    destruct (Z.eqb_spec (e_id x) (e_id e)) as [Heq|]; [|reflexivity].
    exfalso. apply Hx. rewrite Heq. apply list_elem_of_fmap. exists e.
    split; [reflexivity|]. apply last_Some_elem_of, Hlast.
Qed.

Lemma remove_p_found (c : Cache) (lookup : lookup_ref) (e : Entry) :
  deref c lookup = Some e ->
  _cache_remove_p c lookup
  = {| max_entries := max_entries c;
       num_entries := num_entries c - 1;
       mru_list := entry_mru_remove e (mru_list c);
       last_id := last_id c;
       entries := alter (delete (lk_pos lookup)) (lk_bucket lookup) (entries c);
       pending_requests := pending_requests c |}.
Proof. intros H. unfold _cache_remove_p. rewrite H. reflexivity. Qed.

Lemma within_capacity_remove_p (c : Cache) (lookup : lookup_ref) :
  within_capacity c -> within_capacity (_cache_remove_p c lookup).
Proof.
  intros [Hn Hself]. unfold _cache_remove_p.
  destruct (deref c lookup) as [e|]; [|split; assumption].
  split; cbn [num_entries max_entries mru_list]; [lia|].
  rewrite Forall_forall in *. intros x Hx. apply Hself.
  eapply elem_of_sublist; [exact Hx | apply mru_remove_sublist].
Qed.

Lemma remove_expired_unexpired (now : Z) (es : list Entry) (c : Cache) :
  Forall (fun e => now < e_expires e) es -> remove_expired_loop now es c = c.
Proof.
  induction 1 as [|e es He Hes IH]; cbn [remove_expired_loop]; [reflexivity|].
  replace (e_expires e <=? now) with false by (symmetry; apply Z.leb_gt; exact He).
  exact IH.
Qed.

(** Unlinking an entry does not make a key match. *)
Lemma deref_none_remove_p (c : Cache) (lookup : lookup_ref) (key : Entry) :
  deref c (_cache_lookup_p c key) = None ->
  deref (_cache_remove_p c lookup) (_cache_lookup_p (_cache_remove_p c lookup) key)
  = None.
Proof.
  intros Hmiss. unfold _cache_remove_p.
  destruct (deref c lookup) as [e|]; [|exact Hmiss].
  unfold deref, _cache_lookup_p, chain_at in *.
  cbn [lk_bucket lk_pos entries max_entries] in *.
  set (b := Z.to_nat (e_hash key mod max_entries c)) in *.
  destruct (decide (b = lk_bucket lookup)) as [Hb|Hb].
  - rewrite <- Hb, list_lookup_alter_eq.
    destruct (entries c !! b) as [chain|]; [|exact Hmiss].
    change (chain !! chain_find key chain = None) in Hmiss.
    change (delete (lk_pos lookup) chain
              !! chain_find key (delete (lk_pos lookup) chain) = None).
    apply chain_find_miss, chain_find_none in Hmiss.
    assert (H : chain_find key (delete (lk_pos lookup) chain)
                = length (delete (lk_pos lookup) chain)).
    { apply chain_find_none. rewrite Forall_forall in *. intros x Hx. apply Hmiss.
      eapply elem_of_sublist; [exact Hx | apply sublist_delete]. }
    rewrite H. apply lookup_ge_None. lia.
  - rewrite list_lookup_alter_ne by congruence. exact Hmiss.
Qed.

(** A cache that holds [max_entries] entries, none of them expired, makes
    room by unlinking the last entry of the MRU list. *)
Lemma evict_full (now : Z) (c : Cache) :
  cache_ok c -> table_ok c -> within_capacity c ->
  max_entries c <= num_entries c ->
  Forall (fun e => now < e_expires e) (mru_list c) ->
  exists oldest,
    last (mru_list c) = Some oldest
    /\ deref c (_cache_lookup_p c oldest) = Some oldest
    /\ evict now c = _cache_remove_p c (_cache_lookup_p c oldest).
Proof.
  intros (Hmax & _) Hok [_ Hself] Hfull Hfresh.
  pose proof Hok as (Hn & _).
  destruct (last (mru_list c)) as [oldest|] eqn:Hlast.
  2: { apply last_None in Hlast. rewrite Hlast in Hn. cbn in Hn. lia. }
  exists oldest. split; [reflexivity|].
  pose proof (last_Some_elem_of _ _ Hlast) as Hin.
  pose proof (lookup_stored c oldest Hok Hin) as Hfound.
  rewrite Forall_forall in Hself. rewrite (Hself oldest Hin) in Hfound.
  split; [exact Hfound|].
  unfold evict, _cache_remove_expired.
  rewrite (remove_expired_unexpired now _ c Hfresh).
  replace (max_entries c <=? num_entries c) with true
    by (symmetry; apply Z.leb_le; exact Hfull).
  unfold _cache_remove_oldest, mru_oldest. rewrite Hlast.
  change (default entry_zero (Some oldest)) with oldest. cbv zeta.
  rewrite Hfound. reflexivity.
Qed.

Lemma num_entries_remove_p (c : Cache) (lookup : lookup_ref) :
  num_entries (_cache_remove_p c lookup) <= num_entries c.
Proof. unfold _cache_remove_p. destruct (deref c lookup); cbn; lia. Qed.

(** After [resolv_cache_add] made room, there is room. *)
Lemma evict_makes_room (now : Z) (c : Cache) :
  cache_ok c -> table_ok c -> within_capacity c ->
  num_entries (evict now c) < max_entries c.
Proof.
  intros Hcok Hok Hcap. unfold evict.
  destruct (Z.leb_spec (max_entries c) (num_entries c)) as [Hfull|]; [|assumption].
  cbv zeta. set (c' := _cache_remove_expired now c).
  assert (Hcok' : cache_ok c') by apply cache_ok_remove_expired, Hcok.
  assert (Hok' : table_ok c') by apply table_ok_remove_expired_loop, Hok.
  assert (Hcap' : within_capacity c').
  { apply (P_remove_expired within_capacity); [|assumption..].
    intros c0 lookup _. apply within_capacity_remove_p. }
  assert (Hmax : max_entries c' = max_entries c) by apply max_entries_remove_expired.
  destruct (Z.leb_spec (max_entries c') (num_entries c')) as [Hfull'|]; [|lia].
  unfold _cache_remove_oldest. cbv zeta.
  destruct Hcok' as (Hpos & _). pose proof Hok' as (Hn & _).
  destruct (last (mru_list c')) as [oldest|] eqn:Hlast.
  2: { apply last_None in Hlast. rewrite Hlast in Hn. cbn in Hn. lia. }
  pose proof (last_Some_elem_of _ _ Hlast) as Hin.
  pose proof (lookup_stored c' oldest Hok' Hin) as Hfound.
  destruct Hcap' as [Hle Hself].
  rewrite Forall_forall in Hself. rewrite (Hself oldest Hin) in Hfound.
  unfold mru_oldest. rewrite Hlast.
  change (default entry_zero (Some oldest)) with oldest.
  rewrite Hfound, (remove_p_found _ _ _ Hfound). cbn [num_entries]. lia.
Qed.

Section Reach.

Variable ns_initparse : list Z -> option Answer.ns_msg.
Variable dn_skipname : list Z -> option nat.
Variable MAXNS MAXNSSAMPLES MAXDNSRCH MAXDNSRCHPATH : nat.
Variable getaddrinfo_numeric : string -> option addrinfo.
Variable flag_retry_count : option Z.
Variable flag_retransmission_time_interval : option Z.
Variable resolv_get_dns_event_subsampling_map : list (Z * Z).

Local Abbreviation add := (resolv_cache_add ns_initparse dn_skipname).
Local Abbreviation ttl_of := (answer_getTTL ns_initparse dn_skipname).
Local Abbreviation run' :=
  (run ns_initparse dn_skipname MAXNS MAXNSSAMPLES MAXDNSRCH MAXDNSRCHPATH
     getaddrinfo_numeric flag_retry_count flag_retransmission_time_interval
     resolv_get_dns_event_subsampling_map).

Lemma op_adds_True (ops : list op) : Forall (op_adds (fun _ => True)) ops.
Proof. apply Forall_forall. intros o _. destruct o; exact I. Qed.

Lemma reachable_table_ok (ops : list op) (id : Z) (c : Cache) :
  find_named_cache_locked (res_cache_list (run' ops initial_state)) id = Some c ->
  cache_ok c /\ table_ok c.
Proof.
  intros Hc.
  refine (reachable_P ns_initparse dn_skipname MAXNS MAXNSSAMPLES MAXDNSRCH
            MAXDNSRCHPATH getaddrinfo_numeric flag_retry_count
            flag_retransmission_time_interval resolv_get_dns_event_subsampling_map
            table_ok (fun _ => True) table_ok_create table_ok_set_pending _ _ _ _
            ops id c (op_adds_True ops) Hc).
  - intros c0 lookup _. apply table_ok_remove_p.
  - intros c0 lookup e _. apply table_ok_bump.
  - intros c0 _ _. apply table_ok_flush.
  - intros now c0 key e Hok H _ Hmiss Hh Hq.
    apply table_ok_add_p; [apply evict_ok, Hok | apply table_ok_evict, H | assumption..].
Qed.

(** X27.  After any sequence of operations on the registry, the cache of a
    network holds the same entries in its hash chains as in its MRU list,
    [num_entries] of them, no two with the same id, and every entry sits in
    the chain of the bucket that its hash selects. *)
Theorem table_and_mru_agree (ops : list op) (id : Z) (c : Cache) :
  find_named_cache_locked (res_cache_list (run' ops initial_state)) id = Some c ->
  num_entries c = Z.of_nat (length (mru_list c))
  /\ concat (entries c) ≡ₚ mru_list c
  /\ NoDup (e_id <$> mru_list c)
  /\ forall index chain e,
       entries c !! index = Some chain -> e ∈ chain ->
       index = Z.to_nat (e_hash e mod max_entries c).
Proof.
  intros Hc. destruct (reachable_table_ok ops id c Hc) as [_ (Hn & Hperm & Hnd & _ & Hch)].
  split; [exact Hn|]. split; [exact Hperm|]. split; [exact Hnd|].
  intros index chain e Hchain He. destruct (Hch _ _ Hchain) as [Hb _].
  rewrite Forall_forall in Hb. apply Hb, He.
Qed.

(** X28.  After any sequence of operations on the registry, looking the
    table up with one of its own entries as the key finds that very entry
    when the query of the entry compares equal to itself, and nothing when
    it does not: never another entry. *)
Theorem stored_entry_is_found_by_its_key (ops : list op) (id : Z) (c : Cache)
    (e : Entry) :
  find_named_cache_locked (res_cache_list (run' ops initial_state)) id = Some c ->
  e ∈ mru_list c ->
  deref c (_cache_lookup_p c e)
  = if fingerprint_equal (e_query e) (e_query e) then Some e else None.
Proof.
  intros Hc He. destruct (reachable_table_ok ops id c Hc) as [_ Hok].
  rewrite (lookup_stored c e Hok He).
  unfold entry_equals, fingerprint_equal. rewrite Nat.eqb_refl. reflexivity.
Qed.


Local Abbreviation self_equal := (fun q : list Z => fingerprint_equal q q = true).

Lemma adds_self_equal_Forall (ops : list op) :
  forallb adds_self_equal ops = true -> Forall (op_adds self_equal) ops.
Proof.
  intros H. apply Forall_forall. intros o Ho.
  apply list_elem_of_In in Ho.
  pose proof (proj1 (forallb_forall adds_self_equal ops) H o Ho) as Hb.
  destruct o; try exact I. exact Hb.
Qed.
Local Abbreviation bounded :=
  (fun c : Cache => table_ok c /\ within_capacity c
                    /\ max_entries c = CONFIG_MAX_ENTRIES).

Lemma reachable_bounded (ops : list op) (id : Z) (c : Cache) :
  Forall (op_adds self_equal) ops ->
  find_named_cache_locked (res_cache_list (run' ops initial_state)) id = Some c ->
  cache_ok c /\ bounded c.
Proof.
  intros Hops Hc.
  refine (reachable_P ns_initparse dn_skipname MAXNS MAXNSSAMPLES MAXDNSRCH
            MAXDNSRCHPATH getaddrinfo_numeric flag_retry_count
            flag_retransmission_time_interval resolv_get_dns_event_subsampling_map
            bounded self_equal _ _ _ _ _ _ ops id c Hops Hc).
  - split; [apply table_ok_create|]. split; [|reflexivity].
    split; [unfold resolv_cache_create, CONFIG_MAX_ENTRIES; cbn; lia | constructor].
  - intros c0 l H. exact H.
  - intros c0 lookup _ (H1 & H2 & H3).
    split; [apply table_ok_remove_p, H1|].
    split; [apply within_capacity_remove_p, H2|].
    rewrite max_entries_remove_p. exact H3.
  - intros c0 lookup e _ (H1 & [H2 H2'] & H3) He.
    split; [eapply table_ok_bump; eassumption|]. split; [|exact H3].
    split; [exact H2|]. cbn [mru_list set_mru]. unfold entry_mru_add.
    rewrite Forall_forall in *. intros x Hx.
    apply elem_of_cons in Hx as [->|Hx].
    + apply H2'. eapply deref_stored; eassumption.
    + apply H2'. eapply elem_of_sublist; [exact Hx | apply mru_remove_sublist].
  - intros c0 (Hpos & _) (_ & _ & H3).
    split; [apply table_ok_flush|]. split; [|exact H3].
    split; [cbn; lia | constructor].
  - intros now c0 key e Hok (H1 & H2 & H3) HQ Hmiss Hh Hq.
    pose proof (evict_makes_room now c0 Hok H1 H2) as Hroom.
    assert (H2' : within_capacity (evict now c0)).
    { apply (P_evict within_capacity); [|assumption..].
      intros c1 lookup _. apply within_capacity_remove_p. }
    split; [apply table_ok_add_p;
            [apply evict_ok, Hok | apply table_ok_evict, H1 | assumption..]|].
    rewrite <- (evict_max_entries now c0) in Hroom, H3.
    split; [|exact H3].
    split; cbn [num_entries max_entries mru_list _cache_add_p]; [lia|].
    unfold entry_mru_add. constructor; [|apply H2'].
    unfold entry_equals. cbn [e_query]. rewrite Hq, Nat.eqb_refl. exact HQ.
Qed.

(** X29.  After any sequence of operations in which every query handed to
    [resolv_cache_add] compares equal to itself, the cache of a network
    holds at most [CONFIG_MAX_ENTRIES] entries. *)
Theorem cache_holds_at_most_max_entries (ops : list op) (id : Z) (c : Cache) :
  forallb adds_self_equal ops = true ->
  find_named_cache_locked (res_cache_list (run' ops initial_state)) id = Some c ->
  max_entries c = CONFIG_MAX_ENTRIES
  /\ num_entries c <= CONFIG_MAX_ENTRIES
  /\ Z.of_nat (length (concat (entries c))) <= CONFIG_MAX_ENTRIES.
Proof.
  intros Hops Hc. apply adds_self_equal_Forall in Hops.
  destruct (reachable_bounded ops id c Hops Hc)
    as (_ & (Hn & Hperm & _) & [Hle _] & Hmax).
  split; [exact Hmax|]. rewrite <- Hmax. split; [exact Hle|].
  rewrite Hperm, <- Hn. exact Hle.
Qed.

(** X30.  When the cache of a network is full of entries that have not
    expired, adding an answer with a positive TTL for a query that is not in
    the table drops the entry at the end of the MRU list, the least recently
    used one, and nothing else: the MRU list becomes the new entry followed
    by the old list without its last entry. *)
Theorem full_cache_drops_least_recently_used (ops : list op) (id : Z) (c : Cache)
    (query answer : list Z) (now : Z) :
  let st := run' ops initial_state in
  let key := snd (entry_init_key query) in
  forallb adds_self_equal ops = true ->
  find_named_cache_locked (res_cache_list st) id = Some c ->
  cacheable query = true ->
  deref c (_cache_lookup_p c key) = None ->
  num_entries c = max_entries c ->
  Forall (fun e => now < e_expires e) (mru_list c) ->
  0 < ttl_of answer ->
  snd (add st id query answer now) = 0
  /\ exists c',
       find_named_cache_locked (res_cache_list (fst (add st id query answer now))) id
       = Some c'
       /\ mru_list c'
          = mkEntry (e_hash key) query answer (ttl_of answer + now) (last_id c + 1)
            :: removelast (mru_list c)
       /\ concat (entries c') ≡ₚ mru_list c'
       /\ num_entries c' = num_entries c.
Proof.
  intros st key Hops Hc Hq Hmiss Hfull Hfresh Httl.
  apply adds_self_equal_Forall in Hops.
  destruct (reachable_bounded ops id c Hops Hc) as (Hcok & Hok & Hcap & Hmax).
  destruct (evict_full now c Hcok Hok Hcap ltac:(lia) Hfresh)
    as (oldest & Hlast & Hfound & Hevict).
  assert (Hmiss1 : deref (evict now c) (_cache_lookup_p (evict now c) key) = None).
  { rewrite Hevict. apply deref_none_remove_p, Hmiss. }
  destruct (add_cases ns_initparse dn_skipname st id query answer now)
    as [[Hq' _]|[(_ & Hc' & _)|[(c0 & c1 & e & _ & Hc0 & Hc1 & He & _)
                                |(c0 & _ & Hc0 & _ & _ & Hr)]]].
  - congruence.
  - fold st in Hc'. congruence.
  - fold st in Hc0. rewrite Hc in Hc0. injection Hc0 as <-.
    fold key in He. destruct Hc1 as [->| ->]; congruence.
  - fold st in Hc0. rewrite Hc in Hc0. injection Hc0 as <-.
    cbv zeta in Hr. fold key st in Hr. rewrite Hr. cbn [fst snd].
    split; [reflexivity|].
    eexists. split; [eapply find_named_store; exact Hc|].
    unfold added. rewrite notify_spec. cbn [fst].
    replace (0 <? answer_getTTL ns_initparse dn_skipname answer) with true
      by (symmetry; apply Z.ltb_lt; exact Httl).
    assert (Hok1 : table_ok (_cache_add_p (evict now c) (_cache_lookup_p (evict now c) key)
                               (new_entry ns_initparse dn_skipname key answer now))).
    { apply table_ok_add_p;
        [apply evict_ok, Hcok | apply table_ok_evict, Hok | exact Hmiss1 | reflexivity..]. }
    split; [|split; [apply Hok1|]].
    + cbn [mru_list set_pending _cache_add_p]. unfold entry_mru_add, new_entry.
      cbn [e_hash e_query e_answer e_expires].
      rewrite Hevict, (remove_p_found _ _ _ Hfound). cbn [mru_list last_id].
      destruct Hok as (_ & _ & Hnd & _).
      rewrite (mru_remove_last oldest _ Hnd Hlast). reflexivity.
    + cbn [num_entries set_pending _cache_add_p].
      rewrite Hevict, (remove_p_found _ _ _ Hfound). cbn [num_entries]. lia.
Qed.

(** For a query that compares equal to itself, [resolv_cache_add] does
    find an entry stored with the hash and the bytes of the query, whichever
    way it was reached, and returns [-EEXIST] leaving it in place: the adds
    that link a second entry for the same bytes (see C9) are those of
    queries that do not compare equal to themselves. *)
Lemma add_with_stored_entry (ops : list op) (id : Z) (c : Cache)
    (query answer : list Z) (now : Z) (e : Entry) :
  let st := run' ops initial_state in
  let key := snd (entry_init_key query) in
  find_named_cache_locked (res_cache_list st) id = Some c ->
  cacheable query = true ->
  fingerprint_equal query query = true ->
  e ∈ mru_list c -> e_query e = query -> e_hash e = fingerprint_hash query ->
  deref c (_cache_lookup_p c key) = Some e
  /\ snd (add st id query answer now) = - EEXIST.
Proof.
  intros st key Hc Hq Heq He Hquery Hhash.
  destruct (reachable_table_ok ops id c Hc) as [_ Hok].
  assert (Hlk : _cache_lookup_p c key = _cache_lookup_p c e).
  { unfold _cache_lookup_p. change (e_hash key) with (fingerprint_hash query).
    rewrite Hhash. f_equal.
    generalize (chain_at c (Z.to_nat (fingerprint_hash query mod max_entries c))).
    intros chain. induction chain as [|x chain IH]; cbn [chain_find]; [reflexivity|].
    fold (matches key x) (matches e x).
    rewrite (matches_key e key x);
      [|change (e_hash key) with (fingerprint_hash query); congruence
       |change (e_query key) with query; congruence].
    destruct (matches e x); [reflexivity | f_equal; exact IH]. }
  assert (Hfound : deref c (_cache_lookup_p c key) = Some e).
  { rewrite Hlk, (lookup_stored c e Hok He).
    unfold entry_equals. rewrite Nat.eqb_refl, Hquery. cbn [negb].
    unfold fingerprint_equal in Heq. rewrite Heq. reflexivity. }
  split; [exact Hfound|].
  apply (add_found_gives_EEXIST ns_initparse dn_skipname st id query answer now c e Hq Hc
           Hfound).
Qed.

End Reach.

Lemma table_and_mru_agree_witness :
  let c := cache_of (ex_run 60 (fill_ops 30 3) initial_state) 30 in
  num_entries c = Z.of_nat (length (mru_list c)).
Proof.
  refine (proj1 (table_and_mru_agree (reader_of (msg_one_answer 60))
                   Answer.dn_skipname_labels 4 64 6 256 getaddrinfo_quad None None []
                   (fill_ops 30 3) 30 _ _)).
  vm_compute. reflexivity.
Defined.

Lemma stored_entry_is_found_by_its_key_witness :
  let c := cache_of (ex_run 60 (fill_ops 30 3) initial_state) 30 in
  let e := mkEntry (fingerprint_hash (numbered_query 1)) (numbered_query 1)
             example_answer 1060 2 in
  deref c (_cache_lookup_p c e) = Some e.
Proof.
  refine (stored_entry_is_found_by_its_key (reader_of (msg_one_answer 60))
            Answer.dn_skipname_labels 4 64 6 256 getaddrinfo_quad None None []
            (fill_ops 30 3) 30 _ _ _ _).
  - vm_compute. reflexivity.
  - vm_compute. right. left.
Defined.

Lemma cache_holds_at_most_max_entries_witness :
  let c := cache_of (ex_run 60 (fill_ops 30 641) initial_state) 30 in
  num_entries c <= CONFIG_MAX_ENTRIES.
Proof.
  refine (proj1 (proj2 (cache_holds_at_most_max_entries (reader_of (msg_one_answer 60))
                          Answer.dn_skipname_labels 4 64 6 256 getaddrinfo_quad None
                          None [] (fill_ops 30 641) 30 _ _ _))).
  - vm_compute. reflexivity.
  - vm_compute. reflexivity.
Defined.

Lemma full_cache_drops_least_recently_used_witness :
  let st := ex_run 60 (fill_ops 30 640) initial_state in
  snd (ex_add 60 st 30 example_query example_answer 1001) = 0.
Proof.
  refine (proj1 (full_cache_drops_least_recently_used (reader_of (msg_one_answer 60))
                   Answer.dn_skipname_labels 4 64 6 256 getaddrinfo_quad None None []
                   (fill_ops 30 640) 30
                   (cache_of (ex_run 60 (fill_ops 30 640) initial_state) 30)
                   example_query example_answer 1001 _ _ _ _ _ _ _)).
  - vm_compute. reflexivity.
  - vm_compute. reflexivity.
  - vm_compute. reflexivity.
  - vm_compute. reflexivity.
  - vm_compute. reflexivity.
  - apply (bool_decide_unpack _). vm_compute. exact I.
  - vm_compute. reflexivity.
Defined.

End TableFacts.
